(* ===== verification/_CoqProject ===== *)
-Q . S2P
Prelude.v
Errors.v
GoInt.v
GoStrings.v
GoSort.v
NetIP.v
GoFloat.v
GoFloatFacts.v
Model.v
GoJson.v
GoJsonFacts.v
Storage.v
Retry.v
DBStore.v
Service.v
FileStore.v
Overlap.v
PeriodicSave.v
Http.v
AuditTrail.v
Dashboard.v
Handler.v
HandlerFacts.v
Concurrent.v
Hash.v
Crypto.v
Keys.v
Compress.v
Middleware.v
MiddlewareFacts.v
Sender.v
Delivery.v
Collector.v
Agent.v
Grpc.v
NetFacts.v
Flags.v
FlagsFacts.v
Duration.v
Database.v
Config.v
ConfigFacts.v
Server.v
ServerFacts.v
Served.v
Indistinct.v
Lifecycle.v
LifecycleFacts.v
Notifications.v
LifecycleExamples.v
AgentMain.v
System.v
SystemGrpc.v
FilePath.v
GoTypes.v
ResetGen.v
ResetExec.v
ResetFacts.v
ResetGenFacts.v
ResetExamples.v
Linter.v
Pkg.v
