(* ===== verification/Prelude.v ===== *)
(** * Verification of the metrics server and agent (go-yandex-practicum-metrics)

    The program under [src/] is a server that collects metrics (gauges, a float64 each,
    and counters, an int64 each), an agent that samples and reports them, and two
    development tools.  This library models it in Rocq and proves what makes it correct.

    ** The program and how its parts interact

    The agent's [Collector] is sampled by two goroutines; a third takes snapshots of it
    and puts batches into a buffered channel; workers take them out and hand them to a
    sender, over HTTP or gRPC.  The HTTP sender marshals the batch, compresses, encrypts
    and signs it, and retries.  On the server a stack of middleware undoes that, checks
    the subnet and the signature, and chi routes the request to an endpoint of the
    handler, which calls the [MetricService]; the gRPC service calls the same one behind
    an interceptor.  The service parses and validates, updates a [Storage] and runs a
    callback, which saves the file when every update is to be saved.  The storage is
    PostgreSQL, a file with the metrics in memory, or memory alone.  An audit publisher
    is told of accepted updates.  Both processes are configured by defaults, a JSON file,
    flags and the environment.  [cmd/reset] generates Reset methods, [pkg/pool] keeps
    objects that have one, [cmd/linter] looks for calls that end the process.

    ** Files and sources

    Each part is a file with a Module that has the part's state as a Record and one
    definition per operation; they compose by calling each other as the code does.
    Names are the source's.

    The language and its standard library, on the inputs the program gives them:
    - [Prelude], [Errors]: results, tactics, map iteration orders; error values, [%w],
      [errors.Is].
    - [GoInt], [GoStrings], [GoSort], [GoFloat], [GoFloatFacts]: int64 arithmetic and
      strconv; UTF-8, [strings], quoting; package sort; float64 with correctly rounded
      reading and shortest printing.
    - [GoJson], [GoJsonFacts]: encoding/json.  [Duration]: time.Duration.  [Flags],
      [FlagsFacts]: package flag.  [NetIP]: net.ParseIP, ParseCIDR, Contains.
      [Http]: response writers and headers.  [FilePath], [GoTypes]: path/filepath and
      go/types for the generator.

    The program:
    - [Model]: internal/model.  [Storage]: [MemStorage] of internal/repository/storage.go.
      [DBStore]: db.go, the table as a finite map and the server as a script of replies.
      [FileStore]: filestorage.go, with an explicit file system.  [Overlap]: the same
      with requests whose updates and saves interleave.  [PeriodicSave]: the goroutine of
      the periodic saves, step by step.
    - [Retry]: pkg/retry.  [Service]: internal/service, the interface [Storage] and the
      contract [StorageLaws] that the three backends discharge.
    - [AuditTrail]: internal/audit.  [Dashboard], [Handler], [HandlerFacts]:
      internal/handler.  [Concurrent]: its endpoints as programs over the calls of the
      storage, run together.  [Hash], [Crypto], [Keys], [Compress]: pkg/hash, pkg/crypto,
      pkg/compress.  [Middleware], [MiddlewareFacts]: internal/middleware and the router
      of cmd/server.  [Grpc]: internal/grpcserver and the agent's grpc_sender.go.
      [NetFacts]: what a trusted subnet admits.
    - [Sender], [Collector], [Agent]: internal/agent, the goroutines of [Run] as a
      transition system.  [Delivery]: the sender and the router over a lossy network.
    - [Database], [Config], [ConfigFacts]: internal/config/db and internal/config.
      [Server], [ServerFacts], [Served]: cmd/server/main.go up to serving, and runs of one
      event after the other.  [Indistinct]: what requests cannot tell apart.
      [Lifecycle], [LifecycleFacts], [Notifications], [LifecycleExamples]: the process
      from its first request to its exit, with everything that runs at the same time.  [AgentMain]: cmd/agent/main.go.  [System],
      [SystemGrpc]: both processes together, over HTTP and over gRPC.
    - [ResetGen], [ResetExec], [ResetFacts], [ResetGenFacts], [ResetExamples]: cmd/reset,
      and the meaning of the methods it generates.  [Linter]: cmd/linter.
      [Pkg]: pkg/pool and pkg/buildinfo.

    ** State and operations

    An operation that changes state is a function from the old state to the new one and
    its result, [(T, error)] being a [result]; a panic is [None] or a constructor of its
    own.  An operation that takes a mutex for its whole body is one step.  Where the
    order of several steps matters they are labels of an executable [fire], and what
    holds is proved for every reachable state: the agent's goroutines ([Agent]), the
    overlapping handlers ([Concurrent]), the overlapping saves ([Overlap],
    [PeriodicSave]), the pool ([Pkg]), and the server process ([Lifecycle]): its
    listeners, the goroutine that shuts them down, the steps of the periodic saves, the
    requests and calls in flight, the audit goroutines and [main].  There and in [System]
    a handler is one step between the arrival of its request and its answer;
    [requests_linearize] says why that is enough over the memory and the file.  The
    environment is data: scripts of what happens to writes, statements, posts and
    exchanges, and samples, clocks and random bytes as inputs.  A loop over a Go map
    takes the order as an argument, or from the class [MapRange], about which only
    [range_order] is known.

    ** What the theorems show

    - End to end: [reports_arrive], [grpc_reports_arrive] (started from matching
      configurations, over a network that works, every report is stored once),
      [SendBatch_delivers] ((over any network, how often), [grpc_delivers], [router_spec], [posted_value_is_served];
      [served_metrics] (after any events a server has counted what it was asked for).
    - The storages: the database and the file refine the memory
      ([updates_refine_MemStorage], [reads_refine_MemStorage], the instances of
      [StorageLaws]); batches are atomic ([UpdateBatch_atomic]); updates through the
      service are all or nothing; acknowledged updates are on disk, also when requests
      overlap ([acknowledged_updates_are_durable], [overlapping_updates]); overlapping
      requests take effect and are answered as one after the other
      ([requests_linearize]); saving and loading is the identity
      ([save_load_round_trip]).
    - The processes: [restart_keeps_metrics], [process_exits] (a server that is told to
      stop stops, unless a gRPC handler does not return), [exit_keeps_metrics] (a clean
      exit has answered everything it accepted, and what it leaves on the disk),
      [audit_delivery] (who is told of an update),
      [graceful_shutdown], [jobs_safety], [agent_start_outcome], and the precedence and
      the errors of the configuration.
    - Encodings: [json_round_trip], [envelope_round_trip], [Decrypt_never_panics],
      [signature_verification], [trusted_subnet_exact].
    - The tools: [generated_Reset], [findMarked_exact], [goDirs_exact],
      [runNoExit_exact], [Get_exclusive_clean].
    - Behaviour that is surprising and is proved as it is: a clean exit can leave an event
      out of the audit file ([clean_exit_loses_audit]) and, as nothing waits for a
      periodic save, an empty file of metrics ([clean_exit_empties_file]), a gRPC address that cannot be
      opened ends the process without a save ([fatal_exit_loses_updates]);
      [non_finite_gauge_blocks_saves], [lost_commit_counts_twice],
      [poll_count_accumulates], [file_interval_seconds], the write that empties the file
      in [overlapping_updates], and cyclic objects in [generated_Reset].

    ** Parameters

    Code outside the repository is a class, with what the program relies on as laws:
    retry-go ([RetryGo]), the PostgreSQL error codes ([PgErrCode], [PgErrorText]) and row
    order ([RowOrder]), chi ([Chi], [ChiLaws]), RSA-OAEP and AES-GCM ([Primitives],
    [PrimitiveLaws]), PEM and x509 ([KeyFormats]), gzip ([Gzip], [GzipLaws]), protobuf
    ([Protobuf]), URLs ([URLs]), the HTTP client ([HttpClient]), texts of JSON errors and
    the tables of package unicode ([JsonErrorText], [UnicodeTables], [UnicodeLower]), the
    type-checked package ([Universe]) and Reset methods written by hand ([OtherResets],
    [OtherResetsLaws]).  Each has an instance in the examples, at which the theorems
    that use it are applied.

    ** Bounds and fuel

    Integers are in [Z] with their wrap-around written out.  Recursion that is not
    structural takes fuel that is computed from the input and proved to be enough or
    irrelevant: digits ([dec_digits], from the binary length), the shortest decimal (the
    exponent), the JSON scanner (twice the length of the text plus 2; its verdict does
    not depend on it, [GoJsonFacts]), durations (the length of the text), the method set
    (the size of all declarations).  JSON nesting is limited to 10000 and retries to four
    calls, as in the code.  After its context is done the server process takes at most
    twenty steps of its own ([process_exits]), the five seconds being one of them, and a
    periodic save at most five.  A
    generated Reset runs on the depth of its calls:
    [generated_Reset] says for which objects a depth is enough.

    ** Not modelled

    The generated protobuf code; the SQL of the migrations, which golang-migrate runs
    ([DBStore] has the table they create); the bytes on the connections of net/http and
    gRPC, their timeouts, and the log lines, except where a log line is the only trace of
    an error; time as anything but the instants the program reads, the ticks it gets and
    the deadline of the shutdown.  In [GoTypes] the tags of struct types do not count for
    identity.  Over the database the transactions of [DBStore] run one at a time: what
    they do when they overlap is decided by the row locks of PostgreSQL, not by this
    code.

    In [Lifecycle] the saves that handlers make ([-i 0]) are part of the handler's step:
    a clean exit waits for every handler, and [Overlap] has their steps. *)

From stdpp Require Export prelude gmap strings list fin_maps.
From Stdlib Require Export ZArith.
From Stdlib Require Ascii.
Export Stdlib.Strings.Ascii.AsciiSyntax.
Delimit Scope char_scope with char.

#[global] Set Default Proof Using "Type".

(** ** Fallible computations

    Go functions returning [(T, error)] are modelled by [result error T]; the
    error type is a parameter so that components below [Errors] can use it. *)

Inductive result (E A : Type) : Type :=
| Ok (a : A)
| Err (e : E).
Arguments Ok {E A} _.
Arguments Err {E A} _.

#[export] Instance result_eq_dec {E A} `{EqDecision E, EqDecision A} :
  EqDecision (result E A).
Proof. solve_decision. Defined.

#[export] Instance result_ret {E} : MRet (result E) := fun A a => Ok a.
#[export] Instance result_bind {E} : MBind (result E) := fun A B f m =>
  match m with Ok a => f a | Err e => Err e end.
#[export] Instance result_fmap {E} : FMap (result E) := fun A B f m =>
  match m with Ok a => Ok (f a) | Err e => Err e end.

Definition is_ok {E A} (r : result E A) : bool :=
  match r with Ok _ => true | Err _ => false end.

Definition result_to_option {E A} (r : result E A) : option A :=
  match r with Ok a => Some a | Err _ => None end.

(** Inversion principles of the monad, used by every component that threads
    errors. *)
Lemma bind_Ok {E A B} (m : result E A) (f : A -> result E B) b :
  m ≫= f = Ok b <-> exists a, m = Ok a /\ f a = Ok b.
Proof.
  destruct m as [a|e]; cbn; split; [eauto|by intros (? & [= ->] & ?)|done|by intros (? & ? & ?)].
Qed.

Lemma bind_Err {E A B} (m : result E A) (f : A -> result E B) e :
  m ≫= f = Err e <-> m = Err e \/ exists a, m = Ok a /\ f a = Err e.
Proof.
  destruct m as [a|e']; cbn; split; [eauto|by intros [?|(? & [= ->] & ?)]|intros [= ->]; eauto|].
  by intros [[= ->]|(? & ? & ?)].
Qed.

(** ** Tactics of the development *)

(** Break the matches, conditionals and decisions of the goal and solve the
    cases by computation. *)
Ltac break := repeat (case_match || case_decide); simplify_eq/=.
Ltac crush := intros; simpl in *; repeat (case_match || case_decide);
  simplify_eq/=; try done; eauto.

Create HintDb go.
Create Rewrite HintDb go.

(** ** Iteration order of Go maps

    [for k, v := range m] visits the entries of [m] in an unspecified order.
    [range_order m l] says that [l] is one of the possible orders; functions
    that iterate over a map take the order as an argument and their theorems
    quantify over it. *)
Definition range_order {K A} `{Countable K} (m : gmap K A) (l : list (K * A)) : Prop :=
  l ≡ₚ map_to_list m.

Lemma range_order_canonical {K A} `{Countable K} (m : gmap K A) :
  range_order m (map_to_list m).
Proof. by unfold range_order. Qed.

Lemma range_order_elem {K A} `{Countable K} (m : gmap K A) l k a :
  range_order m l -> (k, a) ∈ l <-> m !! k = Some a.
Proof. unfold range_order. intros ->. apply elem_of_map_to_list. Qed.

Lemma range_order_NoDup {K A} `{Countable K} (m : gmap K A) l :
  range_order m l -> NoDup l.*1.
Proof. unfold range_order. intros ->. apply NoDup_fst_map_to_list. Qed.

Lemma range_order_list_to_map {K A} `{Countable K} (m : gmap K A) l :
  range_order m l -> list_to_map l = m.
Proof.
  intros Hl. rewrite <- (list_to_map_to_list m).
  apply list_to_map_proper; [by eapply range_order_NoDup|exact Hl].
Qed.

Lemma range_order_size {K A} `{Countable K} (m : gmap K A) l :
  range_order m l -> length l = size m.
Proof. unfold range_order. intros ->. apply length_map_to_list. Qed.

#[export] Hint Resolve range_order_canonical : go.

(** The order in which a loop visits a map with string keys. *)
Class MapRange := {
  range {A} : gmap string A -> list (string * A);
  range_ok {A} (m : gmap string A) : range_order m (range m)
}.

(** ** Strings

    A Go [string] or [[]byte] is a sequence of bytes: a Rocq [string]. *)

Lemma string_app_assoc (a b c : string) : (a +:+ b) +:+ c = a +:+ b +:+ c.
Proof. induction a as [|x a IH]; [done|]. exact (f_equal (String x) IH). Qed.

Lemma string_app_nil_l (a : string) : "" +:+ a = a.
Proof. done. Qed.

Lemma string_app_nil_r (a : string) : a +:+ "" = a.
Proof. induction a as [|x a IH]; [done|]. exact (f_equal (String x) IH). Qed.

Lemma string_app_cons c (a b : string) : String c a +:+ b = String c (a +:+ b).
Proof. done. Qed.

Lemma string_length_app (a b : string) :
  String.length (a +:+ b) = String.length a + String.length b.
Proof. induction a as [|x a IH]; [done|]. exact (f_equal S IH). Qed.

Lemma string_app_inj_l (p a b : string) : p +:+ a = p +:+ b -> a = b.
Proof. by apply String.app_inj. Qed.

#[export] Hint Rewrite string_app_assoc string_app_nil_r string_app_cons : go.

(** The slices [s[:n]] and [s[n:]]. *)
Fixpoint str_take (n : nat) (s : string) : string :=
  match n, s with
  | S n, String c s => String c (str_take n s)
  | _, _ => EmptyString
  end.

Fixpoint str_drop (n : nat) (s : string) : string :=
  match n, s with
  | S n, String _ s => str_drop n s
  | _, _ => s
  end.

Lemma str_take_drop n s : str_take n s +:+ str_drop n s = s.
Proof.
  revert s. induction n as [|n IH]; intros [|c s]; try done. exact (f_equal (String c) (IH s)).
Qed.

Lemma str_take_app n a b : String.length a = n -> str_take n (a +:+ b) = a.
Proof.
  intros <-. induction a as [|c a IH]; [by destruct b|]. exact (f_equal (String c) IH).
Qed.

Lemma str_take_all s : str_take (String.length s) s = s.
Proof. induction s as [|c s IH]; [done|]. exact (f_equal (String c) IH). Qed.

Lemma str_drop_app n a b : String.length a = n -> str_drop n (a +:+ b) = b.
Proof. intros <-. induction a as [|c a IH]; [by destruct b|]. exact IH. Qed.

Lemma str_take_length n s : n <= String.length s -> String.length (str_take n s) = n.
Proof. revert s. induction n as [|n IH]; intros [|c s]; simpl; intros; try lia. f_equal. apply IH. lia. Qed.

Lemma str_drop_length n s : String.length (str_drop n s) = String.length s - n.
Proof. revert s. induction n as [|n IH]; intros [|c s]; simpl; intros; try lia. apply IH. Qed.

(** The values a list of entries gives to one key: at most one when the list
    enumerates a map. *)
Lemma omap_entries {K A} `{Countable K} (l : list (K * A)) k :
  NoDup l.*1 ->
  omap (fun '(k', a) => if bool_decide (k' = k) then Some a else None) l
  = option_list ((list_to_map l : gmap K A) !! k).
Proof.
  induction l as [|[k' a] l IH]; cbn; intros Hnd; [done|].
  apply NoDup_cons in Hnd as [Hk Hnd]. specialize (IH Hnd). destruct (decide (k' = k)) as [->|].
  - rewrite bool_decide_true by done. rewrite lookup_insert_eq. simpl. f_equal.
    etrans; [exact IH|]. by rewrite not_elem_of_list_to_map_1.
  - rewrite bool_decide_false by done. rewrite lookup_insert_ne by done. exact IH.
Qed.

Lemma omap_range_order {K A} `{Countable K} (m : gmap K A) l k :
  range_order m l ->
  omap (fun '(k', a) => if bool_decide (k' = k) then Some a else None) l = option_list (m !! k).
Proof.
  intros Hl. rewrite <- (range_order_list_to_map m l Hl).
  apply omap_entries. by eapply range_order_NoDup.
Qed.

(** A loop that writes one entry per element of an enumerated map. *)
Lemma fold_insert_lookup {K A B} `{Countable K} (g : K -> string) (f : A -> B) `{!Inj (=) (=) g}
    (l : list (K * A)) (r : gmap string B) k :
  NoDup l.*1 ->
  fold_left (fun r '(k, a) => <[g k := f a]> r) l r !! g k
  = match (list_to_map l : gmap K A) !! k with Some a => Some (f a) | None => r !! g k end.
Proof.
  revert r. induction l as [|[k' a] l IH]; intros r Hnd; [done|]. cbn.
  apply NoDup_cons in Hnd as [Hk Hnd]. rewrite IH by done.
  destruct (decide (k' = k)) as [->|].
  - rewrite !lookup_insert_eq. by rewrite not_elem_of_list_to_map_1.
  - rewrite !lookup_insert_ne; [done|done|by intros ?%(inj g)].
Qed.

Lemma fold_insert_other {K A B} (g : K -> string) (f : A -> B)
    (l : list (K * A)) (r : gmap string B) x :
  (forall k, g k <> x) ->
  fold_left (fun r '(k, a) => <[g k := f a]> r) l r !! x = r !! x.
Proof.
  intros Hx. revert r. induction l as [|[k a] l IH]; intros r; [done|]. cbn.
  by rewrite IH, lookup_insert_ne.
Qed.

Lemma fold_insert_keys {K A B} (g : K -> string) (f : A -> B)
    (l : list (K * A)) (r : gmap string B) x :
  is_Some (fold_left (fun r '(k, a) => <[g k := f a]> r) l r !! x) ->
  (exists k, x = g k) \/ is_Some (r !! x).
Proof.
  revert r. induction l as [|[k a] l IH]; intros r Hx; [by right|]. cbn in Hx.
  destruct (IH _ Hx) as [?|[y [[<- _]|[_ Hy]]%lookup_insert_Some]]; eauto.
Qed.
