(* ===== verification/Errors.v ===== *)
(** * Go errors

    The error values the program creates, wraps and inspects.  Sentinels made
    by [errors.New] are compared by identity; [fmt.Errorf("...%w", err)] is a
    wrapper; [errors.Is] and [errors.As] walk the chain of wrappers. *)

From S2P Require Import Prelude.

(** Values made once with [errors.New]: the service's five sentinels and the
    ones of the standard library the program meets. *)
Inductive sentinel :=
| sErrMetricNotFound | sErrUnknownType | sErrMetricNameEmpty
| sErrValueRequired | sErrDeltaRequired
| sErrSyntax | sErrRange | sErrNoRows | sEOF | sErrUnexpectedEOF
| sErrNotExist.

#[export] Instance sentinel_eq_dec : EqDecision sentinel.
Proof. solve_decision. Defined.

Inductive error :=
| Sentinel (s : sentinel)
| NumError (Func Num : string) (inner : error)      (** [*strconv.NumError] *)
| Errorf (msg : string) (inner : error)             (** [fmt.Errorf(msg ++ "%w", inner)] *)
| ErrorText (msg : string)                          (** an error that wraps nothing *)
| PgError (Code : string)                           (** [*pgconn.PgError] *)
| UrlError (is_timeout is_temporary : bool) (msg : string). (** [*url.Error] *)

#[export] Instance error_eq_dec : EqDecision error.
Proof. solve_decision. Defined.

(** The result of a Go function with an [error] result. *)
Abbreviation res A := (result error A).

(** [errors.Unwrap]. *)
Definition Unwrap (err : error) : option error :=
  match err with
  | NumError _ _ inner | Errorf _ inner => Some inner
  | Sentinel _ | ErrorText _ | PgError _ | UrlError _ _ _ => None
  end.

(** [errors.Is(err, target)] for a sentinel target. *)
Fixpoint Is (err : error) (target : sentinel) : bool :=
  match err with
  | Sentinel s => bool_decide (s = target)
  | NumError _ _ inner | Errorf _ inner => Is inner target
  | ErrorText _ | PgError _ | UrlError _ _ _ => false
  end.

(** [errors.As(err, &pgErr)] and [errors.As(err, &netErr)]: the first error of
    the chain with that dynamic type. *)
Fixpoint As_PgError (err : error) : option string :=
  match err with
  | PgError code => Some code
  | NumError _ _ inner | Errorf _ inner => As_PgError inner
  | Sentinel _ | ErrorText _ | UrlError _ _ _ => None
  end.

Fixpoint As_UrlError (err : error) : option (bool * bool) :=
  match err with
  | UrlError timeout temporary _ => Some (timeout, temporary)
  | NumError _ _ inner | Errorf _ inner => As_UrlError inner
  | Sentinel _ | ErrorText _ | PgError _ => None
  end.

Lemma Is_wrap msg err s : Is (Errorf msg err) s = Is err s.
Proof. done. Qed.

Lemma As_PgError_wrap msg err : As_PgError (Errorf msg err) = As_PgError err.
Proof. done. Qed.

#[export] Hint Rewrite Is_wrap As_PgError_wrap : go.
