(* ===== verification/GoInt.v ===== *)
(** * Go integers and their decimal text

    [int64] values are integers of [Z] in the 64-bit two's complement range;
    arithmetic wraps around.  [FormatInt] and [ParseInt] are the functions of
    package [strconv] the program calls, for base 10 and 64 bits. *)

From S2P Require Import Prelude Errors.
Local Open Scope Z_scope.

Definition int64_min : Z := -2 ^ 63.
Definition int64_max : Z := 2 ^ 63 - 1.
Definition uint64_max : Z := 2 ^ 64 - 1.

Definition in_int64 (z : Z) : bool := (int64_min <=? z) && (z <=? int64_max).

(** The value of [z] truncated to 64 bits, read as a signed integer. *)
Definition wrap64 (z : Z) : Z := (z + 2 ^ 63) mod 2 ^ 64 - 2 ^ 63.

Definition int64_add (a b : Z) : Z := wrap64 (a + b).
Definition int64_sub (a b : Z) : Z := wrap64 (a - b).

Lemma in_int64_iff z : in_int64 z = true <-> int64_min <= z <= int64_max.
Proof. unfold in_int64. rewrite andb_true_iff, !Z.leb_le. done. Qed.

Lemma wrap64_range z : in_int64 (wrap64 z) = true.
Proof.
  apply in_int64_iff. unfold wrap64, int64_min, int64_max.
  pose proof (Z.mod_pos_bound (z + 2 ^ 63) (2 ^ 64)). lia.
Qed.

Lemma wrap64_id z : in_int64 z = true -> wrap64 z = z.
Proof.
  intros Hz%in_int64_iff. unfold wrap64, int64_min, int64_max in *.
  rewrite Z.mod_small; lia.
Qed.

Lemma wrap64_add_l a b : wrap64 (wrap64 a + b) = wrap64 (a + b).
Proof.
  unfold wrap64.
  replace ((a + 2 ^ 63) mod 2 ^ 64 - 2 ^ 63 + b + 2 ^ 63)
    with ((a + 2 ^ 63) mod 2 ^ 64 + b) by lia.
  rewrite Zplus_mod_idemp_l. do 2 f_equal. lia.
Qed.

Lemma wrap64_add_r a b : wrap64 (a + wrap64 b) = wrap64 (a + b).
Proof. rewrite (Z.add_comm a), wrap64_add_l. f_equal. lia. Qed.

(** Addition on [int64] is a commutative group operation: the order in which
    deltas are added does not matter, wrap-around included. *)
Lemma int64_add_comm a b : int64_add a b = int64_add b a.
Proof. unfold int64_add. f_equal. lia. Qed.

Lemma int64_add_assoc a b c :
  int64_add (int64_add a b) c = int64_add a (int64_add b c).
Proof.
  unfold int64_add. rewrite wrap64_add_l, wrap64_add_r. f_equal. lia.
Qed.

Lemma int64_add_0_r a : in_int64 a = true -> int64_add a 0 = a.
Proof. intros. unfold int64_add. by rewrite Z.add_0_r, wrap64_id. Qed.

Lemma int64_add_0_l a : in_int64 a = true -> int64_add 0 a = a.
Proof. intros. rewrite int64_add_comm. by apply int64_add_0_r. Qed.

Lemma int64_add_range a b : in_int64 (int64_add a b) = true.
Proof. apply wrap64_range. Qed.

Lemma int64_sub_range a b : in_int64 (int64_sub a b) = true.
Proof. apply wrap64_range. Qed.

#[export] Hint Resolve wrap64_range int64_add_range int64_sub_range : go.

(** ** Characters *)

Definition char_code (c : Ascii.ascii) : Z := Z.of_N (Ascii.N_of_ascii c).
Definition char_of (z : Z) : Ascii.ascii := Ascii.ascii_of_N (Z.to_N z).

Lemma char_code_of z : 0 <= z < 256 -> char_code (char_of z) = z.
Proof.
  intros Hz. unfold char_code, char_of.
  rewrite Ascii.N_ascii_embedding; lia.
Qed.

Lemma char_of_code c : char_of (char_code c) = c.
Proof.
  unfold char_code, char_of. rewrite N2Z.id. apply Ascii.ascii_N_embedding.
Qed.

Lemma char_code_range c : 0 <= char_code c < 256.
Proof.
  unfold char_code. pose proof (Ascii.N_ascii_bounded c). lia.
Qed.

Lemma char_code_inj a b : char_code a = char_code b -> a = b.
Proof. intros H. by rewrite <- (char_of_code a), <- (char_of_code b), H. Qed.

(** The value of a decimal digit. *)
Definition digit_of (c : Ascii.ascii) : option Z :=
  let d := char_code c - 48 in
  if (0 <=? d) && (d <? 10) then Some d else None.

Definition digit_char (d : Z) : Ascii.ascii := char_of (48 + d).

Lemma digit_of_char d : 0 <= d < 10 -> digit_of (digit_char d) = Some d.
Proof.
  intros Hd. unfold digit_of, digit_char. rewrite char_code_of by lia.
  replace (48 + d - 48) with d by lia.
  rewrite (proj2 (Z.leb_le 0 d)), (proj2 (Z.ltb_lt d 10)) by lia. done.
Qed.

Lemma digit_of_range c d : digit_of c = Some d -> 0 <= d < 10.
Proof. unfold digit_of. intros H. case_match eqn:E; simplify_eq. lia. Qed.

(** ** Unsigned decimal text *)

(** The decimal digits of [n], most significant first, in front of [acc];
    [fuel] bounds the number of digits. *)
Fixpoint dec_digits (fuel : nat) (n : Z) (acc : string) : string :=
  match fuel with
  | O => acc
  | S fuel =>
      let acc := String (digit_char (n mod 10)) acc in
      if n <? 10 then acc else dec_digits fuel (n / 10) acc
  end.

(** One more digit than the binary length of [n] is always enough fuel. *)
Definition FormatUint (n : Z) : string := dec_digits (S (Z.to_nat (Z.log2 n))) n "".

(** [FormatInt(i, 10)] *)
Definition FormatInt (i : Z) : string :=
  if i <? 0 then String "-"%char (FormatUint (- i)) else FormatUint i.

(** The number a run of digits denotes, after the digits worth [n]. *)
Fixpoint digits_value (s : string) (n : Z) : option Z :=
  match s with
  | EmptyString => Some n
  | String c s => d ← digit_of c; digits_value s (n * 10 + d)
  end.

Lemma dec_digits_app fuel n acc : dec_digits fuel n acc = dec_digits fuel n "" +:+ acc.
Proof.
  revert n acc. induction fuel as [|fuel IH]; intros n acc; [done|]. simpl.
  destruct (n <? 10); [done|].
  rewrite IH, (IH _ (String _ "")). by rewrite string_app_assoc.
Qed.

Lemma digits_value_app a b n :
  digits_value (a +:+ b) n = digits_value a n ≫= digits_value b.
Proof.
  revert n. induction a as [|c a IH]; intros n; [done|].
  rewrite string_app_cons. simpl. destruct (digit_of c); simpl; [apply IH|done].
Qed.

Lemma dec_digits_value fuel n :
  0 <= n < 10 ^ Z.of_nat fuel -> (0 < fuel)%nat ->
  digits_value (dec_digits fuel n "") 0 = Some n.
Proof.
  revert n. induction fuel as [|fuel IH]; intros n Hn Hf; [lia|]. simpl.
  pose proof (Z.mod_pos_bound n 10 ltac:(lia)) as Hm.
  pose proof (Z.div_mod n 10 ltac:(lia)) as Hd.
  destruct (Z.ltb_spec n 10).
  - simpl. rewrite digit_of_char by done. simpl. f_equal. rewrite Z.mod_small; lia.
  - rewrite dec_digits_app, digits_value_app.
    replace (Z.of_nat (S fuel)) with (1 + Z.of_nat fuel) in Hn by lia.
    rewrite Z.pow_add_r in Hn by lia.
    destruct fuel as [|fuel]; [simpl in Hn; lia|].
    rewrite IH; [|split; [lia|]; apply Z.div_lt_upper_bound; lia|lia].
    simpl. rewrite digit_of_char by done. simpl. f_equal. lia.
Qed.

Lemma fuel_enough n : 0 <= n -> n < 10 ^ Z.of_nat (S (Z.to_nat (Z.log2 n))).
Proof.
  intros Hn. pose proof (Z.log2_nonneg n).
  replace (Z.of_nat _) with (Z.succ (Z.log2 n)) by lia.
  destruct (Z.eq_dec n 0) as [->|]; [done|].
  pose proof (Z.log2_spec n ltac:(lia)) as [_ Hu].
  apply Z.lt_le_trans with (1 := Hu).
  apply Z.pow_le_mono_l. lia.
Qed.

(** The fuel of [FormatUint] is enough for every number: its digits denote it. *)
Lemma FormatUint_value n : 0 <= n -> digits_value (FormatUint n) 0 = Some n.
Proof.
  intros Hn. apply dec_digits_value; [split; [done|by apply fuel_enough]|lia].
Qed.

Lemma dec_digits_first fuel n :
  0 <= n -> (0 < fuel)%nat ->
  exists d s, dec_digits fuel n "" = String (digit_char d) s /\ 0 <= d < 10.
Proof.
  revert n. induction fuel as [|fuel IH]; intros n Hn Hf; [lia|]. simpl.
  pose proof (Z.mod_pos_bound n 10 ltac:(lia)) as Hm.
  destruct (n <? 10); [by eauto|].
  rewrite dec_digits_app. destruct fuel as [|fuel]; [by eauto|].
  destruct (IH (n / 10)) as (d & s & -> & Hd); [by apply Z.div_pos|lia|].
  exists d. eexists. by split.
Qed.

Lemma FormatUint_first n :
  0 <= n -> exists d s, FormatUint n = String (digit_char d) s /\ 0 <= d < 10.
Proof. intros. apply dec_digits_first; lia. Qed.

(** ** [strconv.ParseInt(s, 10, 64)] and [strconv.Atoi]

    The loop of [ParseUint] stops at the first character that is not a digit
    ([ErrSyntax]) or as soon as the number leaves [uint64] ([ErrRange]),
    whichever comes first. *)
Fixpoint parse_uint (s : string) (n : Z) : result sentinel Z :=
  match s with
  | EmptyString => Ok n
  | String c s =>
      match digit_of c with
      | None => Err sErrSyntax
      | Some d =>
          let n := n * 10 + d in
          if uint64_max <? n then Err sErrRange else parse_uint s n
      end
  end.

(** The sign in front of a number. *)
Definition split_sign (s : string) : bool * string :=
  match s with
  | String "-" s => (true, s)
  | String "+" s => (false, s)
  | _ => (false, s)
  end.

Definition ParseInt (fn : string) (s : string) : res Z :=
  let fail e := Err (NumError fn s (Sentinel e)) in
  match s with
  | EmptyString => fail sErrSyntax
  | _ =>
      let '(neg, digits) := split_sign s in
      match digits with
      | EmptyString => fail sErrSyntax
      | _ =>
          match parse_uint digits 0 with
          | Err e => fail e
          | Ok un =>
              if negb neg && (2 ^ 63 <=? un) then fail sErrRange
              else if neg && (2 ^ 63 <? un) then fail sErrRange
              else Ok (if neg then - un else un)
          end
      end
  end.

(** [int] has 64 bits: [Atoi] is [ParseInt(s, 10, 0)] under its own name. *)
Definition Atoi (s : string) : res Z := ParseInt "Atoi" s.

Lemma digits_value_mono s n v : 0 <= n -> digits_value s n = Some v -> n <= v.
Proof.
  revert n. induction s as [|c s IH]; simpl; intros n Hn Hv; [by simplify_eq|].
  destruct (digit_of c) as [d|] eqn:Hd; simpl in Hv; [|done].
  apply digit_of_range in Hd. apply IH in Hv; lia.
Qed.

Lemma parse_uint_value s n v :
  0 <= n -> digits_value s n = Some v -> v <= uint64_max -> parse_uint s n = Ok v.
Proof.
  revert n. induction s as [|c s IH]; simpl; intros n Hn Hv Hb; [by simplify_eq|].
  destruct (digit_of c) as [d|] eqn:Hd; simpl in Hv; [|done].
  apply digit_of_range in Hd.
  assert (n * 10 + d <= v) by (eapply digits_value_mono; [|exact Hv]; lia).
  destruct (Z.ltb_spec uint64_max (n * 10 + d)); [lia|].
  apply IH; [lia|done..].
Qed.

Lemma digit_char_no_sign d s :
  0 <= d < 10 -> split_sign (String (digit_char d) s) = (false, String (digit_char d) s).
Proof.
  intros Hd.
  assert (d = 0 \/ d = 1 \/ d = 2 \/ d = 3 \/ d = 4 \/ d = 5 \/ d = 6 \/ d = 7 \/ d = 8 \/ d = 9)
    as Hin by lia.
  by destruct_or! Hin; subst.
Qed.

(** Printing an [int64] and reading it back gives the number. *)
Lemma ParseInt_FormatInt fn i :
  in_int64 i = true -> ParseInt fn (FormatInt i) = Ok i.
Proof.
  intros Hi%in_int64_iff. unfold int64_min, int64_max in Hi. unfold FormatInt, ParseInt.
  destruct (Z.ltb_spec i 0).
  - destruct (FormatUint_first (- i)) as (d & s & Hs & Hd); [lia|].
    pose proof (FormatUint_value (- i) ltac:(lia)) as Hv. rewrite Hs in Hv |- *.
    cbn [split_sign]. rewrite (parse_uint_value _ _ (- i)); [|lia|done|unfold uint64_max; lia].
    destruct (Z.ltb_spec (2 ^ 63) (- i)); [lia|]. simpl. f_equal. lia.
  - destruct (FormatUint_first i) as (d & s & Hs & Hd); [lia|].
    pose proof (FormatUint_value i ltac:(lia)) as Hv. rewrite Hs in Hv |- *.
    rewrite digit_char_no_sign by done.
    rewrite (parse_uint_value _ _ i); [|lia|done|unfold uint64_max; lia].
    destruct (Z.leb_spec (2 ^ 63) i); [lia|]. done.
Qed.

Lemma parse_uint_range s n u : 0 <= n <= uint64_max -> parse_uint s n = Ok u -> 0 <= u <= uint64_max.
Proof.
  revert n. induction s as [|c s IH]; simpl; intros n Hn Hu; [by simplify_eq|].
  destruct (digit_of c) as [d|] eqn:Hd; [|done].
  apply digit_of_range in Hd. case_match eqn:Hb; [done|].
  apply Z.ltb_ge in Hb. apply IH in Hu; lia.
Qed.

(** Whatever [ParseInt] accepts is an [int64]. *)
Lemma ParseInt_range fn s i : ParseInt fn s = Ok i -> in_int64 i = true.
Proof.
  unfold ParseInt. intros H. destruct s as [|c s]; [done|].
  destruct (split_sign _) as [neg [|c' ds]]; [done|].
  destruct (parse_uint _ 0) as [u|] eqn:Hu; [|done].
  apply parse_uint_range in Hu; [|unfold uint64_max; lia].
  apply in_int64_iff. unfold int64_min, int64_max.
  destruct neg; simpl in H; case_match eqn:Hb; simplify_eq;
    [apply Z.ltb_ge in Hb|apply Z.leb_gt in Hb]; lia.
Qed.

Example ParseInt_examples :
  ParseInt "ParseInt" "527" = Ok 527 /\
  ParseInt "ParseInt" "-9223372036854775808" = Ok int64_min /\
  ParseInt "ParseInt" "+7" = Ok 7 /\
  ParseInt "ParseInt" "9223372036854775808"
    = Err (NumError "ParseInt" "9223372036854775808" (Sentinel sErrRange)) /\
  ParseInt "ParseInt" "99999999999999999999x"
    = Err (NumError "ParseInt" "99999999999999999999x" (Sentinel sErrRange)) /\
  ParseInt "ParseInt" "1.5" = Err (NumError "ParseInt" "1.5" (Sentinel sErrSyntax)) /\
  ParseInt "ParseInt" "" = Err (NumError "ParseInt" "" (Sentinel sErrSyntax)).
Proof. by vm_compute. Qed.

#[export] Hint Resolve ParseInt_range : go.

Lemma digit_of_inv c d : digit_of c = Some d -> c = digit_char d.
Proof.
  unfold digit_of, digit_char. intros H. case_match; simplify_eq.
  rewrite <- (char_of_code c) at 1. f_equal. lia.
Qed.

(** Digits are none of the other characters a number may hold. *)
Lemma digit_of_ne c d c' : digit_of c = Some d -> digit_of c' = None -> c <> c'.
Proof. intros H1 H2 ->. congruence. Qed.
