(* ===== verification/GoStrings.v ===== *)
(** * Go strings: UTF-8, trimming, quoting

    The functions of packages [unicode/utf8], [strings] and [strconv] the program
    calls on texts.  A rune is an integer; a string is cut into chunks, one per
    rune, where an invalid byte is a chunk of its own with rune [RuneError]. *)

From S2P Require Import Prelude Errors GoInt.
Local Open Scope Z_scope.

Definition RuneError : Z := 0xFFFD.

Definition in_range (lo hi : Z) (b : Z) : bool := (lo <=? b) && (b <=? hi).
Definition cont : Z -> bool := in_range 0x80 0xBF.
Definition code_at (n : nat) (s : string) : Z :=
  match String.get n s with Some c => char_code c | None => -1 end.

(** [utf8.DecodeRuneInString]: the first rune and its width. *)
Definition DecodeRune (s : string) : Z * nat :=
  let b0 := code_at 0 s in
  let b1 := code_at 1 s in
  let b2 := code_at 2 s in
  let b3 := code_at 3 s in
  if b0 <? 0x80 then (b0, 1%nat)
  else if in_range 0xC2 0xDF b0 && cont b1 then
    (Z.lor (Z.shiftl (Z.land b0 0x1F) 6) (Z.land b1 0x3F), 2%nat)
  else if in_range 0xE0 0xEF b0
       && in_range (if b0 =? 0xE0 then 0xA0 else 0x80) (if b0 =? 0xED then 0x9F else 0xBF) b1
       && cont b2 then
    (Z.lor (Z.shiftl (Z.land b0 0x0F) 12) (Z.lor (Z.shiftl (Z.land b1 0x3F) 6) (Z.land b2 0x3F)), 3%nat)
  else if in_range 0xF0 0xF4 b0
       && in_range (if b0 =? 0xF0 then 0x90 else 0x80) (if b0 =? 0xF4 then 0x8F else 0xBF) b1
       && cont b2 && cont b3 then
    (Z.lor (Z.shiftl (Z.land b0 0x07) 18) (Z.lor (Z.shiftl (Z.land b1 0x3F) 12)
       (Z.lor (Z.shiftl (Z.land b2 0x3F) 6) (Z.land b3 0x3F))), 4%nat)
  else (RuneError, 1%nat).

(** [utf8.AppendRune]; surrogates and values out of range become U+FFFD. *)
Definition EncodeRune (r : Z) : string :=
  let byte h s := char_of (Z.lor h (Z.land (Z.shiftr r s) 0x3F)) in
  if (0 <=? r) && (r <? 0x80) then String (char_of r) ""
  else if in_range 0x80 0x7FF r then
    String (char_of (Z.lor 0xC0 (Z.shiftr r 6))) (String (byte 0x80 0) "")
  else if in_range 0x800 0xFFFF r && negb (in_range 0xD800 0xDFFF r) then
    String (char_of (Z.lor 0xE0 (Z.shiftr r 12))) (String (byte 0x80 6) (String (byte 0x80 0) ""))
  else if in_range 0x10000 0x10FFFF r then
    String (char_of (Z.lor 0xF0 (Z.shiftr r 18)))
      (String (byte 0x80 12) (String (byte 0x80 6) (String (byte 0x80 0) "")))
  else String (char_of 0xEF) (String (char_of 0xBF) (String (char_of 0xBD) "")).

Definition replacement : string := EncodeRune RuneError.

(** The chunks of a string, in order. *)
Fixpoint chunks_go (fuel : nat) (s : string) : list (Z * string) :=
  match fuel, s with
  | S fuel, String _ _ =>
      let '(r, w) := DecodeRune s in
      (r, str_take w s) :: chunks_go fuel (str_drop w s)
  | _, _ => []
  end.

Definition chunks (s : string) : list (Z * string) := chunks_go (String.length s) s.

Definition concat_strings (l : list string) : string := foldr String.append "" l.
Lemma concat_strings_app a b : concat_strings (a ++ b) = concat_strings a +:+ concat_strings b.
Proof.
  induction a as [|x a IH]; [done|].
  change (x +:+ concat_strings (a ++ b) = (x +:+ concat_strings a) +:+ concat_strings b).
  by rewrite IH, string_app_assoc.
Qed.

Definition unchunk (l : list (Z * string)) : string := concat_strings (snd <$> l).

(** An invalid byte. *)
Definition bad_chunk (x : Z * string) : bool :=
  bool_decide (x.1 = RuneError /\ String.length x.2 = 1%nat).

(** [utf8.ValidString] *)
Definition ValidString (s : string) : bool := forallb (fun x => negb (bad_chunk x)) (chunks s).

(** [strings.ToValidUTF8(s, U+FFFD)] rune by rune: what remains of a string that
    went through JSON. *)
Definition sanitize_chunk (x : Z * string) : string := if bad_chunk x then replacement else x.2.
Definition sanitize (s : string) : string := concat_strings (sanitize_chunk <$> chunks s).

(** ** Package strings *)

(** [unicode.IsSpace]: the White_Space code points. *)
Definition IsSpace (r : Z) : bool :=
  in_range 0x09 0x0D r || (r =? 0x20) || (r =? 0x85) || (r =? 0xA0) || (r =? 0x1680)
  || in_range 0x2000 0x200A r || (r =? 0x2028) || (r =? 0x2029) || (r =? 0x202F)
  || (r =? 0x205F) || (r =? 0x3000).

Fixpoint drop_spaces (l : list (Z * string)) : list (Z * string) :=
  match l with
  | x :: l' => if IsSpace x.1 then drop_spaces l' else l
  | [] => []
  end.

Definition TrimSpace (s : string) : string :=
  unchunk (rev (drop_spaces (rev (drop_spaces (chunks s))))).

(** [strings.IndexByte(s, c)], as an option instead of -1. *)
Fixpoint IndexByte (s : string) (c : Ascii.ascii) : option nat :=
  match s with
  | EmptyString => None
  | String c' s => if bool_decide (c' = c) then Some O else S <$> IndexByte s c
  end.

Fixpoint HasPrefix (s prefix : string) : bool :=
  match prefix, s with
  | EmptyString, _ => true
  | String c p, String c' s => bool_decide (c = c') && HasPrefix s p
  | _, _ => false
  end.

Lemma HasPrefix_app a b : HasPrefix (a +:+ b) a = true.
Proof.
  induction a as [|c a IH]; [by destruct b|]. rewrite string_app_cons. cbn. by rewrite bool_decide_true.
Qed.

Fixpoint Contains (s sub : string) : bool :=
  HasPrefix s sub || match s with EmptyString => false | String _ s => Contains s sub end.

Definition TrimPrefix (s prefix : string) : string :=
  if HasPrefix s prefix then str_drop (String.length prefix) s else s.

Definition HasSuffix (s suffix : string) : bool :=
  bool_decide (str_drop (String.length s - String.length suffix) s = suffix).
Definition TrimSuffix (s suffix : string) : string :=
  if HasSuffix s suffix then str_take (String.length s - String.length suffix) s else s.

(** Byte order: Go's [<] on strings. *)
Fixpoint str_lt (a b : string) : bool :=
  match a, b with
  | _, EmptyString => false
  | EmptyString, String _ _ => true
  | String c a, String d b =>
      (char_code c <? char_code d) || ((char_code c =? char_code d) && str_lt a b)
  end.

Lemma str_lt_irrefl a : str_lt a a = false.
Proof. induction a as [|c a IH]; [done|]. cbn. by rewrite Z.ltb_irrefl, Z.eqb_refl, IH. Qed.

Lemma str_lt_trans a b c : str_lt a b = true -> str_lt b c = true -> str_lt a c = true.
Proof.
  revert b c. induction a as [|x a IH]; intros [|y b] [|z c]; cbn; try done.
  rewrite !orb_true_iff, !andb_true_iff, !Z.ltb_lt, !Z.eqb_eq. intros [?|[? H1]] [?|[? H2]]; try (left; lia).
  right. split; [lia|]. by eapply IH.
Qed.

Lemma str_lt_total a b : str_lt a b = false -> str_lt b a = false -> a = b.
Proof.
  revert b. induction a as [|x a IH]; intros [|y b]; cbn; try done.
  rewrite !orb_false_iff, !andb_false_iff, !Z.ltb_ge, !Z.eqb_neq. intros [? H1] [? H2].
  assert (char_code x = char_code y) as Hxy by lia. apply char_code_inj in Hxy as ->.
  f_equal. apply IH; [by destruct H1|by destruct H2].
Qed.

Lemma str_le_lt a b c : str_lt b a = false -> str_lt b c = true -> str_lt a c = true.
Proof.
  intros Hba Hbc. destruct (str_lt a b) eqn:Hab; [by eapply str_lt_trans|].
  by rewrite (str_lt_total a b).
Qed.

(** ** strconv.Quote *)

(** The printable runes beyond ASCII are a table of package [unicode]. *)
Class UnicodeTables := { IsPrint_table : Z -> bool }.

Definition hex_digit (d : Z) : Ascii.ascii := if d <? 10 then char_of (48 + d) else char_of (87 + d).

(** [n] lower-case hexadecimal digits of [v]. *)
Fixpoint hex_digits (n : nat) (v : Z) : string :=
  match n with
  | O => ""
  | S n => String (hex_digit (Z.land (Z.shiftr v (4 * Z.of_nat n)) 15)) (hex_digits n v)
  end.

Definition dquote : Ascii.ascii := char_of 34.
Definition backslash : Ascii.ascii := char_of 92.
Definition esc (s : string) : string := String backslash s.

Section Quote.
Context `{UnicodeTables}.

Definition IsPrint (r : Z) : bool := if r <? 0x80 then in_range 0x20 0x7E r else IsPrint_table r.

(** [appendEscapedRune] *)
Definition quote_chunk (x : Z * string) : string :=
  let '(r, b) := x in
  if bad_chunk x then esc ("x" +:+ hex_digits 2 (code_at 0 b))
  else if (r =? 34) || (r =? 92) then esc b
  else if IsPrint r then b
  else if r =? 7 then esc "a" else if r =? 8 then esc "b" else if r =? 12 then esc "f"
  else if r =? 10 then esc "n" else if r =? 13 then esc "r" else if r =? 9 then esc "t"
  else if r =? 11 then esc "v"
  else if (r <? 0x20) || (r =? 0x7F) then esc ("x" +:+ hex_digits 2 r)
  else if r <? 0x10000 then esc ("u" +:+ hex_digits 4 r)
  else esc ("U" +:+ hex_digits 8 r).

Definition Quote (s : string) : string :=
  String dquote (concat_strings (quote_chunk <$> chunks s) +:+ String dquote "").
End Quote.

(** ** Error texts *)

Definition sentinel_text (s : sentinel) : string :=
  match s with
  | sErrMetricNotFound => "metric not found"
  | sErrUnknownType => "unknown metric type"
  | sErrMetricNameEmpty => "metric name is empty"
  | sErrValueRequired => "value is required for gauge"
  | sErrDeltaRequired => "delta is required for counter"
  | sErrSyntax => "invalid syntax"
  | sErrRange => "value out of range"
  | sErrNoRows => "sql: no rows in result set"
  | sEOF => "EOF"
  | sErrUnexpectedEOF => "unexpected EOF"
  | sErrNotExist => "file does not exist"
  end.

(** The text of the database driver's errors is the driver's. *)
Class PgErrorText := { PgError_text : string -> string }.

Fixpoint Error `{UnicodeTables, PgErrorText} (err : error) : string :=
  match err with
  | Sentinel s => sentinel_text s
  | NumError f num inner => "strconv." +:+ f +:+ ": parsing " +:+ Quote num +:+ ": " +:+ Error inner
  | Errorf msg inner => msg +:+ Error inner
  | ErrorText msg => msg
  | PgError code => PgError_text code
  | UrlError _ _ msg => msg
  end.

(** ** Lemmas on chunks *)

Lemma DecodeRune_width s :
  s <> "" -> (1 <= (DecodeRune s).2 <= 4)%nat /\ ((DecodeRune s).2 <= String.length s)%nat.
Proof.
  intros Hs. destruct s as [|c0 s]; [done|]. unfold DecodeRune.
  change (code_at 0 (String c0 s)) with (char_code c0).
  destruct s as [|c1 [|c2 [|c3 s]]]; cbn [code_at String.get String.length];
    repeat case_match; cbn [snd]; try lia;
    repeat match goal with H : _ && _ = true |- _ => apply andb_true_iff in H as [??] end; done.
Qed.

(** Close the cases of [DecodeRune] that need more bytes than there are. *)
Ltac dead := let H := fresh in intros H; exfalso; apply H; clear H;
  cbn [code_at String.get]; repeat case_match; try done;
  repeat match goal with H : _ && _ = true |- _ => apply andb_true_iff in H as [??] end; done.

(** The decoded rune depends only on its own bytes. *)
Lemma DecodeRune_prefix s rest :
  s <> "" -> DecodeRune s <> (RuneError, 1%nat) ->
  DecodeRune (str_take (DecodeRune s).2 s +:+ rest) = DecodeRune s.
Proof.
  intros Hs. destruct s as [|c0 s]; [done|].
  unfold DecodeRune at 1 3 4. change (code_at 0 (String c0 s)) with (char_code c0).
  destruct (char_code c0 <? 0x80) eqn:H0.
  { intros _. cbn [snd str_take]. rewrite string_app_cons. unfold DecodeRune. cbn [code_at String.get].
    by rewrite H0. }
  destruct s as [|c1 s]; [dead|].
  change (code_at 1 (String c0 (String c1 s))) with (char_code c1).
  destruct (in_range 0xC2 0xDF (char_code c0) && cont (char_code c1)) eqn:H1.
  { intros _. cbn [snd str_take]. rewrite !string_app_cons. unfold DecodeRune.
    cbn [code_at String.get]. by rewrite H0, H1. }
  destruct s as [|c2 s]; [dead|].
  change (code_at 2 (String c0 (String c1 (String c2 s)))) with (char_code c2).
  destruct (in_range 0xE0 0xEF _ && in_range _ _ _ && cont _) eqn:H2.
  { intros _. cbn [snd str_take]. rewrite !string_app_cons. unfold DecodeRune.
    cbn [code_at String.get]. by rewrite H0, H1, H2. }
  destruct s as [|c3 s]; [dead|].
  change (code_at 3 (String c0 (String c1 (String c2 (String c3 s))))) with (char_code c3).
  destruct (in_range 0xF0 0xF4 _ && in_range _ _ _ && cont _ && cont _) eqn:H3; [|done].
  intros _. cbn [snd str_take]. rewrite !string_app_cons. unfold DecodeRune.
  cbn [code_at String.get]. by rewrite H0, H1, H2, H3.
Qed.

Lemma str_drop_shorter n s : s <> "" -> (1 <= n)%nat -> (String.length (str_drop n s) < String.length s)%nat.
Proof. intros Hs Hn. rewrite str_drop_length. destruct s; [done|cbn; lia]. Qed.

Lemma chunks_go_fuel f1 f2 s :
  (String.length s <= f1)%nat -> (String.length s <= f2)%nat -> chunks_go f1 s = chunks_go f2 s.
Proof.
  revert f2 s. induction f1 as [|f1 IH]; intros f2 s H1 H2; [destruct s; [by destruct f2|cbn in H1; lia]|].
  destruct s as [|c s]; [by destruct f2|]. destruct f2 as [|f2]; [cbn in H2; lia|]. cbn [chunks_go].
  pose proof (DecodeRune_width (String c s) ltac:(done)) as [Hw _].
  destruct (DecodeRune (String c s)) as [r w]. cbn [snd] in Hw. f_equal.
  pose proof (str_drop_shorter w (String c s) ltac:(done) ltac:(lia)). apply IH; lia.
Qed.

Lemma chunks_cons s :
  s <> "" ->
  chunks s = ((DecodeRune s).1, str_take (DecodeRune s).2 s) :: chunks (str_drop (DecodeRune s).2 s).
Proof.
  intros Hs. pose proof (DecodeRune_width s Hs) as [Hw _].
  pose proof (str_drop_shorter (DecodeRune s).2 s Hs ltac:(lia)) as Hl.
  unfold chunks at 1. destruct s as [|c s]; [done|].
  change (chunks_go (String.length (String c s)) (String c s)) with
    (let '(r, w) := DecodeRune (String c s) in
     (r, str_take w (String c s)) :: chunks_go (String.length s) (str_drop w (String c s))).
  destruct (DecodeRune (String c s)) as [r w]. cbn [fst snd] in *. f_equal.
  apply chunks_go_fuel; [cbn in Hl; lia|done].
Qed.

(** Induction over the chunks of a string. *)
Lemma chunks_ind (P : string -> Prop) :
  P "" ->
  (forall s, s <> "" -> P (str_drop (DecodeRune s).2 s) -> P s) ->
  forall s, P s.
Proof.
  intros H0 HS s. remember (String.length s) as n eqn:Hn.
  revert s Hn. induction (lt_wf n) as [n _ IH]. intros s ->.
  destruct (decide (s = "")) as [->|Hs]; [done|]. apply HS; [done|].
  pose proof (DecodeRune_width s Hs) as [Hw _].
  eapply IH; [|done]. apply str_drop_shorter; [done|lia].
Qed.

Lemma chunks_nil : chunks "" = [].
Proof. done. Qed.

Lemma unchunk_cons x l : unchunk (x :: l) = x.2 +:+ unchunk l.
Proof. done. Qed.

Lemma unchunk_chunks s : unchunk (chunks s) = s.
Proof.
  induction s as [|s Hs IH] using chunks_ind; [done|].
  rewrite chunks_cons, unchunk_cons, IH by done. apply str_take_drop.
Qed.

Lemma sanitize_cons s :
  s <> "" ->
  sanitize s = sanitize_chunk ((DecodeRune s).1, str_take (DecodeRune s).2 s)
    +:+ sanitize (str_drop (DecodeRune s).2 s).
Proof. intros Hs. unfold sanitize at 1. by rewrite chunks_cons. Qed.

Lemma sanitize_valid s : ValidString s = true -> sanitize s = s.
Proof.
  induction s as [|s Hs IH] using chunks_ind; [done|].
  unfold ValidString. rewrite sanitize_cons, chunks_cons by done. cbn [forallb].
  intros [Hb Hv]%andb_true_iff. rewrite (IH Hv). unfold sanitize_chunk.
  rewrite (proj1 (negb_true_iff _) Hb). apply str_take_drop.
Qed.

(** The first chunk of a string is invalid exactly when [DecodeRune] says so. *)
Lemma bad_chunk_first s :
  s <> "" ->
  bad_chunk ((DecodeRune s).1, str_take (DecodeRune s).2 s) = bool_decide (DecodeRune s = (RuneError, 1%nat)).
Proof.
  intros Hs. pose proof (DecodeRune_width s Hs) as [_ Hw]. unfold bad_chunk. cbn [fst snd].
  rewrite str_take_length by done. apply bool_decide_ext.
  destruct (DecodeRune s) as [r w]. cbn. split; [by intros [-> ->]|by intros [= -> ->]].
Qed.

#[export] Hint Rewrite unchunk_cons : go.

(** ** Encoding undoes decoding *)

Lemma lor_shiftl x y n : 0 <= n -> 0 <= y < 2 ^ n -> Z.lor (Z.shiftl x n) y = x * 2 ^ n + y.
Proof.
  intros Hn Hy. rewrite <- Z.shiftl_mul_pow2 by done. rewrite <- Z.add_lor_land.
  assert (Z.land (Z.shiftl x n) y = 0) as ->; [|lia].
  apply Z.bits_inj'. intros i Hi. rewrite Z.land_spec, Z.bits_0.
  destruct (Z.lt_ge_cases i n).
  - by rewrite Z.shiftl_spec_low by done.
  - replace y with (y mod 2 ^ n) by (apply Z.mod_small; lia).
    rewrite Z.mod_pow2_bits_high by lia. apply andb_false_r.
Qed.

Lemma land_mask x n : 0 <= n -> Z.land x (Z.ones n) = x mod 2 ^ n.
Proof. apply Z.land_ones. Qed.

Lemma encode_tail r s : 0 <= s -> Z.lor 0x80 (Z.land (Z.shiftr r s) 0x3F) = 0x80 + (r / 2 ^ s) mod 64.
Proof.
  intros Hs. change 0x3F with (Z.ones 6). rewrite land_mask, Z.shiftr_div_pow2 by lia.
  change 0x80 with (Z.shiftl 2 6) at 1. rewrite lor_shiftl; [done|lia|].
  apply Z.mod_pos_bound. lia.
Qed.

Lemma lead_byte k n r s :
  0 <= n -> 0 <= s -> 0 <= r / 2 ^ s < 2 ^ n ->
  Z.lor (Z.shiftl k n) (Z.shiftr r s) = k * 2 ^ n + r / 2 ^ s.
Proof. intros. rewrite Z.shiftr_div_pow2 by done. by apply lor_shiftl. Qed.

Lemma rune2 b0 b1 :
  Z.lor (Z.shiftl (Z.land b0 0x1F) 6) (Z.land b1 0x3F) = b0 mod 32 * 64 + b1 mod 64.
Proof.
  change 0x1F with (Z.ones 5). change 0x3F with (Z.ones 6). rewrite !land_mask by lia.
  apply lor_shiftl; [lia|]. apply Z.mod_pos_bound. lia.
Qed.

Lemma rune3 b0 b1 b2 :
  Z.lor (Z.shiftl (Z.land b0 0x0F) 12) (Z.lor (Z.shiftl (Z.land b1 0x3F) 6) (Z.land b2 0x3F))
  = b0 mod 16 * 4096 + b1 mod 64 * 64 + b2 mod 64.
Proof.
  change 0x0F with (Z.ones 4). change 0x3F with (Z.ones 6). rewrite !land_mask by lia.
  pose proof (Z.mod_pos_bound b1 64 ltac:(lia)). pose proof (Z.mod_pos_bound b2 64 ltac:(lia)).
  change (2 ^ 6) with 64 in *. change (2 ^ 4) with 16. rewrite (lor_shiftl (b1 mod 64)), lor_shiftl; lia.
Qed.

Lemma rune4 b0 b1 b2 b3 :
  Z.lor (Z.shiftl (Z.land b0 0x07) 18) (Z.lor (Z.shiftl (Z.land b1 0x3F) 12)
       (Z.lor (Z.shiftl (Z.land b2 0x3F) 6) (Z.land b3 0x3F)))
  = b0 mod 8 * 262144 + b1 mod 64 * 4096 + b2 mod 64 * 64 + b3 mod 64.
Proof.
  change 0x07 with (Z.ones 3). change 0x3F with (Z.ones 6). rewrite !land_mask by lia.
  pose proof (Z.mod_pos_bound b1 64 ltac:(lia)). pose proof (Z.mod_pos_bound b2 64 ltac:(lia)).
  pose proof (Z.mod_pos_bound b3 64 ltac:(lia)).
  change (2 ^ 6) with 64 in *. change (2 ^ 3) with 8. rewrite (lor_shiftl (b2 mod 64)), (lor_shiftl (b1 mod 64)), lor_shiftl; lia.
Qed.

Lemma in_range_iff lo hi b : in_range lo hi b = true <-> lo <= b <= hi.
Proof. unfold in_range. rewrite andb_true_iff, !Z.leb_le. done. Qed.

Lemma in_range_false lo hi b : b < lo \/ hi < b -> in_range lo hi b = false.
Proof. intros Hb. apply not_true_iff_false. rewrite in_range_iff. lia. Qed.

Lemma cont_iff b : cont b = true <-> 0x80 <= b <= 0xBF.
Proof. apply in_range_iff. Qed.

Lemma char_of_eq z c : z = char_code c -> char_of z = c.
Proof. intros ->. apply char_of_code. Qed.

(** Linear arithmetic with division by constants. *)
Ltac euclid := Z.to_euclidean_division_equations; lia.

(** The first chunk of a string, when it is valid: a rune above ASCII on at least
    two bytes from 0x80 on, and [EncodeRune] of the rune. *)
Lemma DecodeRune_encode s :
  s <> "" -> DecodeRune s <> (RuneError, 1%nat) ->
  EncodeRune (DecodeRune s).1 = str_take (DecodeRune s).2 s.
Proof.
  intros Hs. destruct s as [|c0 s]; [done|]. pose proof (char_code_range c0) as Hc0.
  unfold DecodeRune. change (code_at 0 (String c0 s)) with (char_code c0).
  destruct (Z.ltb_spec (char_code c0) 0x80) as [H0|H0].
  { intros _. cbn [fst snd str_take]. unfold EncodeRune.
    rewrite (proj2 (Z.leb_le 0 _)), (proj2 (Z.ltb_lt _ 0x80)) by lia. by rewrite char_of_code. }
  destruct s as [|c1 s]; [dead|].
  change (code_at 1 (String c0 (String c1 s))) with (char_code c1).
  destruct (in_range 0xC2 0xDF (char_code c0) && cont (char_code c1)) eqn:H1.
  { intros _. apply andb_true_iff in H1 as [H1%in_range_iff Hc1%cont_iff]. cbn [fst snd str_take].
    rewrite rune2. set (r := _ + _).
    assert (r = (char_code c0 - 0xC0) * 64 + (char_code c1 - 0x80)) as Hr by (subst r; euclid). clearbody r.
    unfold EncodeRune. rewrite (proj2 (Z.ltb_ge r 0x80)), andb_false_r by lia.
    rewrite (proj2 (in_range_iff 0x80 0x7FF r)) by lia.
    change 0xC0 with (Z.shiftl 3 6). rewrite lead_byte, encode_tail by euclid.
    change (2 ^ 6) with 64. change (2 ^ 0) with 1. rewrite Z.div_1_r.
    f_equal; [|f_equal]; apply char_of_eq; euclid. }
  destruct s as [|c2 s]; [dead|].
  change (code_at 2 (String c0 (String c1 (String c2 s)))) with (char_code c2).
  destruct (in_range 0xE0 0xEF _ && in_range _ _ _ && cont _) eqn:H2.
  { intros _. apply andb_true_iff in H2 as [[H2%in_range_iff Hc1%in_range_iff]%andb_true_iff Hc2%cont_iff].
    cbn [fst snd str_take]. rewrite rune3. set (r := _ + _).
    destruct (Z.eqb_spec (char_code c0) 0xE0), (Z.eqb_spec (char_code c0) 0xED); cbv iota in Hc1; try lia.
    all: assert (r = (char_code c0 - 0xE0) * 4096 + (char_code c1 - 0x80) * 64 + (char_code c2 - 0x80)) as Hr
      by (subst r; euclid); clearbody r.
    all: unfold EncodeRune; rewrite (proj2 (Z.ltb_ge r 0x80)), andb_false_r by lia.
    all: rewrite (in_range_false 0x80 0x7FF r), (proj2 (in_range_iff 0x800 0xFFFF r)),
      (in_range_false 0xD800 0xDFFF r) by lia; cbn [negb andb].
    all: change 0xE0 with (Z.shiftl 14 4); rewrite lead_byte, !encode_tail by euclid.
    all: change (2 ^ 4) with 16; change (2 ^ 6) with 64; change (2 ^ 12) with 4096; change (2 ^ 0) with 1;
      rewrite Z.div_1_r; f_equal; [|f_equal; [|f_equal]]; apply char_of_eq; euclid. }
  destruct s as [|c3 s]; [dead|].
  change (code_at 3 (String c0 (String c1 (String c2 (String c3 s))))) with (char_code c3).
  destruct (in_range 0xF0 0xF4 _ && in_range _ _ _ && cont _ && cont _) eqn:H3; [|done].
  intros _. apply andb_true_iff in H3 as [[[H3%in_range_iff Hc1%in_range_iff]%andb_true_iff Hc2%cont_iff]%andb_true_iff Hc3%cont_iff].
  cbn [fst snd str_take]. rewrite rune4. set (r := _ + _).
  destruct (Z.eqb_spec (char_code c0) 0xF0), (Z.eqb_spec (char_code c0) 0xF4); cbv iota in Hc1; try lia.
  all: assert (r = (char_code c0 - 0xF0) * 262144 + (char_code c1 - 0x80) * 4096
      + (char_code c2 - 0x80) * 64 + (char_code c3 - 0x80)) as Hr by (subst r; euclid); clearbody r.
  all: unfold EncodeRune; rewrite (proj2 (Z.ltb_ge r 0x80)), andb_false_r by lia.
  all: rewrite (in_range_false 0x80 0x7FF r), (in_range_false 0x800 0xFFFF r),
      (proj2 (in_range_iff 0x10000 0x10FFFF r)) by lia; cbn [andb].
  all: change 0xF0 with (Z.shiftl 30 3); rewrite lead_byte, !encode_tail by euclid.
  all: change (2 ^ 3) with 8; change (2 ^ 6) with 64; change (2 ^ 12) with 4096; change (2 ^ 18) with 262144;
    change (2 ^ 0) with 1; rewrite Z.div_1_r; f_equal; [|f_equal; [|f_equal; [|f_equal]]]; apply char_of_eq; euclid.
Qed.

(** Beyond ASCII, bytes and runes alike are from 0x80 on. *)
Lemma DecodeRune_high s : 0x80 <= code_at 0 s -> 0x80 <= (DecodeRune s).1.
Proof.
  intros H0. unfold DecodeRune. rewrite (proj2 (Z.ltb_ge _ _) H0).
  destruct (in_range 0xC2 _ _ && _) eqn:H1.
  { apply andb_true_iff in H1 as [H1%in_range_iff Hc1%cont_iff]. cbn [fst]. rewrite rune2. euclid. }
  destruct (in_range 0xE0 0xEF _ && in_range _ _ _ && cont _) eqn:H2.
  { apply andb_true_iff in H2 as [[H2%in_range_iff Hc1%in_range_iff]%andb_true_iff Hc2%cont_iff].
    cbn [fst]. rewrite rune3.
    destruct (Z.eqb_spec (code_at 0 s) 0xE0), (Z.eqb_spec (code_at 0 s) 0xED); cbv iota in Hc1; euclid. }
  destruct (in_range 0xF0 0xF4 _ && in_range _ _ _ && cont _ && cont _) eqn:H3; [|done].
  apply andb_true_iff in H3 as [[[H3%in_range_iff Hc1%in_range_iff]%andb_true_iff Hc2%cont_iff]%andb_true_iff Hc3%cont_iff].
  cbn [fst]. rewrite rune4.
  destruct (Z.eqb_spec (code_at 0 s) 0xF0), (Z.eqb_spec (code_at 0 s) 0xF4); cbv iota in Hc1; euclid.
Qed.

Lemma DecodeRune_ascii c s : char_code c < 0x80 -> DecodeRune (String c s) = (char_code c, 1%nat).
Proof.
  intros Hc. unfold DecodeRune. change (code_at 0 (String c s)) with (char_code c).
  by rewrite (proj2 (Z.ltb_lt _ _) Hc).
Qed.

Lemma DecodeRune_low s :
  s <> "" -> (DecodeRune s).1 < 0x80 ->
  exists c s', s = String c s' /\ char_code c < 0x80 /\ DecodeRune s = (char_code c, 1%nat).
Proof.
  intros Hs Hr. destruct s as [|c s]; [done|]. exists c, s. split; [done|].
  assert (char_code c < 0x80) as Hc.
  { apply Z.nle_gt. intros Hc. pose proof (DecodeRune_high (String c s) Hc). lia. }
  split; [done|by apply DecodeRune_ascii].
Qed.

Fixpoint all_high (s : string) : bool :=
  match s with EmptyString => true | String c s => (0x80 <=? char_code c) && all_high s end.

(** The bytes of a rune beyond ASCII are all beyond ASCII. *)
Lemma DecodeRune_high_bytes s :
  s <> "" -> DecodeRune s <> (RuneError, 1%nat) -> 0x80 <= (DecodeRune s).1 ->
  all_high (str_take (DecodeRune s).2 s) = true.
Proof.
  intros Hs. destruct s as [|c0 s]; [done|]. unfold DecodeRune. change (code_at 0 (String c0 s)) with (char_code c0).
  destruct (char_code c0 <? 0x80) eqn:H0.
  { intros _ Hr. cbn in Hr. apply Z.ltb_lt in H0. lia. }
  apply Z.ltb_ge, Z.leb_le in H0.
  destruct s as [|c1 s]; [dead|]. change (code_at 1 (String c0 (String c1 s))) with (char_code c1).
  destruct (in_range 0xC2 0xDF (char_code c0) && cont (char_code c1)) eqn:H1.
  { intros _ _. apply andb_true_iff in H1 as [_ [? _]%cont_iff]. cbn. by rewrite H0, (proj2 (Z.leb_le _ _)). }
  destruct s as [|c2 s]; [dead|]. change (code_at 2 (String c0 (String c1 (String c2 s)))) with (char_code c2).
  destruct (in_range 0xE0 0xEF _ && in_range _ _ _ && cont _) eqn:H2.
  { intros _ _. apply andb_true_iff in H2 as [[_ Hc1%in_range_iff]%andb_true_iff [? _]%cont_iff]. cbn.
    rewrite H0, !(proj2 (Z.leb_le _ _)); [done|lia|destruct (_ =? 0xE0) in Hc1; lia]. }
  destruct s as [|c3 s]; [dead|].
  change (code_at 3 (String c0 (String c1 (String c2 (String c3 s))))) with (char_code c3).
  destruct (in_range 0xF0 0xF4 _ && in_range _ _ _ && cont _ && cont _) eqn:H3; [|done].
  intros _ _. apply andb_true_iff in H3 as [[[_ Hc1%in_range_iff]%andb_true_iff [? _]%cont_iff]%andb_true_iff [? _]%cont_iff].
  cbn. rewrite H0, !(proj2 (Z.leb_le _ _)); [done|lia|lia|destruct (_ =? 0xF0) in Hc1; lia].
Qed.

(** A check of all bytes. *)
Definition all_chars : list Ascii.ascii := Ascii.ascii_of_nat <$> seq 0 256.

Lemma all_chars_elem c : c ∈ all_chars.
Proof.
  apply list_elem_of_fmap. exists (Ascii.nat_of_ascii c). split.
  - by rewrite Ascii.ascii_nat_embedding.
  - apply elem_of_seq. pose proof (Ascii.nat_ascii_bounded c). lia.
Qed.

Lemma by_all_chars (p : Ascii.ascii -> bool) : forallb p all_chars = true -> forall c, p c = true.
Proof. intros Hp c. apply (proj1 (forallb_forall p all_chars) Hp). apply list_elem_of_In, all_chars_elem. Qed.

(** The byte that ends a prefix without it. *)
Lemma IndexByte_app a c b :
  IndexByte a c = None -> IndexByte (a +:+ String c b) c = Some (String.length a).
Proof.
  induction a as [|x a IH]; intros Ha; [rewrite string_app_nil_l; cbn; by case_bool_decide|].
  rewrite string_app_cons. revert Ha. cbn. case_bool_decide; [done|]. intros Ha.
  destruct (IndexByte a c); [done|]. by rewrite IH.
Qed.
