(* ===== verification/GoSort.v ===== *)
(** * Package sort

    [sort.Slice] and [sort.Strings] by insertion.  Sorting functions differ on
    elements neither of which is less than the other only: [sort_unique] says when
    the result does not depend on the function. *)

From Stdlib Require Import Sorted.
From stdpp Require Import sorting.
From S2P Require Import Prelude GoInt GoStrings.

Section Sort.
Context {A : Type} (less : A -> A -> bool).

Fixpoint insert_sorted (x : A) (l : list A) : list A :=
  match l with
  | [] => [x]
  | y :: l' => if less x y then x :: l else y :: insert_sorted x l'
  end.
Definition sort (l : list A) : list A := foldr insert_sorted [] l.

Lemma insert_sorted_perm x l : insert_sorted x l ≡ₚ x :: l.
Proof.
  induction l as [|y l IH]; [done|]. cbn. destruct (less x y); [done|]. rewrite IH. apply Permutation_swap.
Qed.

Lemma sort_perm l : sort l ≡ₚ l.
Proof. induction l as [|x l IH]; [done|]. cbn. by rewrite insert_sorted_perm, IH. Qed.

(** [a] may stand before [b]. *)
Definition le (a b : A) : Prop := less b a = false.

Context (asym : forall a b, less a b = true -> less b a = false) `{!Transitive le}.

Lemma insert_sorted_sorted x l : StronglySorted le l -> StronglySorted le (insert_sorted x l).
Proof using All.
  induction 1 as [|y l Hl IH Hy]; cbn; [repeat constructor|]. destruct (less x y) eqn:Hv.
  - constructor; [by constructor|]. assert (le x y) as Hxy by (by apply asym).
    constructor; [done|]. eapply Forall_impl; [exact Hy|]. intros z Hz. by etrans.
  - constructor; [exact IH|]. rewrite insert_sorted_perm. by constructor.
Qed.

Lemma sort_sorted l : StronglySorted le (sort l).
Proof using All. induction l as [|x l IH]; [constructor|]. by apply insert_sorted_sorted. Qed.

Lemma sort_unique l1 l2 :
  (forall a b, a ∈ l1 -> b ∈ l1 -> le a b -> le b a -> a = b) -> l1 ≡ₚ l2 -> StronglySorted le l2 -> sort l1 = l2.
Proof using All.
  intros Hanti Hp Hs. apply (StronglySorted_unique_strong le); [|apply sort_sorted|done|by rewrite sort_perm].
  intros a b. rewrite sort_perm, <- Hp. auto.
Qed.
End Sort.

(** ** [sort.Strings] *)

Definition str_le : string -> string -> Prop := le str_lt.

#[export] Instance str_le_trans : Transitive str_le.
Proof.
  intros a b c Hab Hbc. unfold str_le, le in *. destruct (str_lt c a) eqn:Hca; [|done].
  by rewrite (str_le_lt b c a Hbc Hca) in Hab.
Qed.

Lemma str_lt_asym a b : str_lt a b = true -> str_lt b a = false.
Proof.
  intros Hab. destruct (str_lt b a) eqn:Hba; [|done]. by rewrite <- (str_lt_irrefl a), (str_lt_trans _ _ _ Hab Hba).
Qed.

Definition Strings (l : list string) : list string := sort str_lt l.

Lemma Strings_sorted l : StronglySorted str_le (Strings l).
Proof. apply sort_sorted; [apply str_lt_asym|apply str_le_trans]. Qed.

Lemma Strings_unique l1 l2 : l1 ≡ₚ l2 -> StronglySorted str_le l2 -> Strings l1 = l2.
Proof.
  intros Hp Hs. apply sort_unique; [apply str_lt_asym|apply str_le_trans| |done..].
  intros a b _ _ H1 H2. by apply str_lt_total.
Qed.
