(* ===== verification/NetIP.v ===== *)
(** * Package net: addresses and networks

    [ParseIP], [ParseCIDR] and [IPNet.Contains], with the parser of [net/netip] they
    use.  An address with a zone is rejected by both callers, so that the parser has
    none. *)

From S2P Require Import Prelude Errors GoInt GoStrings.

#[local] Open Scope Z_scope.

Inductive Addr := Is4 (b : list Z) | Is6 (b : list Z).

Definition is_char (c d : Ascii.ascii) : bool := bool_decide (c = d).

(** ** [netip.ParseAddr] *)

(** The loop of [parseIPv4Fields]: the value and the digits of the current field, and
    the fields before. *)
Fixpoint parseIPv4Fields (s : string) (val : Z) (digLen : nat) (fields : list Z) : option (list Z) :=
  match s with
  | EmptyString => if (length fields <? 3)%nat then None else Some (fields ++ [val])
  | String c s =>
      match digit_of c with
      | Some d =>
          if (digLen =? 1)%nat && (val =? 0) then None
          else
            let val := val * 10 + d in
            if 255 <? val then None else parseIPv4Fields s val (S digLen) fields
      | None =>
          if is_char c "."%char then
            if (digLen =? 0)%nat || bool_decide (s = "") then None
            else if (length fields =? 3)%nat then None
            else parseIPv4Fields s 0 0 (fields ++ [val])
          else None
      end
  end.

Definition hex_of (c : Ascii.ascii) : option Z :=
  let d := char_code c in
  if in_range 48 57 d then Some (d - 48)
  else if in_range 97 102 d then Some (d - 87)
  else if in_range 65 70 d then Some (d - 55)
  else None.

(** One group: the number of its digits, its value, and the rest. *)
Fixpoint hex_group (s : string) (off : nat) (acc : Z) : option (nat * Z * string) :=
  match s with
  | EmptyString => Some (off, acc, s)
  | String c s' =>
      match hex_of c with
      | None => Some (off, acc, s)
      | Some d =>
          let acc := acc * 16 + d in
          if (3 <? off)%nat then None else if 0xFFFF <? acc then None else hex_group s' (S off) acc
      end
  end.

(** The loop of [parseIPv6]: the bytes so far, where the ellipsis is, the rest.  Each
    round adds two bytes, and eight rounds fill the address. *)
Fixpoint parse_groups (rounds : nat) (ip : list Z) (ellipsis : option nat) (s : string) : option (list Z * option nat * string) :=
  match rounds with
  | O => Some (ip, ellipsis, s)
  | S rounds =>
      '(off, acc, rest) ← hex_group s 0 0;
      if (off =? 0)%nat then None
      else if HasPrefix rest "." then
        if bool_decide (ellipsis = None) && negb (length ip =? 12)%nat then None
        else if (16 <? length ip + 4)%nat then None
        else f ← parseIPv4Fields s 0 0 []; Some (ip ++ f, ellipsis, "")
      else
        let ip := ip ++ [acc / 256; acc mod 256] in
        match rest with
        | EmptyString => Some (ip, ellipsis, "")
        | String c rest =>
            if negb (is_char c ":"%char) || bool_decide (rest = "") then None
            else if HasPrefix rest ":" then
              match ellipsis with
              | Some _ => None
              | None =>
                  let rest := str_drop 1 rest in
                  if bool_decide (rest = "") then Some (ip, Some (length ip), "")
                  else parse_groups rounds ip (Some (length ip)) rest
              end
            else parse_groups rounds ip ellipsis rest
        end
  end.

Definition zeros (n : nat) : list Z := repeat 0 n.

(** The end of [parseIPv6]: everything is read, and the ellipsis expanded. *)
Definition expand (r : list Z * option nat * string) : option (list Z) :=
  let '(ip, ellipsis, s) := r in
  if negb (bool_decide (s = "")) then None
  else if (length ip <? 16)%nat then
    e ← ellipsis; Some (take e ip ++ zeros (16 - length ip) ++ drop e ip)
  else if bool_decide (ellipsis = None) then Some ip else None.

Definition parseIPv6 (s : string) : option (list Z) :=
  if HasPrefix s "::" then
    if bool_decide (str_drop 2 s = "") then Some (zeros 16) else parse_groups 8 [] (Some O) (str_drop 2 s) ≫= expand
  else parse_groups 8 [] None s ≫= expand.

Fixpoint has_char (c : Ascii.ascii) (s : string) : bool :=
  match s with EmptyString => false | String d s => is_char d c || has_char c s end.

(** The first dot, colon or percent sign decides. *)
Fixpoint scan (s : string) : option Ascii.ascii :=
  match s with
  | EmptyString => None
  | String c s => if is_char c "."%char || is_char c ":"%char || is_char c "%"%char then Some c else scan s
  end.

Definition ParseAddr (s : string) : option Addr :=
  match scan s with
  | Some c =>
      if is_char c "."%char then Is4 <$> parseIPv4Fields s 0 0 []
      else if is_char c ":"%char then if has_char "%"%char s then None else Is6 <$> parseIPv6 s
      else None
  | None => None
  end.

(** ** IP and IPNet: slices of 4 or 16 bytes *)

Abbreviation IP := (list Z).

Definition v4InV6Prefix : list Z := zeros 10 ++ [255; 255].
Definition As16 (a : Addr) : IP := match a with Is4 b => v4InV6Prefix ++ b | Is6 b => b end.
Definition BitLen (a : Addr) : Z := match a with Is4 _ => 32 | Is6 _ => 128 end.

Definition ParseIP (s : string) : option IP := As16 <$> ParseAddr s.

Definition To4 (ip : IP) : option IP :=
  if (length ip =? 4)%nat then Some ip
  else if (length ip =? 16)%nat && bool_decide (take 12 ip = v4InV6Prefix) then Some (drop 12 ip)
  else None.

Record IPNet := MkIPNet { net_ip : IP; net_mask : list Z }.

(** One byte of the mask of [n] bits. *)
Definition mask_byte (n : Z) : Z := if 8 <=? n then 255 else if n <=? 0 then 0 else Z.lxor 255 (Z.shiftr 255 n).
Fixpoint CIDRMask (n : Z) (bytes : nat) : list Z :=
  match bytes with O => [] | S bytes => mask_byte n :: CIDRMask (n - 8) bytes end.

(** [IP.Mask] on the addresses and masks [ParseCIDR] makes. *)
Definition Mask (ip : IP) (mask : list Z) : IP :=
  let ip := if (length mask =? 4)%nat && (length ip =? 16)%nat && bool_decide (take 12 ip = v4InV6Prefix) then drop 12 ip else ip in
  if (length ip =? length mask)%nat then zip_with Z.land ip mask else [].

(** [dtoi]: the number, and [None] at [0xFFFFFF], without digits, or when anything
    follows them. *)
Fixpoint dtoi_go (s : string) (n : Z) : option Z :=
  match s with
  | EmptyString => Some n
  | String c s => d ← digit_of c; let n := n * 10 + d in if 0xFFFFFF <=? n then None else dtoi_go s n
  end.
Definition dtoi (s : string) : option Z := if bool_decide (s = "") then None else dtoi_go s 0.

Definition ParseCIDR (s : string) : res IPNet :=
  let bad := Err (ErrorText ("invalid CIDR address: " +:+ s)) in
  match IndexByte s "/"%char with
  | None => bad
  | Some i =>
      match ParseAddr (str_take i s), dtoi (str_drop (i + 1) s) with
      | Some a, Some n =>
          if BitLen a <? n then bad
          else
            let m := CIDRMask n (Z.to_nat (BitLen a / 8)) in
            Ok (MkIPNet (Mask (As16 a) m) m)
      | _, _ => bad
      end
  end.

Definition networkNumberAndMask (n : IPNet) : IP * list Z :=
  let ip := match To4 (net_ip n) with Some ip => ip | None => net_ip n end in
  if negb ((length ip =? 4)%nat || (length ip =? 16)%nat) then ([], [])
  else
    let m := net_mask n in
    if (length m =? 4)%nat then if (length ip =? 4)%nat then (ip, m) else ([], [])
    else if (length m =? 16)%nat then (ip, if (length ip =? 4)%nat then drop 12 m else m)
    else ([], []).

Fixpoint same_masked (nn m ip : list Z) : bool :=
  match nn, m, ip with
  | x :: nn, k :: m, y :: ip => (Z.land x k =? Z.land y k) && same_masked nn m ip
  | _, _, _ => true
  end.

Definition Net_Contains (n : IPNet) (ip : IP) : bool :=
  let '(nn, m) := networkNumberAndMask n in
  let ip := match To4 ip with Some x => x | None => ip end in
  if negb (length ip =? length nn)%nat then false else same_masked nn m ip.

Example addresses : ParseIP <$> ["10.1.2.3"; "::ffff:10.1.2.3"; "2001:db8::1"; "::"; "1.2.3"; "01.2.3.4"; "256.1.1.1"; "1::2::3"; "fe80::1%eth0"; "12345::"; ""] =
  [Some (v4InV6Prefix ++ [10; 1; 2; 3]); Some (v4InV6Prefix ++ [10; 1; 2; 3]); Some ([32; 1; 13; 184] ++ zeros 11 ++ [1]); Some (zeros 16);
   None; None; None; None; None; None; None].
Proof. reflexivity. Qed.

Example networks :
  (fun c => match ParseCIDR c with Ok n => Some (net_ip n, net_mask n) | Err _ => None end) <$> ["10.1.2.3/8"; "192.168.1.77/26"; "10.0.0.0/33"; "10.0.0.0"; "10.0.0.0/"; "::1/0"] =
  [Some ([10; 0; 0; 0], [255; 0; 0; 0]); Some ([192; 168; 1; 64], [255; 255; 255; 192]); None; None; None; Some (zeros 16, zeros 16)].
Proof. reflexivity. Qed.
