(* ===== verification/GoFloat.v ===== *)
(** * Go's float64: values, reading and printing

    A [float64] is a NaN, an infinity or a finite [(-1)^neg * m * 2^e] with the
    IEEE 754 binary64 bounds on [m] and [e].  [ParseFloat] rounds the number a
    text denotes to the nearest value, ties to even; [FormatFloat] with
    precision -1 prints the shortest decimal that reads back as the value, by
    the search of [strconv]'s [roundShortest].  NaN payloads are not kept: the
    program never looks at them. *)

From S2P Require Import Prelude Errors GoInt.
Local Open Scope Z_scope.

Inductive float64 :=
| F_nan
| F_inf (neg : bool)
| F_fin (neg : bool) (m e : Z).

#[export] Instance float64_eq_dec : EqDecision float64.
Proof. solve_decision. Defined.

Definition emin : Z := -1074.
Definition emax : Z := 971.
Definition mant_lo : Z := 2 ^ 52.
Definition mant_hi : Z := 2 ^ 53.

(** The pairs [(m, e)] that are binary64 magnitudes, each in one way. *)
Definition canonical (m e : Z) : bool :=
  ((e =? emin) && (0 <=? m) && (m <? mant_hi)) ||
  ((emin <? e) && (e <=? emax) && (mant_lo <=? m) && (m <? mant_hi)).

Definition valid_float (f : float64) : bool :=
  match f with F_nan | F_inf _ => true | F_fin _ m e => canonical m e end.

Definition is_finite (f : float64) : bool :=
  match f with F_fin _ _ _ => true | _ => false end.

Definition f64_zero : float64 := F_fin false 0 emin.

(** ** Rounding a positive rational *)

(** [n / d / 2^e] as a fraction. *)
Definition scaled (n d e : Z) : Z * Z :=
  if 0 <=? e then (n, d * 2 ^ e) else (n * 2 ^ (- e), d).

(** The exponent of the result: the one that leaves 53 bits in the quotient,
    or the smallest one. *)
Definition round_exp (n d : Z) : Z :=
  let e := Z.max (Z.log2 n - Z.log2 d - 53) emin in
  let '(a, b) := scaled n d e in
  if mant_hi <=? a / b then e + 1 else e.

(** Round the quotient [a / b] to the nearest integer, ties to even. *)
Definition round_half_even (a b : Z) : Z :=
  let q := a / b in
  let r := a mod b in
  if 2 * r <? b then q
  else if b <? 2 * r then q + 1
  else if Z.even q then q else q + 1.

(** Nearest float64 to [(-1)^neg * n / d]. *)
Definition round_rat (neg : bool) (n d : Z) : float64 :=
  if n =? 0 then F_fin neg 0 emin
  else
    let e := round_exp n d in
    let '(a, b) := scaled n d e in
    let q := round_half_even a b in
    let '(m, e) := if q =? mant_hi then (mant_lo, e + 1) else (q, e) in
    if emax <? e then F_inf neg else F_fin neg m e.

(** The conversion [float64(n)] of an integer. *)
Definition float64_of_Z (n : Z) : float64 := round_rat (n <? 0) (Z.abs n) 1.

(** ** [strconv.ParseFloat(s, 64)] *)

Definition lower_char (c : Ascii.ascii) : Ascii.ascii :=
  let z := char_code c in
  if (65 <=? z) && (z <=? 90) then char_of (z + 32) else c.

Fixpoint lower_string (s : string) : string :=
  match s with
  | EmptyString => EmptyString
  | String c s => String (lower_char c) (lower_string s)
  end.

(** Infinities and NaN, in any case. *)
Definition special (s : string) : option float64 :=
  let s := lower_string s in
  if bool_decide (s = "nan") then Some F_nan
  else if bool_decide (s ∈ ["inf"; "+inf"; "infinity"; "+infinity"]) then Some (F_inf false)
  else if bool_decide (s ∈ ["-inf"; "-infinity"]) then Some (F_inf true)
  else None.

(** The digit [c] stands for in base 10 or 16. *)
Definition base_digit (hex : bool) (c : Ascii.ascii) : option Z :=
  match digit_of c with
  | Some d => Some d
  | None =>
      let z := char_code (lower_char c) in
      if hex && (97 <=? z) && (z <=? 102) then Some (z - 87) else None
  end.

(** What the loop of [readFloat] has seen of the mantissa: its digits as one
    number, how many of them follow the point, and which characters occurred. *)
Record scan := Scan {
  sc_mant : Z; sc_frac : Z; sc_dot : bool; sc_digits : bool; sc_under : bool }.

Fixpoint scan_mantissa (hex : bool) (s : string) (st : scan) : scan * string :=
  match s with
  | EmptyString => (st, s)
  | String c rest =>
      let '(Scan m fr dot digits under) := st in
      if bool_decide (c = "_"%char) then
        scan_mantissa hex rest (Scan m fr dot digits true)
      else if bool_decide (c = "."%char) then
        if dot then (st, s) else scan_mantissa hex rest (Scan m fr true digits under)
      else
        match base_digit hex c with
        | Some d =>
            scan_mantissa hex rest
              (Scan (m * (if hex then 16 else 10) + d) (if dot then fr + 1 else fr)
                    dot true under)
        | None => (st, s)
        end
  end.

(** The digits of the exponent; numbers above 10000 are not read further. *)
Fixpoint scan_exponent (s : string) (e : Z) (under : bool) : Z * bool * string :=
  match s with
  | EmptyString => (e, under, s)
  | String c rest =>
      if bool_decide (c = "_"%char) then scan_exponent rest e true
      else
        match digit_of c with
        | Some d => scan_exponent rest (if e <? 10000 then e * 10 + d else e) under
        | None => (e, under, s)
        end
  end.

(** Underscores separate digits or follow the base prefix. [saw] is the kind of
    the previous character: a digit, an underscore, or something else. *)
Inductive us_saw := SawDigit | SawUnder | SawOther.

Fixpoint underscore_go (hex : bool) (s : string) (saw : us_saw) : bool :=
  match s with
  | EmptyString => match saw with SawUnder => false | _ => true end
  | String c s =>
      match base_digit hex c with
      | Some _ => underscore_go hex s SawDigit
      | None =>
          if bool_decide (c = "_"%char) then
            match saw with SawDigit => underscore_go hex s SawUnder | _ => false end
          else match saw with SawUnder => false | _ => underscore_go hex s SawOther end
      end
  end.

Definition underscoreOK (s : string) : bool :=
  let s := (split_sign s).2 in
  match s with
  | String "0" (String x rest) =>
      if bool_decide (lower_char x = "x"%char) then underscore_go true rest SawDigit
      else if bool_decide (lower_char x = "b"%char \/ lower_char x = "o"%char)
      then underscore_go false rest SawDigit
      else underscore_go false s SawOther
  | _ => underscore_go false s SawOther
  end.

(** A hexadecimal prefix with something behind it. *)
Definition split_hex (s : string) : bool * string :=
  match s with
  | String z (String x (String c rest)) =>
      if bool_decide (z = "0"%char /\ lower_char x = "x"%char) then (true, String c rest)
      else (false, s)
  | _ => (false, s)
  end.

(** The optional exponent: its value and what follows, or [None] when the text
    breaks off. *)
Definition read_exponent (hex : bool) (s : string) (under : bool) : option (Z * bool * string) :=
  match s with
  | String c rest =>
      if bool_decide (lower_char c = if hex then "p"%char else "e"%char) then
        let '(esign, ds) :=
          match rest with
          | String "+" ds => (1, ds)
          | String "-" ds => (-1, ds)
          | _ => (1, rest)
          end in
        match ds with
        | String d _ =>
            match digit_of d with
            | Some _ => let '(e, under, rest) := scan_exponent ds 0 under in
                        Some (esign * e, under, rest)
            | None => None
            end
        | EmptyString => None
        end
      else if hex then None else Some (0, under, s)
  | EmptyString => if hex then None else Some (0, under, s)
  end.

(** [readFloat] on the whole of [s]: sign, mantissa, exponent and base. *)
Definition readFloat (s : string) : option (bool * Z * Z * bool) :=
  let '(neg, body) := split_sign s in
  let '(hex, body) := split_hex body in
  let '(Scan m fr _ digits under, rest) := scan_mantissa hex body (Scan 0 0 false false false) in
  if negb digits then None
  else
    '(e, under, rest) ← read_exponent hex rest under;
    match rest with
    | EmptyString =>
        if under && negb (underscoreOK s) then None
        else Some (neg, m, (if hex then e - 4 * fr else e - fr), hex)
    | _ => None
    end.

(** Nearest float64 to [(-1)^neg * m * base^e]. *)
Definition round_pow (neg : bool) (m base e : Z) : float64 :=
  if 0 <=? e then round_rat neg (m * base ^ e) 1 else round_rat neg m (base ^ (- e)).

Definition ParseFloat (s : string) : res float64 :=
  let fail e := Err (NumError "ParseFloat" s (Sentinel e)) in
  match special s with
  | Some f => Ok f
  | None =>
      match readFloat s with
      | None => fail sErrSyntax
      | Some (neg, m, e, hex) =>
          match round_pow neg m (if hex then 2 else 10) e with
          | F_inf _ => fail sErrRange
          | f => Ok f
          end
      end
  end.

(** ** Shortest decimal: [strconv.FormatFloat(x, fmt, -1, 64)]

    Everything is measured in quarters of the last place of [x]: the value is
    [4 * m] units of [2^(e - 2)], and the numbers that round to it lie between
    [ulp_lo m e] and [4 * m + 2] units, the ends included when [m] is even. *)

Definition ulp_lo (m e : Z) : Z :=
  if (m =? mant_lo) && (emin <? e) then 4 * m - 1 else 4 * m - 2.

(** [c * 2^s] and [D * 10^p] as fractions. *)
Definition bin_frac (c s : Z) : Z * Z :=
  if 0 <=? s then (c * 2 ^ s, 1) else (c, 2 ^ (- s)).
Definition dec_frac (D p : Z) : Z * Z :=
  if 0 <=? p then (D * 10 ^ p, 1) else (D, 10 ^ (- p)).

Definition frac_lt (x y : Z * Z) : bool := x.1 * y.2 <? y.1 * x.2.
Definition frac_eq (x y : Z * Z) : bool := x.1 * y.2 =? y.1 * x.2.

(** The largest [D] with [D * 10^p <= x]. *)
Definition dec_floor (x : Z * Z) (p : Z) : Z :=
  let '(n, d) := dec_frac 1 p in (x.1 * d) / (x.2 * n).

(** Does the decimal [D * 10^p], below ([down]) or above the value, read back
    as it? *)
Definition ok_down (m e D p : Z) : bool :=
  let lo := bin_frac (ulp_lo m e) (e - 2) in
  frac_lt lo (dec_frac D p) || (Z.even m && frac_eq lo (dec_frac D p)).
Definition ok_up (m e D p : Z) : bool :=
  let hi := bin_frac (4 * m + 2) (e - 2) in
  frac_lt (dec_frac D p) hi || (Z.even m && frac_eq (dec_frac D p) hi).

(** Nearest of [D] and [D + 1] at position [p], the even one in the middle. *)
Definition dec_nearest (m e D p : Z) : Z :=
  let '(n, d) := bin_frac (4 * m) (e - 2) in
  let '(u, v) := dec_frac 1 p in
  let two_x := 2 * (n * v) in            (* 2x against 2D + 1, over d * u *)
  let mid := (2 * D + 1) * (d * u) in
  if two_x <? mid then D
  else if mid <? two_x then D + 1
  else if Z.even D then D else D + 1.

(** Walk down the decimal positions until a neighbour of the value is close
    enough. *)
Fixpoint shortest_go (fuel : nat) (m e p : Z) : Z * Z :=
  let D := dec_floor (bin_frac (4 * m) (e - 2)) p in
  match fuel with
  | O => (D, p)
  | S fuel =>
      let down := ok_down m e D p in
      let up := ok_up m e (D + 1) p in
      if down && up then (dec_nearest m e D p, p)
      else if down then (D, p)
      else if up then (D + 1, p)
      else shortest_go fuel m e (p - 1)
  end.

(** The first position is above the leading digit of the value, and the last
    one, where the value has no further digits, is reached with this fuel. *)
Definition shortest_start (e : Z) : Z := Z.max ((53 + e) * 30103 / 100000 + 2) 1.
Definition shortest_fuel (e : Z) : nat :=
  Z.to_nat (shortest_start e - Z.min (e - 2) 0).
Definition shortest (m e : Z) : Z * Z := shortest_go (shortest_fuel e) m e (shortest_start e).

Fixpoint zeros (n : nat) : string :=
  match n with O => "" | S n => String "0"%char (zeros n) end.

(** [%f]: the digits of [D], with the point [-p] places from the right. *)
Definition fmt_F (D p : Z) : string :=
  let ds := FormatUint D in
  if 0 <=? p then (if D =? 0 then "0" else ds +:+ zeros (Z.to_nat p))
  else
    let k := Z.to_nat (- p) in
    let ds := zeros (S k - String.length ds) +:+ ds in
    str_take (String.length ds - k) ds +:+ "." +:+ str_drop (String.length ds - k) ds.

(** [%e]: one digit, the point, the others, and at least two exponent digits
    ([pad]; package [json] removes the padding zero again). *)
Definition fmt_exp (pad : bool) (x : Z) : string :=
  let ax := Z.abs x in
  String (if x <? 0 then "-" else "+")%char
    ((if pad && (ax <? 10) then "0" else "") +:+ FormatUint ax).

Definition fmt_E (pad : bool) (D p : Z) : string :=
  let ds := FormatUint D in
  let x := if D =? 0 then 0 else Z.of_nat (String.length ds) + p - 1 in
  match ds with
  | String c EmptyString => String c ("e" +:+ fmt_exp pad x)
  | String c rest => String c ("." +:+ rest +:+ "e" +:+ fmt_exp pad x)
  | EmptyString => ""
  end.

Definition with_sign (neg : bool) (s : string) : string :=
  if neg then String "-"%char s else s.

(** The decimal printed for a magnitude; zero has no digits. *)
Definition decimal_of (m e : Z) : Z * Z := if m =? 0 then (0, 0) else shortest m e.

Definition FormatFloat_with (fmt : Z -> Z -> string) (f : float64) : string :=
  match f with
  | F_nan => "NaN"
  | F_inf neg => if neg then "-Inf" else "+Inf"
  | F_fin neg m e => let '(D, p) := decimal_of m e in with_sign neg (fmt D p)
  end.

(** [FormatFloat(x, 'f', -1, 64)] *)
Definition FormatFloat_f : float64 -> string := FormatFloat_with fmt_F.

(** [%g] of package [fmt]: shortest digits, in exponent form when the decimal
    exponent is below -4 or at least 6 ([strconv] takes precision 6 for this
    decision when the precision is the shortest one). *)
Definition fmt_G (D p : Z) : string :=
  let x := if D =? 0 then -1 else Z.of_nat (String.length (FormatUint D)) + p - 1 in
  if (x <? -4) || (6 <=? x) then fmt_E true D p else fmt_F D p.

(** [fmt.Sprintf("%g", x)] *)
Definition Sprintf_g : float64 -> string := FormatFloat_with fmt_G.

(** The number format of [encoding/json]: exponent form, without the padding
    zero, below 1e-6 and from 1e21 on. *)
Definition fmt_json (D p : Z) : string :=
  let x := Z.of_nat (String.length (FormatUint D)) + p - 1 in
  if negb (D =? 0) && ((x <? -6) || (21 <=? x)) then fmt_E false D p else fmt_F D p.

Example ParseFloat_examples :
  (result_to_option ∘ ParseFloat <$> ["0x1p-2"; "1_000"; "1__0"; "+nan"; "."; "1e309"])
  = [Some (F_fin false mant_lo (-54)); Some (F_fin false 8796093022208000 (-43)); None; None; None; None].
Proof. by vm_compute. Qed.

Example FormatFloat_examples :
  (FormatFloat_f ∘ float64_of_Z <$> [0; 100; 1234567; 2 ^ 53 + 1; - 3])
    = ["0"; "100"; "1234567"; "9007199254740992"; "-3"] /\
  (Sprintf_g ∘ float64_of_Z <$> [0; 100; 123456; 1234567; - 1000000])
    = ["0"; "100"; "123456"; "1.234567e+06"; "-1e+06"] /\
  (FormatFloat_with fmt_json ∘ float64_of_Z <$> [0; 10 ^ 20; 10 ^ 21; - 123 * 10 ^ 30])
    = ["0"; "100000000000000000000"; "1e+21"; "-1.23e+32"] /\
  (FormatFloat_f <$> [F_inf true; F_inf false; F_nan; round_pow false 1 10 (-1)])
    = ["-Inf"; "+Inf"; "NaN"; "0.1"].
Proof. by vm_compute. Qed.
