(* ===== verification/GoFloatFacts.v ===== *)
(** * Facts about float64 rounding and printing

    The rounding lemma (a rational in the rounding interval of a float64 rounds
    to it), the correctness of the shortest-decimal search, and the round trip
    [ParseFloat (FormatFloat x) = x]. *)

From S2P Require Import Prelude Errors GoInt GoFloat.
Local Open Scope Z_scope.

(** ** Fractions *)

Lemma cross_le a b N K c :
  0 < b -> 0 < K -> a * K = N * b -> (c * b <= a <-> c * K <= N).
Proof. intros. split; intros; nia. Qed.

Lemma cross_lt a b N K c :
  0 < b -> 0 < K -> a * K = N * b -> (a < c * b <-> N < c * K).
Proof. intros. split; intros; nia. Qed.

Lemma cross_ge a b N K c :
  0 < b -> 0 < K -> a * K = N * b -> (a <= c * b <-> N <= c * K).
Proof. intros. split; intros; nia. Qed.

Lemma cross_eqs a b N K m :
  0 < b -> 0 < K -> a * K = N * b ->
  ((2 * m - 1) * b = 2 * a \/ 2 * a = (2 * m + 1) * b) ->
  ((2 * m - 1) * K = 2 * N \/ 2 * N = (2 * m + 1) * K).
Proof. intros ??? [?|?]; [left|right]; nia. Qed.

Lemma scaled_pos n d e a b : 0 < d -> scaled n d e = (a, b) -> 0 < b.
Proof.
  unfold scaled. intros Hd H. case_match eqn:He; simplify_eq; [|done].
  apply Z.leb_le in He. pose proof (Z.pow_pos_nonneg 2 e). nia.
Qed.

(** [scaled] measures [n / d] in units of [2^e]: its relation to the units of
    [2^s] for a smaller [s]. *)
Lemma scaled_units n d e s k a b :
  scaled n d e = (a, b) -> 0 <= k -> s = e - k ->
  a * (2 ^ k * ((bin_frac 1 s).1 * d)) = n * (bin_frac 1 s).2 * b.
Proof.
  unfold scaled, bin_frac. intros H Hk ->.
  destruct (Z.leb_spec 0 e), (Z.leb_spec 0 (e - k)); injection H as <- <-; cbn [fst snd].
  - replace (2 ^ e) with (2 ^ (e - k) * 2 ^ k) by (rewrite <- Z.pow_add_r; [f_equal|..]; lia). ring.
  - replace (2 ^ k) with (2 ^ (- (e - k)) * 2 ^ e) by (rewrite <- Z.pow_add_r; [f_equal|..]; lia). ring.
  - lia.
  - replace (2 ^ (- (e - k))) with (2 ^ (- e) * 2 ^ k) by (rewrite <- Z.pow_add_r; [f_equal|..]; lia). ring.
Qed.

Lemma bin_frac_pos s : 0 < (bin_frac 1 s).1 /\ 0 < (bin_frac 1 s).2.
Proof.
  unfold bin_frac. destruct (Z.leb_spec 0 s); cbn [fst snd]; split; lia.
Qed.

Lemma bin_frac_mul c s : bin_frac c s = (c * (bin_frac 1 s).1, (bin_frac 1 s).2).
Proof. unfold bin_frac. destruct (0 <=? s); cbn [fst snd]; f_equal; lia. Qed.

Lemma dec_frac_pos p : 0 < (dec_frac 1 p).1 /\ 0 < (dec_frac 1 p).2.
Proof.
  unfold dec_frac. destruct (Z.leb_spec 0 p); cbn [fst snd]; split; lia.
Qed.

Lemma dec_frac_mul D p : dec_frac D p = (D * (dec_frac 1 p).1, (dec_frac 1 p).2).
Proof. unfold dec_frac. destruct (0 <=? p); cbn [fst snd]; f_equal; lia. Qed.

(** ** The exponent of a rounding is unique *)

Lemma round_exp_unique n d e a b :
  0 < n -> 0 < d -> scaled n d e = (a, b) -> emin <= e ->
  a < mant_hi * b -> e = emin \/ mant_lo * b <= a ->
  round_exp n d = e.
Proof.
  intros Hn Hd Hsc He Hhi Hlo. unfold round_exp.
  pose proof (Z.log2_spec n Hn) as [Hn1 Hn2]. pose proof (Z.log2_spec d Hd) as [Hd1 Hd2].
  pose proof (Z.log2_nonneg n). pose proof (Z.log2_nonneg d).
  set (ln := Z.log2 n) in *. set (ld := Z.log2 d) in *.
  set (e0 := Z.max (ln - ld - 53) emin).
  assert (Hb := scaled_pos n d e a b Hd Hsc).
  assert (ln - ld - 53 <= e) as Hge.
  { unfold scaled, mant_hi in *. destruct (Z.leb_spec 0 e); simplify_eq.
    - assert (2 ^ ln < 2 ^ (54 + e + ld)) as Hp%Z.pow_lt_mono_r_iff; [|lia..].
      replace (54 + e + ld) with (53 + (e + Z.succ ld)) by lia.
      rewrite !Z.pow_add_r by lia. pose proof (Z.pow_pos_nonneg 2 e). nia.
    - assert (2 ^ (ln + - e) < 2 ^ (53 + Z.succ ld)) as Hp%Z.pow_lt_mono_r_iff; [|lia..].
      rewrite !Z.pow_add_r by lia. pose proof (Z.pow_pos_nonneg 2 (- e)). nia. }
  assert (e = e0 \/ (e = e0 + 1 /\ mant_lo * b <= a)) as [->|[-> Hlo']].
  { destruct Hlo as [->|Hlo]; [left; lia|].
    assert (e <= ln - ld - 52); [|lia].
    unfold scaled, mant_lo in *. destruct (Z.leb_spec 0 e); simplify_eq.
    - assert (2 ^ (52 + (ld + e)) < 2 ^ Z.succ ln) as Hp%Z.pow_lt_mono_r_iff; [|lia..].
      rewrite !Z.pow_add_r by lia. pose proof (Z.pow_pos_nonneg 2 e). nia.
    - assert (2 ^ (52 + ld) < 2 ^ (Z.succ ln + - e)) as Hp%Z.pow_lt_mono_r_iff; [|lia..].
      rewrite !Z.pow_add_r by lia. pose proof (Z.pow_pos_nonneg 2 (- e)). nia. }
  - rewrite Hsc. destruct (Z.leb_spec mant_hi (a / b)) as [Hq|]; [|done].
    pose proof (Z.mul_div_le a b Hb). nia.
  - destruct (scaled n d e0) as [a0 b0] eqn:Hs0.
    assert (Hb0 := scaled_pos n d e0 a0 b0 Hd Hs0).
    pose proof (scaled_units n d e0 e0 0 a0 b0 Hs0 ltac:(lia) ltac:(lia)) as E0.
    pose proof (scaled_units n d (e0 + 1) e0 1 a b Hsc ltac:(lia) ltac:(lia)) as E1.
    destruct (bin_frac_pos e0) as [Hu Hv]. revert E0 E1 Hu Hv.
    generalize ((bin_frac 1 e0).1), ((bin_frac 1 e0).2). intros u v E0 E1 Hu Hv.
    destruct (Z.leb_spec mant_hi (a0 / b0)) as [|Hq]; [done|].
    exfalso. assert (a0 < mant_hi * b0) as Hlt by (pose proof (Z.mod_pos_bound a0 b0 Hb0);
      pose proof (Z.div_mod a0 b0 ltac:(lia)); nia).
    apply (cross_lt a0 b0 (n * v) (u * d)) in Hlt; [|nia..].
    apply (cross_le a b (n * v) (2 * (u * d))) in Hlo'; [|nia..].
    unfold mant_hi, mant_lo in *. lia.
Qed.

(** ** Rounding to the nearest *)

Lemma round_half_even_unique a b m :
  0 < b -> (2 * m - 1) * b <= 2 * a <= (2 * m + 1) * b ->
  ((2 * m - 1) * b = 2 * a \/ 2 * a = (2 * m + 1) * b -> Z.even m = true) ->
  round_half_even a b = m.
Proof.
  intros Hb [Hlo Hhi] Hev. unfold round_half_even.
  destruct (Z.le_gt_cases (m * b) a) as [Ha|Ha].
  - assert (a / b = m) as -> by (symmetry; apply Z.div_unique with (a - m * b); nia).
    replace (a mod b) with (a - m * b); [|apply Z.mod_unique with m; nia].
    destruct (Z.ltb_spec (2 * (a - m * b)) b); [done|].
    destruct (Z.ltb_spec b (2 * (a - m * b))); [nia|].
    rewrite Hev; [done|right; nia].
  - assert (a / b = m - 1) as -> by (symmetry; apply Z.div_unique with (a - (m - 1) * b); nia).
    replace (a mod b) with (a - (m - 1) * b); [|apply Z.mod_unique with (m - 1); nia].
    destruct (Z.ltb_spec (2 * (a - (m - 1) * b)) b); [nia|].
    destruct (Z.ltb_spec b (2 * (a - (m - 1) * b))); [lia|].
    rewrite Z.even_sub, Hev by (left; nia). simpl. lia.
Qed.

(** The rounding interval of [(m, e)] for the number [N / K] measured in
    quarters of the last place. *)
Definition in_interval (m e N K : Z) : Prop :=
  (ulp_lo m e * K < N \/ (Z.even m = true /\ ulp_lo m e * K = N)) /\
  (N < (4 * m + 2) * K \/ (Z.even m = true /\ N = (4 * m + 2) * K)).

Lemma canonical_bounds m e :
  canonical m e = true ->
  emin <= e <= emax /\ 0 <= m < mant_hi /\ (e = emin \/ mant_lo <= m).
Proof.
  unfold canonical, emin, emax, mant_lo, mant_hi.
  rewrite orb_true_iff, !andb_true_iff, Z.eqb_eq, !Z.leb_le, !Z.ltb_lt. lia.
Qed.

(** A rational in the rounding interval of a float64 rounds to it. *)
Lemma round_rat_interval neg n d m e :
  0 < n -> 0 < d -> canonical m e = true -> 0 < m ->
  in_interval m e (n * (bin_frac 1 (e - 2)).2) ((bin_frac 1 (e - 2)).1 * d) ->
  round_rat neg n d = F_fin neg m e.
Proof.
  intros Hn Hd (He & Hm & Hcan)%canonical_bounds Hm0 [Hlo Hhi].
  unfold round_rat. destruct (Z.eqb_spec n 0); [lia|].
  destruct (scaled n d e) as [a b] eqn:Hs. assert (Hb := scaled_pos _ _ _ _ _ Hd Hs).
  pose proof (scaled_units n d e (e - 2) 2 a b Hs ltac:(lia) ltac:(lia)) as E.
  destruct (scaled n d (e - 1)) as [a' b'] eqn:Hs'. assert (Hb' := scaled_pos _ _ _ _ _ Hd Hs').
  pose proof (scaled_units n d (e - 1) (e - 2) 1 a' b' Hs' ltac:(lia) ltac:(lia)) as E'.
  destruct (bin_frac_pos (e - 2)) as [Hu Hv].
  remember (n * (bin_frac 1 (e - 2)).2) as N eqn:HN.
  remember ((bin_frac 1 (e - 2)).1 * d) as K eqn:HK.
  assert (0 < K) by nia. assert (0 < N) by nia. clear HN HK Hu Hv.
  change (2 ^ 2) with 4 in E. change (2 ^ 1) with 2 in E'.
  destruct (Z.le_gt_cases (4 * m * K) N) as [HN|HN]; [|destruct ((m =? mant_lo) && (emin <? e)) eqn:Hbd].
  - rewrite (round_exp_unique n d e a b), Hs, (round_half_even_unique a b m); try done.
    + destruct (Z.eqb_spec m mant_hi); [lia|]. destruct (Z.ltb_spec emax e); [lia|done].
    + split; [apply (cross_le _ _ (2 * N) (4 * K))|apply (cross_ge _ _ (2 * N) (4 * K))]; nia.
    + intros Heq%(cross_eqs a b N (4 * K)); [|nia..]. destruct Hhi as [?|[? _]]; [nia|done].
    + lia.
    + apply (cross_lt _ _ N (4 * K)); nia.
    + destruct Hcan; [by left|right]. apply (cross_le _ _ N (4 * K)); nia.
  - unfold ulp_lo in Hlo. rewrite Hbd in Hlo.
    apply andb_true_iff in Hbd as [->%Z.eqb_eq Hem%Z.ltb_lt].
    assert (mant_hi = 2 * mant_lo) as H2 by done.
    rewrite (round_exp_unique n d (e - 1) a' b'), Hs', (round_half_even_unique a' b' mant_hi); try done.
    + rewrite Z.eqb_refl. destruct (Z.ltb_spec emax (e - 1 + 1)); [lia|]. f_equal. lia.
    + split; [apply (cross_le _ _ (2 * N) (2 * K))|apply (cross_ge _ _ (2 * N) (2 * K))]; nia.
    + lia.
    + apply (cross_lt _ _ N (2 * K)); nia.
    + right. apply (cross_le _ _ N (2 * K)); nia.
  - unfold ulp_lo in Hlo. rewrite Hbd in Hlo.
    assert (e = emin \/ mant_lo + 1 <= m) as Hcan'.
    { apply andb_false_iff in Hbd as [?%Z.eqb_neq|?%Z.ltb_ge]; lia. }
    rewrite (round_exp_unique n d e a b), Hs, (round_half_even_unique a b m); try done.
    + destruct (Z.eqb_spec m mant_hi); [lia|]. destruct (Z.ltb_spec emax e); [lia|done].
    + split; [apply (cross_le _ _ (2 * N) (4 * K))|apply (cross_ge _ _ (2 * N) (4 * K))]; nia.
    + intros Heq%(cross_eqs a b N (4 * K)); [|nia..]. destruct Hlo as [?|[? _]]; [nia|done].
    + lia.
    + apply (cross_lt _ _ N (4 * K)); nia.
    + destruct Hcan'; [by left|right]. apply (cross_le _ _ N (4 * K)); nia.
Qed.

(** ** The shortest-decimal search stays in the rounding interval *)

Definition dec_in_interval (m e D p : Z) : Prop :=
  in_interval m e (D * (dec_frac 1 p).1 * (bin_frac 1 (e - 2)).2)
                  ((bin_frac 1 (e - 2)).1 * (dec_frac 1 p).2).

Lemma ok_down_spec m e D p :
  ok_down m e D p = true ->
  let N := D * (dec_frac 1 p).1 * (bin_frac 1 (e - 2)).2 in
  let K := (bin_frac 1 (e - 2)).1 * (dec_frac 1 p).2 in
  ulp_lo m e * K < N \/ (Z.even m = true /\ ulp_lo m e * K = N).
Proof.
  unfold ok_down, frac_lt, frac_eq. rewrite (bin_frac_mul (ulp_lo m e)), (dec_frac_mul D).
  cbn [fst snd]. rewrite orb_true_iff, andb_true_iff, Z.ltb_lt, Z.eqb_eq. cbv zeta.
  intros [?|[? ?]]; [left|right; split; [done|]]; lia.
Qed.

Lemma ok_up_spec m e D p :
  ok_up m e D p = true ->
  let N := D * (dec_frac 1 p).1 * (bin_frac 1 (e - 2)).2 in
  let K := (bin_frac 1 (e - 2)).1 * (dec_frac 1 p).2 in
  N < (4 * m + 2) * K \/ (Z.even m = true /\ N = (4 * m + 2) * K).
Proof.
  unfold ok_up, frac_lt, frac_eq. rewrite (bin_frac_mul (4 * m + 2)), (dec_frac_mul D).
  cbn [fst snd]. rewrite orb_true_iff, andb_true_iff, Z.ltb_lt, Z.eqb_eq. cbv zeta.
  intros [?|[? ?]]; [left|right; split; [done|]]; lia.
Qed.

Lemma dec_floor_spec m e p :
  let D := dec_floor (bin_frac (4 * m) (e - 2)) p in
  let X := (dec_frac 1 p).1 * (bin_frac 1 (e - 2)).2 in
  let K := (bin_frac 1 (e - 2)).1 * (dec_frac 1 p).2 in
  0 < X /\ 0 < K /\ D * X <= 4 * m * K < (D + 1) * X.
Proof.
  cbv zeta. unfold dec_floor. rewrite (bin_frac_mul (4 * m)).
  destruct (bin_frac_pos (e - 2)) as [Hu Hv], (dec_frac_pos p) as [Hx Hy].
  destruct (dec_frac 1 p) as [x y]. cbn [fst snd] in *.
  set (u := (bin_frac 1 (e - 2)).1) in *. set (v := (bin_frac 1 (e - 2)).2) in *.
  assert (0 < v * x) as Hvx by nia.
  pose proof (Z.div_mod (4 * m * u * y) (v * x) ltac:(lia)) as Hdm.
  pose proof (Z.mod_pos_bound (4 * m * u * y) (v * x) Hvx).
  assert (0 < x * v /\ 0 < u * y) as [? ?] by nia.
  split_and!; [done|done|nia|nia].
Qed.

(** At the last position the value has no more digits. *)
Lemma dec_floor_exact m e :
  let p := Z.min (e - 2) 0 in
  let D := dec_floor (bin_frac (4 * m) (e - 2)) p in
  D * (dec_frac 1 p).1 * (bin_frac 1 (e - 2)).2
  = 4 * m * ((bin_frac 1 (e - 2)).1 * (dec_frac 1 p).2).
Proof.
  cbv zeta. unfold dec_floor, bin_frac, dec_frac.
  destruct (Z.leb_spec 0 (e - 2)).
  - rewrite Z.min_r by lia. cbn [fst snd Z.leb Z.compare].
    rewrite Z.pow_0_r, !Z.mul_1_r, !Z.mul_1_l, Z.div_1_r. lia.
  - rewrite Z.min_l by lia. rewrite (proj2 (Z.leb_gt 0 (e - 2))) by lia. cbn [fst snd].
    replace (10 ^ (- (e - 2))) with (2 ^ (- (e - 2)) * 5 ^ (- (e - 2)))
      by (rewrite <- Z.pow_mul_l; done).
    pose proof (Z.pow_pos_nonneg 2 (- (e - 2)) ltac:(lia) ltac:(lia)) as H2.
    rewrite !Z.mul_1_r, !Z.mul_1_l.
    replace (4 * m * (2 ^ (- (e - 2)) * 5 ^ (- (e - 2))))
      with (4 * m * 5 ^ (- (e - 2)) * 2 ^ (- (e - 2))) by ring.
    rewrite Z.div_mul by lia. ring.
Qed.

Lemma shortest_go_spec fuel m e p :
  0 < m -> p - Z.of_nat fuel = Z.min (e - 2) 0 ->
  let '(D, q) := shortest_go fuel m e p in 0 < D /\ dec_in_interval m e D q.
Proof.
  intros Hm. revert p. induction fuel as [|fuel IH]; intros p Hp.
  - cbn [shortest_go]. replace p with (Z.min (e - 2) 0) by lia.
    pose proof (dec_floor_exact m e) as Hex.
    destruct (dec_floor_spec m e (Z.min (e - 2) 0)) as (HX & HK & _).
    cbv zeta in *. unfold dec_in_interval, in_interval. rewrite Hex.
    revert Hex HX HK. generalize (dec_floor (bin_frac (4 * m) (e - 2)) (Z.min (e - 2) 0)).
    intros D Hex HX HK. split; [nia|]. unfold ulp_lo. split; left; [case_match|]; nia.
  - destruct (dec_floor_spec m e p) as (HX & HK & HD1 & HD2). cbv zeta in *.
    cbn [shortest_go]. set (D := dec_floor _ p) in *. clearbody D.
    assert (0 < ulp_lo m e) as Hlo by (unfold ulp_lo; case_match; lia).
    assert (dec_in_interval m e D p -> 0 < D) as Hpos.
    { intros [[?|[? ?]] _]; nia. }
    assert (ok_down m e D p = true -> dec_in_interval m e D p) as Hdown.
    { intros Hd. split; [by apply ok_down_spec|left; nia]. }
    assert (ok_up m e (D + 1) p = true -> dec_in_interval m e (D + 1) p) as Hup.
    { intros Hd. split; [left; unfold ulp_lo; case_match; nia|by apply ok_up_spec]. }
    assert (0 < D + 1) by nia.
    destruct (ok_down m e D p), (ok_up m e (D + 1) p); simpl; try by eauto.
    + assert (dec_nearest m e D p = D \/ dec_nearest m e D p = D + 1) as [->| ->]; [|by eauto..].
      unfold dec_nearest. repeat case_match; auto.
    + apply IH. lia.
Qed.

Lemma shortest_spec m e :
  0 < m -> let '(D, q) := shortest m e in 0 < D /\ dec_in_interval m e D q.
Proof.
  intros Hm. apply shortest_go_spec; [done|].
  unfold shortest_fuel, shortest_start. lia.
Qed.

(** Reading the shortest decimal gives back the value. *)
Lemma round_pow_shortest neg m e :
  canonical m e = true -> 0 < m ->
  let '(D, p) := shortest m e in round_pow neg D 10 p = F_fin neg m e.
Proof.
  intros Hc Hm. pose proof (shortest_spec m e Hm) as Hs.
  destruct (shortest m e) as [D p]. destruct Hs as [HD Hs].
  assert (round_pow neg D 10 p = round_rat neg (dec_frac D p).1 (dec_frac D p).2) as ->.
  { unfold round_pow, dec_frac. by destruct (0 <=? p). }
  destruct (dec_frac_pos p). rewrite dec_frac_mul. cbn [fst snd].
  apply round_rat_interval; [nia|done..].
Qed.

(** ** Reading printed text *)

Lemma digits_value_zeros k n : digits_value (zeros k) n = Some (n * 10 ^ Z.of_nat k).
Proof.
  revert n. induction k as [|k IH]; intros n; [by rewrite Z.mul_1_r|].
  cbn [zeros digits_value]. replace (digit_of "0"%char) with (Some 0) by done. simpl.
  rewrite IH. f_equal. replace (Z.of_nat (S k)) with (1 + Z.of_nat k) by lia.
  rewrite Z.pow_add_r by lia. lia.
Qed.

Lemma length_zeros k : String.length (zeros k) = k.
Proof. induction k; simpl; congruence. Qed.

(** The mantissa loop over a run of digits. *)
Lemma scan_digits c ds rest m fr dot b under v :
  digits_value (String c ds) m = Some v ->
  scan_mantissa false (String c ds +:+ rest) (Scan m fr dot b under)
  = scan_mantissa false rest
      (Scan v (if dot then fr + Z.of_nat (String.length (String c ds)) else fr) dot true under).
Proof.
  revert c m fr b. induction ds as [|c' ds IH]; intros c m fr b Hv;
    cbn [digits_value] in Hv; destruct (digit_of c) as [d|] eqn:Hc; try done; simpl in Hv.
  all: rewrite string_app_cons; cbn [scan_mantissa]; unfold base_digit; rewrite Hc;
    rewrite !bool_decide_false by (by eapply digit_of_ne).
  - simplify_eq. cbn [String.length]. destruct dot; do 2 f_equal; lia.
  - rewrite (IH c' (m * 10 + d)); [|exact Hv]. destruct dot; do 2 f_equal. cbn [String.length]. lia.
Qed.

Lemma lower_digit c d : digit_of c = Some d -> lower_char c = c.
Proof.
  intros Hc. unfold lower_char, digit_of in *. case_match eqn:E; [|done]. simplify_eq.
  case_match; [|done]. lia.
Qed.

Lemma special_digit neg c d s :
  digit_of c = Some d -> special (with_sign neg (String c s)) = None.
Proof.
  intros Hc. pose proof (lower_digit c d Hc) as Hl.
  assert (c <> "n"%char /\ c <> "i"%char /\ c <> "+"%char /\ c <> "-"%char) as (? & ? & ? & ?).
  { split_and!; by eapply digit_of_ne. }
  unfold special. destruct neg; cbn [with_sign lower_string]; rewrite Hl;
    try (replace (lower_char "-"%char) with "-"%char by done);
    rewrite !bool_decide_false; try done;
    rewrite ?elem_of_cons, ?elem_of_nil; intuition congruence.
Qed.

Lemma split_sign_digit neg c d s :
  digit_of c = Some d -> split_sign (with_sign neg (String c s)) = (neg, String c s).
Proof.
  intros Hc. destruct neg; [done|]. rewrite (digit_of_inv c d) by done.
  apply digit_char_no_sign. by eapply digit_of_range.
Qed.

Lemma split_hex_false c c' s : lower_char c' <> "x"%char ->
  split_hex (String c (String c' s)) = (false, String c (String c' s)).
Proof. intros. destruct s; simpl; [done|]. rewrite bool_decide_false; [done|]. by intros [_ ?]. Qed.

Lemma lower_digit_x c d : digit_of c = Some d -> lower_char c <> "x"%char.
Proof. intros Hc. rewrite (lower_digit c d) by done. by eapply digit_of_ne. Qed.

(** A text of decimal digits [a], with an optional fraction [b], denotes the
    number its digits spell. *)
Lemma readFloat_int neg c a v :
  digits_value (String c a) 0 = Some v ->
  readFloat (with_sign neg (String c a)) = Some (neg, v, 0, false).
Proof.
  intros Hv. assert (is_Some (digit_of c)) as [d Hc].
  { simpl in Hv. by destruct (digit_of c). }
  assert (split_hex (String c a) = (false, String c a)) as Hh.
  { destruct a as [|c' a]; [done|]. apply split_hex_false. simpl in Hv. rewrite Hc in Hv. simpl in Hv.
    destruct (digit_of c') as [d'|] eqn:Hc'; [|done]. by eapply lower_digit_x. }
  unfold readFloat. rewrite (split_sign_digit neg c d a) by done. rewrite Hh.
  rewrite <- (string_app_nil_r (String c a)) at 1.
  rewrite (scan_digits c a "" 0 0 false false false v) by done. done.
Qed.

Lemma readFloat_frac neg c a c' b va v :
  digits_value (String c a) 0 = Some va -> digits_value (String c' b) va = Some v ->
  readFloat (with_sign neg (String c a +:+ "." +:+ String c' b))
  = Some (neg, v, - Z.of_nat (String.length (String c' b)), false).
Proof.
  intros Ha Hb. assert (is_Some (digit_of c)) as [d Hc].
  { simpl in Ha. by destruct (digit_of c). }
  unfold readFloat. rewrite string_app_cons, (split_sign_digit neg c d) by done.
  assert (forall s, split_hex (String c (a +:+ "." +:+ s)) = (false, String c (a +:+ "." +:+ s))) as ->.
  { intros s. destruct a as [|c2 a]; [by apply split_hex_false|]. apply split_hex_false.
    simpl in Ha. rewrite Hc in Ha. simpl in Ha.
    destruct (digit_of c2) as [d2|] eqn:Hc2; [|done]. by eapply lower_digit_x. }
  rewrite <- string_app_cons, (scan_digits c a _ 0 0 false false false va) by done.
  rewrite string_app_cons. cbn [scan_mantissa]. rewrite bool_decide_false by done.
  rewrite bool_decide_true by done.
  change ("" +:+ String c' b) with (String c' b).
  rewrite <- (string_app_nil_r (String c' b)).
  rewrite (scan_digits c' b "" va 0 true true false v) by done. rewrite string_app_nil_r.
  cbn [scan_mantissa negb read_exponent]. done.
Qed.

(** What [readFloat] sees of a number printed with [%f]. *)
Lemma readFloat_fmt_F neg D p :
  0 < D ->
  readFloat (with_sign neg (fmt_F D p)) =
    Some (neg, if 0 <=? p then D * 10 ^ p else D, if 0 <=? p then 0 else p, false).
Proof.
  intros HD. destruct (FormatUint_first D) as (d & s & Hs & _); [lia|].
  pose proof (FormatUint_value D ltac:(lia)) as Hv. unfold fmt_F.
  destruct (Z.leb_spec 0 p) as [Hp|Hp].
  - destruct (Z.eqb_spec D 0); [lia|]. rewrite Hs, string_app_cons. apply readFloat_int.
    rewrite <- string_app_cons, <- Hs, digits_value_app, Hv. simpl.
    rewrite digits_value_zeros, Z2Nat.id by done. done.
  - set (k := Z.to_nat (- p)).
    set (ds := zeros (S k - String.length (FormatUint D)) +:+ FormatUint D).
    assert (String.length ds >= S k)%nat as Hlen.
    { unfold ds. rewrite string_length_app, length_zeros. lia. }
    assert (digits_value ds 0 = Some D) as Hds.
    { unfold ds. rewrite digits_value_app, digits_value_zeros. exact Hv. }
    clearbody ds. set (j := (String.length ds - k)%nat).
    rewrite <- (str_take_drop j ds), digits_value_app in Hds.
    pose proof (str_take_length j ds ltac:(lia)) as Ht. pose proof (str_drop_length j ds) as Hd.
    destruct (str_take j ds) as [|c a]; [simpl in Ht; lia|].
    destruct (str_drop j ds) as [|c' b]; [simpl in Hd; lia|].
    destruct (digits_value (String c a) 0) as [va|] eqn:Ha; [|done]. simpl in Hds.
    rewrite (readFloat_frac neg c a c' b va D) by done. do 3 f_equal. lia.
Qed.

Lemma fmt_F_digit D p : 0 <= D -> exists c d s, fmt_F D p = String c s /\ digit_of c = Some d.
Proof.
  intros HD. destruct (FormatUint_first D) as (d & s & Hs & Hd); [lia|].
  pose proof (FormatUint_value D ltac:(lia)) as Hv. unfold fmt_F. destruct (0 <=? p) eqn:Hp.
  - case_match; [by eexists "0"%char, 0, _|].
    rewrite Hs, string_app_cons. by eexists _, d, _; rewrite digit_of_char.
  - set (k := Z.to_nat (- p)).
    set (ds := zeros (S k - String.length (FormatUint D)) +:+ FormatUint D).
    assert (String.length ds >= S k)%nat as Hlen.
    { unfold ds. rewrite string_length_app, length_zeros. lia. }
    assert (digits_value ds 0 = Some D) as Hds.
    { unfold ds. rewrite digits_value_app, digits_value_zeros. exact Hv. }
    clearbody ds. destruct ds as [|c ds]; [simpl in Hlen; lia|].
    simpl in Hds. destruct (digit_of c) as [d'|] eqn:Hc; [|done].
    replace (String.length (String c ds) - k)%nat with (S (String.length ds - k)) by (simpl in *; lia).
    by eexists c, d', _.
Qed.

Lemma canonical_zero e : canonical 0 e = true -> e = emin.
Proof. intros (_ & _ & [?|?])%canonical_bounds; [done|]. by unfold mant_lo in *. Qed.

(** Reading what [FormatFloat(x, 'f', -1, 64)] prints gives back [x], for every
    float64: zeros with their sign, infinities and NaN included. *)
Lemma ParseFloat_FormatFloat_f f :
  valid_float f = true -> ParseFloat (FormatFloat_f f) = Ok f.
Proof.
  destruct f as [|neg|neg m e]; [done|by destruct neg|]. intros Hc. simpl in Hc.
  pose proof (canonical_bounds m e Hc) as (_ & Hm & _).
  unfold FormatFloat_f, FormatFloat_with, decimal_of. destruct (Z.eqb_spec m 0) as [->|].
  { apply canonical_zero in Hc as ->. by destruct neg. }
  pose proof (round_pow_shortest neg m e Hc ltac:(lia)) as Hr.
  pose proof (shortest_spec m e ltac:(lia)) as Hs. destruct (shortest m e) as [D p].
  destruct Hs as [HD _]. unfold ParseFloat.
  destruct (fmt_F_digit D p) as (c & d & s & Heq & Hd); [lia|].
  rewrite Heq, (special_digit neg c d s), <- Heq, readFloat_fmt_F by done.
  assert (round_pow neg (if 0 <=? p then D * 10 ^ p else D) 10 (if 0 <=? p then 0 else p)
          = F_fin neg m e) as ->; [|done].
  rewrite <- Hr. unfold round_pow. destruct (0 <=? p) eqn:Hp; [|by rewrite Hp].
  simpl. by rewrite Z.mul_1_r.
Qed.

#[export] Hint Resolve ParseFloat_FormatFloat_f : go.

(** ** Exponent form *)

Lemma dec_digits_length fuel n acc :
  (String.length (dec_digits fuel n acc) <= fuel + String.length acc)%nat.
Proof.
  revert n acc. induction fuel as [|fuel IH]; intros n acc; [simpl; lia|].
  cbn [dec_digits]. case_match; [simpl; lia|]. etrans; [apply IH|]. simpl. lia.
Qed.

Lemma shortest_go_range fuel m e p :
  p - Z.of_nat fuel <= (shortest_go fuel m e p).2 <= p.
Proof.
  revert p. induction fuel as [|fuel IH]; intros p; cbn [shortest_go]; [simpl; lia|].
  repeat case_match; cbn [snd]; try lia. pose proof (IH (p - 1)). lia.
Qed.

Lemma shortest_exp_bound m e :
  canonical m e = true -> 0 < m ->
  let '(D, p) := shortest m e in
  -10000 < Z.of_nat (String.length (FormatUint D)) + p - 1 < 10000.
Proof.
  intros Hc Hm. pose proof (canonical_bounds m e Hc) as (He & Hm' & _).
  pose proof (shortest_spec m e Hm) as Hs.
  pose proof (shortest_go_range (shortest_fuel e) m e (shortest_start e)) as Hp.
  fold (shortest m e) in Hp. destruct (shortest m e) as [D p]. destruct Hs as [HD [_ Hi]].
  unfold shortest_fuel, shortest_start, emin, emax in *. cbn [snd] in Hp.
  assert ((53 + e) * 30103 / 100000 <= 309) by (apply Z.div_le_upper_bound; lia).
  assert (-1077 < p < 400) as Hpb by (clear Hi; lia). clear Hp.
  unfold FormatUint. pose proof (dec_digits_length (S (Z.to_nat (Z.log2 D))) D "") as Hl.
  cbn [String.length] in Hl. revert Hl. generalize (String.length (dec_digits (S (Z.to_nat (Z.log2 D))) D "")).
  intros len Hl. pose proof (Z.log2_nonneg D). assert (Z.log2 D < 6000) as HlD; [|lia].
  apply Z.log2_lt_pow2; [done|].
  destruct (bin_frac_pos (e - 2)) as [Hu Hv], (dec_frac_pos p) as [Hx Hy].
  assert ((bin_frac 1 (e - 2)).1 <= 2 ^ 969) as Hu'.
  { unfold bin_frac. case_match; cbn [fst]; [|lia]. rewrite Z.mul_1_l. apply Z.pow_le_mono_r; lia. }
  assert ((dec_frac 1 p).2 <= 2 ^ (4 * 1077)) as Hy'.
  { unfold dec_frac. case_match; cbn [snd]; [lia|].
    trans (16 ^ (- p)); [apply Z.pow_le_mono_l; lia|].
    rewrite Z.pow_mul_r by lia. change (2 ^ 4) with 16. apply Z.pow_le_mono_r; lia. }
  assert (D <= (4 * m + 2) * ((bin_frac 1 (e - 2)).1 * (dec_frac 1 p).2)) as HDb.
  { assert (D * 1 <= D * ((dec_frac 1 p).1 * (bin_frac 1 (e - 2)).2))
      by (apply Z.mul_le_mono_nonneg_l; nia). rewrite Z.mul_assoc in *. destruct Hi as [?|[_ ?]]; lia. }
  assert ((bin_frac 1 (e - 2)).1 * (dec_frac 1 p).2 <= 2 ^ 969 * 2 ^ (4 * 1077)) by (apply Z.mul_le_mono_nonneg; lia).
  assert (4 * m + 2 <= 2 ^ 56) by (unfold mant_hi in *; lia).
  assert (D <= 2 ^ 56 * (2 ^ 969 * 2 ^ (4 * 1077))).
  { etrans; [exact HDb|]. apply Z.mul_le_mono_nonneg; lia. }
  rewrite <- !Z.pow_add_r in * by lia. eapply Z.le_lt_trans; [eassumption|].
  apply Z.pow_lt_mono_r; lia.
Qed.

Lemma scan_exponent_digits ds e under v :
  0 <= e -> digits_value ds e = Some v -> v < 10000 ->
  scan_exponent ds e under = (v, under, "").
Proof.
  revert e. induction ds as [|c ds IH]; intros e He Hv Hb; cbn [digits_value] in Hv; [by simplify_eq|].
  destruct (digit_of c) as [d|] eqn:Hc; simpl in Hv; [|done]. cbn [scan_exponent].
  rewrite bool_decide_false by (by eapply digit_of_ne). rewrite Hc.
  pose proof (digit_of_range c d Hc).
  assert (e * 10 + d <= v) by (eapply digits_value_mono; [|exact Hv]; lia).
  destruct (Z.ltb_spec e 10000); [|lia]. apply IH; [lia|done..].
Qed.

Lemma read_exponent_fmt pad x under :
  -10000 < x < 10000 ->
  read_exponent false ("e" +:+ fmt_exp pad x) under = Some (x, under, "").
Proof.
  intros Hx. unfold fmt_exp. set (ds := (if pad && _ then "0" else "") +:+ FormatUint (Z.abs x)).
  assert (digits_value ds 0 = Some (Z.abs x)) as Hds.
  { unfold ds. rewrite digits_value_app. pose proof (FormatUint_value (Z.abs x) ltac:(lia)).
    by destruct (pad && _). }
  assert (ds <> "") as Hne.
  { unfold ds. destruct (FormatUint_first (Z.abs x)) as (d & s & -> & _); [lia|]. by destruct (pad && _). }
  clearbody ds. destruct ds as [|c ds]; [done|].
  pose proof (scan_exponent_digits (String c ds) 0 under (Z.abs x) ltac:(lia) Hds ltac:(lia)) as Hsc.
  assert (is_Some (digit_of c)) as [d Hc].
  { cbn [digits_value] in Hds. by destruct (digit_of c). }
  rewrite string_app_cons. cbn [read_exponent].
  rewrite bool_decide_true by done. destruct (Z.ltb_spec x 0).
  - change ("" +:+ String "-"%char (String c ds)) with (String "-"%char (String c ds)).
    cbv iota beta. rewrite Hc, Hsc. do 3 f_equal. lia.
  - change ("" +:+ String "+"%char (String c ds)) with (String "+"%char (String c ds)).
    cbv iota beta. rewrite Hc, Hsc. do 3 f_equal. lia.
Qed.

Lemma e_app s : "e" +:+ s = String "e"%char s.
Proof. done. Qed.

Lemma dot_app s : "." +:+ s = String "."%char s.
Proof. done. Qed.

Lemma one_app c s : String c s = String c "" +:+ s.
Proof. done. Qed.

Lemma scan_mantissa_e s st : scan_mantissa false (String "e"%char s) st = (st, String "e"%char s).
Proof. by destruct st. Qed.

Lemma fmt_E_digit pad D p : 0 <= D -> exists c d s, fmt_E pad D p = String c s /\ digit_of c = Some d.
Proof.
  intros HD. destruct (FormatUint_first D) as (d & s & Hs & Hd); [lia|].
  unfold fmt_E. rewrite Hs. destruct s; eexists _, d, _; by rewrite digit_of_char.
Qed.

(** What [readFloat] sees of a number printed with [%e]. *)
Lemma readFloat_fmt_E neg pad D p :
  0 < D -> -10000 < Z.of_nat (String.length (FormatUint D)) + p - 1 < 10000 ->
  readFloat (with_sign neg (fmt_E pad D p)) = Some (neg, D, p, false).
Proof.
  intros HD Hx. destruct (FormatUint_first D) as (d & s & Hs & Hd); [lia|].
  pose proof (FormatUint_value D ltac:(lia)) as Hv. unfold fmt_E.
  destruct (Z.eqb_spec D 0); [lia|]. rewrite Hs in *. set (c := digit_char d) in *.
  assert (digit_of c = Some d) as Hc by (by apply digit_of_char). clearbody c. clear Hs.
  destruct s as [|c' s]; unfold readFloat; rewrite (split_sign_digit neg c d) by done.
  - cbn [String.length] in *.
    set (x := Z.of_nat 1 + p - 1) in *. rewrite e_app, split_hex_false by done.
    change (String c (String "e" (fmt_exp pad x))) with (String c "" +:+ String "e" (fmt_exp pad x)).
    rewrite (scan_digits c "" _ 0 0 false false false D), scan_mantissa_e by done.
    cbn [negb]. rewrite <- e_app.
    rewrite read_exponent_fmt by done. simpl. do 3 f_equal. lia.
  - set (x := Z.of_nat (String.length (String c (String c' s))) + p - 1) in *.
    rewrite dot_app, split_hex_false by done.
    cbn [digits_value] in Hv. rewrite Hc in Hv. simpl in Hv.
    rewrite (one_app c (String "." _)).
    rewrite (scan_digits c "" _ 0 0 false false false d); [|simpl; by rewrite Hc].
    cbn [scan_mantissa]. rewrite bool_decide_false by done. rewrite bool_decide_true by done.
    rewrite (scan_digits c' s _ d 0 true true false D) by done.
    rewrite e_app, scan_mantissa_e. cbn [negb]. rewrite <- e_app.
    rewrite read_exponent_fmt by done. simpl. do 3 f_equal. unfold x. cbn [String.length]. lia.
Qed.

(** Any format that prints a number in one of the two forms reads back, for
    every float64. *)
Lemma ParseFloat_FormatFloat_with fmt f :
  (forall D p, fmt D p = fmt_F D p \/ D <> 0 /\ exists pad, fmt D p = fmt_E pad D p) ->
  valid_float f = true -> ParseFloat (FormatFloat_with fmt f) = Ok f.
Proof.
  intros Hfmt Hc. pose proof (ParseFloat_FormatFloat_f f Hc) as Hf. revert Hf.
  unfold FormatFloat_f, FormatFloat_with. destruct f as [| |neg m e]; [done..|].
  pose proof (canonical_bounds m e Hc) as (_ & Hm & _). unfold decimal_of.
  destruct (Z.eqb_spec m 0) as [->|]; intros Hf.
  { destruct (Hfmt 0 0) as [->|[? _]]; [exact Hf|done]. }
  pose proof (round_pow_shortest neg m e Hc ltac:(lia)) as Hr.
  pose proof (shortest_spec m e ltac:(lia)) as Hs.
  pose proof (shortest_exp_bound m e Hc ltac:(lia)) as Hb.
  destruct (shortest m e) as [D p]. destruct Hs as [HD _].
  destruct (Hfmt D p) as [->|[_ [pad ->]]]; [exact Hf|].
  destruct (fmt_E_digit pad D p) as (c & d & s & Heq & Hd); [lia|].
  unfold ParseFloat. rewrite Heq, (special_digit neg c d s), <- Heq, readFloat_fmt_E by done.
  by rewrite Hr.
Qed.

Lemma ParseFloat_Sprintf_g f : valid_float f = true -> ParseFloat (Sprintf_g f) = Ok f.
Proof.
  apply ParseFloat_FormatFloat_with. intros D p. unfold fmt_G.
  destruct (Z.eqb_spec D 0) as [->|]; [by left|]. case_match; eauto.
Qed.

Lemma ParseFloat_json f : valid_float f = true -> ParseFloat (FormatFloat_with fmt_json f) = Ok f.
Proof.
  apply ParseFloat_FormatFloat_with. intros D p. unfold fmt_json.
  destruct (Z.eqb_spec D 0) as [->|]; [by left|]. case_match; eauto.
Qed.

#[export] Hint Resolve ParseFloat_Sprintf_g ParseFloat_json : go.

(** ** Every rounding is a float64 *)

Lemma round_half_even_range a b :
  0 < b -> a / b <= round_half_even a b <= a / b + 1.
Proof. intros. unfold round_half_even. repeat case_match; lia. Qed.

Lemma round_exp_spec n d a b :
  0 < n -> 0 < d -> scaled n d (round_exp n d) = (a, b) ->
  emin <= round_exp n d /\ a < mant_hi * b /\ (round_exp n d = emin \/ mant_lo * b <= a).
Proof.
  intros Hn Hd. unfold round_exp.
  pose proof (Z.log2_spec n Hn) as [Hn1 Hn2]. pose proof (Z.log2_spec d Hd) as [Hd1 Hd2].
  pose proof (Z.log2_nonneg n). pose proof (Z.log2_nonneg d).
  set (ln := Z.log2 n) in *. set (ld := Z.log2 d) in *.
  set (e0 := Z.max (ln - ld - 53) emin).
  destruct (scaled n d e0) as [a0 b0] eqn:Hs0. assert (Hb0 := scaled_pos n d e0 a0 b0 Hd Hs0).
  assert (a0 < 2 ^ 54 * b0 /\ (e0 = emin \/ mant_lo * b0 <= a0)) as [Hhi Hlo].
  { unfold scaled, mant_lo in *. destruct (Z.leb_spec 0 e0); injection Hs0 as <- <-.
    - assert (2 ^ Z.succ ln <= 2 ^ 54 * (2 ^ ld * 2 ^ e0)) by
        (rewrite <- !Z.pow_add_r by lia; apply Z.pow_le_mono_r; lia).
      pose proof (Z.pow_pos_nonneg 2 e0). split; [nia|].
      destruct (Z.eq_dec e0 emin); [by left|right].
      assert (2 ^ 52 * (2 ^ Z.succ ld * 2 ^ e0) <= 2 ^ ln) by
        (rewrite <- !Z.pow_add_r by lia; apply Z.pow_le_mono_r; lia). nia.
    - assert (2 ^ Z.succ ln * 2 ^ (- e0) <= 2 ^ 54 * 2 ^ ld) by
        (rewrite <- !Z.pow_add_r by lia; apply Z.pow_le_mono_r; lia).
      pose proof (Z.pow_pos_nonneg 2 (- e0)). split; [nia|].
      destruct (Z.eq_dec e0 emin); [by left|right].
      assert (2 ^ 52 * 2 ^ Z.succ ld <= 2 ^ ln * 2 ^ (- e0)) by
        (rewrite <- !Z.pow_add_r by lia; apply Z.pow_le_mono_r; lia). nia. }
  pose proof (Z.mod_pos_bound a0 b0 Hb0) as Hm. pose proof (Z.div_mod a0 b0 ltac:(lia)) as Hdm.
  destruct (Z.leb_spec mant_hi (a0 / b0)) as [Hq|Hq]; intros Hs.
  - assert (Hb := scaled_pos n d (e0 + 1) a b Hd Hs).
    pose proof (scaled_units n d e0 e0 0 a0 b0 Hs0 ltac:(lia) ltac:(lia)) as E0.
    pose proof (scaled_units n d (e0 + 1) e0 1 a b Hs ltac:(lia) ltac:(lia)) as E1.
    destruct (bin_frac_pos e0) as [Hu Hv]. revert E0 E1 Hu Hv.
    generalize ((bin_frac 1 e0).1), ((bin_frac 1 e0).2). intros u v E0 E1 Hu Hv.
    assert (mant_hi * b0 <= a0) as Hge by nia.
    apply (cross_le a0 b0 (n * v) (u * d)) in Hge; [|nia..].
    apply (cross_lt a0 b0 (n * v) (u * d)) in Hhi; [|nia..].
    unfold mant_hi, mant_lo in *. split; [lia|]. split.
    + apply (cross_lt a b (n * v) (2 * (u * d))); nia.
    + right. apply (cross_le a b (n * v) (2 * (u * d))); nia.
  - rewrite Hs0 in Hs. injection Hs as <- <-. split; [lia|]. split; [nia|done].
Qed.

Lemma canonical_intro m e :
  emin <= e <= emax -> 0 <= m < mant_hi -> e = emin \/ mant_lo <= m -> canonical m e = true.
Proof.
  unfold canonical, emin, emax, mant_lo, mant_hi.
  rewrite orb_true_iff, !andb_true_iff, Z.eqb_eq, !Z.leb_le, !Z.ltb_lt. lia.
Qed.

Lemma round_rat_valid neg n d : 0 <= n -> 0 < d -> valid_float (round_rat neg n d) = true.
Proof.
  intros Hn Hd. unfold round_rat. destruct (Z.eqb_spec n 0); [done|].
  destruct (scaled n d (round_exp n d)) as [a b] eqn:Hs.
  destruct (round_exp_spec n d a b) as (He & Hhi & Hlo); [lia|done|done|].
  assert (Hb := scaled_pos n d _ a b Hd Hs).
  pose proof (round_half_even_range a b Hb) as Hr.
  pose proof (Z.mod_pos_bound a b Hb) as Hm. pose proof (Z.div_mod a b ltac:(lia)) as Hdm.
  assert (0 <= a) as Ha.
  { unfold scaled in Hs. destruct (Z.leb_spec 0 (round_exp n d)); injection Hs as <- <-; [lia|].
    pose proof (Z.pow_nonneg 2 (- round_exp n d)). nia. }
  assert (0 <= a / b) by (by apply Z.div_pos).
  assert (a / b < mant_hi) by (apply Z.div_lt_upper_bound; lia).
  assert (mant_lo * b <= a -> mant_lo <= a / b) as Hlo' by (intros; apply Z.div_le_lower_bound; lia).
  revert Hr. generalize (round_half_even a b). intros q Hr.
  assert (mant_hi = 2 * mant_lo) by done. assert (0 < mant_lo) by done.
  destruct (Z.eqb_spec q mant_hi); cbv iota beta;
    (case_match eqn:Hov; [done|]); apply Z.ltb_ge in Hov; apply canonical_intro; lia.
Qed.

Lemma round_pow_valid neg m b e : 0 <= m -> 0 < b -> valid_float (round_pow neg m b e) = true.
Proof.
  intros Hm Hb. unfold round_pow. destruct (Z.leb_spec 0 e).
  - apply round_rat_valid; [|lia]. pose proof (Z.pow_nonneg b e). nia.
  - apply round_rat_valid; [done|]. apply Z.pow_pos_nonneg; lia.
Qed.

Lemma base_digit_nonneg hex c d : base_digit hex c = Some d -> 0 <= d.
Proof.
  unfold base_digit. intros H. destruct (digit_of c) eqn:Hc.
  - simplify_eq. apply digit_of_range in Hc. lia.
  - case_match eqn:E; simplify_eq. lia.
Qed.

Lemma scan_mantissa_nonneg hex s st : 0 <= sc_mant st -> 0 <= sc_mant (scan_mantissa hex s st).1.
Proof.
  revert st. induction s as [|c s IH]; intros [m fr dot dg un] Hm; [done|]. cbn [scan_mantissa].
  repeat case_match; simpl in *; try done; apply IH; simpl; try done;
    match goal with H : base_digit _ _ = Some _ |- _ => apply base_digit_nonneg in H end; lia.
Qed.

(** Whatever [ParseFloat] accepts is a binary64 value. *)
Lemma ParseFloat_valid s f : ParseFloat s = Ok f -> valid_float f = true.
Proof.
  unfold ParseFloat. destruct (special s) as [f'|] eqn:Hsp.
  { intros [= <-]. unfold special in Hsp. by repeat case_match; simplify_eq. }
  destruct (readFloat s) as [[[[neg m] e] hex]|] eqn:Hr; [|done].
  assert (0 <= m) as Hm.
  { unfold readFloat in Hr. destruct (split_sign s) as [ng b], (split_hex b) as [hx b'].
    pose proof (scan_mantissa_nonneg hx b' (Scan 0 0 false false false) ltac:(done)) as Hs.
    destruct (scan_mantissa hx b' _) as [[m' fr dot dg un] rest]. simpl in Hs.
    destruct dg; [|done]. simpl in Hr.
    destruct (read_exponent hx rest un) as [[[e' un'] rest']|]; [|done]. simpl in Hr.
    destruct rest'; [|done]. case_match; [done|]. by simplify_eq. }
  pose proof (round_pow_valid neg m (if hex then 2 else 10) e Hm ltac:(by destruct hex)) as Hv.
  by destruct (round_pow _ _ _ _); intros; simplify_eq.
Qed.

#[export] Hint Resolve ParseFloat_valid round_rat_valid : go.
