(* ===== verification/Model.v ===== *)
(** * internal/model: the wire representation of a metric *)

From S2P Require Import Prelude Errors GoInt GoFloat.

(** Metric type identifiers used in URLs and JSON payloads. *)
Definition Counter : string := "counter".
Definition Gauge : string := "gauge".

(** [Metrics]: the pointer fields are options.  The program allocates the cells
    they point to afresh and never writes through them, so no aliasing can be
    observed. *)
Record Metrics := MkMetrics {
  ID : string;
  MType : string;
  Delta : option Z;
  Value : option float64;
  Hash : string
}.

#[export] Instance Metrics_eq_dec : EqDecision Metrics.
Proof. solve_decision. Defined.

(** The composite literals [model.Metrics{ID: .., MType: model.Gauge, Value: &v}]
    and [model.Metrics{ID: .., MType: model.Counter, Delta: &d}]. *)
Definition gauge_metric (name : string) (v : float64) : Metrics :=
  MkMetrics name Gauge None (Some v) "".
Definition counter_metric (name : string) (d : Z) : Metrics :=
  MkMetrics name Counter (Some d) None "".

(** The fields hold values of their Go types. *)
Definition valid_metric (m : Metrics) : bool :=
  match Delta m with Some d => in_int64 d | None => true end &&
  match Value m with Some v => valid_float v | None => true end.

Lemma gauge_counter_ne : Gauge <> Counter.
Proof. done. Qed.

#[export] Hint Resolve gauge_counter_ne : go.
