(* ===== verification/GoJson.v ===== *)
(** * encoding/json

    The part of package [encoding/json] the program uses, at the level of texts:
    the scanner with its nesting limit, strings with escapes, surrogates and
    invalid UTF-8, number literals, the compact and the indented printer, and
    decoding and encoding of [model.Metrics]. *)

From S2P Require Import Prelude Errors GoInt GoStrings GoFloat GoFloatFacts Model.

(** A JSON value; numbers keep their literal, strings are decoded. *)
#[warnings="-register-all"]
Inductive json :=
| JNull
| JBool (b : bool)
| JNum (lit : string)
| JStr (s : string)
| JArr (l : list json)
| JObj (l : list (string * json)).

(** ** Scanning *)

(** The text ends inside a value, or a character is not allowed. *)
Inductive scan_error := Truncated | Invalid.
Abbreviation scan A := (result scan_error (A * string)).

Definition is_ws (c : Ascii.ascii) : bool :=
  let z := char_code c in ((z =? 32) || (z =? 9) || (z =? 10) || (z =? 13))%Z.

Fixpoint skip_ws (s : string) : string :=
  match s with String c s' => if is_ws c then skip_ws s' else s | EmptyString => s end.

Definition is_digit (c : Ascii.ascii) : bool := in_range 48 57 (char_code c).

(** The longest prefix of digits. *)
Fixpoint span_digits (s : string) : string * string :=
  match s with
  | String c s' => if is_digit c then let '(a, b) := span_digits s' in (String c a, b) else ("", s)
  | EmptyString => ("", "")
  end.

(** One or more digits. *)
Definition scan_digits1 (s : string) : scan string :=
  match s with
  | EmptyString => Err Truncated
  | String c _ => if is_digit c then Ok (span_digits s) else Err Invalid
  end.

(** A character, if it comes next. *)
Definition scan_opt (p : Ascii.ascii -> bool) (s : string) : string * string :=
  match s with
  | String c s' => if p c then (String c "", s') else ("", s)
  | EmptyString => ("", "")
  end.

Definition is_char (a c : Ascii.ascii) : bool := bool_decide (c = a).
Definition is_e (c : Ascii.ascii) : bool := is_char "e"%char c || is_char "E"%char c.
Definition is_sign (c : Ascii.ascii) : bool := is_char "+"%char c || is_char "-"%char c.

Definition scan_int (s : string) : scan string :=
  match s with
  | String c s' => if is_char "0"%char c then Ok ("0", s') else scan_digits1 s
  | EmptyString => Err Truncated
  end.

Definition scan_frac (s : string) : scan string :=
  match scan_opt (is_char "."%char) s with
  | (EmptyString, s) => Ok ("", s)
  | (dot, s) => '(ds, s) ← scan_digits1 s; Ok (dot +:+ ds, s)
  end.

Definition scan_exp (s : string) : scan string :=
  match scan_opt is_e s with
  | (EmptyString, s) => Ok ("", s)
  | (e, s) => let '(sg, s) := scan_opt is_sign s in '(ds, s) ← scan_digits1 s; Ok (e +:+ sg +:+ ds, s)
  end.

Definition scan_number (s : string) : scan string :=
  let '(sg, s) := scan_opt (is_char "-"%char) s in
  '(i, s) ← scan_int s; '(f, s) ← scan_frac s; '(e, s) ← scan_exp s;
  Ok (sg +:+ i +:+ f +:+ e, s).

Fixpoint scan_literal (lit s : string) : result scan_error string :=
  match lit, s with
  | EmptyString, _ => Ok s
  | String _ _, EmptyString => Err Truncated
  | String c lit, String c' s => if bool_decide (c = c') then scan_literal lit s else Err Invalid
  end.

Definition hex_val (c : Ascii.ascii) : option Z :=
  let z := char_code c in
  if in_range 48 57 z then Some (z - 48)%Z
  else if in_range 97 102 z then Some (z - 87)%Z
  else if in_range 65 70 z then Some (z - 55)%Z
  else None.

(** [n] hexadecimal digits, most significant first. *)
Fixpoint scan_hex (n : nat) (acc : Z) (s : string) : scan Z :=
  match n, s with
  | O, _ => Ok (acc, s)
  | S _, EmptyString => Err Truncated
  | S n, String c s =>
      match hex_val c with Some d => scan_hex n (acc * 16 + d)%Z s | None => Err Invalid end
  end.

(** [\u] with four digits at the start of [s]. *)
Definition scan_u4 (s : string) : option (Z * string) :=
  if HasPrefix s (esc "u") then result_to_option (scan_hex 4 0 (str_drop 2 s)) else None.

(** [utf16.DecodeRune] *)
Definition surrogate_pair (r1 r2 : Z) : option Z :=
  if in_range 0xD800 0xDBFF r1 && in_range 0xDC00 0xDFFF r2 then
    Some ((Z.lor (Z.shiftl (r1 - 0xD800) 10) (r2 - 0xDC00)) + 0x10000)%Z
  else None.

(** The characters after a backslash other than [u]. *)
Definition simple_escape (c : Ascii.ascii) : option Ascii.ascii :=
  let z := char_code c in
  if ((z =? 34) || (z =? 92) || (z =? 47))%Z then Some c
  else if is_char "b"%char c then Some (char_of 8)
  else if is_char "f"%char c then Some (char_of 12)
  else if is_char "n"%char c then Some (char_of 10)
  else if is_char "r"%char c then Some (char_of 13)
  else if is_char "t"%char c then Some (char_of 9)
  else None.

(** The rest of a string literal after the opening quote, decoded. *)
Fixpoint scan_string (fuel : nat) (s : string) : scan string :=
  match fuel with
  | O => Err Invalid
  | S fuel =>
      let emit t s := '(rest, s) ← scan_string fuel s; Ok (t +:+ rest, s) in
      match s with
      | EmptyString => Err Truncated
      | String c s' =>
          if is_char dquote c then Ok ("", s')
          else if is_char backslash c then
            match s' with
            | EmptyString => Err Truncated
            | String e s'' =>
                if is_char "u"%char e then
                  '(r, s) ← scan_hex 4 0 s'';
                  if in_range 0xD800 0xDFFF r then
                    match scan_u4 s with
                    | Some (r2, s2) =>
                        match surrogate_pair r r2 with
                        | Some r => emit (EncodeRune r) s2
                        | None => emit replacement s
                        end
                    | None => emit replacement s
                    end
                  else emit (EncodeRune r) s
                else match simple_escape e with Some x => emit (String x "") s'' | None => Err Invalid end
            end
          else if (char_code c <? 0x20)%Z then Err Invalid
          else let '(r, w) := DecodeRune s in emit (sanitize_chunk (r, str_take w s)) (str_drop w s)
      end
  end.

Definition scan_str (s : string) : scan string := scan_string (S (String.length s)) s.

Definition maxNestingDepth : Z := 10000.

(** A value, the members of an object and the elements of an array, inside [d]
    open brackets. *)
Fixpoint scan_value (fuel : nat) (d : Z) (s : string) : scan json :=
  match fuel with
  | O => Err Invalid
  | S fuel =>
      match skip_ws s with
      | EmptyString => Err Truncated
      | String c s' as s0 =>
          if is_char "{"%char c then
            if (maxNestingDepth <=? d)%Z then Err Invalid else
            match skip_ws s' with
            | EmptyString => Err Truncated
            | String c' s'' => if is_char "}"%char c' then Ok (JObj [], s'')
                               else '(l, s) ← scan_members fuel (d + 1) s'; Ok (JObj l, s)
            end
          else if is_char "["%char c then
            if (maxNestingDepth <=? d)%Z then Err Invalid else
            match skip_ws s' with
            | EmptyString => Err Truncated
            | String c' s'' => if is_char "]"%char c' then Ok (JArr [], s'')
                               else '(l, s) ← scan_elements fuel (d + 1) s'; Ok (JArr l, s)
            end
          else if is_char dquote c then '(t, s) ← scan_str s'; Ok (JStr t, s)
          else if is_char "t"%char c then s ← scan_literal "true" s0; Ok (JBool true, s)
          else if is_char "f"%char c then s ← scan_literal "false" s0; Ok (JBool false, s)
          else if is_char "n"%char c then s ← scan_literal "null" s0; Ok (JNull, s)
          else if is_char "-"%char c || is_digit c then '(n, s) ← scan_number s0; Ok (JNum n, s)
          else Err Invalid
      end
  end
with scan_members (fuel : nat) (d : Z) (s : string) : scan (list (string * json)) :=
  match fuel with
  | O => Err Invalid
  | S fuel =>
      match skip_ws s with
      | EmptyString => Err Truncated
      | String c s =>
          if is_char dquote c then
            '(k, s) ← scan_str s;
            match skip_ws s with
            | EmptyString => Err Truncated
            | String c s =>
                if is_char ":"%char c then
                  '(v, s) ← scan_value fuel d s;
                  match skip_ws s with
                  | EmptyString => Err Truncated
                  | String c s =>
                      if is_char ","%char c then '(l, s) ← scan_members fuel d s; Ok ((k, v) :: l, s)
                      else if is_char "}"%char c then Ok ([(k, v)], s)
                      else Err Invalid
                  end
                else Err Invalid
            end
          else Err Invalid
      end
  end
with scan_elements (fuel : nat) (d : Z) (s : string) : scan (list json) :=
  match fuel with
  | O => Err Invalid
  | S fuel =>
      '(v, s) ← scan_value fuel d s;
      match skip_ws s with
      | EmptyString => Err Truncated
      | String c s =>
          if is_char ","%char c then '(l, s) ← scan_elements fuel d s; Ok (v :: l, s)
          else if is_char "]"%char c then Ok ([v], s)
          else Err Invalid
      end
  end.

(** Every call of [scan_value], [scan_members] and [scan_elements] is followed by
    a character consumed or by a call of another of the three. *)
Definition scan_fuel (s : string) : nat := 2 * String.length s + 2.
Definition scan_json (s : string) : scan json := scan_value (scan_fuel s) 0 s.

(** ** Printing *)

Definition html_safe (r : Z) : bool :=
  (0x20 <=? r)%Z && negb ((r =? 34) || (r =? 92) || (r =? 60) || (r =? 62) || (r =? 38))%Z.

(** [appendString] with HTML escaping. *)
Definition print_chunk (x : Z * string) : string :=
  let '(r, b) := x in
  if bad_chunk x then esc "ufffd"
  else if (r <? 0x80)%Z then
    if html_safe r then b
    else if (r =? 34)%Z || (r =? 92)%Z then esc b
    else if (r =? 8)%Z then esc "b" else if (r =? 12)%Z then esc "f" else if (r =? 10)%Z then esc "n"
    else if (r =? 13)%Z then esc "r" else if (r =? 9)%Z then esc "t"
    else esc ("u" +:+ hex_digits 4 r)
  else if (r =? 0x2028)%Z || (r =? 0x2029)%Z then esc ("u" +:+ hex_digits 4 r)
  else b.

Definition print_str (s : string) : string :=
  String dquote (concat_strings (print_chunk <$> chunks s) +:+ String dquote "").

(** A printer is given the white space it puts at the start of a line at each
    depth and after a colon. *)
Record layout := MkLayout { line_start : nat -> string; after_colon : string }.

Definition compact : layout := MkLayout (fun _ => "") "".

Fixpoint spaces (n : nat) : string :=
  match n with O => "" | S n => String " "%char (spaces n) end.

(** [MarshalIndent(v, "", "  ")] *)
Definition indented : layout :=
  MkLayout (fun d => String (char_of 10) (spaces (2 * d))) " ".

(** The items of an array or object at depth [d], one per line. *)
Fixpoint print_items (lay : layout) (d : nat) (items : list string) : string :=
  match items with
  | [] => ""
  | [x] => x
  | x :: items => x +:+ "," +:+ line_start lay d +:+ print_items lay d items
  end.

Definition print_block (lay : layout) (d : nat) (opening closing : string) (items : list string) : string :=
  match items with
  | [] => opening +:+ closing
  | _ => opening +:+ line_start lay (S d) +:+ print_items lay (S d) items +:+ line_start lay d +:+ closing
  end.

Fixpoint print_json (lay : layout) (d : nat) (j : json) : string :=
  match j with
  | JNull => "null"
  | JBool b => if b then "true" else "false"
  | JNum lit => lit
  | JStr s => print_str s
  | JArr l => print_block lay d "[" "]" (map (print_json lay (S d)) l)
  | JObj l => print_block lay d "{" "}"
      (map (fun '(k, v) => print_str k +:+ ":" +:+ after_colon lay +:+ print_json lay (S d) v) l)
  end.

(** ** model.Metrics as JSON *)

(** The value of a field with [omitempty]: nil pointers and empty strings are
    left out.  NaN and the infinities have no JSON form. *)
Definition float_json (v : float64) : res json :=
  match v with
  | F_fin _ _ _ => Ok (JNum (FormatFloat_with fmt_json v))
  | F_nan | F_inf _ => Err (ErrorText ("json: unsupported value: " +:+ FormatFloat_f v))
  end.

Definition delta_members (d : option Z) : list (string * json) :=
  match d with None => [] | Some d => [("delta", JNum (FormatInt d))] end.
Definition value_members (v : option float64) : res (list (string * json)) :=
  match v with None => Ok [] | Some v => j ← float_json v; Ok [("value", j)] end.
Definition hash_members (h : string) : list (string * json) :=
  if bool_decide (h = "") then [] else [("hash", JStr h)].

Definition metric_json (m : Metrics) : res json :=
  value ← value_members (Value m);
  Ok (JObj ([("id", JStr (ID m)); ("type", JStr (MType m))]
    ++ delta_members (Delta m) ++ value ++ hash_members (Hash m))).

Fixpoint metrics_json (ms : list Metrics) : res (list json) :=
  match ms with
  | [] => Ok []
  | m :: ms => j ← metric_json m; js ← metrics_json ms; Ok (j :: js)
  end.

(** [json.Marshal] and [Encoder.Encode] of one metric; [json.Marshal] and
    [json.MarshalIndent] of a slice that is not nil. *)
Definition Marshal_metric (m : Metrics) : res string := print_json compact 0 <$> metric_json m.
Definition Encode_metric (m : Metrics) : res string :=
  (fun s => s +:+ String (char_of 10) "") <$> Marshal_metric m.
Definition Marshal_metrics (ms : list Metrics) : res string :=
  (fun js => print_json compact 0 (JArr js)) <$> metrics_json ms.
Definition MarshalIndent_metrics (ms : list Metrics) : res string :=
  (fun js => print_json indented 0 (JArr js)) <$> metrics_json ms.

(** The wording of the package's errors is not modelled. *)
Class JsonErrorText := {
  SyntaxError_text : string -> string;
  UnmarshalTypeError_text : json -> string -> string
}.

Inductive field := FID | FType | FDelta | FValue | FHash.

(** [foldName], as far as the names of the fields are concerned: ASCII letters
    and the two other runes whose case folds to an ASCII letter. *)
Definition fold_chunk (x : Z * string) : string :=
  let '(r, b) := x in
  if in_range 97 122 r then String (char_of (r - 32)) ""
  else if (r =? 0x17F)%Z then "S"
  else if (r =? 0x212A)%Z then "K"
  else b.
Definition fold_key (k : string) : string := concat_strings (fold_chunk <$> chunks k).

(** No two fields have names that fold to the same text, so looking for the exact
    name first, as the code does, finds the same field. *)
Definition find_field (k : string) : option field :=
  let k := fold_key k in
  if bool_decide (k = "ID") then Some FID
  else if bool_decide (k = "TYPE") then Some FType
  else if bool_decide (k = "DELTA") then Some FDelta
  else if bool_decide (k = "VALUE") then Some FValue
  else if bool_decide (k = "HASH") then Some FHash
  else None.

Section Decode.
Context `{JsonErrorText}.

Definition type_error (v : json) (ty : string) : error := ErrorText (UnmarshalTypeError_text v ty).

Definition decode_string (v : json) (old : string) : string * option error :=
  match v with
  | JStr s => (s, None)
  | JNull => (old, None)
  | _ => (old, Some (type_error v "string"))
  end.

(** A pointer field: [null] makes it nil, anything else allocates the cell. *)
Definition decode_ptr {A} (conv : string -> res A) (zero : A) (ty : string) (v : json) (old : option A)
    : option A * option error :=
  match v with
  | JNull => (None, None)
  | JNum lit =>
      match conv lit with
      | Ok a => (Some a, None)
      | Err _ => (Some (default zero old), Some (type_error v ty))
      end
  | _ => (Some (default zero old), Some (type_error v ty))
  end.

Definition set_field (f : field) (v : json) (m : Metrics) : Metrics * option error :=
  let '(MkMetrics id ty d x h) := m in
  match f with
  | FID => let '(id, e) := decode_string v id in (MkMetrics id ty d x h, e)
  | FType => let '(ty, e) := decode_string v ty in (MkMetrics id ty d x h, e)
  | FDelta => let '(d, e) := decode_ptr (ParseInt "ParseInt") 0%Z "int64" v d in (MkMetrics id ty d x h, e)
  | FValue => let '(x, e) := decode_ptr ParseFloat (float64_of_Z 0) "float64" v x in (MkMetrics id ty d x h, e)
  | FHash => let '(h, e) := decode_string v h in (MkMetrics id ty d x h, e)
  end.

(** [saveError] keeps the first error; decoding goes on. *)
Definition save (saved e : option error) : option error :=
  match saved with Some _ => saved | None => e end.

Fixpoint decode_members (l : list (string * json)) (m : Metrics) (saved : option error)
    : Metrics * option error :=
  match l with
  | [] => (m, saved)
  | (k, v) :: l =>
      match find_field k with
      | None => decode_members l m saved
      | Some f => let '(m, e) := set_field f v m in decode_members l m (save saved e)
      end
  end.

Definition zero_metric : Metrics := MkMetrics "" "" None None "".

(** Into a zero struct. *)
Definition decode_metric (v : json) : Metrics * option error :=
  match v with
  | JNull => (zero_metric, None)
  | JObj l => decode_members l zero_metric None
  | _ => (zero_metric, Some (type_error v "model.Metrics"))
  end.

Fixpoint decode_elements (l : list json) (saved : option error) : list Metrics * option error :=
  match l with
  | [] => ([], saved)
  | v :: l =>
      let '(m, e) := decode_metric v in
      let '(ms, e) := decode_elements l (save saved e) in
      (m :: ms, e)
  end.

Definition decode_metrics (v : json) : list Metrics * option error :=
  match v with
  | JNull => ([], None)
  | JArr l => decode_elements l None
  | _ => ([], Some (type_error v "[]model.Metrics"))
  end.

Definition finish {A} (x : A * option error) : res A :=
  match x with (a, None) => Ok a | (_, Some e) => Err e end.

(** A request body: its bytes, and the error reading ends with when it is not
    the end of the body. *)
Record body := MkBody { bytes : string; read_error : option error }.

(** The first value of a stream, as [Decoder.Decode] reads it; what follows is
    not looked at. *)
Definition read_value (b : body) : res json :=
  match scan_json (bytes b) with
  | Ok (v, rest) =>
      match v, rest, read_error b with
      | JObj _, _, _ | JArr _, _, _ => Ok v
      | _, EmptyString, Some e => Err e        (* the end of a scalar is seen one byte late *)
      | _, _, _ => Ok v
      end
  | Err Invalid => Err (ErrorText (SyntaxError_text (bytes b)))
  | Err Truncated =>
      match read_error b with
      | Some e => Err e
      | None => Err (Sentinel (if bool_decide (skip_ws (bytes b) = "") then sEOF else sErrUnexpectedEOF))
      end
  end.

Definition Decode_metric (b : body) : res Metrics := v ← read_value b; finish (decode_metric v).
Definition Decode_metrics (b : body) : res (list Metrics) := v ← read_value b; finish (decode_metrics v).

(** [json.Unmarshal(data, &metrics)]: one value and nothing else. *)
Definition Unmarshal_metrics (data : string) : res (list Metrics) :=
  match scan_json data with
  | Ok (v, rest) =>
      if bool_decide (skip_ws rest = "") then finish (decode_metrics v)
      else Err (ErrorText (SyntaxError_text data))
  | Err _ => Err (ErrorText (SyntaxError_text data))
  end.
End Decode.

(** ** Strings read back *)

Lemma scan_hex_app n acc (s : string) t v rest :
  scan_hex n acc s = Ok (v, rest) -> scan_hex n acc (s +:+ t) = Ok (v, rest +:+ t).
Proof.
  revert acc s. induction n as [|n IH]; intros acc s; cbn; [by intros [= -> ->]|].
  destruct s as [|c s]; [done|]. rewrite string_app_cons. destruct (hex_val c); [apply IH|done].
Qed.

Definition emit (fuel : nat) (b t : string) : scan string :=
  '(rest, u) ← scan_string fuel t; Ok (b +:+ rest, u).

Lemma scan_ascii c t fuel :
  (char_code c < 0x80)%Z ->
  scan_string (S fuel) (print_chunk (char_code c, String c "") +:+ t) = emit fuel (String c "") t.
Proof.
  intros Hc. destruct c as [[] [] [] [] [] [] [] []]; try (by vm_compute in Hc); reflexivity.
Qed.

Lemma scan_escaped r t fuel :
  r = 0x2028%Z \/ r = 0x2029%Z ->
  scan_string (S fuel) (esc ("u" +:+ hex_digits 4 r) +:+ t) = emit fuel (EncodeRune r) t.
Proof. by intros [-> | ->]. Qed.

(** A chunk beyond ASCII is copied. *)
Lemma scan_copied s t fuel :
  s <> "" -> DecodeRune s <> (RuneError, 1) -> (0x80 <= (DecodeRune s).1)%Z ->
  scan_string (S fuel) (str_take (DecodeRune s).2 s +:+ t) = emit fuel (str_take (DecodeRune s).2 s) t.
Proof.
  intros Hs Hb Hr. pose proof (DecodeRune_width s Hs) as [Hw Hl].
  pose proof (DecodeRune_prefix s t Hs Hb) as Hp.
  assert (String.length (str_take (DecodeRune s).2 s) = (DecodeRune s).2) as Hlen by (by apply str_take_length).
  set (b := str_take _ s) in *. destruct s as [|c s]; [done|].
  assert (exists b', b = String c b') as [b' Hb'].
  { subst b. destruct (DecodeRune (String c s)).2; [lia|]. by eexists. }
  assert (0x80 <= char_code c)%Z as Hc.
  { apply Z.nlt_ge. intros Hc. rewrite DecodeRune_ascii in Hr by done. cbn in Hr. lia. }
  assert (is_char dquote c = false) as Hq.
  { apply bool_decide_false. intros ->. by vm_compute in Hc. }
  assert (is_char backslash c = false) as Hbs.
  { apply bool_decide_false. intros ->. by vm_compute in Hc. }
  rewrite Hb' in Hp |- *. rewrite string_app_cons in Hp |- *. cbn [scan_string].
  rewrite Hq, Hbs, (proj2 (Z.ltb_ge _ _)) by lia. rewrite Hp, (surjective_pairing (DecodeRune _)).
  rewrite <- string_app_cons, <- Hb'. rewrite str_take_app, str_drop_app by done.
  assert (sanitize_chunk ((DecodeRune (String c s)).1, b) = b) as ->; [|done].
  unfold sanitize_chunk. subst b. by rewrite bad_chunk_first, bool_decide_false.
Qed.

(** One step of the scanner, on what the printer writes for the first chunk. *)
Lemma scan_chunk s t fuel :
  s <> "" ->
  let x := ((DecodeRune s).1, str_take (DecodeRune s).2 s) in
  scan_string (S fuel) (print_chunk x +:+ t) = emit fuel (sanitize_chunk x) t.
Proof.
  intros Hs x. subst x. destruct (decide (DecodeRune s = (RuneError, 1))) as [Hb|Hb].
  { unfold print_chunk, sanitize_chunk. rewrite bad_chunk_first, bool_decide_true by done.
    change (esc "ufffd" +:+ t) with (String backslash (String "u"%char ("fffd" +:+ t))).
    cbn [scan_string]. by rewrite (scan_hex_app 4 0 "fffd" t 0xFFFD "" eq_refl). }
  assert (sanitize_chunk ((DecodeRune s).1, str_take (DecodeRune s).2 s) = str_take (DecodeRune s).2 s) as ->
    by (unfold sanitize_chunk; by rewrite bad_chunk_first, bool_decide_false).
  destruct (Z.lt_ge_cases (DecodeRune s).1 0x80) as [Hlt|Hge].
  { destruct (DecodeRune_low s Hs Hlt) as (c & s' & -> & Hc & ->). cbn [fst snd str_take].
    by apply scan_ascii. }
  unfold print_chunk at 1. rewrite bad_chunk_first, bool_decide_false, (proj2 (Z.ltb_ge _ _)) by done.
  destruct ((_ =? 0x2028)%Z || (_ =? 0x2029)%Z) eqn:Hu.
  - rewrite scan_escaped by (apply orb_true_iff in Hu as [?%Z.eqb_eq|?%Z.eqb_eq]; auto).
    by rewrite DecodeRune_encode.
  - by apply scan_copied.
Qed.

Lemma print_chunk_nonempty x : snd x <> "" -> 1 <= String.length (print_chunk x).
Proof.
  destruct x as [r b]. cbn. intros Hb. unfold print_chunk.
  repeat case_match; cbn; try lia; destruct b; cbn; done || lia.
Qed.

Lemma scan_string_print s rest fuel :
  String.length (concat_strings (print_chunk <$> chunks s)) < fuel ->
  scan_string fuel (concat_strings (print_chunk <$> chunks s) +:+ String dquote rest) = Ok (sanitize s, rest).
Proof.
  revert fuel. induction s as [|s Hs IH] using chunks_ind; intros fuel; [by destruct fuel; cbn; [lia|]|].
  rewrite chunks_cons, sanitize_cons by done. cbn [fmap list_fmap concat_strings foldr].
  fold (concat_strings (print_chunk <$> chunks (str_drop (DecodeRune s).2 s))).
  rewrite string_length_app, string_app_assoc. intros Hf.
  assert (1 <= String.length (print_chunk ((DecodeRune s).1, str_take (DecodeRune s).2 s))) as Hlen.
  { apply print_chunk_nonempty. cbn. pose proof (DecodeRune_width s Hs) as [Hw Hl].
    pose proof (str_take_length _ _ Hl). intros He. rewrite He in *. cbn in *. lia. }
  destruct fuel as [|fuel]; [lia|]. rewrite scan_chunk by done. unfold emit. rewrite IH by lia. done.
Qed.

Lemma scan_str_print s rest :
  exists body, print_str s +:+ rest = String dquote body /\ scan_str body = Ok (sanitize s, rest).
Proof.
  eexists. unfold print_str. rewrite string_app_cons, string_app_assoc. split; [done|].
  unfold scan_str. apply scan_string_print. rewrite string_length_app. lia.
Qed.

(** ** Numbers read back *)

Fixpoint all_digits (s : string) : bool :=
  match s with EmptyString => true | String c s => is_digit c && all_digits s end.

(** The next character does not continue a number. *)
Definition starts_with (p : Ascii.ascii -> bool) (s : string) : bool :=
  match s with EmptyString => false | String c _ => p c end.
Definition num_end (s : string) : bool :=
  negb (starts_with (fun c => is_digit c || is_char "."%char c || is_e c) s).

Definition int_part (i : string) : Prop :=
  i = "0" \/ exists c s, i = String c s /\ is_char "0"%char c = false /\ all_digits i = true.
Definition digits1 (s : string) : Prop := s <> "" /\ all_digits s = true.
Definition frac_part (f : string) : Prop := f = "" \/ exists ds, f = "." +:+ ds /\ digits1 ds.
Definition exp_part (e : string) : Prop :=
  e = "" \/ exists sg ds, e = "e" +:+ sg +:+ ds /\ (sg = "+" \/ sg = "-") /\ digits1 ds.

Lemma span_digits_app ds rest :
  all_digits ds = true -> starts_with is_digit rest = false -> span_digits (ds +:+ rest) = (ds, rest).
Proof.
  intros Hds Hr. induction ds as [|c ds IH]; cbn in Hds.
  - destruct rest as [|c rest]; [done|]. cbn in Hr. change ("" +:+ String c rest) with (String c rest).
    cbn. by rewrite Hr.
  - apply andb_true_iff in Hds as [Hc Hds]. rewrite string_app_cons. cbn. by rewrite Hc, (IH Hds).
Qed.

Lemma scan_digits1_app ds rest :
  digits1 ds -> starts_with is_digit rest = false -> scan_digits1 (ds +:+ rest) = Ok (ds, rest).
Proof.
  intros [Hne Hds] Hr. pose proof (span_digits_app ds rest Hds Hr) as Hs. destruct ds as [|c ds]; [done|].
  cbn in Hds. apply andb_true_iff in Hds as [Hc _]. rewrite string_app_cons in *. unfold scan_digits1.
  by rewrite Hc, Hs.
Qed.

Lemma num_end_spec rest :
  num_end rest = true ->
  starts_with is_digit rest = false /\ starts_with (is_char "."%char) rest = false /\ starts_with is_e rest = false.
Proof.
  unfold num_end. intros Hn%negb_true_iff. destruct rest as [|c rest]; [done|]. cbn in *.
  apply orb_false_iff in Hn as [[??]%orb_false_iff ?]. done.
Qed.

Lemma scan_opt_none p s : starts_with p s = false -> scan_opt p s = ("", s).
Proof. destruct s as [|c s]; [done|]. cbn. by intros ->. Qed.

Lemma exp_starts e rest : exp_part e -> num_end rest = true ->
  starts_with is_digit (e +:+ rest) = false /\ starts_with (is_char "."%char) (e +:+ rest) = false.
Proof.
  intros [->|(sg & ds & -> & _)] Hr; [|split; reflexivity].
  destruct (num_end_spec rest Hr) as (? & ? & _). done.
Qed.

Lemma frac_starts f e rest : frac_part f -> exp_part e -> num_end rest = true ->
  starts_with is_digit (f +:+ e +:+ rest) = false.
Proof.
  intros [->|(ds & -> & _)] He Hr; [exact (proj1 (exp_starts e rest He Hr))|reflexivity].
Qed.

Lemma scan_exp_app e rest : exp_part e -> num_end rest = true -> scan_exp (e +:+ rest) = Ok (e, rest).
Proof.
  intros [->|(sg & ds & -> & Hsg & Hds)] Hr; destruct (num_end_spec rest Hr) as (Hd & _ & He); unfold scan_exp.
  - change ("" +:+ rest) with rest. by rewrite scan_opt_none.
  - rewrite !string_app_assoc. change ("e" +:+ sg +:+ ds +:+ rest) with (String "e"%char (sg +:+ ds +:+ rest)).
    cbn [scan_opt]. change (is_e "e"%char) with true. cbv iota.
    assert (scan_opt is_sign (sg +:+ ds +:+ rest) = (sg, ds +:+ rest)) as -> by (by destruct Hsg as [->| ->]).
    rewrite scan_digits1_app by done. done.
Qed.

Lemma scan_frac_app f e rest : frac_part f -> exp_part e -> num_end rest = true ->
  scan_frac (f +:+ e +:+ rest) = Ok (f, e +:+ rest).
Proof.
  intros [->|(ds & -> & Hds)] He Hr; destruct (exp_starts e rest He Hr) as [Hd Hdot]; unfold scan_frac.
  - change ("" +:+ e +:+ rest) with (e +:+ rest). by rewrite scan_opt_none.
  - rewrite !string_app_assoc. change ("." +:+ ds +:+ e +:+ rest) with (String "."%char (ds +:+ e +:+ rest)).
    cbn [scan_opt]. change (is_char "."%char "."%char) with true. cbv iota.
    rewrite scan_digits1_app by done. done.
Qed.

Lemma scan_int_app i rest : int_part i -> starts_with is_digit rest = false -> scan_int (i +:+ rest) = Ok (i, rest).
Proof.
  intros [->|(c & s & -> & Hc & Hds)] Hr; [done|].
  rewrite string_app_cons. unfold scan_int. rewrite Hc, <- string_app_cons. by apply scan_digits1_app.
Qed.

Lemma scan_number_app neg i f e rest :
  int_part i -> frac_part f -> exp_part e -> num_end rest = true ->
  scan_number (with_sign neg (i +:+ f +:+ e) +:+ rest) = Ok (with_sign neg (i +:+ f +:+ e), rest).
Proof.
  intros Hi Hf He Hr. unfold scan_number.
  assert (scan_opt (is_char "-"%char) (with_sign neg (i +:+ f +:+ e) +:+ rest)
    = (if neg then "-" else "", i +:+ f +:+ e +:+ rest)) as ->.
  { destruct neg; cbn [with_sign]; rewrite ?string_app_cons, !string_app_assoc; [done|].
    apply scan_opt_none. destruct Hi as [->|(c & s & -> & Hc & Hds)]; [done|].
    rewrite string_app_cons. cbn. apply bool_decide_false. intros ->. done. }
  rewrite scan_int_app by (done || by apply frac_starts). cbn.
  rewrite scan_frac_app by done. cbn. rewrite scan_exp_app by done. cbn. by destruct neg.
Qed.

(** A literal that the scanner takes as a whole. *)
Record number_lit (lit : string) : Prop := {
  number_scan rest : num_end rest = true -> scan_number (lit +:+ rest) = Ok (lit, rest);
  number_first : starts_with (fun c => is_char "-"%char c || is_digit c) lit = true
}.

Lemma number_lit_intro neg i f e :
  int_part i -> frac_part f -> exp_part e -> number_lit (with_sign neg (i +:+ f +:+ e)).
Proof.
  intros Hi Hf He. split; [intros rest; by apply scan_number_app|].
  destruct neg; [done|]. destruct Hi as [->|(c & s & -> & Hc & Hds)]; [done|]. cbn in Hds. cbn [with_sign]. rewrite string_app_cons. cbn.
  apply andb_true_iff in Hds as [-> _]. apply orb_true_r.
Qed.

Lemma digit_of_is_digit c d : digit_of c = Some d -> is_digit c = true.
Proof. unfold digit_of, is_digit. intros H. apply in_range_iff. case_match; [|done]. lia. Qed.

Lemma digits_value_all s n v : digits_value s n = Some v -> all_digits s = true.
Proof.
  revert n. induction s as [|c s IH]; intros n; [done|]. cbn.
  destruct (digit_of c) as [d|] eqn:Hd; [|done]. cbn. intros Hv. rewrite (IH _ Hv).
  by rewrite (digit_of_is_digit _ _ Hd).
Qed.

Lemma all_digits_app a b : all_digits (a +:+ b) = all_digits a && all_digits b.
Proof. induction a as [|c a IH]; [done|]. rewrite string_app_cons. cbn. by rewrite IH, andb_assoc. Qed.

Lemma all_digits_zeros n : all_digits (zeros n) = true.
Proof. induction n; [done|]. cbn. done. Qed.

Lemma FormatUint_digits n : (0 <= n)%Z -> all_digits (FormatUint n) = true.
Proof. intros Hn. by eapply digits_value_all, FormatUint_value. Qed.

Lemma dec_digits_nonzero fuel n :
  (0 < n < 10 ^ Z.of_nat fuel)%Z ->
  exists d s, dec_digits fuel n "" = String (digit_char d) s /\ (0 < d < 10)%Z.
Proof.
  revert n. induction fuel as [|fuel IH]; intros n Hn; [cbn in Hn; lia|]. cbn [dec_digits].
  destruct (Z.ltb_spec n 10).
  - rewrite Z.mod_small by lia. exists n, "". split; [done|lia].
  - rewrite dec_digits_app. replace (Z.of_nat (S fuel)) with (1 + Z.of_nat fuel)%Z in Hn by lia.
    rewrite Z.pow_add_r in Hn by lia.
    destruct (IH (n / 10)%Z) as (d & s & -> & Hd).
    { split; [apply Z.div_str_pos; lia|apply Z.div_lt_upper_bound; lia]. }
    exists d. eexists. by split.
Qed.

Lemma FormatUint_int n : (0 <= n)%Z -> int_part (FormatUint n).
Proof.
  intros Hn. destruct (decide (n = 0%Z)) as [->|Hne]; [by left|]. right.
  pose proof (FormatUint_digits n Hn) as Hall. unfold FormatUint in *.
  destruct (dec_digits_nonzero (S (Z.to_nat (Z.log2 n))) n) as (d & s & He & Hd);
    [split; [lia|by apply fuel_enough]|].
  rewrite He in *. exists (digit_char d), s. split; [done|]. split; [|done].
  apply bool_decide_false. intros Hc. apply (f_equal char_code) in Hc. unfold digit_char in Hc.
  rewrite char_code_of in Hc by lia. change (char_code "0"%char) with 48%Z in Hc. lia.
Qed.

Lemma with_sign_app neg a b : with_sign neg (a +:+ b) = with_sign neg a +:+ b.
Proof. by destruct neg. Qed.

Lemma FormatInt_lit z : number_lit (FormatInt z).
Proof.
  assert (forall n neg, (0 <= n)%Z -> number_lit (with_sign neg (FormatUint n))) as H.
  { intros n neg Hn. rewrite <- (string_app_nil_r (FormatUint n)).
    apply (number_lit_intro neg _ "" ""); [by apply FormatUint_int|by left|by left]. }
  unfold FormatInt. destruct (Z.ltb_spec z 0); [apply (H (- z)%Z true)|apply (H z false)]; lia.
Qed.

Lemma all_digits_take_drop n s :
  all_digits s = true -> all_digits (str_take n s) = true /\ all_digits (str_drop n s) = true.
Proof.
  revert s. induction n as [|n IH]; intros [|c s] Hs; cbn in *; [done..|].
  apply andb_true_iff in Hs as [-> Hs]. by apply IH.
Qed.

Lemma str_take_int n s : int_part s -> s <> "0" -> 1 <= n -> int_part (str_take n s).
Proof.
  intros [->|(c & s' & -> & Hc & Hds)] Hs Hn; [done|]. destruct n as [|n]; [lia|].
  right. exists c, (str_take n s'). split; [done|]. split; [done|].
  exact (proj1 (all_digits_take_drop (S n) _ Hds)).
Qed.

Lemma int_app_zeros s n : int_part s -> s <> "0" -> int_part (s +:+ zeros n).
Proof.
  intros [->|(c & s' & -> & Hc & Hds)] Hs; [done|]. right. exists c, (s' +:+ zeros n).
  split; [done|]. split; [done|]. by rewrite all_digits_app, Hds, all_digits_zeros.
Qed.

Lemma FormatUint_not_0 D : (0 < D)%Z -> FormatUint D <> "0".
Proof.
  intros HD He. pose proof (FormatUint_value D ltac:(lia)) as Hv. rewrite He in Hv.
  vm_compute in Hv. injection Hv. lia.
Qed.

Lemma digits1_length s : all_digits s = true -> 1 <= String.length s -> digits1 s.
Proof. intros Hs Hl. split; [|done]. by destruct s; [cbn in Hl; lia|]. Qed.

Lemma fmt_F_parts D p : (0 < D)%Z -> exists i f, fmt_F D p = i +:+ f /\ int_part i /\ frac_part f.
Proof.
  intros HD. pose proof (FormatUint_int D ltac:(lia)) as Hi. pose proof (FormatUint_not_0 D HD) as Hn0.
  pose proof (FormatUint_digits D ltac:(lia)) as Hds. unfold fmt_F. destruct (Z.leb_spec 0 p) as [Hp|Hp].
  - rewrite (proj2 (Z.eqb_neq D 0)) by lia. eexists _, "". rewrite string_app_nil_r.
    split; [done|]. split; [by apply int_app_zeros|by left].
  - set (u := FormatUint D) in *. set (k := Z.to_nat (- p)). assert (1 <= k) as Hk by lia.
    set (ds := zeros (S k - String.length u) +:+ u).
    assert (all_digits ds = true) as Had by (unfold ds; by rewrite all_digits_app, all_digits_zeros, Hds).
    assert (S k <= String.length ds) as Hl by (unfold ds; rewrite string_length_app, length_zeros; lia).
    exists (str_take (String.length ds - k) ds), ("." +:+ str_drop (String.length ds - k) ds).
    split; [done|]. split.
    + unfold ds in *. destruct (le_lt_dec (S k) (String.length u)) as [Hu|Hu].
      * replace (S k - String.length u) with 0 by lia.
        change (zeros 0 +:+ u) with u. apply str_take_int; [done..|lia].
      * left. rewrite string_length_app, length_zeros.
        replace (S k - String.length u + String.length u - k) with 1 by lia.
        by replace (S k - String.length u) with (S (k - String.length u)) by lia.
    + right. eexists. split; [done|]. apply digits1_length; [by apply all_digits_take_drop|].
      rewrite str_drop_length. lia.
Qed.

Lemma fmt_exp_part x : exp_part ("e" +:+ fmt_exp false x).
Proof.
  right. unfold fmt_exp. cbn [andb].
  exists (if (x <? 0)%Z then "-" else "+"), (FormatUint (Z.abs x)).
  split; [by destruct (x <? 0)%Z|]. split; [destruct (x <? 0)%Z; auto|].
  destruct (FormatUint_first (Z.abs x)) as (d & s & Hs & _); [lia|].
  split; [by rewrite Hs|]. apply FormatUint_digits. lia.
Qed.

Lemma fmt_E_parts D p : (0 < D)%Z ->
  exists i f e, fmt_E false D p = i +:+ f +:+ e /\ int_part i /\ frac_part f /\ exp_part e.
Proof.
  intros HD. pose proof (FormatUint_int D ltac:(lia)) as Hi. pose proof (FormatUint_not_0 D HD) as Hn0.
  pose proof (FormatUint_digits D ltac:(lia)) as Hds. unfold fmt_E. set (x := if (D =? 0)%Z then 0%Z else _).
  destruct Hi as [?|(c & s & He & Hc & _)]; [done|]. rewrite He in *.
  cbn in Hds. apply andb_true_iff in Hds as [Hcd Hds].
  assert (int_part (String c "")) as Hi by (right; exists c, ""; cbn; by rewrite Hcd).
  destruct s as [|c' s].
  - exists (String c ""), "", ("e" +:+ fmt_exp false x).
    split_and!; [done..|by left|apply fmt_exp_part].
  - exists (String c ""), ("." +:+ String c' s), ("e" +:+ fmt_exp false x).
    rewrite string_app_assoc. split_and!; [done..|right; by exists (String c' s)|apply fmt_exp_part].
Qed.

Lemma float_lit neg m e : canonical m e = true -> number_lit (FormatFloat_with fmt_json (F_fin neg m e)).
Proof.
  intros Hc. pose proof (canonical_bounds m e Hc) as (_ & Hm & _).
  unfold FormatFloat_with, decimal_of. destruct (Z.eqb_spec m 0) as [->|Hne].
  { destruct neg; [apply (number_lit_intro true "0" "" "")|apply (number_lit_intro false "0" "" "")]; by left. }
  pose proof (shortest_spec m e ltac:(lia)) as Hs. destruct (shortest m e) as [D p]. destruct Hs as [HD _].
  unfold fmt_json. case_match.
  - destruct (fmt_E_parts D p HD) as (i & f & x & -> & ? & ? & ?). by apply number_lit_intro.
  - destruct (fmt_F_parts D p HD) as (i & f & -> & ? & ?).
    rewrite <- (string_app_nil_r f). apply number_lit_intro; [done..|by left].
Qed.

#[export] Hint Resolve FormatInt_lit float_lit : go.

(** ** Values read back *)

(** Induction over values and the values inside them. *)
Section JsonInd.
Variable P : json -> Prop.
Hypothesis Hnull : P JNull.
Hypothesis Hbool : forall b, P (JBool b).
Hypothesis Hnum : forall lit, P (JNum lit).
Hypothesis Hstr : forall s, P (JStr s).
Hypothesis Harr : forall l, Forall P l -> P (JArr l).
Hypothesis Hobj : forall l, Forall (fun kv => P kv.2) l -> P (JObj l).

Fixpoint json_induction (j : json) : P j :=
  match j with
  | JNull => Hnull
  | JBool b => Hbool b
  | JNum lit => Hnum lit
  | JStr s => Hstr s
  | JArr l => Harr l ((fix go (l : list json) : Forall P l := match l with
      | [] => Forall_nil_2 _
      | x :: l => Forall_cons_2 _ x l (json_induction x) (go l) end) l)
  | JObj l => Hobj l ((fix go (l : list (string * json)) : Forall (fun kv => P kv.2) l := match l with
      | [] => Forall_nil_2 _
      | (k, v) :: l => Forall_cons_2 _ (k, v) l (json_induction v) (go l) end) l)
  end.
End JsonInd.

(** The brackets around the innermost value, the calls the scanner makes, the
    condition that numbers are literals, and what reading makes of a value:
    invalid bytes in strings are replaced. *)
Fixpoint depth (j : json) : nat :=
  match j with
  | JArr l => S (max_list (map depth l))
  | JObj l => S (max_list (map (fun kv => depth kv.2) l))
  | _ => 0
  end.

Fixpoint calls (j : json) : nat :=
  match j with
  | JArr l => S (sum_list (map (fun x => S (calls x)) l))
  | JObj l => S (sum_list (map (fun kv => S (calls kv.2)) l))
  | _ => 1
  end.

Fixpoint lits_ok (j : json) : Prop :=
  match j with
  | JNum lit => number_lit lit
  | JArr l => foldr (fun x Q => lits_ok x /\ Q) True l
  | JObj l => foldr (fun kv Q => lits_ok kv.2 /\ Q) True l
  | _ => True
  end.

Fixpoint sanitize_json (j : json) : json :=
  match j with
  | JStr s => JStr (sanitize s)
  | JArr l => JArr (map sanitize_json l)
  | JObj l => JObj (map (fun kv => (sanitize kv.1, sanitize_json kv.2)) l)
  | _ => j
  end.

Fixpoint all_ws (s : string) : bool :=
  match s with EmptyString => true | String c s => is_ws c && all_ws s end.

Definition ws_layout (lay : layout) : Prop :=
  (forall d, all_ws (line_start lay d) = true) /\ all_ws (after_colon lay) = true.

Lemma skip_ws_app w s : all_ws w = true -> skip_ws (w +:+ s) = skip_ws s.
Proof.
  induction w as [|c w IH]; [done|]. cbn. intros [Hc Hw]%andb_true_iff.
  rewrite string_app_cons. cbn. rewrite Hc. auto.
Qed.

Lemma scan_value_ws fuel k w s : all_ws w = true -> scan_value fuel k (w +:+ s) = scan_value fuel k s.
Proof. intros Hw. destruct fuel; [done|]. cbn [scan_value]. by rewrite skip_ws_app. Qed.

Lemma scan_members_ws fuel k w s : all_ws w = true -> scan_members fuel k (w +:+ s) = scan_members fuel k s.
Proof. intros Hw. destruct fuel; [done|]. cbn [scan_members]. by rewrite skip_ws_app. Qed.

Lemma scan_elements_ws fuel k w s : all_ws w = true -> scan_elements fuel k (w +:+ s) = scan_elements fuel k s.
Proof. intros Hw. destruct fuel; [done|]. cbn [scan_elements]. by rewrite scan_value_ws. Qed.

(** White space or a delimiter after a number ends it. *)
Lemma num_end_ws w s : all_ws w = true -> num_end s = true -> num_end (w +:+ s) = true.
Proof.
  intros Hw Hs. destruct w as [|c w]; [done|]. cbn in Hw. apply andb_true_iff in Hw as [Hc _].
  rewrite string_app_cons. revert Hc. apply (implb_true_iff _ _).
  revert c. exact (by_all_chars (fun c => implb (is_ws c) (num_end (String c ""))) eq_refl).
Qed.

Lemma print_first lay d j :
  lits_ok j -> exists c s, print_json lay d j = String c s /\ is_ws c = false /\
    is_char "]"%char c = false /\ is_char "}"%char c = false.
Proof.
  destruct j as [|b|lit|s|l|l]; cbn [print_json lits_ok]; intros Hl.
  - by eexists _, _.
  - destruct b; by eexists _, _.
  - destruct Hl as [_ Hf]. destruct lit as [|c lit]; [done|]. exists c, lit. cbn in Hf.
    split; [done|]. revert Hf. pattern c. revert c.
    assert (forall c, implb (is_char "-"%char c || is_digit c)
      (negb (is_ws c) && negb (is_char "]"%char c) && negb (is_char "}"%char c)) = true) as H
      by (apply by_all_chars; by vm_compute).
    intros c Hc. specialize (H c). rewrite Hc in H. cbn in H.
    apply andb_true_iff in H as [[?%negb_true_iff ?%negb_true_iff]%andb_true_iff ?%negb_true_iff]. done.
  - by eexists _, _.
  - unfold print_block. destruct (map _ l); by eexists _, _.
  - unfold print_block. destruct (map _ l); by eexists _, _.
Qed.

(** A value that reads back when printed at depth [d] inside [k] brackets. *)
Definition reads_back (lay : layout) (j : json) : Prop := forall d k fuel rest,
  lits_ok j -> (Z.of_nat (depth j) + k <= maxNestingDepth)%Z -> calls j <= fuel -> num_end rest = true ->
  scan_value fuel k (print_json lay d j +:+ rest) = Ok (sanitize_json j, rest).

Lemma line_ws lay d : ws_layout lay -> all_ws (line_start lay d) = true.
Proof. intros [H _]. apply H. Qed.

Lemma colon_ws lay : ws_layout lay -> all_ws (after_colon lay) = true.
Proof. by intros [_ ?]. Qed.

Lemma skip_ws_cons c s : is_ws c = false -> skip_ws (String c s) = String c s.
Proof. cbn. by intros ->. Qed.

Lemma print_items_cons lay d x y l :
  print_items lay d (x :: y :: l) = x +:+ "," +:+ line_start lay d +:+ print_items lay d (y :: l).
Proof. done. Qed.

(** What follows an item: the next line and a comma or a bracket. *)
Lemma scan_elements_print lay l d k fuel rest :
  ws_layout lay -> l <> [] -> Forall (reads_back lay) l -> foldr (fun x Q => lits_ok x /\ Q) True l ->
  (Z.of_nat (max_list (map depth l)) + k <= maxNestingDepth)%Z ->
  sum_list (map (fun x => S (calls x)) l) <= fuel ->
  scan_elements fuel k (print_items lay d (map (print_json lay d) l) +:+ line_start lay (d - 1) +:+ "]" +:+ rest)
  = Ok (map sanitize_json l, rest).
Proof.
  intros Hlay Hne Hl. revert fuel. induction Hl as [|x l Hx Hl IH]; intros fuel Hlit Hd Hf; [done|].
  cbn in Hlit, Hd, Hf. destruct Hlit as [Hxl Hlit].
  destruct fuel as [|fuel]; [lia|]. cbn [scan_elements map]. destruct l as [|y l].
  - cbn [map print_items]. rewrite (Hx d k) by (done || lia || by apply num_end_ws; [apply line_ws|]).
    cbn. by rewrite skip_ws_app by (by apply line_ws).
  - cbn [map]. rewrite print_items_cons, !string_app_assoc. rewrite (Hx d k) by (done || lia).
    cbn [mbind result_bind]. rewrite string_app_cons, skip_ws_cons by done. cbv iota.
    change (is_char ","%char ","%char) with true. cbv iota.
    rewrite string_app_nil_l, scan_elements_ws by (by apply line_ws).
    rewrite (IH ltac:(done)) by (done || lia). done.
Qed.

(** A member as the printer writes it. *)
Definition print_member (lay : layout) (d : nat) (kv : string * json) : string :=
  print_str kv.1 +:+ ":" +:+ after_colon lay +:+ print_json lay d kv.2.

Lemma print_json_obj lay d l :
  print_json lay d (JObj l) = print_block lay d "{" "}" (map (print_member lay (S d)) l).
Proof. cbn [print_json]. f_equal. apply map_ext. by intros [k v]. Qed.

(** The scanner on one member and what follows it. *)
Lemma scan_member_print lay kv d k fuel rest :
  ws_layout lay -> reads_back lay kv.2 -> lits_ok kv.2 ->
  (Z.of_nat (depth kv.2) + k <= maxNestingDepth)%Z -> calls kv.2 <= fuel -> num_end rest = true ->
  scan_members (S fuel) k (print_member lay d kv +:+ rest)
  = match skip_ws rest with
    | EmptyString => Err Truncated
    | String c s =>
        if is_char ","%char c then
          '(l, s) ← scan_members fuel k s; Ok ((sanitize kv.1, sanitize_json kv.2) :: l, s)
        else if is_char "}"%char c then Ok ([(sanitize kv.1, sanitize_json kv.2)], s)
        else Err Invalid
    end.
Proof.
  intros Hlay Hv Hlit Hd Hf Hr. unfold print_member. rewrite !string_app_assoc.
  destruct (scan_str_print kv.1 (":" +:+ after_colon lay +:+ print_json lay d kv.2 +:+ rest)) as (body & -> & Hb).
  cbn [scan_members]. rewrite skip_ws_cons by done. cbv iota. change (is_char dquote dquote) with true. cbv iota.
  rewrite Hb. cbn [mbind result_bind]. rewrite string_app_cons, skip_ws_cons by done. cbv iota.
  change (is_char ":"%char ":"%char) with true. cbv iota. rewrite string_app_nil_l.
  rewrite scan_value_ws by (by apply colon_ws). rewrite (Hv d k) by done. done.
Qed.

Lemma scan_members_print lay l d k fuel rest :
  ws_layout lay -> l <> [] -> Forall (fun kv => reads_back lay kv.2) l ->
  foldr (fun kv Q => lits_ok kv.2 /\ Q) True l ->
  (Z.of_nat (max_list (map (fun kv => depth kv.2) l)) + k <= maxNestingDepth)%Z ->
  sum_list (map (fun kv => S (calls kv.2)) l) <= fuel ->
  scan_members fuel k (print_items lay d (map (print_member lay d) l) +:+ line_start lay (d - 1) +:+ "}" +:+ rest)
  = Ok (map (fun kv => (sanitize kv.1, sanitize_json kv.2)) l, rest).
Proof.
  intros Hlay Hne Hl. revert fuel. induction Hl as [|x l Hx Hl IH]; intros fuel Hlit Hd Hf; [done|].
  cbn in Hlit, Hd, Hf. destruct Hlit as [Hxl Hlit].
  destruct fuel as [|fuel]; [lia|]. destruct l as [|y l].
  - cbn [map print_items].
    rewrite scan_member_print by (done || lia || by apply num_end_ws; [apply line_ws|]).
    by rewrite skip_ws_app by (by apply line_ws).
  - cbn [map]. rewrite print_items_cons, !string_app_assoc, scan_member_print by (done || lia).
    rewrite string_app_cons, skip_ws_cons by done. cbv iota.
    change (is_char ","%char ","%char) with true. cbv iota.
    rewrite string_app_nil_l, scan_members_ws by (by apply line_ws).
    rewrite (IH ltac:(done)) by (done || lia). done.
Qed.

(** The first item of a block is not its closing bracket. *)
Lemma items_first lay d x l :
  (exists c s, x = String c s /\ is_ws c = false /\ is_char "]"%char c = false /\ is_char "}"%char c = false) ->
  exists c s, print_items lay d (x :: l) = String c s /\ is_ws c = false /\
    is_char "]"%char c = false /\ is_char "}"%char c = false.
Proof.
  intros (c & s & -> & Hc). destruct l as [|y l]; [by exists c, s|].
  rewrite print_items_cons, string_app_cons. by eexists _, _.
Qed.

Lemma scan_block lay (arr : bool) d k fuel items rest :
  ws_layout lay -> (k < maxNestingDepth)%Z ->
  match items with
  | [] => True
  | x :: _ => exists c s, x = String c s /\ is_ws c = false /\ is_char "]"%char c = false /\ is_char "}"%char c = false
  end ->
  scan_value (S fuel) k (print_block lay d (if arr then "[" else "{") (if arr then "]" else "}") items +:+ rest)
  = match items with
    | [] => Ok (if arr then JArr [] else JObj [], rest)
    | _ =>
        let s := print_items lay (S d) items +:+ line_start lay d +:+ (if arr then "]" else "}") +:+ rest in
        if arr then '(l, s) ← scan_elements fuel (k + 1) s; Ok (JArr l, s)
        else '(l, s) ← scan_members fuel (k + 1) s; Ok (JObj l, s)
    end.
Proof.
  intros Hlay Hk Hitems.
  assert ((maxNestingDepth <=? k)%Z = false) as Hmax by (apply Z.leb_gt; lia).
  destruct items as [|x items]; unfold print_block.
  { destruct arr; rewrite string_app_assoc;
      [change (scan_value _ _ _) with (if (maxNestingDepth <=? k)%Z then Err Invalid else Ok (JArr [], rest) : scan json)
      |change (scan_value _ _ _) with (if (maxNestingDepth <=? k)%Z then Err Invalid else Ok (JObj [], rest) : scan json)];
      by rewrite Hmax. }
  destruct (items_first lay (S d) x items Hitems) as (c & s & Hc & Hws & Hb1 & Hb2).
  destruct arr; rewrite !string_app_assoc, string_app_cons; cbn [scan_value];
    rewrite skip_ws_cons by done; cbv iota; cbn [is_char bool_decide decide_rel].
  - change (is_char "{"%char "["%char) with false. change (is_char "["%char "["%char) with true. cbv iota.
    rewrite Hmax, string_app_nil_l, skip_ws_app, scan_elements_ws by (by apply line_ws).
    rewrite Hc, (string_app_cons c s), skip_ws_cons by done. by rewrite Hb1.
  - change (is_char "{"%char "{"%char) with true. cbv iota.
    rewrite Hmax, string_app_nil_l, skip_ws_app, scan_members_ws by (by apply line_ws).
    rewrite Hc, (string_app_cons c s), skip_ws_cons by done. by rewrite Hb2.
Qed.

Lemma lits_ok_Forall (l : list json) :
  foldr (fun x Q => lits_ok x /\ Q) True l -> Forall lits_ok l.
Proof. induction l as [|x l IH]; cbn; [done|]. intros [? ?]. constructor; auto. Qed.

Lemma number_first_char c :
  is_char "-"%char c || is_digit c = true ->
  is_char "{"%char c = false /\ is_char "["%char c = false /\ is_char dquote c = false /\
  is_char "t"%char c = false /\ is_char "f"%char c = false /\ is_char "n"%char c = false.
Proof.
  intros Hc. pose proof (by_all_chars (fun c => implb (is_char "-"%char c || is_digit c)
    (negb (is_char "{"%char c) && negb (is_char "["%char c) && negb (is_char dquote c)
     && negb (is_char "t"%char c) && negb (is_char "f"%char c) && negb (is_char "n"%char c))) eq_refl c) as H.
  cbn beta in H. rewrite Hc in H. cbn [implb] in H. rewrite !andb_true_iff, !negb_true_iff in H. tauto.
Qed.

Lemma json_reads_back lay : ws_layout lay -> forall j, reads_back lay j.
Proof.
  intros Hlay. induction j as [|b|lit|s|l Hl|l Hl] using json_induction; intros d k fuel rest Hlit Hd Hf Hr;
    destruct fuel as [|fuel]; try (cbn in Hf; lia).
  - done.
  - by destruct b.
  - destruct (print_first lay d (JNum lit) Hlit) as (c & s & He & Hws & _ & _). cbn in He.
    destruct Hlit as [Hscan Hfirst]. specialize (Hscan rest Hr). cbn [print_json sanitize_json]. subst lit.
    cbn [starts_with] in Hfirst. rewrite string_app_cons in *. cbn [scan_value].
    rewrite skip_ws_cons by done. cbv iota. rewrite Hscan, Hfirst.
    by destruct (number_first_char c Hfirst) as (-> & -> & -> & -> & -> & ->).
  - cbn [print_json sanitize_json]. destruct (scan_str_print s rest) as (body & -> & Hb).
    cbn [scan_value]. rewrite skip_ws_cons by done. cbn -[scan_str sanitize]. by rewrite Hb.
  - cbn [lits_ok depth calls] in *. cbn [print_json sanitize_json].
    rewrite (scan_block lay true d k fuel) by (done || lia || (destruct l; [done|by apply print_first, Hlit])).
    destruct l as [|x l]; [done|]. cbn [map]. cbv zeta.
    pose proof (scan_elements_print lay (x :: l) (S d) (k + 1)%Z fuel rest Hlay ltac:(done) Hl Hlit
      ltac:(lia) ltac:(lia)) as Hs. cbn [map] in Hs. replace (S d - 1) with d in Hs by lia.
    by rewrite Hs.
  - cbn [lits_ok depth calls] in *. rewrite print_json_obj. cbn [sanitize_json].
    rewrite (scan_block lay false d k fuel) by (done || lia || (destruct l; [done|by eexists _, _])).
    destruct l as [|x l]; [done|]. cbn [map]. cbv zeta.
    pose proof (scan_members_print lay (x :: l) (S d) (k + 1)%Z fuel rest Hlay ltac:(done) Hl Hlit
      ltac:(lia) ltac:(lia)) as Hs. cbn [map] in Hs. replace (S d - 1) with d in Hs by lia.
    by rewrite Hs.
Qed.

Lemma print_items_length lay d items :
  sum_list (map (fun x => S (String.length x)) items) <= S (String.length (print_items lay d items)).
Proof.
  induction items as [|x [|y l] IH]; cbn -[print_items]; [lia|cbn; lia|].
  rewrite print_items_cons, !string_length_app. cbn -[print_items] in IH |- *. lia.
Qed.

Lemma print_block_length lay d (a b : string) items :
  1 <= String.length a -> 1 <= String.length b ->
  S (sum_list (map (fun x => S (String.length x)) items)) <= String.length (print_block lay d a b items).
Proof.
  intros Ha Hb. destruct items as [|x l]; unfold print_block; rewrite !string_length_app; [cbn; lia|].
  pose proof (print_items_length lay (S d) (x :: l)). lia.
Qed.

Lemma sum_list_le {A} (f g : A -> nat) l : Forall (fun x => f x <= g x) l ->
  sum_list (map f l) <= sum_list (map g l).
Proof. induction 1; cbn; lia. Qed.

Lemma calls_length lay d j : lits_ok j -> calls j <= String.length (print_json lay d j).
Proof.
  revert d. induction j as [|b|lit|s|l Hl|l Hl] using json_induction; intros d Hlit.
  - cbn. lia.
  - destruct b; cbn; lia.
  - destruct (print_first lay d (JNum lit) Hlit) as (c & s & He & _). cbn in He |- *. subst. cbn. lia.
  - cbn. lia.
  - cbn [print_json calls]. etrans; [|by apply print_block_length; cbn; lia]. apply le_n_S.
    rewrite map_map. apply sum_list_le. cbn in Hlit. apply lits_ok_Forall in Hlit.
    rewrite Forall_forall in Hl, Hlit |- *. intros x Hx. apply le_n_S. auto.
  - rewrite print_json_obj. cbn [calls]. etrans; [|by apply print_block_length; cbn; lia]. apply le_n_S.
    rewrite map_map. apply sum_list_le. cbn in Hlit.
    revert Hlit. induction Hl as [|x l Hx Hl IH]; cbn; [done|]. intros [Hx' Hl']. constructor; [|by auto].
    unfold print_member. rewrite !string_length_app. specialize (Hx (S d) Hx'). lia.
Qed.

(** What the printer writes is read back, in either layout and whatever follows
    it, with every string made valid UTF-8. *)
Lemma scan_json_print lay j rest :
  ws_layout lay -> lits_ok j -> (Z.of_nat (depth j) <= maxNestingDepth)%Z -> num_end rest = true ->
  scan_json (print_json lay 0 j +:+ rest) = Ok (sanitize_json j, rest).
Proof.
  intros Hlay Hlit Hd Hr. apply (json_reads_back lay Hlay); [done|lia| |done].
  unfold scan_fuel. rewrite string_length_app. pose proof (calls_length lay 0 j Hlit). lia.
Qed.

Lemma compact_ws : ws_layout compact.
Proof. done. Qed.

Lemma spaces_ws n : all_ws (spaces n) = true.
Proof. induction n; [done|]. cbn. done. Qed.

Lemma indented_ws : ws_layout indented.
Proof. split; [|done]. intros d. cbn [line_start indented all_ws]. by rewrite spaces_ws. Qed.

#[export] Hint Resolve compact_ws indented_ws : go.

(** ** Metrics read back *)

(** A metric with its texts made valid UTF-8. *)
Definition sanitize_metric (m : Metrics) : Metrics :=
  MkMetrics (sanitize (ID m)) (sanitize (MType m)) (Delta m) (Value m) (sanitize (Hash m)).

Definition finite (v : float64) : bool := match v with F_fin _ _ _ => true | _ => false end.

(** A metric that has a JSON form. *)
Definition encodable (m : Metrics) : bool := match Value m with Some v => finite v | None => true end.

Lemma metric_json_encodable m : is_ok (metric_json m) = encodable m.
Proof. unfold metric_json, encodable. destruct (Value m) as [[]|]; done. Qed.

Lemma metrics_json_encodable ms : is_ok (metrics_json ms) = forallb encodable ms.
Proof.
  induction ms as [|m ms IH]; [done|]. cbn [metrics_json forallb].
  rewrite <- metric_json_encodable, <- IH. destruct (metric_json m); [|done]. by destruct (metrics_json ms).
Qed.

Section RoundTrip.
Context `{JsonErrorText}.

(** The members of an object, with the strings read back. *)
Definition read_members (l : list (string * json)) : list (string * json) :=
  map (fun kv => (sanitize kv.1, sanitize_json kv.2)) l.

Definition members_ok (l : list (string * json)) : Prop :=
  Forall (fun kv => lits_ok kv.2 /\ depth kv.2 = 0) l.

Lemma decode_members_app a b m saved :
  decode_members (a ++ b) m saved
  = let '(m, saved) := decode_members a m saved in decode_members b m saved.
Proof.
  revert m saved. induction a as [|[k v] a IH]; intros m saved; [done|]. cbn.
  destruct (find_field k); [|apply IH]. destruct (set_field _ _ _). apply IH.
Qed.

Lemma decode_delta id ty d v h :
  match d with Some d => in_int64 d = true | None => True end ->
  decode_members (read_members (delta_members d)) (MkMetrics id ty None v h) None
  = (MkMetrics id ty d v h, None).
Proof.
  destruct d as [d|]; [|done]. intros Hd.
  change (read_members _) with [("delta", JNum (FormatInt d))]. cbn [decode_members].
  replace (find_field "delta") with (Some FDelta) by (by vm_compute).
  cbn [set_field decode_ptr]. by rewrite ParseInt_FormatInt.
Qed.

Lemma decode_value id ty d v h vs :
  match v with Some v => valid_float v = true | None => True end -> value_members v = Ok vs ->
  decode_members (read_members vs) (MkMetrics id ty d None h) None = (MkMetrics id ty d v h, None).
Proof.
  destruct v as [v|]; [|by intros _ [= <-]]. intros Hv Hvs.
  assert (vs = [("value", JNum (FormatFloat_with fmt_json v))]) as -> by (destruct v; cbn in Hvs; by simplify_eq).
  change (read_members _) with [("value", JNum (FormatFloat_with fmt_json v))]. cbn [decode_members].
  replace (find_field "value") with (Some FValue) by (by vm_compute).
  cbn [set_field decode_ptr]. by rewrite ParseFloat_json.
Qed.

Lemma decode_hash id ty d v h :
  decode_members (read_members (hash_members h)) (MkMetrics id ty d v "") None
  = (MkMetrics id ty d v (sanitize h), None).
Proof.
  unfold hash_members. case_bool_decide as Hh; [by rewrite Hh|].
  change (read_members _) with [("hash", JStr (sanitize h))]. cbn [decode_members].
  by replace (find_field "hash") with (Some FHash) by (by vm_compute).
Qed.

Lemma decode_names id ty :
  decode_members (read_members [("id", JStr id); ("type", JStr ty)]) zero_metric None
  = (MkMetrics (sanitize id) (sanitize ty) None None "", None).
Proof.
  change (read_members _) with [("id", JStr (sanitize id)); ("type", JStr (sanitize ty))].
  cbn [decode_members]. replace (find_field "id") with (Some FID) by (by vm_compute).
  by replace (find_field "type") with (Some FType) by (by vm_compute).
Qed.

Lemma value_members_ok v vs :
  match v with Some v => valid_float v = true | None => True end -> value_members v = Ok vs -> members_ok vs.
Proof.
  destruct v as [[| |neg m e]|]; intros Hv Hvs; cbn in Hvs; simplify_eq; [|constructor].
  repeat constructor; by apply float_lit.
Qed.

Lemma members_ok_obj l : members_ok l -> l <> [] -> lits_ok (JObj l) /\ depth (JObj l) = 1.
Proof.
  intros Hl Hne. cbn [lits_ok depth]. split.
  - induction Hl as [|kv l [? _] _ IH]; cbn; [done|]. split; [done|]. by destruct l; [|apply IH].
  - f_equal. clear Hne. induction Hl as [|kv l [_ ?] _ IH]; cbn; [done|]. by rewrite IH, Nat.max_0_r.
Qed.

Lemma metric_json_spec m j :
  valid_metric m = true -> metric_json m = Ok j ->
  (lits_ok j /\ depth j = 1) /\ decode_metric (sanitize_json j) = (sanitize_metric m, None).
Proof.
  destruct m as [id ty d v h]. unfold valid_metric, metric_json. cbn [Delta Value ID MType Hash].
  intros [Hd Hv]%andb_true_iff Hj.
  assert (match d with Some d => in_int64 d = true | None => True end) as Hd' by (by destruct d).
  assert (match v with Some v => valid_float v = true | None => True end) as Hv' by (by destruct v).
  apply bind_Ok in Hj as (vs & Hvs & [= <-]). split.
  - apply members_ok_obj; [|done]. unfold members_ok. do 2 (constructor; [done|]). rewrite !Forall_app. split_and!.
    + destruct d; repeat constructor; apply FormatInt_lit.
    + by eapply value_members_ok.
    + unfold hash_members. case_bool_decide; repeat constructor.
  - change (decode_metric _) with (decode_members (read_members ([("id", JStr id); ("type", JStr ty)]
      ++ (delta_members d ++ (vs ++ hash_members h)))) zero_metric None).
    unfold read_members at 1. rewrite !map_app.
    rewrite decode_members_app, decode_names, decode_members_app, decode_delta by done.
    rewrite decode_members_app, (decode_value _ _ _ v) by done. apply decode_hash.
Qed.

Lemma metrics_json_spec ms js :
  Forall (fun m => valid_metric m = true) ms -> metrics_json ms = Ok js ->
  Forall (fun j => lits_ok j /\ depth j = 1) js /\
  decode_elements (map sanitize_json js) None = (map sanitize_metric ms, None).
Proof.
  intros Hms. revert js. induction Hms as [|m ms Hm Hms IH]; intros js; cbn [metrics_json]; [by intros [= <-]|].
  intros (j & Hj & (js' & Hjs & [= <-])%bind_Ok)%bind_Ok.
  destruct (metric_json_spec m j Hm Hj) as [Hok Hdec]. destruct (IH js' Hjs) as [Hoks Hdecs].
  split; [by constructor|]. cbn [map decode_elements]. rewrite Hdec. cbn [save]. by rewrite Hdecs.
Qed.

Lemma array_ok js :
  Forall (fun j => lits_ok j /\ depth j = 1) js ->
  lits_ok (JArr js) /\ (Z.of_nat (depth (JArr js)) <= maxNestingDepth)%Z.
Proof.
  intros Hjs. split.
  - cbn [lits_ok]. by induction Hjs as [|j js [? _] _ IH].
  - assert (max_list (map depth js) <= 1) as Hmax.
    { induction Hjs as [|j js [_ Hd] _ IH]; cbn; [lia|]. rewrite Hd. lia. }
    cbn [depth]. unfold maxNestingDepth. lia.
Qed.

Lemma read_metric m txt rest rerr :
  valid_metric m = true -> Marshal_metric m = Ok txt -> num_end rest = true ->
  Decode_metric (MkBody (txt +:+ rest) rerr) = Ok (sanitize_metric m).
Proof.
  unfold Marshal_metric. destruct (metric_json m) as [j|] eqn:Hj; [|done]. intros Hm [= <-] Hr.
  destruct (metric_json_spec m j Hm Hj) as [[Hok Hdep] Hdec].
  unfold Decode_metric, read_value. cbn [bytes].
  rewrite scan_json_print by (done || unfold maxNestingDepth; lia).
  assert (exists l, j = JObj l) as [l ->] by (unfold metric_json in Hj; destruct (value_members _); simplify_eq/=; eauto).
  transitivity (finish (decode_metric (sanitize_json (JObj l)))); [reflexivity|by rewrite Hdec].
Qed.

Lemma read_metrics lay ms js rest rerr :
  ws_layout lay -> Forall (fun m => valid_metric m = true) ms -> metrics_json ms = Ok js ->
  num_end rest = true ->
  Decode_metrics (MkBody (print_json lay 0 (JArr js) +:+ rest) rerr) = Ok (map sanitize_metric ms) /\
  (all_ws rest = true -> Unmarshal_metrics (print_json lay 0 (JArr js) +:+ rest) = Ok (map sanitize_metric ms)).
Proof.
  intros Hlay Hms Hjs Hr. destruct (metrics_json_spec ms js Hms Hjs) as [Hok Hdec].
  destruct (array_ok js Hok) as [Hlit Hdep]. unfold Decode_metrics, Unmarshal_metrics, read_value. cbn [bytes].
  rewrite scan_json_print by done. cbn [sanitize_json]. split; [cbn; by rewrite Hdec|].
  intros Hws. rewrite bool_decide_true; [cbn; by rewrite Hdec|].
  pose proof (skip_ws_app rest "" Hws) as Hs. by rewrite string_app_nil_r in Hs.
Qed.

Lemma Marshal_metrics_ok (ms : list Metrics) :
  (is_ok (Marshal_metrics ms) = forallb encodable ms) /\ (is_ok (MarshalIndent_metrics ms) = forallb encodable ms).
Proof.
  rewrite <- metrics_json_encodable. unfold Marshal_metrics, MarshalIndent_metrics.
  by destruct (metrics_json ms).
Qed.

(** C27. JSON round trip: a metric is encoded exactly when its value, if it has
    one, is finite; what [Marshal], [Encode] and [MarshalIndent] write is read
    back by [Decode] and [Unmarshal] as the same metrics, numbers bit for bit,
    with invalid UTF-8 in texts replaced by U+FFFD; and nothing that follows in
    the stream, nor an error of the reader after it, matters to [Decode]. *)
Theorem json_round_trip m ms rest rerr :
  valid_metric m = true -> Forall (fun m => valid_metric m = true) ms -> num_end rest = true ->
  (is_ok (Encode_metric m) = encodable m) /\
  (forall txt, Encode_metric m = Ok txt ->
     Decode_metric (MkBody (txt +:+ rest) rerr) = Ok (sanitize_metric m)) /\
  (is_ok (Marshal_metrics ms) = forallb encodable ms) /\
  (forall txt, Marshal_metrics ms = Ok txt ->
     Decode_metrics (MkBody (txt +:+ rest) rerr) = Ok (map sanitize_metric ms)) /\
  (forall txt, MarshalIndent_metrics ms = Ok txt -> Unmarshal_metrics txt = Ok (map sanitize_metric ms)).
Proof.
  intros Hm Hms Hr. split_and!.
  - unfold Encode_metric, Marshal_metric. rewrite <- metric_json_encodable. by destruct (metric_json m).
  - intros txt Ht. unfold Encode_metric in Ht. destruct (Marshal_metric m) as [t|] eqn:Hj; simplify_eq/=.
    rewrite string_app_assoc. by apply read_metric.
  - apply Marshal_metrics_ok.
  - intros txt Ht. unfold Marshal_metrics in Ht. destruct (metrics_json ms) as [js|] eqn:Hj; simplify_eq/=.
    by apply read_metrics.
  - intros txt Ht. unfold MarshalIndent_metrics in Ht. destruct (metrics_json ms) as [js|] eqn:Hj; simplify_eq/=.
    pose proof (proj2 (read_metrics indented ms js "" None indented_ws Hms Hj eq_refl) eq_refl) as Hu.
    by rewrite string_app_nil_r in Hu.
Qed.
End RoundTrip.

#[local] Instance some_texts : JsonErrorText := {|
  SyntaxError_text _ := "invalid character";
  UnmarshalTypeError_text _ ty := "json: cannot unmarshal into Go value of type " +:+ ty |}.

Definition sample_metric : Metrics :=
  MkMetrics (String (char_of 255) "<a>") Gauge (Some (-5)%Z) (Some (F_fin true mant_lo (-60))) "ff".

Example Marshal_sample :
  Marshal_metrics [sample_metric; counter_metric "c" int64_min; gauge_metric "g" (float64_of_Z (10 ^ 21))] =
  Ok (let q := String dquote "" in let u := String backslash "u" in
   "[{" +:+ q +:+ "id" +:+ q +:+ ":" +:+ q +:+ u +:+ "fffd" +:+ u +:+ "003ca" +:+ u +:+ "003e" +:+ q +:+ ","
   +:+ q +:+ "type" +:+ q +:+ ":" +:+ q +:+ "gauge" +:+ q +:+ "," +:+ q +:+ "delta" +:+ q +:+ ":-5,"
   +:+ q +:+ "value" +:+ q +:+ ":-0.00390625," +:+ q +:+ "hash" +:+ q +:+ ":" +:+ q +:+ "ff" +:+ q +:+ "},{"
   +:+ q +:+ "id" +:+ q +:+ ":" +:+ q +:+ "c" +:+ q +:+ "," +:+ q +:+ "type" +:+ q +:+ ":" +:+ q +:+ "counter" +:+ q
   +:+ "," +:+ q +:+ "delta" +:+ q +:+ ":-9223372036854775808},{"
   +:+ q +:+ "id" +:+ q +:+ ":" +:+ q +:+ "g" +:+ q +:+ "," +:+ q +:+ "type" +:+ q +:+ ":" +:+ q +:+ "gauge" +:+ q
   +:+ "," +:+ q +:+ "value" +:+ q +:+ ":1e+21}]").
Proof. by vm_compute. Qed.

Lemma json_round_trip_witness :
  valid_metric sample_metric = true /\
  exists txt, Marshal_metrics [sample_metric; counter_metric "c" 1] = Ok txt /\
    Decode_metrics (MkBody (txt +:+ "]]") (Some (Sentinel sErrUnexpectedEOF)))
    = Ok [sanitize_metric sample_metric; counter_metric "c" 1].
Proof.
  split; [by vm_compute|].
  pose proof (json_round_trip sample_metric [sample_metric; counter_metric "c" 1] "]]"
    (Some (Sentinel sErrUnexpectedEOF)) ltac:(by vm_compute) ltac:(repeat constructor; by vm_compute) eq_refl) as H.
  destruct (Marshal_metrics [sample_metric; counter_metric "c" 1]) as [txt|] eqn:E; [|by vm_compute in E].
  exists txt. split; [done|]. exact (proj1 (proj2 (proj2 (proj2 H))) txt eq_refl).
Defined.
