(* ===== verification/GoJsonFacts.v ===== *)
(** * encoding/json: the scanner on longer texts

    The scanner's verdict does not depend on its fuel; what it accepts it also
    accepts when more text follows; so no text is both a JSON array and the
    beginning of another. *)

From S2P Require Import Prelude Errors GoInt GoStrings GoFloat GoFloatFacts Model GoJson.

(** ** Every scanner leaves less than it was given *)

Lemma skip_ws_length s : String.length (skip_ws s) <= String.length s.
Proof. induction s as [|c s IH]; [done|]. cbn. destruct (is_ws c); cbn; lia. Qed.

Lemma span_digits_length s a b : span_digits s = (a, b) -> String.length b <= String.length s.
Proof.
  revert a b. induction s as [|c s IH]; intros a b; cbn; [by intros [= <- <-]|].
  destruct (is_digit c); [|by intros [= <- <-]].
  destruct (span_digits s) as [a' b'] eqn:E. intros [= <- <-]. specialize (IH _ _ eq_refl). lia.
Qed.

Lemma scan_digits1_length s a r : scan_digits1 s = Ok (a, r) -> String.length r < String.length s.
Proof.
  destruct s as [|c s]; [done|]. unfold scan_digits1. destruct (is_digit c) eqn:Hc; [|done].
  cbn [span_digits]. rewrite Hc. destruct (span_digits s) as [a' b'] eqn:E. intros [= <- <-].
  apply span_digits_length in E. cbn. lia.
Qed.

Lemma scan_opt_length p s a r : scan_opt p s = (a, r) -> String.length r <= String.length s.
Proof. destruct s as [|c s]; cbn; [by intros [= <- <-]|]. destruct (p c); intros [= <- <-]; cbn; lia. Qed.

Lemma scan_int_length s a r : scan_int s = Ok (a, r) -> String.length r < String.length s.
Proof.
  destruct s as [|c s]; [done|]. unfold scan_int.
  destruct (is_char _ c); [intros [= <- <-]; cbn; lia|apply scan_digits1_length].
Qed.

Lemma scan_frac_length s a r : scan_frac s = Ok (a, r) -> String.length r <= String.length s.
Proof.
  unfold scan_frac. destruct (scan_opt _ s) as [[|c a'] s1] eqn:E; apply scan_opt_length in E.
  - by intros [= <- <-].
  - intros ([ds s2] & Hd & [= <- <-])%bind_Ok. apply scan_digits1_length in Hd. lia.
Qed.

Lemma scan_exp_length s a r : scan_exp s = Ok (a, r) -> String.length r <= String.length s.
Proof.
  unfold scan_exp. destruct (scan_opt is_e s) as [[|c a'] s1] eqn:E; apply scan_opt_length in E.
  - by intros [= <- <-].
  - destruct (scan_opt is_sign s1) as [sg s2] eqn:E2. apply scan_opt_length in E2.
    intros ([ds s3] & Hd & [= <- <-])%bind_Ok. apply scan_digits1_length in Hd. lia.
Qed.

Lemma scan_number_length s a r : scan_number s = Ok (a, r) -> String.length r < String.length s.
Proof.
  unfold scan_number. destruct (scan_opt _ s) as [sg s1] eqn:E0. apply scan_opt_length in E0.
  intros ([i s2] & Hi & ([f s3] & Hf & ([e s4] & He & [= <- <-])%bind_Ok)%bind_Ok)%bind_Ok.
  apply scan_int_length in Hi. apply scan_frac_length in Hf. apply scan_exp_length in He. lia.
Qed.

Lemma scan_literal_length lit s r : scan_literal lit s = Ok r -> String.length s = String.length lit + String.length r.
Proof.
  revert s. induction lit as [|c lit IH]; intros s; cbn; [by intros [= ->]|].
  destruct s as [|c' s]; [done|]. case_bool_decide; [|done]. intros Hs%IH. cbn. lia.
Qed.

Lemma scan_hex_length n acc s v r : scan_hex n acc s = Ok (v, r) -> String.length s = n + String.length r.
Proof.
  revert acc s. induction n as [|n IH]; intros acc s; cbn; [by intros [= _ <-]|].
  destruct s as [|c s]; [done|]. destruct (hex_val c); [|done]. intros Hs%IH. cbn. lia.
Qed.

Lemma scan_u4_length s v r : scan_u4 s = Some (v, r) -> String.length r <= String.length s.
Proof.
  unfold scan_u4. destruct (HasPrefix _ _); [|done].
  destruct (scan_hex 4 0 (str_drop 2 s)) as [[v' r']|] eqn:E; [|done]. intros [= <- <-].
  apply scan_hex_length in E. rewrite str_drop_length in E. lia.
Qed.

Lemma emit_length fuel b s v r n :
  (forall v r, scan_string fuel s = Ok (v, r) -> String.length r < n) ->
  emit fuel b s = Ok (v, r) -> String.length r < n.
Proof. intros IH. unfold emit. intros ([v' r'] & Hs & [= <- <-])%bind_Ok. by eapply IH. Qed.

(** The continuations of [scan_string], by what comes first. *)
Lemma scan_string_unfold fuel s :
  scan_string (S fuel) s =
    match s with
    | EmptyString => Err Truncated
    | String c s' =>
        if is_char dquote c then Ok ("", s')
        else if is_char backslash c then
          match s' with
          | EmptyString => Err Truncated
          | String e s'' =>
              if is_char "u"%char e then
                '(r, s) ← scan_hex 4 0 s'';
                if in_range 0xD800 0xDFFF r then
                  match scan_u4 s with
                  | Some (r2, s2) =>
                      match surrogate_pair r r2 with
                      | Some r => emit fuel (EncodeRune r) s2
                      | None => emit fuel replacement s
                      end
                  | None => emit fuel replacement s
                  end
                else emit fuel (EncodeRune r) s
              else match simple_escape e with Some x => emit fuel (String x "") s'' | None => Err Invalid end
          end
        else if (char_code c <? 0x20)%Z then Err Invalid
        else emit fuel (sanitize_chunk ((DecodeRune s).1, str_take (DecodeRune s).2 s)) (str_drop (DecodeRune s).2 s)
    end.
Proof. destruct s as [|c s]; [done|]. cbn [scan_string]. by destruct (DecodeRune (String c s)). Qed.

Lemma scan_string_length fuel s v r : scan_string fuel s = Ok (v, r) -> String.length r < String.length s.
Proof.
  revert s v r. induction fuel as [|fuel IH]; intros s v r; [done|]. rewrite scan_string_unfold.
  assert (forall b s', String.length s' <= String.length s -> emit fuel b s' = Ok (v, r) ->
    String.length r < String.length s) as Hemit.
  { intros b s' Hl. apply emit_length. intros v' r' Hs%IH. lia. }
  destruct s as [|c s']; [done|]. destruct (is_char dquote c); [intros [= <- <-]; cbn; lia|].
  destruct (is_char backslash c).
  - destruct s' as [|e s'']; [done|]. destruct (is_char "u"%char e).
    + intros ([u s1] & Hh & H)%bind_Ok. apply scan_hex_length in Hh. revert H.
      destruct (in_range _ _ u); [|apply Hemit; cbn; lia].
      destruct (scan_u4 s1) as [[r2 s2]|] eqn:Hu; [|apply Hemit; cbn; lia].
      apply scan_u4_length in Hu. destruct (surrogate_pair _ _); apply Hemit; cbn; lia.
    + destruct (simple_escape e); [apply Hemit; cbn; lia|done].
  - destruct (_ <? _)%Z; [done|]. apply Hemit. rewrite str_drop_length. lia.
Qed.

(** The three mutual scanners, by induction on the fuel. *)
Lemma skip_ws_inv s c s' : skip_ws s = String c s' -> String.length s' < String.length s.
Proof. intros H. pose proof (skip_ws_length s) as Hl. rewrite H in Hl. cbn in Hl. lia. Qed.

Lemma scan_str_length s v r : scan_str s = Ok (v, r) -> String.length r < String.length s.
Proof. apply scan_string_length. Qed.

Lemma scan_length fuel :
  (forall d s v r, scan_value fuel d s = Ok (v, r) -> String.length r < String.length s) /\
  (forall d s l r, scan_members fuel d s = Ok (l, r) -> String.length r < String.length s) /\
  (forall d s l r, scan_elements fuel d s = Ok (l, r) -> String.length r < String.length s).
Proof.
  induction fuel as [|fuel (IHv & IHm & IHe)]; [done|]. split_and!; intros d s v r; cbn [scan_value scan_members scan_elements].
  - destruct (skip_ws s) as [|c s'] eqn:Hs; [done|]. pose proof (skip_ws_inv _ _ _ Hs) as Hl.
    pose proof (skip_ws_length s) as Hl0. rewrite Hs in Hl0. cbn [String.length] in Hl0.
    destruct (is_char "{"%char c); [|destruct (is_char "["%char c); [|destruct (is_char dquote c);
      [|destruct (is_char "t"%char c); [|destruct (is_char "f"%char c); [|destruct (is_char "n"%char c);
      [|destruct (_ || _); [|done]]]]]]].
    + destruct (_ <=? _)%Z; [done|]. destruct (skip_ws s') as [|c' s''] eqn:Hs'; [done|].
      apply skip_ws_inv in Hs'. destruct (is_char _ c'); [intros [= <- <-]; lia|].
      intros ([l r'] & H%IHm & [= <- <-])%bind_Ok. lia.
    + destruct (_ <=? _)%Z; [done|]. destruct (skip_ws s') as [|c' s''] eqn:Hs'; [done|].
      apply skip_ws_inv in Hs'. destruct (is_char _ c'); [intros [= <- <-]; lia|].
      intros ([l r'] & H%IHe & [= <- <-])%bind_Ok. lia.
    + intros ([l r'] & H%scan_str_length & [= <- <-])%bind_Ok. lia.
    + intros (r' & H%scan_literal_length & [= <- <-])%bind_Ok. cbn in H. lia.
    + intros (r' & H%scan_literal_length & [= <- <-])%bind_Ok. cbn in H. lia.
    + intros (r' & H%scan_literal_length & [= <- <-])%bind_Ok. cbn in H. lia.
    + intros ([l r'] & H%scan_number_length & [= <- <-])%bind_Ok. cbn in H. lia.
  - destruct (skip_ws s) as [|c s'] eqn:Hs; [done|]. apply skip_ws_inv in Hs.
    destruct (is_char dquote c); [|done].
    intros ([k s1] & H1%scan_str_length & H)%bind_Ok. revert H.
    destruct (skip_ws s1) as [|c1 s2] eqn:Hs1; [done|]. apply skip_ws_inv in Hs1. destruct (is_char ":"%char c1); [|done].
    intros ([x s3] & H2%IHv & H)%bind_Ok. revert H.
    destruct (skip_ws s3) as [|c3 s4] eqn:Hs3; [done|]. apply skip_ws_inv in Hs3. destruct (is_char ","%char c3).
    + intros ([l r'] & H%IHm & [= <- <-])%bind_Ok. lia.
    + destruct (is_char _ c3); [intros [= <- <-]; lia|done].
  - intros ([x s3] & H2%IHv & H)%bind_Ok. revert H.
    destruct (skip_ws s3) as [|c3 s4] eqn:Hs3; [done|]. apply skip_ws_inv in Hs3. destruct (is_char ","%char c3).
    + intros ([l r'] & H%IHe & [= <- <-])%bind_Ok. lia.
    + destruct (is_char _ c3); [intros [= <- <-]; lia|done].
Qed.

(** ** The fuel is enough *)

Lemma bind_ext {E A B} (m : result E A) (f g : A -> result E B) :
  (forall a, m = Ok a -> f a = g a) -> m ≫= f = m ≫= g.
Proof. intros H. destruct m; [by apply H|done]. Qed.

Lemma scan_fuel_stable n :
  (forall f1 f2 d s, String.length s <= n -> 2 * n + 2 <= f1 -> 2 * n + 2 <= f2 ->
     scan_value f1 d s = scan_value f2 d s) /\
  (forall f1 f2 d s, String.length s <= n -> 2 * n + 3 <= f1 -> 2 * n + 3 <= f2 ->
     scan_members f1 d s = scan_members f2 d s) /\
  (forall f1 f2 d s, String.length s <= n -> 2 * n + 3 <= f1 -> 2 * n + 3 <= f2 ->
     scan_elements f1 d s = scan_elements f2 d s).
Proof.
  induction (lt_wf n) as [n _ IH].
  assert (forall f1 f2 d s, String.length s < n -> 2 * n + 1 <= f1 -> 2 * n + 1 <= f2 ->
    scan_members f1 d s = scan_members f2 d s /\ scan_elements f1 d s = scan_elements f2 d s) as Hsmall.
  { intros f1 f2 d s Hs H1 H2. destruct (IH (String.length s) Hs) as (_ & IHm & IHe).
    split; [apply IHm|apply IHe]; lia. }
  assert (forall f1 f2 d s, String.length s <= n -> 2 * n + 2 <= f1 -> 2 * n + 2 <= f2 ->
    scan_value f1 d s = scan_value f2 d s) as Hv.
  { intros [|f1] [|f2] d s Hs H1 H2; try lia. cbn [scan_value].
    destruct (skip_ws s) as [|c s'] eqn:E; [done|]. apply skip_ws_inv in E.
    destruct (Hsmall f1 f2 (d + 1)%Z s') as [-> ->]; [lia..|]. done. }
  split; [exact Hv|]. split.
  - intros [|f1] [|f2] d s Hs H1 H2; try lia. cbn [scan_members].
    destruct (skip_ws s) as [|c s'] eqn:E; [done|]. apply skip_ws_inv in E. destruct (is_char dquote c); [|done].
    apply bind_ext. intros [k s1] Hk%scan_str_length.
    destruct (skip_ws s1) as [|c1 s2] eqn:E1; [done|]. apply skip_ws_inv in E1. destruct (is_char ":"%char c1); [|done].
    rewrite (Hv f1 f2) by lia. apply bind_ext. intros [x s3] Hx. apply scan_length in Hx.
    destruct (skip_ws s3) as [|c3 s4] eqn:E3; [done|]. apply skip_ws_inv in E3.
    destruct (Hsmall f1 f2 d s4) as [-> _]; [lia..|]. done.
  - intros [|f1] [|f2] d s Hs H1 H2; try lia. cbn [scan_elements].
    rewrite (Hv f1 f2) by lia. apply bind_ext. intros [x s3] Hx. apply scan_length in Hx.
    destruct (skip_ws s3) as [|c3 s4] eqn:E3; [done|]. apply skip_ws_inv in E3.
    destruct (Hsmall f1 f2 d s4) as [_ ->]; [lia..|]. done.
Qed.

(** Whatever fuel beyond [scan_fuel] gives the same verdict: the scanner never
    stops for want of fuel. *)
Lemma scan_json_fuel fuel s : scan_fuel s <= fuel -> scan_value fuel 0 s = scan_json s.
Proof. intros Hf. unfold scan_json. apply (scan_fuel_stable (String.length s)); unfold scan_fuel in *; lia. Qed.

(** ** More text after what was accepted *)

Lemma skip_ws_more s c s' t : skip_ws s = String c s' -> skip_ws (s +:+ t) = String c (s' +:+ t).
Proof.
  induction s as [|c0 s IH]; [done|]. rewrite string_app_cons. cbn.
  destruct (is_ws c0); [exact IH|]. by intros [= -> ->].
Qed.

Lemma scan_literal_more lit s r t : scan_literal lit s = Ok r -> scan_literal lit (s +:+ t) = Ok (r +:+ t).
Proof.
  revert s. induction lit as [|c lit IH]; intros s; cbn; [by intros [= ->]|].
  destruct s as [|c' s]; [done|]. rewrite string_app_cons. case_bool_decide; [apply IH|done].
Qed.

Lemma span_digits_more s a b t : span_digits s = (a, b) -> b <> "" -> span_digits (s +:+ t) = (a, b +:+ t).
Proof.
  revert a b. induction s as [|c s IH]; intros a b; cbn; [by intros [= <- <-]|].
  rewrite string_app_cons. cbn. destruct (is_digit c); [|by intros [= <- <-]].
  destruct (span_digits s) as [a' b'] eqn:E. intros [= <- <-] Hb. by rewrite (IH _ _ eq_refl Hb).
Qed.

Lemma scan_digits1_more s a b t : scan_digits1 s = Ok (a, b) -> b <> "" -> scan_digits1 (s +:+ t) = Ok (a, b +:+ t).
Proof.
  destruct s as [|c s]; [done|]. rewrite string_app_cons. unfold scan_digits1.
  destruct (is_digit c); [|done]. intros [= Hs] Hb.
  pose proof (span_digits_more (String c s) a b t Hs Hb) as H. rewrite string_app_cons in H. by rewrite H.
Qed.

Lemma scan_opt_more p s a b t : scan_opt p s = (a, b) -> b <> "" -> scan_opt p (s +:+ t) = (a, b +:+ t).
Proof.
  destruct s as [|c s]; cbn; [by intros [= <- <-]|]. rewrite string_app_cons. cbn.
  destruct (p c); by intros [= <- <-].
Qed.

Lemma shorter_nonempty (s r : string) : String.length r <= String.length s -> r <> "" -> s <> "".
Proof. intros Hl Hr ->. destruct r; [done|]. cbn in Hl. lia. Qed.

Lemma scan_int_more s a b t : scan_int s = Ok (a, b) -> b <> "" -> scan_int (s +:+ t) = Ok (a, b +:+ t).
Proof.
  destruct s as [|c s]; [done|]. rewrite string_app_cons. unfold scan_int.
  destruct (is_char _ c); [by intros [= <- <-]|]. apply (scan_digits1_more (String c s)).
Qed.

Lemma scan_frac_more s a b t : scan_frac s = Ok (a, b) -> b <> "" -> scan_frac (s +:+ t) = Ok (a, b +:+ t).
Proof.
  unfold scan_frac. destruct (scan_opt _ s) as [[|c a'] s1] eqn:E; intros H Hb.
  - injection H as <- <-. by rewrite (scan_opt_more _ _ _ _ t E Hb).
  - apply bind_Ok in H as ([ds s2] & Hd & [= <- <-]).
    rewrite (scan_opt_more _ _ _ _ t E).
    + by rewrite (scan_digits1_more _ _ _ t Hd Hb).
    + apply scan_digits1_length in Hd. eapply shorter_nonempty; [|exact Hb]. lia.
Qed.

Lemma scan_exp_more s a b t : scan_exp s = Ok (a, b) -> b <> "" -> scan_exp (s +:+ t) = Ok (a, b +:+ t).
Proof.
  unfold scan_exp. destruct (scan_opt is_e s) as [[|c a'] s1] eqn:E; intros H Hb.
  - injection H as <- <-. by rewrite (scan_opt_more _ _ _ _ t E Hb).
  - destruct (scan_opt is_sign s1) as [sg s2] eqn:E2.
    apply bind_Ok in H as ([ds s3] & Hd & [= <- <-]).
    pose proof (scan_digits1_length _ _ _ Hd). pose proof (scan_opt_length _ _ _ _ E2).
    rewrite (scan_opt_more _ _ _ _ t E), (scan_opt_more _ _ _ _ t E2) by (eapply shorter_nonempty; [|exact Hb]; lia).
    by rewrite (scan_digits1_more _ _ _ t Hd Hb).
Qed.

Lemma scan_number_more s a b t : scan_number s = Ok (a, b) -> b <> "" -> scan_number (s +:+ t) = Ok (a, b +:+ t).
Proof.
  unfold scan_number. destruct (scan_opt _ s) as [sg s1] eqn:E0.
  intros ([i s2] & Hi & ([f s3] & Hf & ([e s4] & He & [= <- <-])%bind_Ok)%bind_Ok)%bind_Ok Hb.
  pose proof (scan_int_length _ _ _ Hi). pose proof (scan_frac_length _ _ _ Hf).
  pose proof (scan_exp_length _ _ _ He).
  assert (s1 <> "" /\ s2 <> "" /\ s3 <> "") as (? & ? & ?)
    by (split_and!; eapply shorter_nonempty; try exact Hb; lia).
  rewrite (scan_opt_more _ _ _ _ t E0) by done. rewrite (scan_int_more _ _ _ t Hi) by done. cbn.
  rewrite (scan_frac_more _ _ _ t Hf) by done. cbn. by rewrite (scan_exp_more _ _ _ t He) by done.
Qed.

(** A rune before an ASCII character does not depend on what follows that
    character. *)
Fixpoint has_ascii (s : string) : bool :=
  match s with EmptyString => false | String c s => (char_code c <? 0x80)%Z || has_ascii s end.

Lemma cont_high c : cont (char_code c) = true -> (char_code c <? 0x80)%Z = false.
Proof. intros [? _]%cont_iff. by apply Z.ltb_ge. Qed.

Lemma range_high lo hi c : (0x80 <= lo)%Z -> in_range lo hi (char_code c) = true -> (char_code c <? 0x80)%Z = false.
Proof. intros ? [? _]%in_range_iff. apply Z.ltb_ge. lia. Qed.

Lemma DecodeRune_more s t : has_ascii s = true -> DecodeRune (s +:+ t) = DecodeRune s.
Proof.
  intros Ha. unfold DecodeRune. destruct s as [|c0 s]; [done|]. rewrite string_app_cons.
  change (code_at 0 (String c0 ?x)) with (char_code c0). cbn [has_ascii] in Ha.
  destruct (char_code c0 <? 0x80)%Z eqn:H0; [done|]. cbn [orb] in Ha.
  destruct s as [|c1 s]; [done|]. rewrite string_app_cons.
  change (code_at 1 (String c0 (String c1 ?x))) with (char_code c1). cbn [has_ascii] in Ha.
  destruct (in_range 0xC2 0xDF (char_code c0) && cont (char_code c1)); [done|].
  destruct (char_code c1 <? 0x80)%Z eqn:H1.
  { assert (forall lo hi, (0x80 <= lo)%Z -> in_range lo hi (char_code c1) = false) as Hr.
    { intros lo hi Hlo. apply in_range_false. apply Z.ltb_lt in H1. lia. }
    rewrite !Hr by (case_match; lia). by rewrite !andb_false_r. }
  cbn [orb] in Ha. destruct s as [|c2 s]; [done|]. rewrite string_app_cons.
  change (code_at 2 (String c0 (String c1 (String c2 ?x)))) with (char_code c2). cbn [has_ascii] in Ha.
  destruct (in_range 0xE0 0xEF _ && in_range _ _ _ && cont _); [done|].
  destruct (char_code c2 <? 0x80)%Z eqn:H2.
  { assert (cont (char_code c2) = false) as ->; [|by rewrite !andb_false_r].
    apply not_true_is_false. intros H%cont_high. congruence. }
  cbn [orb] in Ha. destruct s as [|c3 s]; [done|]. by rewrite string_app_cons.
Qed.

Lemma str_take_more n s t : n <= String.length s -> str_take n (s +:+ t) = str_take n s.
Proof.
  revert s. induction n as [|n IH]; intros [|c s] Hn; cbn in *; try done; [lia|].
  rewrite string_app_cons. cbn. f_equal. apply IH. lia.
Qed.

Lemma str_drop_more n s t : n <= String.length s -> str_drop n (s +:+ t) = str_drop n s +:+ t.
Proof.
  revert s. induction n as [|n IH]; intros [|c s] Hn; cbn in *; try done; [lia|].
  rewrite string_app_cons. cbn. apply IH. lia.
Qed.

Lemma has_ascii_drop n s : has_ascii (str_drop n s) = true -> has_ascii s = true.
Proof.
  revert s. induction n as [|n IH]; intros [|c s]; cbn; try done. intros H%IH. rewrite H. apply orb_true_r.
Qed.

Lemma scan_string_ascii fuel s v r : scan_string fuel s = Ok (v, r) -> has_ascii s = true.
Proof.
  revert s v r. induction fuel as [|fuel IH]; intros s v r; [done|]. rewrite scan_string_unfold.
  destruct s as [|c s']; [done|]. destruct (char_code c <? 0x80)%Z eqn:Hc; [cbn [has_ascii]; by rewrite Hc|].
  assert (is_char dquote c = false) as -> by (apply bool_decide_false; intros ->; done).
  assert (is_char backslash c = false) as -> by (apply bool_decide_false; intros ->; done).
  destruct (_ <? 0x20)%Z; [done|]. unfold emit. intros ([v' r'] & Hs%IH & _)%bind_Ok.
  by eapply has_ascii_drop.
Qed.

Lemma is_char_eq a c : is_char a c = true -> c = a.
Proof. apply bool_decide_eq_true_1. Qed.

(** When scanning goes on after a lone surrogate, what follows is no second
    escape, with or without more text. *)
Lemma scan_u4_none fuel s v r t :
  scan_string fuel s = Ok (v, r) -> scan_u4 s = None -> scan_u4 (s +:+ t) = None.
Proof.
  destruct fuel as [|fuel]; [done|]. rewrite scan_string_unfold. unfold scan_u4, esc.
  destruct s as [|c [|e s]]; [done| |].
  - destruct (is_char dquote c) eqn:Hq; [|destruct (is_char backslash c) eqn:Hb; [done|]].
    + intros _ _. apply is_char_eq in Hq as ->. rewrite string_app_cons. done.
    + intros _ _. rewrite string_app_cons. cbn [HasPrefix].
      rewrite bool_decide_false; [done|]. intros <-. done.
  - rewrite !string_app_cons. cbn [HasPrefix]. destruct (decide (backslash = c)) as [<-|Hc].
    + rewrite bool_decide_true by done. cbn [andb].
      change (is_char dquote backslash) with false. change (is_char backslash backslash) with true. cbv iota.
      destruct (decide ("u"%char = e)) as [<-|He].
      * change (bool_decide ("u"%char = "u"%char)) with true. cbn [andb str_drop].
        assert (forall x, HasPrefix x "" = true) as HP by (by intros []). rewrite !HP.
        change (is_char "u"%char "u"%char) with true. cbv iota.
        destruct (scan_hex 4 0 s) as [[]|]; intros H1 H2; cbn in H1, H2; by simplify_eq.
      * by rewrite !(bool_decide_false ("u"%char = e)).
    + by rewrite !(bool_decide_false (backslash = c)).
Qed.

Lemma scan_u4_more s v r t : scan_u4 s = Some (v, r) -> scan_u4 (s +:+ t) = Some (v, r +:+ t).
Proof.
  unfold scan_u4, esc. destruct s as [|c [|e s]]; [done|cbn [HasPrefix]; by rewrite andb_false_r|].
  rewrite !string_app_cons. cbn [HasPrefix str_drop].
  assert (forall x, HasPrefix x "" = true) as HP by (by intros []). rewrite !HP. destruct (_ && _); [|done].
  destruct (scan_hex 4 0 s) as [[v' r']|] eqn:Hh; [|done]. intros [= <- <-]. by rewrite (scan_hex_app _ _ _ t _ _ Hh).
Qed.

Lemma scan_string_more fuel fuel' s v r t :
  scan_string fuel s = Ok (v, r) -> fuel <= fuel' -> scan_string fuel' (s +:+ t) = Ok (v, r +:+ t).
Proof.
  revert fuel' s v r. induction fuel as [|fuel IH]; intros fuel' s v r Hs Hf; [done|].
  destruct fuel' as [|fuel']; [lia|]. pose proof (scan_string_ascii _ _ _ _ Hs) as Ha.
  rewrite scan_string_unfold in Hs |- *.
  assert (forall b s', emit fuel b s' = Ok (v, r) -> emit fuel' b (s' +:+ t) = Ok (v, r +:+ t)) as Hemit.
  { unfold emit. intros b s' ([v' r'] & H & [= <- <-])%bind_Ok. by rewrite (IH fuel' _ _ _ H) by lia. }
  destruct s as [|c s']; [done|]. rewrite string_app_cons. destruct (is_char dquote c); [by injection Hs as <- <-|].
  destruct (is_char backslash c).
  - destruct s' as [|e s'']; [done|]. rewrite string_app_cons. destruct (is_char "u"%char e).
    + apply bind_Ok in Hs as ([u s1] & Hh & H). rewrite (scan_hex_app _ _ _ t _ _ Hh). cbn [mbind result_bind].
      destruct (in_range _ _ u); [|by apply Hemit].
      destruct (scan_u4 s1) as [[r2 s2]|] eqn:Hu.
      * rewrite (scan_u4_more _ _ _ t Hu). destruct (surrogate_pair _ _); by apply Hemit.
      * assert (scan_u4 (s1 +:+ t) = None) as ->; [|by apply Hemit].
        unfold emit in H. apply bind_Ok in H as ([v' r'] & H & _). by eapply scan_u4_none.
    + destruct (simple_escape e); [by apply Hemit|done].
  - destruct (_ <? _)%Z; [done|]. rewrite <- (string_app_cons c s' t).
    pose proof (DecodeRune_width (String c s') ltac:(done)) as [_ Hw].
    rewrite DecodeRune_more, str_take_more, str_drop_more by done. by apply Hemit.
Qed.

Lemma scan_str_more s v r t : scan_str s = Ok (v, r) -> scan_str (s +:+ t) = Ok (v, r +:+ t).
Proof. intros Hs. eapply scan_string_more; [exact Hs|]. rewrite string_length_app. lia. Qed.

(** A number at the very end may go on; every other value is complete. *)
Definition complete (v : json) (rest : string) : Prop :=
  rest <> "" \/ match v with JNum _ => False | _ => True end.

Lemma scan_more fuel t :
  (forall fuel' d s v r, scan_value fuel d s = Ok (v, r) -> complete v r -> fuel <= fuel' ->
     scan_value fuel' d (s +:+ t) = Ok (v, r +:+ t)) /\
  (forall fuel' d s v r, scan_members fuel d s = Ok (v, r) -> fuel <= fuel' ->
     scan_members fuel' d (s +:+ t) = Ok (v, r +:+ t)) /\
  (forall fuel' d s v r, scan_elements fuel d s = Ok (v, r) -> fuel <= fuel' ->
     scan_elements fuel' d (s +:+ t) = Ok (v, r +:+ t)).
Proof.
  induction fuel as [|fuel (IHv & IHm & IHe)]; [done|].
  assert (forall s c s', skip_ws s = String c s' -> s <> "") as Hne by (by intros [] ??).
  split_and!; intros [|fuel'] d s v r; cbn [scan_value scan_members scan_elements]; try (intros; lia).
  - destruct (skip_ws s) as [|c s'] eqn:Hs; [done|]. rewrite (skip_ws_more _ _ _ t Hs).
    cbv iota. rewrite <- (string_app_cons c s' t).
    intros H Hc Hf. revert H. destruct (is_char "{"%char c); [|destruct (is_char "["%char c); [|destruct (is_char dquote c);
      [|destruct (is_char "t"%char c); [|destruct (is_char "f"%char c); [|destruct (is_char "n"%char c);
      [|destruct (_ || _); [|done]]]]]]].
    + destruct (_ <=? _)%Z; [done|]. destruct (skip_ws s') as [|c' s''] eqn:Hs'; [done|].
      rewrite (skip_ws_more _ _ _ t Hs'). destruct (is_char _ c'); [by intros [= <- <-]|].
      intros ([l r'] & H & [= <- <-])%bind_Ok. by rewrite (IHm fuel' _ _ _ _ H) by lia.
    + destruct (_ <=? _)%Z; [done|]. destruct (skip_ws s') as [|c' s''] eqn:Hs'; [done|].
      rewrite (skip_ws_more _ _ _ t Hs'). destruct (is_char _ c'); [by intros [= <- <-]|].
      intros ([l r'] & H & [= <- <-])%bind_Ok. by rewrite (IHe fuel' _ _ _ _ H) by lia.
    + intros ([l r'] & H & [= <- <-])%bind_Ok. by rewrite (scan_str_more _ _ _ t H).
    + intros (r' & H & [= <- <-])%bind_Ok. by rewrite (scan_literal_more _ _ _ t H).
    + intros (r' & H & [= <- <-])%bind_Ok. by rewrite (scan_literal_more _ _ _ t H).
    + intros (r' & H & [= <- <-])%bind_Ok. by rewrite (scan_literal_more _ _ _ t H).
    + intros ([l r'] & H & [= <- <-])%bind_Ok. destruct Hc as [Hc|[]]. by rewrite (scan_number_more _ _ _ t H).
  - destruct (skip_ws s) as [|c s'] eqn:Hs; [done|]. rewrite (skip_ws_more _ _ _ t Hs). intros H Hf. revert H.
    destruct (is_char dquote c); [|done].
    intros ([k s1] & H1 & H)%bind_Ok. rewrite (scan_str_more _ _ _ t H1). cbn [mbind result_bind]. revert H.
    destruct (skip_ws s1) as [|c1 s2] eqn:Hs1; [done|]. rewrite (skip_ws_more _ _ _ t Hs1).
    destruct (is_char ":"%char c1); [|done].
    intros ([x s3] & H2 & H)%bind_Ok. revert H. destruct (skip_ws s3) as [|c3 s4] eqn:Hs3; [done|].
    assert (complete x s3) as Hcx by (left; by intros ->).
    rewrite (IHv fuel' _ _ _ _ H2 Hcx) by lia. cbn [mbind result_bind]. rewrite (skip_ws_more _ _ _ t Hs3).
    destruct (is_char ","%char c3); [|destruct (is_char _ c3); [by intros [= <- <-]|done]].
    intros ([l r'] & H & [= <- <-])%bind_Ok. by rewrite (IHm fuel' _ _ _ _ H) by lia.
  - intros ([x s3] & H2 & H)%bind_Ok Hf. revert H. destruct (skip_ws s3) as [|c3 s4] eqn:Hs3; [done|].
    assert (complete x s3) as Hcx by (left; by intros ->).
    rewrite (IHv fuel' _ _ _ _ H2 Hcx) by lia. cbn [mbind result_bind]. rewrite (skip_ws_more _ _ _ t Hs3).
    destruct (is_char ","%char c3); [|destruct (is_char _ c3); [by intros [= <- <-]|done]].
    intros ([l r'] & H & [= <- <-])%bind_Ok. by rewrite (IHe fuel' _ _ _ _ H) by lia.
Qed.

Lemma scan_json_more s v r t : scan_json s = Ok (v, r) -> complete v r -> scan_json (s +:+ t) = Ok (v, r +:+ t).
Proof.
  intros Hs Hc. apply (proj1 (scan_more (scan_fuel s) t) _ _ _ _ _ Hs Hc).
  unfold scan_fuel. rewrite string_length_app. lia.
Qed.

(** A text that starts with a bracket is never a number. *)
Lemma scan_json_bracket s v r : scan_json (String "["%char s) = Ok (v, r) -> complete v r.
Proof.
  unfold scan_json, scan_fuel. intros H. right. revert H. rewrite Nat.add_comm. cbn [Nat.add scan_value].
  rewrite skip_ws_cons by done. cbv iota. change (is_char "{"%char "["%char) with false.
  change (is_char "["%char "["%char) with true. cbv iota.
  destruct (_ <=? _)%Z; [done|]. destruct (skip_ws s) as [|c s']; [done|].
  destruct (is_char _ c); [by intros [= <- _]|]. by intros ([l r'] & _ & [= <- _])%bind_Ok.
Qed.

(** A proper beginning of a printed array is not JSON. *)
Lemma unmarshal_prefix `{JsonErrorText} lay js a b :
  ws_layout lay -> Forall (fun j => lits_ok j /\ depth j = 1) js ->
  print_json lay 0 (JArr js) = a +:+ b -> b <> "" -> exists e, Unmarshal_metrics a = Err e.
Proof.
  intros Hlay Hjs Hab Hb. destruct (array_ok js Hjs) as [Hlit Hdep].
  pose proof (scan_json_print lay (JArr js) "" Hlay Hlit Hdep eq_refl) as Hall.
  rewrite string_app_nil_r, Hab in Hall. unfold Unmarshal_metrics.
  destruct (scan_json a) as [[v r]|] eqn:Ha; [|eauto].
  assert (complete v r) as Hc.
  { destruct (print_first lay 0 (JArr js) Hlit) as (c & s & He & _). rewrite Hab in He.
    assert (c = "["%char) as -> by (rewrite <- Hab in He; cbn in He; unfold print_block in He;
      destruct (map _ js); rewrite ?string_app_cons in He; by injection He).
    destruct a as [|c' a']; [by vm_compute in Ha|]. rewrite string_app_cons in He. injection He as -> _.
    by eapply scan_json_bracket. }
  rewrite (scan_json_more _ _ _ b Ha Hc) in Hall. injection Hall as _ Hr. by destruct r, b.
Qed.
