(* ===== verification/Storage.v ===== *)
(** * internal/repository: MemStorage

    The in-memory backend.  Every method of the code takes the storage's mutex
    for its whole body, so a method is one atomic step: a function on the
    state. *)

From S2P Require Import Prelude Errors GoInt GoFloat Model.

Module MemStorage.

Record t := Mk {
  gauges : gmap string float64;
  counters : gmap string Z
}.

#[export] Instance t_eq_dec : EqDecision t.
Proof. solve_decision. Defined.

Definition NewMemStorage : t := Mk ∅ ∅.

(** [s.gauges[name] = value] *)
Definition UpdateGauge (name : string) (value : float64) (s : t) : t * option error :=
  (Mk (<[name := value]> (gauges s)) (counters s), None).

(** [s.counters[name] += value]; a missing key reads as 0. *)
Definition add_counter (name : string) (value : Z) (cs : gmap string Z) : gmap string Z :=
  <[name := int64_add (default 0%Z (cs !! name)) value]> cs.

Definition UpdateCounter (name : string) (value : Z) (s : t) : t * option error :=
  (Mk (gauges s) (add_counter name value (counters s)), None).

(** One iteration of the loop of [UpdateBatch]: entries of an unknown type, or
    without the field of their type, are skipped. *)
Definition apply_metric (m : Metrics) (s : t) : t :=
  if bool_decide (MType m = Gauge) then
    match Value m with
    | Some v => Mk (<[ID m := v]> (gauges s)) (counters s)
    | None => s
    end
  else if bool_decide (MType m = Counter) then
    match Delta m with
    | Some d => Mk (gauges s) (add_counter (ID m) d (counters s))
    | None => s
    end
  else s.

Definition apply_all (ms : list Metrics) (s : t) : t :=
  fold_left (fun s m => apply_metric m s) ms s.

Definition UpdateBatch (ms : list Metrics) (s : t) : t * option error :=
  (apply_all ms s, None).

Definition GetMetric (name mType : string) (s : t) : option Metrics :=
  if bool_decide (mType = Gauge) then
    v ← gauges s !! name; Some (MkMetrics name mType None (Some v) "")
  else if bool_decide (mType = Counter) then
    v ← counters s !! name; Some (MkMetrics name mType (Some v) None "")
  else None.

Definition GetValue (mType name : string) (s : t) : option string :=
  if bool_decide (mType = Gauge) then FormatFloat_f <$> gauges s !! name
  else if bool_decide (mType = Counter) then FormatInt <$> counters s !! name
  else None.

(** The two loops of [GetAllMetrics] over the entries of the maps in the orders
    [gs] and [cs]. *)
Definition GetAllMetrics_ordered (gs : list (string * float64)) (cs : list (string * Z))
    : gmap string string :=
  let result := fold_left (fun r '(name, val) =>
    <["gauge/" +:+ name := FormatFloat_f val]> r) gs ∅ in
  fold_left (fun r '(name, val) => <["counter/" +:+ name := FormatInt val]> r) cs result.

Definition GetAllMetrics (s : t) : gmap string string :=
  GetAllMetrics_ordered (map_to_list (gauges s)) (map_to_list (counters s)).

(** [Snapshot], with the maps iterated in the orders [gs] and [cs]. *)
Definition Snapshot_ordered (gs : list (string * float64)) (cs : list (string * Z))
    : list Metrics :=
  ((fun '(name, v) => gauge_metric name v) <$> gs) ++
  ((fun '(name, d) => counter_metric name d) <$> cs).

Definition Snapshot (s : t) : list Metrics :=
  Snapshot_ordered (map_to_list (gauges s)) (map_to_list (counters s)).

(** ** Invariant: the maps hold float64 and int64 values *)

Definition valid (s : t) : Prop :=
  map_Forall (fun _ v => valid_float v = true) (gauges s) /\
  map_Forall (fun _ d => in_int64 d = true) (counters s).

Lemma valid_New : valid NewMemStorage.
Proof. split; apply map_Forall_empty. Qed.

Lemma add_counter_valid name d cs :
  map_Forall (fun _ d => in_int64 d = true) cs ->
  map_Forall (fun _ d => in_int64 d = true) (add_counter name d cs).
Proof. intros. apply map_Forall_insert_2; [apply int64_add_range|done]. Qed.

Lemma valid_UpdateGauge name v s :
  valid s -> valid_float v = true -> valid (UpdateGauge name v s).1.
Proof. intros [Hg Hc] Hv. split; [by apply map_Forall_insert_2|done]. Qed.

Lemma valid_UpdateCounter name d s : valid s -> valid (UpdateCounter name d s).1.
Proof. intros [Hg Hc]. split; [done|by apply add_counter_valid]. Qed.

Lemma valid_apply_metric m s : valid_metric m = true -> valid s -> valid (apply_metric m s).
Proof.
  intros [Hd Hv]%andb_true_iff [Hg Hc]. unfold apply_metric.
  destruct (bool_decide (MType m = Gauge)), (bool_decide (MType m = Counter)),
    (Value m), (Delta m); split; simpl; try done;
    first [by apply map_Forall_insert_2|by apply add_counter_valid].
Qed.

Lemma valid_apply_all ms s :
  Forall (fun m => valid_metric m = true) ms -> valid s -> valid (apply_all ms s).
Proof.
  unfold apply_all. intros Hms. revert s.
  induction Hms as [|m ms Hm Hms IH]; intros s Hs; simpl; [done|].
  by apply IH, valid_apply_metric.
Qed.

Lemma GetMetric_gauge name s : GetMetric name Gauge s = gauge_metric name <$> gauges s !! name.
Proof. unfold GetMetric. rewrite bool_decide_true by done. by destruct (gauges s !! name). Qed.

Lemma GetMetric_counter name s : GetMetric name Counter s = counter_metric name <$> counters s !! name.
Proof.
  unfold GetMetric. rewrite bool_decide_false, bool_decide_true by done.
  by destruct (counters s !! name).
Qed.

Lemma gauge_after name v s : gauges (apply_metric (gauge_metric name v) s) !! name = Some v.
Proof. apply lookup_insert_eq. Qed.

Lemma counter_after name d s :
  counters (apply_metric (counter_metric name d) s) !! name
  = Some (int64_add (default 0%Z (counters s !! name)) d).
Proof. apply lookup_insert_eq. Qed.

(** ** What a sequence of updates does

    The values a list of updates gives to one gauge, and the deltas it adds to
    one counter, in order. *)
Definition gauge_writes (name : string) (ms : list Metrics) : list float64 :=
  omap (fun m => if bool_decide (MType m = Gauge /\ ID m = name) then Value m else None) ms.
Definition counter_deltas (name : string) (ms : list Metrics) : list Z :=
  omap (fun m => if bool_decide (MType m = Counter /\ ID m = name) then Delta m else None) ms.

Definition sum_Z (l : list Z) : Z := foldr Z.add 0%Z l.

Lemma sum_Z_perm l1 l2 : l1 ≡ₚ l2 -> sum_Z l1 = sum_Z l2.
Proof. induction 1; simpl in *; lia. Qed.

Lemma apply_all_cons m ms s : apply_all (m :: ms) s = apply_all ms (apply_metric m s).
Proof. done. Qed.

Lemma apply_all_app ms1 ms2 s : apply_all (ms1 ++ ms2) s = apply_all ms2 (apply_all ms1 s).
Proof. apply fold_left_app. Qed.

(** One update changes exactly one entry. *)
Lemma apply_metric_gauge name m s :
  gauges (apply_metric m s) !! name =
    match gauge_writes name [m] with [] => gauges s !! name | v :: _ => Some v end.
Proof.
  unfold apply_metric, gauge_writes. simpl.
  destruct (decide (MType m = Gauge)) as [Ht|Ht].
  - rewrite (bool_decide_true (MType m = Gauge)) by done. destruct (Value m) as [v|]; simpl.
    + destruct (decide (ID m = name)) as [<-|].
      * rewrite bool_decide_true by done. by rewrite lookup_insert_eq.
      * rewrite bool_decide_false by (by intros [_ ?]). by rewrite lookup_insert_ne.
    + by case_bool_decide.
  - rewrite (bool_decide_false (MType m = Gauge)), (bool_decide_false (_ /\ _)) by (done || by intros [? _]).
    by destruct (bool_decide _), (Delta m).
Qed.

Lemma apply_metric_counter name m s :
  counters (apply_metric m s) !! name =
    match counter_deltas name [m] with
    | [] => counters s !! name
    | d :: _ => Some (int64_add (default 0%Z (counters s !! name)) d)
    end.
Proof.
  unfold apply_metric, counter_deltas. simpl.
  destruct (decide (MType m = Counter)) as [Ht|Ht].
  - rewrite (bool_decide_false (MType m = Gauge)) by (rewrite Ht; done).
    rewrite (bool_decide_true (MType m = Counter)) by done. destruct (Delta m) as [d|]; simpl.
    + unfold add_counter. destruct (decide (ID m = name)) as [<-|].
      * rewrite bool_decide_true by done. by rewrite lookup_insert_eq.
      * rewrite bool_decide_false by (by intros [_ ?]). by rewrite lookup_insert_ne.
    + by case_bool_decide.
  - rewrite (bool_decide_false (MType m = Counter)), (bool_decide_false (_ /\ _)) by (done || by intros [? _]).
    by destruct (bool_decide _), (Value m).
Qed.

Lemma gauge_writes_cons name m ms :
  gauge_writes name (m :: ms) = gauge_writes name [m] ++ gauge_writes name ms.
Proof. unfold gauge_writes. simpl. by case_match. Qed.

Lemma counter_deltas_cons name m ms :
  counter_deltas name (m :: ms) = counter_deltas name [m] ++ counter_deltas name ms.
Proof. unfold counter_deltas. simpl. by case_match. Qed.

Lemma gauge_writes_single name m : gauge_writes name [m] = [] \/ exists v, gauge_writes name [m] = [v].
Proof. unfold gauge_writes. simpl. case_match; eauto. Qed.

Lemma counter_deltas_single name m :
  counter_deltas name [m] = [] \/ exists d, counter_deltas name [m] = [d].
Proof. unfold counter_deltas. simpl. case_match; eauto. Qed.

Lemma apply_all_gauges name ms s :
  gauges (apply_all ms s) !! name =
    match last (gauge_writes name ms) with Some v => Some v | None => gauges s !! name end.
Proof.
  revert s. induction ms as [|m ms IH]; intros s; [done|].
  rewrite apply_all_cons, IH, gauge_writes_cons, apply_metric_gauge.
  destruct (gauge_writes_single name m) as [->|[v ->]]; [done|].
  rewrite last_app. by destruct (last (gauge_writes name ms)).
Qed.

Lemma apply_all_counters name ms s :
  counters (apply_all ms s) !! name =
    match counter_deltas name ms with
    | [] => counters s !! name
    | ds => Some (wrap64 (default 0 (counters s !! name) + sum_Z ds))
    end%Z.
Proof.
  revert s. induction ms as [|m ms IH]; intros s; [done|].
  rewrite apply_all_cons, IH, counter_deltas_cons, apply_metric_counter.
  destruct (counter_deltas_single name m) as [->|[d ->]]; [done|]. simpl.
  destruct (counter_deltas name ms) as [|d' ds]; simpl.
  - unfold int64_add. by rewrite Z.add_0_r.
  - unfold int64_add. rewrite wrap64_add_l. do 2 f_equal. lia.
Qed.

(** The counters depend only on which updates are applied, not on their
    order. *)
Lemma apply_all_counters_perm ms1 ms2 s :
  ms1 ≡ₚ ms2 -> counters (apply_all ms1 s) = counters (apply_all ms2 s).
Proof.
  intros Hp. apply map_eq. intros name. rewrite !apply_all_counters.
  assert (counter_deltas name ms1 ≡ₚ counter_deltas name ms2) as Hd.
  { unfold counter_deltas. by rewrite Hp. }
  destruct (counter_deltas name ms1) eqn:E1.
  - apply Permutation_nil_l in Hd. by rewrite <- Hd.
  - destruct (counter_deltas name ms2); [by apply Permutation_nil_r in Hd|].
    by rewrite (sum_Z_perm _ _ Hd).
Qed.

(** ** Snapshots *)

Lemma gauge_writes_snapshot name gs cs :
  gauge_writes name (Snapshot_ordered gs cs)
  = omap (fun '(k, v) => if bool_decide (k = name) then Some v else None) gs.
Proof.
  unfold gauge_writes, Snapshot_ordered. rewrite omap_app. rewrite <- (app_nil_r (omap _ gs)). f_equal.
  - induction gs as [|[k v] gs IH]; [done|]. cbn. rewrite <- IH.
    rewrite (bool_decide_ext (Gauge = Gauge /\ k = name) (k = name)) by (by split; [intros [_ ?]|]). by case_bool_decide.
  - induction cs as [|[k d] cs IH]; [done|]. cbn. by rewrite IH.
Qed.

Lemma counter_deltas_snapshot name gs cs :
  counter_deltas name (Snapshot_ordered gs cs)
  = omap (fun '(k, d) => if bool_decide (k = name) then Some d else None) cs.
Proof.
  unfold counter_deltas, Snapshot_ordered. rewrite omap_app. rewrite <- (app_nil_l (omap _ cs)). f_equal.
  - induction gs as [|[k v] gs IH]; [done|]. cbn. by rewrite IH.
  - induction cs as [|[k d] cs IH]; [done|]. cbn. rewrite <- IH.
    rewrite (bool_decide_ext (Counter = Counter /\ k = name) (k = name)) by (by split; [intros [_ ?]|]). by case_bool_decide.
Qed.

(** Replaying a snapshot on a storage [s0]: the snapshot's gauges win, its
    counters are added. *)
Lemma replay_snapshot s s0 gs cs name :
  range_order (gauges s) gs -> range_order (counters s) cs ->
  let r := apply_all (Snapshot_ordered gs cs) s0 in
  gauges r !! name = (match gauges s !! name with Some v => Some v | None => gauges s0 !! name end) /\
  counters r !! name =
    match counters s !! name with
    | Some d => Some (int64_add (default 0%Z (counters s0 !! name)) d)
    | None => counters s0 !! name
    end.
Proof.
  intros Hg Hc. cbv zeta. rewrite apply_all_gauges, apply_all_counters.
  rewrite gauge_writes_snapshot, counter_deltas_snapshot.
  rewrite (omap_range_order _ _ _ Hg), (omap_range_order _ _ _ Hc).
  split; [by destruct (gauges s !! name)|].
  destruct (counters s !! name); simpl; [|done]. unfold int64_add. by rewrite Z.add_0_r.
Qed.

Lemma replay_empty s gs cs :
  valid s -> range_order (gauges s) gs -> range_order (counters s) cs ->
  apply_all (Snapshot_ordered gs cs) NewMemStorage = s.
Proof.
  intros [_ Hv] Hg Hc.
  pose proof (fun n => replay_snapshot s NewMemStorage gs cs n Hg Hc) as Hr.
  unfold NewMemStorage at 2 3 in Hr. cbv zeta in Hr.
  destruct (apply_all _ _) as [g c], s as [gs' cs']. cbn [gauges counters] in *. f_equal; apply map_eq; intros n.
  - destruct (Hr n) as [-> _]. rewrite lookup_empty. by destruct (gs' !! n).
  - destruct (Hr n) as [_ ->]. rewrite lookup_empty. destruct (cs' !! n) as [d|] eqn:E; [|done].
    simpl. rewrite int64_add_0_l; [done|]. by eapply map_Forall_lookup_1 in Hv.
Qed.

#[export] Hint Resolve valid_New valid_UpdateGauge valid_UpdateCounter
  valid_apply_metric valid_apply_all : go.

(** ** The dashboard map *)

Lemma GetAllMetrics_gauge s gs cs name :
  range_order (gauges s) gs -> range_order (counters s) cs ->
  GetAllMetrics_ordered gs cs !! ("gauge/" +:+ name) = FormatFloat_f <$> gauges s !! name.
Proof.
  intros Hg Hc. unfold GetAllMetrics_ordered. rewrite fold_insert_other by done.
  rewrite (fold_insert_lookup (String.append "gauge/") FormatFloat_f)
    by (by eapply range_order_NoDup).
  rewrite (range_order_list_to_map _ _ Hg). by destruct (gauges s !! name).
Qed.

Lemma GetAllMetrics_counter s gs cs name :
  range_order (gauges s) gs -> range_order (counters s) cs ->
  GetAllMetrics_ordered gs cs !! ("counter/" +:+ name) = FormatInt <$> counters s !! name.
Proof.
  intros Hg Hc. unfold GetAllMetrics_ordered.
  rewrite (fold_insert_lookup (String.append "counter/") FormatInt) by (by eapply range_order_NoDup).
  rewrite (range_order_list_to_map _ _ Hc), fold_insert_other by done.
  by destruct (counters s !! name).
Qed.

Lemma GetAllMetrics_keys gs cs key :
  is_Some (GetAllMetrics_ordered gs cs !! key) ->
  exists mType name, (mType = Gauge \/ mType = Counter) /\ key = mType +:+ "/" +:+ name.
Proof.
  unfold GetAllMetrics_ordered. intros Hk.
  apply (fold_insert_keys (String.append "counter/")) in Hk as [[n ->]|Hk]; [by exists Counter, n; auto|].
  apply (fold_insert_keys (String.append "gauge/")) in Hk as [[n ->]|[? ?]]; [by exists Gauge, n; auto|done].
Qed.

(** A snapshot holds the whole state: applying it, in whatever orders the two
    maps were iterated, to an empty storage rebuilds the storage it was taken
    from. *)
Theorem snapshot_replay s gs cs :
  valid s -> range_order (gauges s) gs -> range_order (counters s) cs ->
  apply_all (Snapshot_ordered gs cs) NewMemStorage = s.
Proof.
  apply replay_empty.
Qed.

(** The dashboard map has, under ["<type>/<name>"], exactly the text
    [GetValue] returns for that metric, for every known metric and no other
    key, whatever the iteration orders (a name may itself contain ['/']). *)
Theorem all_metrics_values s gs cs :
  range_order (gauges s) gs -> range_order (counters s) cs ->
  (forall mType name, mType = Gauge \/ mType = Counter ->
     GetAllMetrics_ordered gs cs !! (mType +:+ "/" +:+ name) = GetValue mType name s) /\
  (forall key, is_Some (GetAllMetrics_ordered gs cs !! key) ->
     exists mType name, (mType = Gauge \/ mType = Counter) /\ key = mType +:+ "/" +:+ name).
Proof.
  intros Hg Hc. split; [|apply GetAllMetrics_keys].
  intros mType name [->| ->]; unfold GetValue.
  - rewrite bool_decide_true by done. by apply (GetAllMetrics_gauge s).
  - rewrite (bool_decide_false (Counter = Gauge)), bool_decide_true by done.
    by apply (GetAllMetrics_counter s).
Qed.

(** A batch does to each metric what its own entries say: a gauge takes its
    last written value, a counter grows by the sum of its deltas (in 64-bit
    arithmetic), metrics without entries keep their value, and entries of an
    unknown type or without the field of their type change nothing. *)
Theorem UpdateBatch_effect ms s :
  (UpdateBatch ms s).2 = None /\
  forall name,
    gauges (UpdateBatch ms s).1 !! name =
      (match last (gauge_writes name ms) with Some v => Some v | None => gauges s !! name end) /\
    counters (UpdateBatch ms s).1 !! name =
      (match counter_deltas name ms with
       | [] => counters s !! name
       | ds => Some (wrap64 (default 0 (counters s !! name) + sum_Z ds))
       end)%Z.
Proof.
  split; [done|]. intros name. split; [apply apply_all_gauges|apply apply_all_counters].
Qed.

(** Concurrent batches commute on counters: whatever the order in which the
    mutex lets two or more batches in, the counters end up the same. *)
Theorem batches_commute_on_counters bs1 bs2 s :
  bs1 ≡ₚ bs2 ->
  counters (fold_left (fun s b => (UpdateBatch b s).1) bs1 s)
  = counters (fold_left (fun s b => (UpdateBatch b s).1) bs2 s).
Proof.
  assert (forall bs s, fold_left (fun s b => (UpdateBatch b s).1) bs s = apply_all (concat bs) s) as Hf.
  { intros bs. induction bs as [|b bs IH]; intros s'; [done|]. cbn. by rewrite IH, apply_all_app. }
  intros Hp. rewrite !Hf. apply apply_all_counters_perm. by rewrite Hp.
Qed.

(** A storage to instantiate the theorems with. *)
Definition sample : t :=
  apply_all [gauge_metric "Alloc" (float64_of_Z 3); gauge_metric "Sys" (F_inf true);
             counter_metric "PollCount" 5] NewMemStorage.

Lemma sample_valid : valid sample.
Proof. apply valid_apply_all; [repeat constructor|apply valid_New]. Qed.

Lemma snapshot_replay_witness :
  valid sample /\
  apply_all (Snapshot_ordered [("Sys", F_inf true); ("Alloc", float64_of_Z 3)] [("PollCount", 5%Z)])
    NewMemStorage = sample.
Proof.
  split; [apply sample_valid|]. apply snapshot_replay; [apply sample_valid|..].
  - unfold range_order. vm_compute. first [reflexivity|apply perm_swap].
  - unfold range_order. vm_compute. reflexivity.
Defined.

Lemma all_metrics_values_witness :
  GetAllMetrics_ordered [("Sys", F_inf true); ("Alloc", float64_of_Z 3)] [("PollCount", 5%Z)]
    !! "gauge/Alloc" = Some "3".
Proof.
  change "gauge/Alloc" with (Gauge +:+ "/" +:+ "Alloc").
  rewrite (proj1 (all_metrics_values sample _ _
    ltac:(unfold range_order; vm_compute; first [reflexivity|apply perm_swap])
    ltac:(unfold range_order; vm_compute; reflexivity))); [by vm_compute|by left].
Defined.

Lemma batches_commute_on_counters_witness :
  counters (fold_left (fun s b => (UpdateBatch b s).1)
    [[counter_metric "a" 1]; [counter_metric "a" int64_max; counter_metric "b" 2]] sample)
  = counters (fold_left (fun s b => (UpdateBatch b s).1)
    [[counter_metric "a" int64_max; counter_metric "b" 2]; [counter_metric "a" 1]] sample).
Proof. apply batches_commute_on_counters. apply perm_swap. Defined.
End MemStorage.
