(* ===== verification/Retry.v ===== *)
(** * pkg/retry: bounded retries

    [Do] and [DoWithDelays] configure the third-party loop [retrygo.Do].  The
    loop is a parameter here ([RetryGo]); what the code relies on is its
    documented behaviour, stated as the law [retrygo_Do_law]: it calls the
    function until it succeeds, fails with an error [RetryIf] rejects, or
    [Attempts] calls were made; it returns the last error; and it sleeps
    [DelayType n] between calls, with [n] counted from [retrygo_first]. *)

From S2P Require Import Prelude Errors GoInt.

(** A Go [func() error] closure: it acts on the state it captures. *)
Definition closure (S : Type) : Type := S -> S * option error.

Record options := MkOptions {
  Attempts : nat;
  RetryIf : error -> bool;
  DelayType : nat -> Z
}.

(** The documented behaviour, for [Attempts] = [more] + 1. *)
Fixpoint retry_loop {S} (fn : closure S) (o : options) (sleep : Z -> S -> S)
    (more n : nat) (s : S) : S * option error :=
  match fn s with
  | (s, None) => (s, None)
  | (s, Some err) =>
      if RetryIf o err then
        match more with
        | O => (s, Some err)
        | Datatypes.S more => retry_loop fn o sleep more (n + 1) (sleep (DelayType o n) s)
        end
      else (s, Some err)
  end.

Class RetryGo := {
  retrygo_first : nat;
  retrygo_Do {S} : closure S -> options -> (Z -> S -> S) -> S -> S * option error;
  retrygo_Do_law {S} (fn : closure S) (o : options) (sleep : Z -> S -> S) (s : S) more :
    Attempts o = Datatypes.S more ->
    retrygo_Do fn o sleep s = retry_loop fn o sleep more retrygo_first s
}.

(** A library that behaves as documented, counting from [first]. *)
Definition documented_retrygo (first : nat) : RetryGo := {|
  retrygo_first := first;
  retrygo_Do S fn o sleep s :=
    match Attempts o with
    | O => fn s
    | Datatypes.S more => retry_loop fn o sleep more first s
    end;
  retrygo_Do_law S fn o sleep s more H := ltac:(cbn; by rewrite H)
|}.

Definition Second : Z := 1000000000.

(** [var delays] *)
Definition delays : list Z := [1 * Second; 3 * Second; 5 * Second]%Z.

(** The index into [ivs] the [DelayType] function computes. *)
Definition delay_index (ivs : list Z) (n : nat) : Z :=
  if bool_decide (n < length ivs) then Z.of_nat n else (Z.of_nat (length ivs) - 1)%Z.

(** The function given to [retrygo.DelayType].  (Go panics on an index out of
    range; [delay_index_in_range] shows that there is none.) *)
Definition delay_type (ivs : list Z) (n : nat) : Z :=
  nth (Z.to_nat (delay_index ivs n)) ivs 0%Z.

Section Do.
Context `{RetryGo} {S : Type} (sleep : Z -> S -> S).

Definition DoWithDelays (fn : closure S) (isRetriable : error -> bool) (ivs : list Z) (s : S)
    : S * option error :=
  retrygo_Do fn (MkOptions (length ivs + 1) isRetriable (delay_type ivs)) sleep s.

Definition Do (fn : closure S) (isRetriable : error -> bool) (s : S) : S * option error :=
  DoWithDelays fn isRetriable delays s.

(** The state in which attempt [k] starts when all attempts before it failed. *)
Fixpoint before (fn : closure S) (ivs : list Z) (first k : nat) (s : S) : S :=
  match k with
  | O => s
  | Datatypes.S k => before fn ivs (first + 1) k (sleep (delay_type ivs first) (fn s).1)
  end.

(** Attempt [k] is the one whose outcome is returned. *)
Definition stops_at (fn : closure S) (isRetriable : error -> bool) (ivs : list Z)
    (first k : nat) (s : S) : Prop :=
  (forall i, i < k -> exists e, (fn (before fn ivs first i s)).2 = Some e /\ isRetriable e = true) /\
  (k = length ivs \/ forall e, (fn (before fn ivs first k s)).2 = Some e -> isRetriable e = false).

Lemma retry_loop_stops fn isRetriable ivs n more first s :
  n + more = length ivs ->
  exists k, k <= more /\
    retry_loop fn (MkOptions (length ivs + 1) isRetriable (delay_type ivs)) sleep more first s
      = fn (before fn ivs first k s) /\
    (forall i, i < k -> exists e, (fn (before fn ivs first i s)).2 = Some e /\ isRetriable e = true) /\
    (n + k = length ivs \/ forall e, (fn (before fn ivs first k s)).2 = Some e -> isRetriable e = false).
Proof.
  revert n first s. induction more as [|more IH]; intros n first s Hn; cbn [retry_loop];
    destruct (fn s) as [s' [err|]] eqn:Hf; cbn.
  - exists 0. cbn. rewrite Hf. split_and!; [lia|by case_match|lia|by left; lia].
  - exists 0. cbn. rewrite Hf. split_and!; [lia|done|lia|by right].
  - destruct (isRetriable err) eqn:Hr.
    + destruct (IH (n + 1) (first + 1) (sleep (delay_type ivs first) s')) as (k & Hk & Heq & Hb & He); [lia|].
      exists (Datatypes.S k). cbn [before]. rewrite Hf. cbn [fst].
      split_and!; [lia|exact Heq| |destruct He; [left; lia|by right]].
      intros [|i] Hi; cbn [before]; [rewrite Hf; by exists err|].
      rewrite Hf. apply Hb. lia.
    + exists 0. cbn. rewrite Hf. split_and!; [lia|done|lia|right; by intros ? [= <-]].
  - exists 0. cbn. rewrite Hf. split_and!; [lia|done|lia|by right].
Qed.

Lemma DoWithDelays_loop fn isRetriable ivs s :
  DoWithDelays fn isRetriable ivs s
  = retry_loop fn (MkOptions (length ivs + 1) isRetriable (delay_type ivs)) sleep
      (length ivs) retrygo_first s.
Proof. apply retrygo_Do_law. simpl. lia. Qed.

Lemma DoWithDelays_stops fn isRetriable ivs s :
  exists k, k <= length ivs /\
    DoWithDelays fn isRetriable ivs s = fn (before fn ivs retrygo_first k s) /\
    stops_at fn isRetriable ivs retrygo_first k s.
Proof.
  destruct (retry_loop_stops fn isRetriable ivs 0 (length ivs) retrygo_first s) as (k & ? & ? & ? & ?);
    [done|]. exists k. rewrite DoWithDelays_loop. by unfold stops_at.
Qed.

(** Whatever holds initially and is kept by [fn] and by sleeping holds at the
    end. *)
Lemma DoWithDelays_invariant (I : S -> Prop) fn isRetriable ivs s :
  I s -> (forall s, I s -> I (fn s).1) -> (forall d s, I s -> I (sleep d s)) ->
  I (DoWithDelays fn isRetriable ivs s).1.
Proof.
  intros Hs Hf Hsl. destruct (DoWithDelays_stops fn isRetriable ivs s) as (k & _ & -> & _).
  apply Hf. revert s Hs. generalize retrygo_first.
  induction k as [|k IH]; intros n s Hs; cbn; [done|]. apply IH, Hsl, Hf, Hs.
Qed.

(** Counting effects: if one call has its effect at most once, and certainly when
    it succeeds, the calls of [Do] have it at most four times and at least once
    on success; and while no success is reported as an error, exactly once on
    success and never on an error. *)
Definition counts (P : nat -> S -> Prop) (clean : S -> Prop) (most k : nat) (s : S) (out : S * option error) : Prop :=
  exists j, j <= most /\ P (k + j) out.1 /\ (out.2 = None -> 1 <= j) /\
    (clean s -> clean out.1 /\ j = match out.2 with None => 1 | Some _ => 0 end).

Lemma retry_loop_counts P clean fn o more n k s :
  (forall k s, P k s -> counts P clean 1 k s (fn s)) ->
  (forall d k s, P k s -> P k (sleep d s)) -> (forall d s, clean s -> clean (sleep d s)) ->
  P k s -> counts P clean (more + 1) k s (retry_loop fn o sleep more n s).
Proof.
  intros Hf Hsl Hcl. revert n k s. induction more as [|more IH]; intros n k s Hk; cbn [retry_loop];
    pose proof (Hf k s Hk) as Hc; destruct (fn s) as [s1 [e|]]; destruct Hc as (j & Hj & Hp & H1 & H2); cbn [fst snd] in *.
  - destruct (RetryIf o e); exists j; split_and!; (done || lia).
  - exists j. split_and!; (done || lia).
  - destruct (RetryIf o e); [|exists j; split_and!; (done || lia)].
    destruct (IH (n + 1) (k + j) (sleep (DelayType o n) s1) ltac:(by apply Hsl)) as (j' & Hj' & Hp' & H1' & H2').
    exists (j + j'). rewrite Nat.add_assoc. split_and!; [lia|done|intros ?%H1'; lia|].
    intros Hs. destruct (H2 Hs) as [Hs1 ->]. by apply H2', Hcl.
  - exists j. split_and!; (done || lia).
Qed.

Lemma Do_counts P clean fn isRetriable k s :
  (forall k s, P k s -> counts P clean 1 k s (fn s)) ->
  (forall d k s, P k s -> P k (sleep d s)) -> (forall d s, clean s -> clean (sleep d s)) ->
  P k s -> counts P clean 4 k s (Do fn isRetriable s).
Proof. intros. unfold Do. rewrite DoWithDelays_loop. by apply (retry_loop_counts P clean fn _ 3). Qed.

(** C33. [DoWithDelays] returns the outcome of one of its first [len(ivs)+1]
    calls of [fn]: every call before it failed with a retriable error, with one
    sleep between calls, and it stops there because the call succeeded, failed
    with an error that is not retriable, or was the last one allowed. *)
Theorem DoWithDelays_spec fn isRetriable ivs s :
  exists k, k <= length ivs /\
    DoWithDelays fn isRetriable ivs s = fn (before fn ivs retrygo_first k s) /\
    stops_at fn isRetriable ivs retrygo_first k s.
Proof. exact (DoWithDelays_stops fn isRetriable ivs s). Qed.
End Do.

(** The index is in range whenever the loop asks for a delay: that takes at
    least two attempts, so [ivs] is not empty. *)
Lemma delay_index_in_range ivs n :
  1 < length ivs + 1 -> (0 <= delay_index ivs n < Z.of_nat (length ivs))%Z.
Proof. intros. unfold delay_index. case_bool_decide; lia. Qed.

Example delay_schedule : delay_type delays <$> [0; 1; 2; 3; 4] = [1; 3; 5; 5; 5]%Z ≫= (fun x => [x * Second]%Z).
Proof. by vm_compute. Qed.

#[export] Hint Resolve delay_index_in_range : go.

(** A function that fails twice, and a clock that records the sleeps. *)
Definition flaky : closure (nat * list Z) := fun '(calls, slept) =>
  ((S calls, slept), if bool_decide (calls < 2) then Some (UrlError true false "reset") else None).
Definition record_sleep (d : Z) (s : nat * list Z) : nat * list Z := (s.1, s.2 ++ [d]).

Lemma DoWithDelays_spec_witness :
  let H := documented_retrygo 0 in
  DoWithDelays record_sleep flaky (fun _ => true) delays (0, []) = ((3, [Second; 3 * Second]%Z), None) /\
  exists k, k <= length delays /\
    DoWithDelays record_sleep flaky (fun _ => true) delays (0, [])
      = flaky (before record_sleep flaky delays 0 k (0, [])) /\
    stops_at record_sleep flaky (fun _ => true) delays 0 k (0, []).
Proof.
  split; [by vm_compute|].
  exact (DoWithDelays_spec (H := documented_retrygo 0) record_sleep flaky (fun _ => true) delays (0, [])).
Defined.
