(* ===== verification/DBStore.v ===== *)
(** * internal/repository: DBStorage, the PostgreSQL backend

    The table [metrics] of the migration is a finite map from its primary key
    [(id, mtype)] to the two nullable value columns.  The server, the network and
    the driver are the environment: a script of replies says, statement by
    statement, whether it succeeds, fails, or takes effect although an error is
    reported.  The SQL texts of the code are functions on the table. *)

From S2P Require Import Prelude Errors GoInt GoFloat GoFloatFacts Model Storage Retry.

(** [pgerrcode.IsConnectionException] is third-party code: a parameter.  It
    recognises the SQLSTATE codes of class 08. *)
Class PgErrCode := { IsConnectionException : string -> bool }.

Module DBStorage.

(** A row: [delta BIGINT, value DOUBLE PRECISION], both nullable. *)
Record row := MkRow { r_delta : option Z; r_value : option float64 }.

#[export] Instance row_eq_dec : EqDecision row.
Proof. solve_decision. Defined.

Abbreviation table := (gmap (string * string) row).

(** What happens to one statement: it is executed; it fails without effect; it
    takes effect but the reply is an error; or, for a query, the rows break off
    after [k] of them. *)
Inductive reply :=
| ROk
| RErr (e : error)
| RLost (e : error)
| RPartial (k : nat) (e : error).

Definition reply_error (r : reply) : option error :=
  match r with ROk => None | RErr e | RLost e | RPartial _ e => Some e end.

(** [DBStorage]: the [*sql.DB] handle is the table, the script of the
    environment (all further statements succeed when it is used up) and the
    sleeps made so far. *)
Record t := Mk { db : table; script : list reply; slept : list Z }.

Definition sleep (d : Z) (s : t) : t := Mk (db s) (script s) (slept s ++ [d]).

Definition next_reply (s : t) : reply * t :=
  match script s with
  | [] => (ROk, s)
  | r :: rs => (r, Mk (db s) rs (slept s))
  end.

(** Numeric value out of range: what PostgreSQL answers when a [BIGINT] sum
    leaves 64 bits. *)
Definition numeric_value_out_of_range : error := PgError "22003".

(** [INSERT .. VALUES (id, 'gauge', value) ON CONFLICT (id, mtype) DO UPDATE SET
    value = EXCLUDED.value] *)
Definition upsert_gauge (id : string) (v : float64) (tb : table) : res table :=
  let d := match tb !! (id, Gauge) with Some r => r_delta r | None => None end in
  Ok (<[(id, Gauge) := MkRow d (Some v)]> tb).

(** [INSERT .. VALUES (id, 'counter', delta) ON CONFLICT (id, mtype) DO UPDATE SET
    delta = metrics.delta + EXCLUDED.delta]; a sum with [NULL] is [NULL]. *)
Definition upsert_counter (id : string) (d : Z) (tb : table) : res table :=
  match tb !! (id, Counter) with
  | None => Ok (<[(id, Counter) := MkRow (Some d) None]> tb)
  | Some r =>
      match r_delta r with
      | None => Ok (<[(id, Counter) := MkRow None (r_value r)]> tb)
      | Some d0 =>
          if in_int64 (d0 + d) then Ok (<[(id, Counter) := MkRow (Some (d0 + d)%Z) (r_value r)]> tb)
          else Err numeric_value_out_of_range
      end
  end.

(** [db.ExecContext]: a statement in its own transaction. *)
Definition ExecContext (stmt : table -> res table) : closure t := fun s =>
  let '(r, s) := next_reply s in
  match r with
  | ROk | RLost _ =>
      match stmt (db s) with
      | Ok tb => (Mk tb (script s) (slept s), reply_error r)
      | Err e => (s, Some e)
      end
  | RErr e | RPartial _ e => (s, Some e)
  end.

Section Operations.
Context `{RetryGo, PgErrCode}.

Definition isRetriablePgError (err : error) : bool :=
  match As_PgError err with
  | Some code => IsConnectionException code
  | None => false
  end.

Definition UpdateGauge (name : string) (value : float64) : closure t :=
  Do sleep (ExecContext (upsert_gauge name value)) isRetriablePgError.

Definition UpdateCounter (name : string) (value : Z) : closure t :=
  Do sleep (ExecContext (upsert_counter name value)) isRetriablePgError.

(** The statement of one entry of a batch; [None] is [continue] (or a type
    that is neither gauge nor counter). *)
Definition batch_stmt (m : Metrics) : option (table -> res table) :=
  if bool_decide (MType m = Gauge) then upsert_gauge (ID m) <$> Value m
  else if bool_decide (MType m = Counter) then upsert_counter (ID m) <$> Delta m
  else None.

(** The loop of [UpdateBatch] inside the transaction whose view of the table is
    [tb]. *)
Fixpoint batch_loop (ms : list Metrics) (tb : table) (s : t) : t * res table :=
  match ms with
  | [] => (s, Ok tb)
  | m :: ms =>
      match batch_stmt m with
      | None => batch_loop ms tb s
      | Some stmt =>
          let '(r, s) := next_reply s in
          let failed e := (s, Err (Errorf ("exec metric " +:+ ID m +:+ ": ") e)) in
          match reply_error r with
          | Some e => failed e
          | None => match stmt tb with Ok tb => batch_loop ms tb s | Err e => failed e end
          end
      end
  end.

(** One attempt: begin, execute, commit; the deferred [Rollback] undoes
    everything unless the commit went through. *)
Definition batch_attempt (ms : list Metrics) : closure t := fun s =>
  let '(r, s) := next_reply s in
  match reply_error r with
  | Some e => (s, Some (Errorf "begin tx: " e))
  | None =>
      match batch_loop ms (db s) s with
      | (s, Err e) => (s, Some e)
      | (s, Ok tb) =>
          let '(r, s) := next_reply s in
          match r with
          | ROk | RLost _ => (Mk tb (script s) (slept s), reply_error r)
          | RErr e | RPartial _ e => (s, Some e)
          end
      end
  end.

Definition UpdateBatch (ms : list Metrics) : closure t :=
  Do sleep (batch_attempt ms) isRetriablePgError.

(** [GetMetric]: the closure assigns the captured [result] only on success. *)
Definition metric_attempt (name mType : string) : closure (t * option Metrics) := fun '(s, result) =>
  let '(r, s) := next_reply s in
  match reply_error r with
  | Some e => ((s, result), Some e)
  | None =>
      match db s !! (name, mType) with
      | None => ((s, result), None)                     (* sql.ErrNoRows *)
      | Some rw => ((s, Some (MkMetrics name mType (r_delta rw) (r_value rw) "")), None)
      end
  end.

Definition sleep_with {A} (d : Z) (s : t * A) : t * A := (sleep d s.1, s.2).

Definition GetMetric (name mType : string) (s : t) : t * option Metrics :=
  match Do sleep_with (metric_attempt name mType) isRetriablePgError (s, None) with
  | ((s, _), Some _) => (s, None)
  | ((s, result), None) => (s, result)
  end.

Definition GetValue (mType name : string) (s : t) : t * option string :=
  match GetMetric name mType s with
  | (s, None) => (s, None)
  | (s, Some m) =>
      (s, if bool_decide (mType = Gauge) then Sprintf_g <$> Value m
          else if bool_decide (mType = Counter) then FormatInt <$> Delta m
          else None)
  end.

(** The text of one row under its dashboard key, for known types with a value. *)
Definition row_entry (e : (string * string) * row) (result : gmap string string) : gmap string string :=
  let '((id, mtype), rw) := e in
  if bool_decide (mtype = Gauge) then
    match r_value rw with Some v => <["gauge/" +:+ id := Sprintf_g v]> result | None => result end
  else if bool_decide (mtype = Counter) then
    match r_delta rw with Some d => <["counter/" +:+ id := FormatInt d]> result | None => result end
  else result.

(** [GetAllMetrics], the rows coming in the order [rows_of] lists them; the
    error of [retry.Do] is dropped, and a nil map reads as an empty one. *)
Definition all_attempt (rows_of : table -> list ((string * string) * row))
    : closure (t * option (gmap string string)) := fun '(s, result) =>
  let '(r, s) := next_reply s in
  let scan rows := fold_left (fun acc e => row_entry e acc) rows ∅ in
  match r with
  | ROk => ((s, Some (scan (rows_of (db s)))), None)
  | RPartial k e => ((s, Some (scan (take k (rows_of (db s))))), Some e)
  | RErr e | RLost e => ((s, result), Some e)
  end.

Definition GetAllMetrics (rows_of : table -> list ((string * string) * row)) (s : t)
    : t * gmap string string :=
  let '((s, result), _) := Do sleep_with (all_attempt rows_of) isRetriablePgError (s, None) in
  (s, default ∅ result).

(** ** Statements and attempts as table transformers *)

(** What a whole batch does to the table. *)
Fixpoint batch_table (ms : list Metrics) (tb : table) : res table :=
  match ms with
  | [] => Ok tb
  | m :: ms =>
      match batch_stmt m with
      | None => batch_table ms tb
      | Some stmt => tb ← stmt tb; batch_table ms tb
      end
  end.

(** [g] was applied [k] times, one after the other. *)
Fixpoint applied (g : table -> res table) (k : nat) (tb tb' : table) : Prop :=
  match k with
  | O => tb' = tb
  | S k => exists tb1, g tb = Ok tb1 /\ applied g k tb1 tb'
  end.

(** No statement of the script takes effect behind an error. *)
Definition no_lost (s : t) : Prop := forall e, RLost e ∉ script s.

(** The closure [f] is an attempt at [g]: it either fails without effect or
    applies [g]; an error after [g] took effect comes from a lost reply. *)
Definition implements (f : closure t) (g : table -> res table) : Prop := forall s,
  let '(s', r) := f s in
  script s' `suffix_of` script s /\
  ((db s' = db s /\ exists e, r = Some e) \/
   (g (db s) = Ok (db s') /\ (r = None \/ exists e, r = Some e /\ RLost e ∈ script s))).

Lemma next_reply_spec s r s' :
  next_reply s = (r, s') ->
  db s' = db s /\ script s' `suffix_of` script s /\ (forall e, r = RLost e -> r ∈ script s).
Proof.
  unfold next_reply. destruct (script s) as [|r0 rs] eqn:E; intros [= <- <-]; cbn.
  - split_and!; [done|by rewrite E|done].
  - split_and!; [done|by exists [r0]|intros; by left].
Qed.

Lemma ExecContext_implements stmt : implements (ExecContext stmt) stmt.
Proof.
  intros s. unfold ExecContext. destruct (next_reply s) as [r s1] eqn:Hr.
  apply next_reply_spec in Hr as (Hdb & Hsuf & Hlost).
  destruct r as [|e|e|k e]; simpl; rewrite ?Hdb; try (destruct (stmt (db s)) eqn:Hst; simpl);
    (split; [done|]); rewrite ?Hdb; eauto 8.
Qed.

Lemma batch_loop_spec ms tb s :
  let '(s', r) := batch_loop ms tb s in
  db s' = db s /\ script s' `suffix_of` script s /\
  (forall tb', r = Ok tb' -> batch_table ms tb = Ok tb').
Proof.
  revert tb s. induction ms as [|m ms IH]; intros tb s; cbn; [by split_and!|].
  destruct (batch_stmt m) as [stmt|]; [|apply IH].
  destruct (next_reply s) as [r s1] eqn:Hr.
  apply next_reply_spec in Hr as (Hdb & Hsuf & _).
  destruct (reply_error r); [by split_and!|].
  destruct (stmt tb) as [tb1|e] eqn:Hst; cbn; [|by split_and!].
  specialize (IH tb1 s1). destruct (batch_loop ms tb1 s1) as [s2 r2].
  destruct IH as (? & ? & ?). split_and!; [congruence|by etrans|done].
Qed.

Lemma batch_attempt_implements ms : implements (batch_attempt ms) (batch_table ms).
Proof.
  intros s. unfold batch_attempt. destruct (next_reply s) as [r s1] eqn:Hr.
  apply next_reply_spec in Hr as (Hdb & Hsuf & _).
  destruct (reply_error r); [split; [done|]; left; eauto|].
  pose proof (batch_loop_spec ms (db s1) s1) as Hl.
  destruct (batch_loop ms (db s1) s1) as [s2 [tb|e]]; destruct Hl as (Hdb2 & Hsuf2 & Hok).
  - destruct (next_reply s2) as [r3 s3] eqn:Hr3.
    apply next_reply_spec in Hr3 as (Hdb3 & Hsuf3 & Hlost3).
    specialize (Hok tb eq_refl). rewrite Hdb in Hok.
    assert (script s3 `suffix_of` script s) by (by do 2 (etrans; [eassumption|])).
    assert (forall x, x ∈ script s2 -> x ∈ script s) as Hin.
    { intros x Hx. assert (script s2 `suffix_of` script s) as [l ->] by (by etrans).
      apply elem_of_app. by right. }
    destruct r3 as [|e|e|k e]; simpl; (split; [done|]).
    + right. auto.
    + left. split; [congruence|eauto].
    + right. split; [done|]. right. eauto.
    + left. split; [congruence|eauto].
  - split; [by etrans|]. left. split; [congruence|eauto].
Qed.

Lemma no_lost_suffix s s' : no_lost s -> script s' `suffix_of` script s -> no_lost s'.
Proof. intros H1 [l Hl] e He. apply (H1 e). rewrite Hl. apply elem_of_app. by right. Qed.

(** Retrying attempts at [g]. *)
Definition retried (g : table -> res table) (n : nat) (s : t) (o : t * option error) : Prop :=
  let '(s', r) := o in
  script s' `suffix_of` script s /\
  exists k, k <= n /\ applied g k (db s) (db s') /\ (r = None -> 1 <= k) /\
    (no_lost s -> k = match r with None => 1 | Some _ => 0 end).

Lemma retry_loop_retried f g o more n s :
  implements f g -> retried g (more + 1) s (retry_loop f o sleep more n s).
Proof.
  intros Hf. revert n s. induction more as [|more IH]; intros n s; cbn [retry_loop];
    specialize (Hf s); destruct (f s) as [s1 [e|]]; destruct Hf as [Hsuf Hcase];
    try (split; [done|]).
  all: try (destruct Hcase as [[_ [? ?]]|[Hg _]]; [done|exists 1; cbn; eauto 6 with lia]).
  - destruct (RetryIf o e); (split; [done|]);
      destruct Hcase as [[-> _]|[Hg [?|(e' & [= <-] & Hl)]]]; try done;
      [exists 0|exists 1|exists 0|exists 1]; cbn; split_and!; eauto with lia; first [by intros [=]|intros Hn; by destruct (Hn e)].
  - destruct (RetryIf o e).
    + specialize (IH (n + 1) (sleep (DelayType o n) s1)). cbn [db script sleep] in IH.
      destruct (retry_loop _ _ _ _ _ _) as [s2 r]. destruct IH as (Hsuf2 & k & Hk & Ha & Hone & Hclean).
      split; [by etrans|]. destruct Hcase as [[Heq _]|[Hg [?|(e' & [= <-] & Hl)]]]; [|done|].
      * exists k. rewrite <- Heq. split_and!; [lia|done|done|].
        intros Hn. apply Hclean. by eapply (no_lost_suffix s).
      * exists (S k). split_and!; [lia|cbn; eauto|lia|]. intros Hn. by destruct (Hn e).
    + split; [done|].
      destruct Hcase as [[-> _]|[Hg [?|(e' & [= <-] & Hl)]]]; try done;
      [exists 0|exists 1]; cbn; split_and!; eauto with lia; first [by intros [=]|intros Hn; by destruct (Hn e)].
Qed.

Lemma Do_retried f g s :
  implements f g -> retried g 4 s (Do sleep f isRetriablePgError s).
Proof.
  intros Hf. unfold Do. rewrite DoWithDelays_loop. by apply (retry_loop_retried f g _ 3).
Qed.

(** ** Refinement: the table holds a MemStorage *)

Definition gauge_row (v : float64) : row := MkRow None (Some v).
Definition counter_row (d : Z) : row := MkRow (Some d) None.

Record refines (tb : table) (m : MemStorage.t) : Prop := {
  ref_gauge n : tb !! (n, Gauge) = gauge_row <$> MemStorage.gauges m !! n;
  ref_counter n : tb !! (n, Counter) = counter_row <$> MemStorage.counters m !! n;
  ref_other n ty : ty <> Gauge -> ty <> Counter -> tb !! (n, ty) = None
}.

Lemma refines_empty : refines ∅ MemStorage.NewMemStorage.
Proof. by split. Qed.

Lemma upsert_gauge_refines n v tb tb' m :
  refines tb m -> upsert_gauge n v tb = Ok tb' -> refines tb' (MemStorage.UpdateGauge n v m).1.
Proof.
  intros [Hg Hc Ho] [= <-]. rewrite (Hg n).
  assert (match gauge_row <$> MemStorage.gauges m !! n with Some r => r_delta r | None => None end = None)
    as -> by (by destruct (MemStorage.gauges m !! n)).
  split; cbn.
  - intros n'. destruct (decide (n = n')) as [->|].
    + by rewrite !lookup_insert_eq.
    + rewrite !lookup_insert_ne by congruence. apply Hg.
  - intros n'. rewrite lookup_insert_ne by (intros [=]). apply Hc.
  - intros n' ty ??. rewrite lookup_insert_ne by congruence. by apply Ho.
Qed.

Lemma upsert_counter_refines n d tb tb' m :
  refines tb m -> in_int64 d = true -> upsert_counter n d tb = Ok tb' ->
  refines tb' (MemStorage.UpdateCounter n d m).1.
Proof.
  intros [Hg Hc Ho] Hd. unfold upsert_counter. rewrite (Hc n). intros Hu.
  assert (tb' = <[(n, Counter) := counter_row (int64_add (default 0%Z (MemStorage.counters m !! n)) d)]> tb) as ->.
  { destruct (MemStorage.counters m !! n) as [d0|]; simpl in *.
    - case_match eqn:Hin; simplify_eq. unfold int64_add. by rewrite wrap64_id.
    - simplify_eq. by rewrite int64_add_0_l. }
  split; cbn; unfold MemStorage.add_counter.
  - intros n'. rewrite lookup_insert_ne by (intros [=]). apply Hg.
  - intros n'. destruct (decide (n = n')) as [->|].
    + by rewrite !lookup_insert_eq.
    + rewrite !lookup_insert_ne by congruence. apply Hc.
  - intros n' ty ??. rewrite lookup_insert_ne by congruence. by apply Ho.
Qed.

Lemma batch_table_refines ms tb tb' m :
  Forall (fun x => valid_metric x = true) ms ->
  refines tb m -> batch_table ms tb = Ok tb' -> refines tb' (MemStorage.apply_all ms m).
Proof.
  intros Hms. revert tb m. induction Hms as [|x ms Hx Hms IH]; intros tb m Hr Hb; cbn in Hb; [by simplify_eq|].
  apply andb_true_iff in Hx as [Hxd _].
  rewrite MemStorage.apply_all_cons. unfold batch_stmt, MemStorage.apply_metric in *.
  destruct (bool_decide (MType x = Gauge)); [|destruct (bool_decide (MType x = Counter))].
  - destruct (Value x) as [v|]; cbn in Hb; [|by eapply IH].
    eapply IH; [|exact Hb]. by eapply upsert_gauge_refines.
  - destruct (Delta x) as [d|]; cbn in Hb; [|by eapply IH].
    apply bind_Ok in Hb as (tb1 & Hu & Hb). eapply IH; [|exact Hb]. by eapply upsert_counter_refines.
  - by eapply IH.
Qed.

(** A retried attempt at a table transformer that implements an operation of
    the in-memory storage. *)
Lemma Do_refines f g s m m' :
  implements f g -> no_lost s -> refines (db s) m ->
  (forall tb, g (db s) = Ok tb -> refines tb m') ->
  let '(s', r) := Do sleep f isRetriablePgError s in
  refines (db s') (match r with None => m' | Some _ => m end) /\ no_lost s'.
Proof.
  intros Hf Hn Hr Hg. pose proof (Do_retried f g s Hf) as Hd'. unfold retried in Hd'.
  destruct (Do _ _ _ _) as [s' r]. destruct Hd' as (Hsuf & k & _ & Ha & _ & Hk).
  split; [|by eapply no_lost_suffix].
  specialize (Hk Hn) as ->. destruct r; cbn in Ha; [by rewrite Ha|].
  destruct Ha as (tb1 & Htb & ->). by apply Hg.
Qed.

Lemma UpdateGauge_refines n v s m :
  refines (db s) m -> no_lost s ->
  let '(s', r) := UpdateGauge n v s in
  refines (db s') (match r with None => (MemStorage.UpdateGauge n v m).1 | Some _ => m end) /\ no_lost s'.
Proof.
  intros Hr Hn. eapply Do_refines; [apply ExecContext_implements|done..|].
  intros tb. by apply upsert_gauge_refines.
Qed.

Lemma UpdateCounter_refines n d s m :
  refines (db s) m -> no_lost s -> in_int64 d = true ->
  let '(s', r) := UpdateCounter n d s in
  refines (db s') (match r with None => (MemStorage.UpdateCounter n d m).1 | Some _ => m end) /\ no_lost s'.
Proof.
  intros Hr Hn Hd. eapply Do_refines; [apply ExecContext_implements|done..|].
  intros tb. by apply upsert_counter_refines.
Qed.

Lemma UpdateBatch_refines ms s m :
  refines (db s) m -> no_lost s -> Forall (fun x => valid_metric x = true) ms ->
  let '(s', r) := UpdateBatch ms s in
  refines (db s') (match r with None => (MemStorage.UpdateBatch ms m).1 | Some _ => m end) /\ no_lost s'.
Proof.
  intros Hr Hn Hms. eapply Do_refines; [apply batch_attempt_implements|done..|].
  intros tb. by apply batch_table_refines.
Qed.

Lemma metric_attempt_none name mType s result :
  script s = [] ->
  metric_attempt name mType (s, result) =
    ((s, match db s !! (name, mType) with
         | Some rw => Some (MkMetrics name mType (r_delta rw) (r_value rw) "")
         | None => result end), None).
Proof. intros Hs. unfold metric_attempt, next_reply. rewrite Hs. simpl. by case_match. Qed.

Lemma refines_metric tb m name mType :
  refines tb m ->
  (fun rw => MkMetrics name mType (r_delta rw) (r_value rw) "") <$> tb !! (name, mType)
  = MemStorage.GetMetric name mType m.
Proof.
  intros [Hg Hc Ho]. unfold MemStorage.GetMetric.
  destruct (decide (mType = Gauge)) as [->|H1]; [|destruct (decide (mType = Counter)) as [->|H2]].
  - rewrite bool_decide_true, Hg by done. by destruct (MemStorage.gauges m !! name).
  - rewrite bool_decide_false, bool_decide_true, Hc by done. by destruct (MemStorage.counters m !! name).
  - rewrite !bool_decide_false, Ho by done. done.
Qed.

(** Reading leaves the table alone and at most uses up replies. *)
Definition read_only (s s' : t) : Prop := db s' = db s /\ script s' `suffix_of` script s.

Lemma next_reply_read_only s : read_only s (next_reply s).2.
Proof.
  destruct (next_reply s) as [r s'] eqn:Hn. apply next_reply_spec in Hn as (? & ? & _). by split.
Qed.

Lemma read_only_trans s1 s2 s3 : read_only s1 s2 -> read_only s2 s3 -> read_only s1 s3.
Proof. intros [H1 H2] [H3 H4]. split; [congruence|by etrans]. Qed.

(** A retried query: every attempt leaves a result in [P]. *)
Lemma Do_query {A} (P : option A -> Prop) (f : closure (t * option A)) s :
  P None ->
  (forall s' r, db s' = db s -> P r -> read_only s' (f (s', r)).1.1 /\ P (f (s', r)).1.2) ->
  let '((s', r), _) := Do sleep_with f isRetriablePgError (s, None) in read_only s s' /\ P r.
Proof.
  intros HP Hf.
  pose proof (DoWithDelays_invariant sleep_with (fun x : t * option A => read_only s x.1 /\ P x.2)
    f isRetriablePgError delays (s, None)) as Hinv.
  unfold Do. destruct (DoWithDelays _ _ _ _ _) as [[s' r] e]. apply Hinv.
  - by repeat split.
  - intros [s1 r1] [Hro Hr1]. destruct (Hf s1 r1 (proj1 Hro) Hr1) as [??].
    split; [by eapply read_only_trans|done].
  - by intros d [s1 r1].
Qed.

(** What [GetMetric] returns is the row, or nothing. *)
Lemma GetMetric_sound name mType s :
  let '(s', o) := GetMetric name mType s in
  read_only s s' /\
  (o = None \/ o = (fun rw => MkMetrics name mType (r_delta rw) (r_value rw) "") <$> db s !! (name, mType)).
Proof.
  pose proof (Do_query (fun o => o = None \/
      o = (fun rw => MkMetrics name mType (r_delta rw) (r_value rw) "") <$> db s !! (name, mType))
    (metric_attempt name mType) s) as Hq.
  unfold GetMetric. destruct (Do _ _ _ _) as [[s' r] e].
  destruct Hq as [Hro Hr]; [by left| |by destruct e; auto].
  intros s1 r1 Hdb Hr1. pose proof (next_reply_read_only s1) as Hn. unfold metric_attempt.
  destruct (next_reply s1) as [rp s2]. cbn in Hn. destruct (reply_error rp); [done|].
  rewrite (proj1 Hn), Hdb. destruct (db s !! (name, mType)); cbn; auto.
Qed.

Lemma GetMetric_up name mType s :
  script s = [] ->
  GetMetric name mType s = (s, (fun rw => MkMetrics name mType (r_delta rw) (r_value rw) "") <$> db s !! (name, mType)).
Proof.
  intros Hs. unfold GetMetric, Do. rewrite DoWithDelays_loop. cbn [length delays retry_loop].
  rewrite metric_attempt_none by done. by destruct (db s !! _).
Qed.

(** The text of a row, and its key in the dashboard map. *)
Definition row_text (e : (string * string) * row) : option (string * string) :=
  let '((id, mtype), rw) := e in
  if bool_decide (mtype = Gauge) then (fun v => ("gauge/" +:+ id, Sprintf_g v)) <$> r_value rw
  else if bool_decide (mtype = Counter) then (fun d => ("counter/" +:+ id, FormatInt d)) <$> r_delta rw
  else None.

Lemma row_entry_text e acc :
  row_entry e acc = match row_text e with Some (k, txt) => <[k := txt]> acc | None => acc end.
Proof.
  destruct e as [[id mtype] rw]. unfold row_entry, row_text.
  destruct (bool_decide (mtype = Gauge)); [by destruct (r_value rw)|].
  destruct (bool_decide (mtype = Counter)); [by destruct (r_delta rw)|done].
Qed.

Lemma scan_sound l acc key txt :
  fold_left (fun acc e => row_entry e acc) l acc !! key = Some txt ->
  acc !! key = Some txt \/ exists e, e ∈ l /\ row_text e = Some (key, txt).
Proof.
  revert acc. induction l as [|e l IH]; intros acc; cbn; [by left|]. intros [Hk|(e' & ? & ?)]%IH.
  - rewrite row_entry_text in Hk. destruct (row_text e) as [[k v]|] eqn:He; [|by left].
    apply lookup_insert_Some in Hk as [[-> ->]|[_ ?]]; [|by left]. right. exists e. split; [left|done].
  - right. exists e'. split; [by right|done].
Qed.

Lemma scan_complete l acc key :
  is_Some (acc !! key) \/ (exists e txt, e ∈ l /\ row_text e = Some (key, txt)) ->
  is_Some (fold_left (fun acc e => row_entry e acc) l acc !! key).
Proof.
  revert acc. induction l as [|e l IH]; intros acc; cbn.
  - intros [?|(e & ? & He & _)]; [done|by inversion He].
  - intros Hk. apply IH. rewrite row_entry_text.
    destruct Hk as [Hk|(e' & txt & [->|He]%elem_of_cons & Ht)].
    + left. destruct (row_text e) as [[k v]|]; [|done]. rewrite lookup_insert_is_Some.
      destruct (decide (k = key)); auto.
    + left. rewrite Ht, lookup_insert_eq. by eexists.
    + right. eauto.
Qed.

(** What the rows denote. *)
Lemma row_text_metric tb m e key txt :
  refines tb m -> tb !! e.1 = Some e.2 -> row_text e = Some (key, txt) ->
  exists id x, (exists v, x = gauge_metric id v /\ txt = Sprintf_g v /\ key = Gauge +:+ "/" +:+ id /\
                  MemStorage.gauges m !! id = Some v) \/
               (exists d, x = counter_metric id d /\ txt = FormatInt d /\ key = Counter +:+ "/" +:+ id /\
                  MemStorage.counters m !! id = Some d).
Proof.
  intros [Hg Hc Ho]. destruct e as [[id mtype] rw]. cbn. intros Htb.
  destruct (decide (mtype = Gauge)) as [->|Hng]; [|destruct (decide (mtype = Counter)) as [->|Hnc]].
  - rewrite bool_decide_true by done. rewrite Hg in Htb. apply fmap_Some in Htb as (v & Hv & ->).
    cbn. intros [= <- <-]. exists id, (gauge_metric id v). left. eauto.
  - rewrite (bool_decide_false (Counter = Gauge)), bool_decide_true by done.
    rewrite Hc in Htb. apply fmap_Some in Htb as (d & Hd & ->).
    cbn. intros [= <- <-]. exists id, (counter_metric id d). right. eauto.
  - by rewrite !bool_decide_false by done.
Qed.

(** The dashboard map: every entry is the text of a metric, and a server that
    answers leaves none out. *)
Lemma GetAllMetrics_sound rows_of s m :
  (forall tb, rows_of tb ≡ₚ map_to_list tb) -> refines (db s) m ->
  let '(s', r) := GetAllMetrics rows_of s in
  read_only s s' /\
  (forall key txt, r !! key = Some txt -> exists e, db s !! e.1 = Some e.2 /\ row_text e = Some (key, txt)) /\
  (script s = [] -> forall e key txt, db s !! e.1 = Some e.2 -> row_text e = Some (key, txt) -> is_Some (r !! key)).
Proof.
  intros Hrows Hr.
  set (P := fun o : option (gmap string string) => forall key txt, default ∅ o !! key = Some txt ->
    exists e, db s !! e.1 = Some e.2 /\ row_text e = Some (key, txt)).
  assert (forall l tb, (forall e, e ∈ l -> e ∈ map_to_list tb) -> tb = db s ->
    P (Some (fold_left (fun acc e => row_entry e acc) l ∅))) as Hscan.
  { intros l tb Hl -> key txt Hk. apply scan_sound in Hk as [?|(e & He & ?)]; [done|].
    exists e. split; [|done]. apply elem_of_map_to_list. rewrite <- surjective_pairing. auto. }
  pose proof (Do_query P (all_attempt rows_of) s) as Hq. unfold GetAllMetrics.
  destruct (Do _ _ _ _) as [[s' r] e] eqn:Hdo. destruct Hq as [Hro HP]; [by intros ??| |].
  - intros s1 r1 Hdb Hr1. pose proof (next_reply_read_only s1) as Hn. unfold all_attempt.
    destruct (next_reply s1) as [rp s2]. cbn in Hn. destruct rp as [|?|?|k ?]; cbn; [|done|done|].
    + split; [done|]. eapply (Hscan _ (db s2)); [intros x; by rewrite Hrows|]. by rewrite (proj1 Hn).
    + split; [done|]. eapply (Hscan _ (db s2)); [|by rewrite (proj1 Hn)].
      intros x Hx. rewrite <- Hrows. by eapply elem_of_take in Hx as (? & ?%list_elem_of_lookup_2 & _).
  - split; [done|]. split; [done|]. intros Hs x key txt Hx Ht.
    unfold Do in Hdo. rewrite DoWithDelays_loop in Hdo. cbn [length delays retry_loop] in Hdo.
    unfold all_attempt, next_reply in Hdo. rewrite Hs in Hdo. injection Hdo as <- <- <-. cbn.
    apply scan_complete. right. exists x, txt. split; [|done].
    rewrite Hrows, (surjective_pairing x). by apply elem_of_map_to_list.
Qed.

(** ** Properties *)

(** C10. A batch is applied to the database as a whole or not at all: under any
    behaviour of the server and the network, the table afterwards is the result
    of applying the complete batch [k] times, [k] at most four; at least once
    when no error is returned; and when no reply to a statement that took effect
    gets lost, exactly once on success and not at all on an error. *)
Theorem UpdateBatch_atomic ms s :
  let '(s', r) := UpdateBatch ms s in
  exists k, k <= 4 /\ applied (batch_table ms) k (db s) (db s') /\ (r = None -> 1 <= k) /\
    (no_lost s -> k = match r with None => 1 | Some _ => 0 end).
Proof.
  pose proof (Do_retried _ _ s (batch_attempt_implements ms)) as Hd. unfold retried in Hd.
  unfold UpdateBatch. destruct (Do _ _ _ _) as [s' r]. destruct Hd as [_ Hd]. exact Hd.
Qed.

(** C28. Without lost replies the database refines the in-memory storage: on
    success an update does to the table what [MemStorage] does to its maps, and a
    reported error leaves the table as it was. *)
Theorem updates_refine_MemStorage ms n v d s m :
  refines (db s) m -> no_lost s ->
  Forall (fun x => valid_metric x = true) ms -> in_int64 d = true ->
  (let '(s', r) := UpdateGauge n v s in
   refines (db s') (match r with None => (MemStorage.UpdateGauge n v m).1 | Some _ => m end)) /\
  (let '(s', r) := UpdateCounter n d s in
   refines (db s') (match r with None => (MemStorage.UpdateCounter n d m).1 | Some _ => m end)) /\
  (let '(s', r) := UpdateBatch ms s in
   refines (db s') (match r with None => (MemStorage.UpdateBatch ms m).1 | Some _ => m end)).
Proof.
  intros Hr Hn Hms Hd. split_and!.
  - pose proof (UpdateGauge_refines n v s m Hr Hn) as Hg. by destruct (UpdateGauge n v s), Hg.
  - pose proof (UpdateCounter_refines n d s m Hr Hn Hd) as Hg. by destruct (UpdateCounter n d s), Hg.
  - pose proof (UpdateBatch_refines ms s m Hr Hn Hms) as Hg. by destruct (UpdateBatch ms s), Hg.
Qed.

(** C32. Reads of the database agree with the in-memory storage: a metric found
    is the one [MemStorage] holds, with a server that answers it is found
    whenever it is there, and the text of [GetValue] reads back as its value. *)
Theorem reads_refine_MemStorage name mType s m :
  refines (db s) m -> MemStorage.valid m ->
  (forall x, (GetMetric name mType s).2 = Some x -> MemStorage.GetMetric name mType m = Some x) /\
  (script s = [] -> (GetMetric name mType s).2 = MemStorage.GetMetric name mType m) /\
  (forall txt, (GetValue mType name s).2 = Some txt -> exists x,
     MemStorage.GetMetric name mType m = Some x /\
     (mType = Gauge -> exists v, Value x = Some v /\ ParseFloat txt = Ok v) /\
     (mType = Counter -> exists d, Delta x = Some d /\ ParseInt "ParseInt" txt = Ok d)).
Proof.
  intros Hr Hv. pose proof (refines_metric _ _ name mType Hr) as Hm.
  pose proof (GetMetric_sound name mType s) as Hs. unfold GetValue.
  split_and!.
  - intros x Hx. destruct (GetMetric name mType s) as [s' o]. cbn in Hx. subst o.
    destruct Hs as [_ [?|Ho]]; [done|]. by rewrite <- Hm, <- Ho.
  - intros He. by rewrite GetMetric_up, Hm.
  - intros txt Ht. destruct (GetMetric name mType s) as [s' [x|]]; [|done].
    destruct Hs as [_ [?|Ho]]; [done|]. rewrite Hm in Ho. exists x. split; [done|].
    cbn in Ht. split; intros ->.
    + rewrite bool_decide_true in Ht by done. rewrite MemStorage.GetMetric_gauge in Ho.
      destruct (MemStorage.gauges m !! name) as [v|] eqn:Hg; simplify_eq/=. exists v. split; [done|].
      apply ParseFloat_Sprintf_g. exact (map_Forall_lookup_1 _ _ _ _ (proj1 Hv) Hg).
    + rewrite bool_decide_false, bool_decide_true in Ht by done. rewrite MemStorage.GetMetric_counter in Ho.
      destruct (MemStorage.counters m !! name) as [d|] eqn:Hc; simplify_eq/=. exists d. split; [done|].
      apply ParseInt_FormatInt. exact (map_Forall_lookup_1 _ _ _ _ (proj2 Hv) Hc).
Qed.

Lemma retry_once f isRet (s s1 : t) e :
  f s = (s1, Some e) -> isRet e = true ->
  Do sleep f isRet s = retry_loop f (MkOptions 4 isRet (delay_type delays)) sleep 2
    (retrygo_first + 1) (sleep (delay_type delays retrygo_first) s1).
Proof.
  intros Hf He. unfold Do. rewrite DoWithDelays_loop. cbn [length delays Nat.add retry_loop].
  rewrite Hf. cbn [RetryIf]. by rewrite He.
Qed.

(** One attempt at adding [d] to one existing counter. *)
Lemma single_counter_attempt n d d1 s rs :
  script s = rs -> db s !! (n, Counter) = Some (counter_row d1) -> in_int64 (d1 + d) = true ->
  let s' := Mk (<[(n, Counter) := counter_row (d1 + d)]> (db s)) [] (slept s) in
  match rs with
  | [] => batch_attempt [counter_metric n d] s = (s', None)
  | [ROk; ROk; RLost e] => batch_attempt [counter_metric n d] s = (s', Some e)
  | _ => True
  end.
Proof.
  destruct s as [tb sc sl]. cbn [script db slept]. intros -> Hrow Hin.
  assert (upsert_counter n d tb = Ok (<[(n, Counter) := counter_row (d1 + d)]> tb)) as Hup.
  { unfold upsert_counter. rewrite Hrow. cbn. by rewrite Hin. }
  assert (batch_stmt (counter_metric n d) = Some (upsert_counter n d)) as Hst by done.
  cbv zeta. repeat case_match; try done; unfold batch_attempt; cbn -[upsert_counter batch_stmt];
    by rewrite Hst, Hup.
Qed.

(** A commit that took effect but whose reply is lost with a retriable error
    is repeated: the batch's counters are then added twice, although the caller
    sees a single success. *)
Theorem lost_commit_counts_twice n d d0 e s :
  script s = [ROk; ROk; RLost e] -> isRetriablePgError e = true ->
  db s !! (n, Counter) = Some (counter_row d0) ->
  in_int64 (d0 + d) = true -> in_int64 (d0 + d + d) = true ->
  let '(s', r) := UpdateBatch [counter_metric n d] s in
  r = None /\ db s' !! (n, Counter) = Some (counter_row (d0 + d + d)).
Proof.
  intros Hs He Hrow H1 H2. unfold UpdateBatch.
  pose proof (single_counter_attempt n d d0 s [ROk; ROk; RLost e] Hs Hrow H1) as Ha. cbn in Ha.
  rewrite (retry_once _ _ _ _ e Ha He). cbn [retry_loop].
  set (s1 := sleep _ _).
  pose proof (single_counter_attempt n d (d0 + d) s1 [] eq_refl) as Hb.
  rewrite Hb; [|cbn; by rewrite lookup_insert_eq|done].
  cbn. split; [done|]. by rewrite lookup_insert_eq.
Qed.

(** A read that fails with an error that is not retriable is reported as an
    absent metric, whatever the table holds. *)
Theorem GetMetric_hides_errors name mType s e rest :
  script s = RErr e :: rest -> isRetriablePgError e = false ->
  (GetMetric name mType s).2 = None /\ (GetValue mType name s).2 = None.
Proof.
  intros Hs He.
  assert ((GetMetric name mType s).2 = None) as Hg.
  { unfold GetMetric, Do. rewrite DoWithDelays_loop. cbn [length delays Nat.add retry_loop].
    unfold metric_attempt, next_reply. rewrite Hs. cbn [reply_error RetryIf]. by rewrite He. }
  split; [done|]. unfold GetValue. destruct (GetMetric name mType s) as [s' o]. cbn in Hg. by subst.
Qed.
End Operations.

(** ** Instances *)

(** SQLSTATE class 08. *)
#[local] Instance class08 : PgErrCode := {|
  IsConnectionException code := bool_decide (str_take 2 code = "08") |}.
#[local] Instance retrygo0 : RetryGo := documented_retrygo 0.

Definition sample_table : table :=
  {[ ("PollCount", Counter) := counter_row 5; ("Alloc", Gauge) := gauge_row (float64_of_Z 1234567) ]}.
Definition sample_batch : list Metrics :=
  [counter_metric "PollCount" 2; gauge_metric "Alloc" (F_inf false); MkMetrics "x" "other" None None ""].
Definition connection_failure : error := PgError "08006".
Definition sample_mem : MemStorage.t :=
  MemStorage.Mk {[ "Alloc" := float64_of_Z 1234567 ]} {[ "PollCount" := 5%Z ]}.

Lemma sample_refines : refines sample_table sample_mem.
Proof.
  pose proof (upsert_gauge_refines "Alloc" (float64_of_Z 1234567) ∅ _ MemStorage.NewMemStorage
    refines_empty eq_refl) as H1.
  exact (upsert_counter_refines "PollCount" 5 _ sample_table _ H1 eq_refl eq_refl).
Qed.

Lemma UpdateBatch_atomic_witness :
  let s := Mk sample_table [RErr connection_failure; ROk; ROk; RErr connection_failure] [] in
  (UpdateBatch sample_batch s).2 = None /\
  exists k, k <= 4 /\ applied (batch_table sample_batch) k sample_table (db (UpdateBatch sample_batch s).1).
Proof.
  split; [by vm_compute|].
  pose proof (UpdateBatch_atomic sample_batch
    (Mk sample_table [RErr connection_failure; ROk; ROk; RErr connection_failure] [])) as H.
  destruct (UpdateBatch _ _) as [s' r]. destruct H as (k & Hk & Ha & _). by exists k.
Defined.

Lemma updates_refine_MemStorage_witness :
  let s := Mk sample_table [RErr connection_failure] [] in
  refines (db (UpdateCounter "PollCount" 3 s).1) (MemStorage.UpdateCounter "PollCount" 3 sample_mem).1.
Proof.
  assert (no_lost (Mk sample_table [RErr connection_failure] [])) as Hl
    by (intros e He; inversion He as [|? ? ? He']; inversion He').
  assert (Forall (fun x => valid_metric x = true) sample_batch) as Hb by (by repeat constructor).
  exact (proj1 (proj2 (updates_refine_MemStorage sample_batch "PollCount" F_nan 3
    (Mk sample_table [RErr connection_failure] []) sample_mem sample_refines Hl Hb eq_refl))).
Defined.

Lemma reads_refine_MemStorage_witness :
  MemStorage.valid sample_mem /\
  (GetMetric "Alloc" Gauge (Mk sample_table [] [])).2 = MemStorage.GetMetric "Alloc" Gauge sample_mem /\
  (GetValue Gauge "Alloc" (Mk sample_table [] [])).2 = Some "1.234567e+06".
Proof.
  assert (MemStorage.valid sample_mem) as Hv
    by (split; apply map_Forall_singleton; by vm_compute).
  split; [exact Hv|]. split; [|by vm_compute].
  exact (proj1 (proj2 (reads_refine_MemStorage "Alloc" Gauge (Mk sample_table [] []) sample_mem
    sample_refines Hv)) eq_refl).
Defined.

Lemma lost_commit_counts_twice_witness :
  db (UpdateBatch [counter_metric "PollCount" 2]
        (Mk sample_table [ROk; ROk; RLost connection_failure] [])).1 !! ("PollCount", Counter)
  = Some (counter_row 9).
Proof.
  exact (proj2 (lost_commit_counts_twice "PollCount" 2 5 connection_failure
    (Mk sample_table [ROk; ROk; RLost connection_failure] []) eq_refl eq_refl eq_refl eq_refl eq_refl)).
Defined.

Lemma GetMetric_hides_errors_witness :
  (GetMetric "PollCount" Counter (Mk sample_table [RErr (ErrorText "conn closed")] [])).2 = None /\
  sample_table !! ("PollCount", Counter) = Some (counter_row 5).
Proof.
  split; [|done].
  exact (proj1 (GetMetric_hides_errors "PollCount" Counter
    (Mk sample_table [RErr (ErrorText "conn closed")] []) (ErrorText "conn closed") [] eq_refl eq_refl)).
Defined.

(** The two backends print the same gauge differently: the in-memory storage
    without an exponent, the database in exponent form. *)
Theorem backends_print_differently :
  refines sample_table sample_mem /\
  MemStorage.GetValue Gauge "Alloc" sample_mem = Some "1234567" /\
  (GetValue Gauge "Alloc" (Mk sample_table [] [])).2 = Some "1.234567e+06".
Proof. split; [apply sample_refines|by vm_compute]. Qed.
End DBStorage.
