(* ===== verification/Service.v ===== *)
(** * internal/service: MetricService

    The service parses and validates updates, applies them to a
    [repository.Storage] and calls an optional callback after each success.  The
    storage interface is the class [Storage]; what a backend promises is the
    class [StorageLaws], a refinement of [MemStorage], discharged by the
    in-memory and the PostgreSQL backends below and by the file-backed one in
    [FileStore]. *)

From S2P Require Import Prelude Errors GoInt GoStrings GoFloat GoFloatFacts Model Storage Retry DBStore.

(** ** The interface [repository.Storage] *)

(** [S] is the state of the process the storage lives in (the storage itself,
    its file, its database). *)
Class Storage (S : Type) := {
  UpdateGauge : string -> float64 -> S -> S * option error;
  UpdateCounter : string -> Z -> S -> S * option error;
  UpdateBatch : list Metrics -> S -> S * option error;
  GetMetric : string -> string -> S -> S * option Metrics;
  GetValue : string -> string -> S -> S * option string;
  GetAllMetrics : S -> S * gmap string string
}.

(** The text [txt] denotes the value of the metric [x]. *)
Definition denotes (x : Metrics) (txt : string) : Prop :=
  (MType x = Gauge /\ exists v, Value x = Some v /\ ParseFloat txt = Ok v) \/
  (MType x = Counter /\ exists d, Delta x = Some d /\ ParseInt "ParseInt" txt = Ok d).

(** [holds s m]: in state [s] the storage holds what the in-memory storage [m]
    holds, and no answer of the environment will be lost; [answers s]: the
    environment answers every request. *)
Class StorageLaws (S : Type) `{Storage S} := {
  holds : S -> MemStorage.t -> Prop;
  answers : S -> Prop;
  holds_valid s m : holds s m -> MemStorage.valid m;
  UpdateGauge_law name v s m :
    holds s m -> valid_float v = true ->
    let '(s', r) := UpdateGauge name v s in
    holds s' (match r with None => (MemStorage.UpdateGauge name v m).1 | Some _ => m end) /\
    (answers s -> answers s' /\ r = None);
  UpdateCounter_law name d s m :
    holds s m -> in_int64 d = true ->
    let '(s', r) := UpdateCounter name d s in
    holds s' (match r with None => (MemStorage.UpdateCounter name d m).1 | Some _ => m end) /\
    (answers s -> answers s');
  UpdateBatch_law ms s m :
    holds s m -> Forall (fun x => valid_metric x = true) ms ->
    let '(s', r) := UpdateBatch ms s in
    holds s' (match r with None => (MemStorage.UpdateBatch ms m).1 | Some _ => m end) /\
    (answers s -> answers s');
  GetMetric_law name mType s m :
    holds s m ->
    let '(s', o) := GetMetric name mType s in
    holds s' m /\ (o = None \/ o = MemStorage.GetMetric name mType m) /\
    (answers s -> answers s' /\ o = MemStorage.GetMetric name mType m);
  GetValue_law mType name s m :
    holds s m ->
    let '(s', o) := GetValue mType name s in
    holds s' m /\
    (forall txt, o = Some txt -> exists x, MemStorage.GetMetric name mType m = Some x /\ denotes x txt) /\
    (answers s -> answers s' /\ (is_Some (MemStorage.GetMetric name mType m) -> is_Some o));
  GetAllMetrics_law s m :
    holds s m ->
    let '(s', r) := GetAllMetrics s in
    holds s' m /\
    (forall key txt, r !! key = Some txt -> exists mType name x,
       key = mType +:+ "/" +:+ name /\ MemStorage.GetMetric name mType m = Some x /\ denotes x txt) /\
    (answers s -> answers s' /\ forall mType name,
       is_Some (MemStorage.GetMetric name mType m) -> is_Some (r !! (mType +:+ "/" +:+ name)))
}.

(** ** MetricService *)

Module MetricService.

Section Operations.
Context {S : Type} `{Storage S} `{UnicodeTables}.

(** The struct: the storage is the instance [Storage S]; the callback acts on
    the same state. *)
Record t := Mk { onUpdate : option (S -> S) }.

Definition NewMetricService : t := Mk None.

Definition SetOnUpdate (fn : S -> S) (svc : t) : t := Mk (Some fn).

Definition notifyUpdate (svc : t) (s : S) : S :=
  match onUpdate svc with Some fn => fn s | None => s end.

Definition UpdateMetric (svc : t) (mType name value : string) (s : S) : S * option error :=
  if bool_decide (mType = Gauge) then
    match ParseFloat value with
    | Err err => (s, Some (Errorf "invalid gauge value: " err))
    | Ok val =>
        match Service.UpdateGauge name val s with
        | (s, Some err) => (s, Some err)
        | (s, None) => (notifyUpdate svc s, None)
        end
    end
  else if bool_decide (mType = Counter) then
    match ParseInt "ParseInt" value with
    | Err err => (s, Some (Errorf "invalid counter value: " err))
    | Ok val =>
        match Service.UpdateCounter name val s with
        | (s, Some err) => (s, Some err)
        | (s, None) => (notifyUpdate svc s, None)
        end
    end
  else (s, Some (Sentinel sErrUnknownType)).

Definition UpdateMetricFromModel (svc : t) (m : Metrics) (s : S) : S * option error :=
  if bool_decide (MType m = Gauge) then
    match Value m with
    | None => (s, Some (Sentinel sErrValueRequired))
    | Some v =>
        match Service.UpdateGauge (ID m) v s with
        | (s, Some err) => (s, Some (Errorf ("failed to update gauge " +:+ Quote (ID m) +:+ ": ") err))
        | (s, None) => (notifyUpdate svc s, None)
        end
    end
  else if bool_decide (MType m = Counter) then
    match Delta m with
    | None => (s, Some (Sentinel sErrDeltaRequired))
    | Some d =>
        match Service.UpdateCounter (ID m) d s with
        | (s, Some err) => (s, Some (Errorf ("failed to update counter " +:+ Quote (ID m) +:+ ": ") err))
        | (s, None) => (notifyUpdate svc s, None)
        end
    end
  else (s, Some (Sentinel sErrUnknownType)).

Definition UpdateBatch (svc : t) (metrics : list Metrics) (s : S) : S * option error :=
  if bool_decide (length metrics = 0) then (s, None)
  else
    match Service.UpdateBatch metrics s with
    | (s, Some err) => (s, Some (Errorf "batch update failed: " err))
    | (s, None) => (notifyUpdate svc s, None)
    end.

Definition GetMetric (svc : t) (mType name : string) (s : S) : S * res Metrics :=
  if bool_decide (name = "") then (s, Err (Sentinel sErrMetricNameEmpty))
  else if bool_decide (mType <> Gauge /\ mType <> Counter) then (s, Err (Sentinel sErrUnknownType))
  else
    match Service.GetMetric name mType s with
    | (s, None) => (s, Err (Sentinel sErrMetricNotFound))
    | (s, Some m) => (s, Ok m)
    end.

Definition GetValue (svc : t) (mType name : string) (s : S) : S * res string :=
  if bool_decide (name = "") then (s, Err (Sentinel sErrMetricNameEmpty))
  else if bool_decide (mType <> Gauge /\ mType <> Counter) then (s, Err (Sentinel sErrUnknownType))
  else
    match Service.GetValue mType name s with
    | (s, Some val) => (s, Ok val)
    | (s, None) => (s, Err (Sentinel sErrMetricNotFound))
    end.

Definition GetAllMetrics (svc : t) (s : S) : S * gmap string string := Service.GetAllMetrics s.

(** ** Properties *)

Context `{!StorageLaws S}.

(** The update a request asks for, or why it asks for none. *)
Definition text_update (mType name value : string) : res Metrics :=
  if bool_decide (mType = Gauge) then gauge_metric name <$> ParseFloat value
  else if bool_decide (mType = Counter) then counter_metric name <$> ParseInt "ParseInt" value
  else Err (Sentinel sErrUnknownType).

Definition model_update (m : Metrics) : res Metrics :=
  if bool_decide (MType m = Gauge) then
    match Value m with Some v => Ok (gauge_metric (ID m) v) | None => Err (Sentinel sErrValueRequired) end
  else if bool_decide (MType m = Counter) then
    match Delta m with Some d => Ok (counter_metric (ID m) d) | None => Err (Sentinel sErrDeltaRequired) end
  else Err (Sentinel sErrUnknownType).

(** From a state holding [m], the call ended in [s'] with result [r]: either
    the storage went to [m'] and then the callback ran once, or an error was
    returned, the storage still holds [m] and the callback did not run. *)
Definition all_or_nothing (svc : t) (m m' : MemStorage.t) (s' : S) (r : option error) : Prop :=
  exists s1, holds s1 (match r with None => m' | Some _ => m end) /\
    s' = match r with None => notifyUpdate svc s1 | Some _ => s1 end.

Lemma UpdateGauge_step svc name v s m wrap :
  holds s m -> valid_float v = true ->
  let '(s', r) :=
    match Service.UpdateGauge name v s with
    | (s, Some err) => (s, Some (wrap err : error))
    | (s, None) => (notifyUpdate svc s, None)
    end in
  all_or_nothing svc m (MemStorage.apply_metric (gauge_metric name v) m) s' r.
Proof.
  intros Hm Hv. pose proof (UpdateGauge_law name v s m Hm Hv) as Hl.
  destruct (Service.UpdateGauge name v s) as [s1 [e|]]; destruct Hl as [Hl _]; by exists s1.
Qed.

Lemma UpdateCounter_step svc name d s m wrap :
  holds s m -> in_int64 d = true ->
  let '(s', r) :=
    match Service.UpdateCounter name d s with
    | (s, Some err) => (s, Some (wrap err : error))
    | (s, None) => (notifyUpdate svc s, None)
    end in
  all_or_nothing svc m (MemStorage.apply_metric (counter_metric name d) m) s' r.
Proof.
  intros Hm Hd. pose proof (UpdateCounter_law name d s m Hm Hd) as Hl.
  destruct (Service.UpdateCounter name d s) as [s1 [e|]]; destruct Hl as [Hl _]; by exists s1.
Qed.

Lemma UpdateMetric_outcome svc s m mType name value :
  holds s m ->
  let '(s', r) := UpdateMetric svc mType name value s in
  match text_update mType name value with
  | Ok x => all_or_nothing svc m (MemStorage.apply_metric x m) s' r
  | Err e => s' = s /\ exists e', r = Some e' /\ forall target, Is e' target = Is e target
  end.
Proof.
  intros Hm. unfold UpdateMetric, text_update.
  destruct (bool_decide (mType = Gauge)); [|destruct (bool_decide (mType = Counter))].
  - destruct (ParseFloat value) as [v|e] eqn:Hv; cbn; [|eauto].
    apply (UpdateGauge_step svc name v s m id Hm). by eapply ParseFloat_valid.
  - destruct (ParseInt "ParseInt" value) as [d|e] eqn:Hd; cbn; [|eauto].
    apply (UpdateCounter_step svc name d s m id Hm). by eapply ParseInt_range.
  - eauto.
Qed.

Lemma UpdateMetricFromModel_outcome svc s m x :
  holds s m -> valid_metric x = true ->
  let '(s', r) := UpdateMetricFromModel svc x s in
  match model_update x with
  | Ok x => all_or_nothing svc m (MemStorage.apply_metric x m) s' r
  | Err e => s' = s /\ r = Some e
  end.
Proof.
  intros Hm [Hd Hv]%andb_true_iff. unfold UpdateMetricFromModel, model_update.
  destruct (bool_decide (MType x = Gauge)); [|destruct (bool_decide (MType x = Counter))]; [..|done].
  - destruct (Value x) as [v|]; [by apply UpdateGauge_step|done].
  - destruct (Delta x) as [d|]; [by apply UpdateCounter_step|done].
Qed.

Lemma UpdateBatch_outcome svc ms s m :
  holds s m -> Forall (fun x => valid_metric x = true) ms ->
  let '(s', r) := UpdateBatch svc ms s in
  if bool_decide (ms = []) then s' = s /\ r = None
  else all_or_nothing svc m (MemStorage.apply_all ms m) s' r.
Proof.
  intros Hm Hv. unfold UpdateBatch. destruct ms as [|x ms]; [done|].
  rewrite !bool_decide_false by done.
  pose proof (UpdateBatch_law (x :: ms) s m Hm Hv) as Hl.
  destruct (Service.UpdateBatch (x :: ms) s) as [s1 [e|]]; destruct Hl as [Hl _]; by exists s1.
Qed.

Lemma unknown_type mType :
  bool_decide (mType <> Gauge /\ mType <> Counter) = negb (bool_decide (mType = Gauge \/ mType = Counter)).
Proof. rewrite <- bool_decide_not. apply bool_decide_ext. tauto. Qed.

(** The answer to a lookup, or the error, in the order the code tests. *)
Definition lookup_spec (mType name : string) (m : MemStorage.t) : res Metrics :=
  if bool_decide (name = "") then Err (Sentinel sErrMetricNameEmpty)
  else if bool_decide (mType = Gauge \/ mType = Counter) then
    match MemStorage.GetMetric name mType m with
    | Some x => Ok x
    | None => Err (Sentinel sErrMetricNotFound)
    end
  else Err (Sentinel sErrUnknownType).

Lemma GetMetric_outcome svc mType name s m :
  holds s m ->
  let '(s', r) := GetMetric svc mType name s in
  holds s' m /\
  (r = lookup_spec mType name m \/ r = Err (Sentinel sErrMetricNotFound)) /\
  (answers s -> r = lookup_spec mType name m).
Proof.
  intros Hm. unfold GetMetric, lookup_spec.
  destruct (decide (name = "")) as [->|Hn]; [rewrite !bool_decide_true by done; eauto 8|].
  rewrite !(bool_decide_false (name = "")), !unknown_type by done.
  destruct (bool_decide (mType = Gauge \/ mType = Counter)); cbn [negb]; [|by eauto 8].
  pose proof (GetMetric_law name mType s m Hm) as Hl.
  destruct (Service.GetMetric name mType s) as [s1 o]. destruct Hl as (Hh & Ho & Ha).
  assert (forall o' : option Metrics, (match o' with Some x => (s1, Ok x) | None => (s1, Err (Sentinel sErrMetricNotFound)) end)
    = (s1, match o' with Some x => Ok x | None => Err (Sentinel sErrMetricNotFound) end)) as -> by (by intros []).
  split; [done|]. split; [destruct Ho as [->| ->]; auto|]. by intros [_ ->]%Ha.
Qed.

Lemma GetValue_outcome svc mType name s m :
  holds s m ->
  let '(s', r) := GetValue svc mType name s in
  holds s' m /\
  match r with
  | Ok txt => exists x, lookup_spec mType name m = Ok x /\ denotes x txt
  | Err e => lookup_spec mType name m = Err e \/ e = Sentinel sErrMetricNotFound
  end /\
  (answers s -> is_ok r = is_ok (lookup_spec mType name m)).
Proof.
  intros Hm. unfold GetValue, lookup_spec.
  destruct (decide (name = "")) as [->|Hn]; [rewrite !bool_decide_true by done; eauto 8|].
  rewrite !(bool_decide_false (name = "")), !unknown_type by done.
  destruct (bool_decide (mType = Gauge \/ mType = Counter)); cbn [negb]; [|by eauto 8].
  pose proof (GetValue_law mType name s m Hm) as Hl.
  destruct (Service.GetValue mType name s) as [s1 o]. destruct Hl as (Hh & Ho & Ha).
  destruct o as [txt|]; (split; [done|]).
  - destruct (Ho txt eq_refl) as (x & -> & Hx). split; eauto.
  - split; [eauto|]. intros Hs. apply Ha in Hs as [_ Hs].
    destruct (MemStorage.GetMetric name mType m); [|done]. by destruct Hs.
Qed.

(** C4. Updates are all or nothing, over every backend that keeps the storage
    contract.  A single update whose value does not parse, whose field is missing
    or whose type is unknown is refused with an error and leaves the state alone,
    an empty batch succeeds and does nothing; every other update and batch is
    applied to the storage exactly as the in-memory storage would, followed by one
    call of the callback, or fails without an effect and without the callback. *)
Theorem updates_all_or_nothing svc s m :
  holds s m ->
  (forall mType name value, let '(s', r) := UpdateMetric svc mType name value s in
     match text_update mType name value with
     | Ok x => all_or_nothing svc m (MemStorage.apply_metric x m) s' r
     | Err e => s' = s /\ exists e', r = Some e' /\ forall target, Is e' target = Is e target
     end) /\
  (forall x, valid_metric x = true -> let '(s', r) := UpdateMetricFromModel svc x s in
     match model_update x with
     | Ok x => all_or_nothing svc m (MemStorage.apply_metric x m) s' r
     | Err e => s' = s /\ r = Some e
     end) /\
  (forall ms, Forall (fun x => valid_metric x = true) ms -> let '(s', r) := UpdateBatch svc ms s in
     if bool_decide (ms = []) then s' = s /\ r = None
     else all_or_nothing svc m (MemStorage.apply_all ms m) s' r).
Proof.
  intros Hm. split_and!.
  - intros mType name value. by apply UpdateMetric_outcome.
  - intros x. by apply UpdateMetricFromModel_outcome.
  - intros ms. by apply UpdateBatch_outcome.
Qed.

(** Lookups: what is returned is what the storage holds, as a metric and as
    a text that reads back as its value; a backend that answers finds every
    metric it holds; the error is [ErrMetricNameEmpty] before [ErrUnknownType]
    before [ErrMetricNotFound]; and the storage is not changed. *)
Theorem lookups_correct svc mType name s m :
  holds s m ->
  (let '(s', r) := GetMetric svc mType name s in
   holds s' m /\
   (r = lookup_spec mType name m \/ r = Err (Sentinel sErrMetricNotFound)) /\
   (answers s -> r = lookup_spec mType name m)) /\
  (let '(s', r) := GetValue svc mType name s in
   holds s' m /\
   match r with
   | Ok txt => exists x, lookup_spec mType name m = Ok x /\ denotes x txt
   | Err e => lookup_spec mType name m = Err e \/ e = Sentinel sErrMetricNotFound
   end /\
   (answers s -> is_ok r = is_ok (lookup_spec mType name m))).
Proof. intros Hm. split; [by apply GetMetric_outcome|by apply GetValue_outcome]. Qed.

(** The callback neither changes what the storage holds nor whether it
    answers. *)
Definition quiet (svc : t) : Prop := forall s m,
  holds s m -> holds (notifyUpdate svc s) m /\ (answers s -> answers (notifyUpdate svc s)).

Lemma UpdateMetric_answers svc mType name value x s m :
  holds s m -> answers s -> quiet svc -> text_update mType name value = Ok x ->
  let '(s', r) := UpdateMetric svc mType name value s in
  answers s' /\ (r = None -> holds s' (MemStorage.apply_metric x m)) /\ (mType = Gauge -> r = None).
Proof.
  intros Hm Ha Hq. unfold text_update, UpdateMetric.
  destruct (decide (mType = Gauge)) as [->|Hg]; [|destruct (decide (mType = Counter)) as [->|Hc]].
  - rewrite !bool_decide_true by done. destruct (ParseFloat value) as [v|] eqn:Hv; [intros [= <-]|done].
    pose proof (UpdateGauge_law name v s m Hm ltac:(by eapply ParseFloat_valid)) as Hl.
    destruct (Service.UpdateGauge name v s) as [s1 r]. destruct Hl as [Hh Hr].
    destruct (Hr Ha) as [Ha1 ->]. destruct (Hq _ _ Hh) as [Hh' ?]. split; [by auto|by split].
  - rewrite !(bool_decide_false (Counter = Gauge)), !bool_decide_true by done.
    destruct (ParseInt "ParseInt" value) as [d|] eqn:Hd; [intros [= <-]|done].
    pose proof (UpdateCounter_law name d s m Hm ltac:(by eapply ParseInt_range)) as Hl.
    destruct (Service.UpdateCounter name d s) as [s1 [e|]]; destruct Hl as [Hh Hr].
    + split; [by apply Hr|by split].
    + destruct (Hq _ _ Hh) as [Hh' ?]. split; [by auto|by split].
  - by rewrite !bool_decide_false by done.
Qed.

(** A value written as text and read back. *)
Lemma text_readback svc mType name value x s m :
  name <> "" -> holds s m -> answers s -> quiet svc -> text_update mType name value = Ok x ->
  let '(s1, r) := UpdateMetric svc mType name value s in
  (mType = Gauge -> r = None /\ exists txt, (GetValue svc mType name s1).2 = Ok txt /\
     ParseFloat txt = ParseFloat value) /\
  (mType = Counter -> r = None -> exists txt d, (GetValue svc mType name s1).2 = Ok txt /\
     ParseInt "ParseInt" value = Ok d /\
     ParseInt "ParseInt" txt = Ok (int64_add (default 0%Z (MemStorage.counters m !! name)) d)).
Proof.
  intros Hn Hm Ha Hq Hx. pose proof (UpdateMetric_answers svc mType name value x s m Hm Ha Hq Hx) as Hu.
  destruct (UpdateMetric svc mType name value s) as [s1 r]. destruct Hu as (Ha1 & Hh1 & Hr).
  unfold GetValue. rewrite (bool_decide_false (name = "")), unknown_type by done.
  pose proof (fun Hr => GetValue_law mType name s1 _ (Hh1 Hr)) as Hl.
  destruct (Service.GetValue mType name s1) as [s2 o].
  unfold text_update in Hx. split; [intros ->|intros -> Hnone].
  - split; [by apply Hr|]. destruct (Hl (Hr eq_refl)) as (_ & Hd & Hs). clear Hl.
    rewrite bool_decide_true in Hx by done. destruct (ParseFloat value) as [v|]; [|done].
    injection Hx as <-. rewrite MemStorage.GetMetric_gauge, MemStorage.gauge_after in Hd, Hs.
    destruct (Hs Ha1) as [_ [txt ->]]; [by eexists|]. exists txt. split; [done|].
    destruct (Hd txt eq_refl) as (x & [= <-] & [(_ & v' & [= <-] & ->)|[? _]]); done.
  - destruct (Hl Hnone) as (_ & Hd & Hs). clear Hl.
    rewrite bool_decide_false, bool_decide_true in Hx by done.
    destruct (ParseInt "ParseInt" value) as [d|]; [|done].
    injection Hx as <-. rewrite MemStorage.GetMetric_counter, MemStorage.counter_after in Hd, Hs.
    destruct (Hs Ha1) as [_ [txt ->]]; [by eexists|]. exists txt, d. do 2 (split; [done|]).
    destruct (Hd txt eq_refl) as (x & [= <-] & [[? _]|(_ & v' & [= <-] & ->)]); done.
Qed.

(** A value written as text reads back: over a backend that answers, an
    accepted gauge update is never refused and [GetValue] then returns a text of
    the same number (NaN and the infinities included); after a counter update
    that succeeded it returns the text of the old value plus the delta, in
    64-bit arithmetic. *)
Theorem text_round_trip svc mType name value x s m :
  name <> "" -> holds s m -> answers s -> quiet svc -> text_update mType name value = Ok x ->
  let '(s1, r) := UpdateMetric svc mType name value s in
  (mType = Gauge -> r = None /\ exists txt, (GetValue svc mType name s1).2 = Ok txt /\
     ParseFloat txt = ParseFloat value) /\
  (mType = Counter -> r = None -> exists txt d, (GetValue svc mType name s1).2 = Ok txt /\
     ParseInt "ParseInt" value = Ok d /\
     ParseInt "ParseInt" txt = Ok (int64_add (default 0%Z (MemStorage.counters m !! name)) d)).
Proof. apply text_readback. Qed.
End Operations.
Arguments t : clear implicits.
End MetricService.

(** ** The backends keep the contract *)

Lemma denotes_gauge id v txt : ParseFloat txt = Ok v -> denotes (gauge_metric id v) txt.
Proof. intros. left. split; [done|]. by exists v. Qed.

Lemma denotes_counter id d txt : ParseInt "ParseInt" txt = Ok d -> denotes (counter_metric id d) txt.
Proof. intros. right. split; [done|]. by exists d. Qed.

#[export] Hint Resolve denotes_gauge denotes_counter ParseFloat_FormatFloat_f ParseFloat_Sprintf_g
  ParseInt_FormatInt : go.

Lemma valid_gauge m id v : MemStorage.valid m -> MemStorage.gauges m !! id = Some v -> valid_float v = true.
Proof. intros [Hg _] Hv. exact (map_Forall_lookup_1 _ _ _ _ Hg Hv). Qed.

Lemma valid_counter m id d : MemStorage.valid m -> MemStorage.counters m !! id = Some d -> in_int64 d = true.
Proof. intros [_ Hc] Hd. exact (map_Forall_lookup_1 _ _ _ _ Hc Hd). Qed.

#[export] Hint Resolve valid_gauge valid_counter : go.

(** A metric the in-memory storage holds, by type. *)
Lemma GetMetric_cases name mType m x :
  MemStorage.GetMetric name mType m = Some x ->
  (mType = Gauge /\ exists v, MemStorage.gauges m !! name = Some v /\ x = gauge_metric name v) \/
  (mType = Counter /\ exists d, MemStorage.counters m !! name = Some d /\ x = counter_metric name d).
Proof.
  destruct (decide (mType = Gauge)) as [->|Hg]; [|destruct (decide (mType = Counter)) as [->|Hc]].
  - rewrite MemStorage.GetMetric_gauge. intros (v & -> & ?)%fmap_Some. eauto.
  - rewrite MemStorage.GetMetric_counter. intros (d & -> & ?)%fmap_Some. eauto.
  - unfold MemStorage.GetMetric. by rewrite !bool_decide_false by done.
Qed.

Section MemBackend.
#[export] Instance MemStorage_Storage : Storage MemStorage.t := {|
  UpdateGauge := MemStorage.UpdateGauge;
  UpdateCounter := MemStorage.UpdateCounter;
  UpdateBatch := MemStorage.UpdateBatch;
  GetMetric name mType s := (s, MemStorage.GetMetric name mType s);
  GetValue mType name s := (s, MemStorage.GetValue mType name s);
  GetAllMetrics s := (s, MemStorage.GetAllMetrics s) |}.

Lemma mem_value mType name m :
  MemStorage.valid m ->
  match MemStorage.GetMetric name mType m with
  | None => MemStorage.GetValue mType name m = None
  | Some x => exists txt, MemStorage.GetValue mType name m = Some txt /\ denotes x txt
  end.
Proof.
  intros Hv. destruct (MemStorage.GetMetric name mType m) as [x|] eqn:Hx.
  - apply GetMetric_cases in Hx as [(-> & v & Hg & ->)|(-> & d & Hc & ->)]; unfold MemStorage.GetValue.
    + rewrite bool_decide_true, Hg by done. eauto 6 with go.
    + rewrite bool_decide_false, bool_decide_true, Hc by done. eauto 6 with go.
  - revert Hx. unfold MemStorage.GetMetric, MemStorage.GetValue.
    destruct (bool_decide (mType = Gauge)); [by destruct (_ !! _)|].
    destruct (bool_decide (mType = Counter)); [by destruct (_ !! _)|done].
Qed.

Lemma mem_dashboard mType name m :
  mType = Gauge \/ mType = Counter ->
  MemStorage.GetAllMetrics m !! (mType +:+ "/" +:+ name) = MemStorage.GetValue mType name m.
Proof.
  intros [->| ->]; unfold MemStorage.GetValue.
  - rewrite bool_decide_true by done. by apply MemStorage.GetAllMetrics_gauge; auto with go.
  - rewrite bool_decide_false, bool_decide_true by done.
    by apply MemStorage.GetAllMetrics_counter; auto with go.
Qed.

#[export] Program Instance MemStorage_laws : StorageLaws MemStorage.t := {|
  holds s m := s = m /\ MemStorage.valid m;
  answers _ := True |}.
Next Obligation. by intros s m [_ ?]. Qed.
Next Obligation. intros name v s m [-> ?] ?. cbn. repeat split; auto with go; by apply MemStorage.valid_UpdateGauge. Qed.
Next Obligation. intros name d s m [-> ?] ?. cbn. repeat split; auto with go; by apply MemStorage.valid_UpdateCounter. Qed.
Next Obligation. intros ms s m [-> ?] ?. cbn. repeat split; auto with go; by apply MemStorage.valid_apply_all. Qed.
Next Obligation. intros name mType s m [-> ?]. cbn. auto. Qed.
Next Obligation.
  intros mType name s m [-> Hv]. cbn. pose proof (mem_value mType name m Hv) as Ht. split; [done|].
  destruct (MemStorage.GetMetric name mType m) as [x|].
  - destruct Ht as (txt & -> & ?). split; [|by eauto]. intros ? [= <-]. eauto.
  - rewrite Ht. split; [done|]. split; [done|]. by intros [??].
Qed.
Next Obligation.
  intros s m [-> Hv]. cbn. split; [done|]. split.
  - intros key txt Hk.
    destruct (MemStorage.GetAllMetrics_keys _ _ key ltac:(by eexists)) as (mType & name & Ht & ->).
    exists mType, name. rewrite mem_dashboard in Hk by done. pose proof (mem_value mType name m Hv) as Hm.
    destruct (MemStorage.GetMetric name mType m) as [x|]; [|by rewrite Hm in Hk].
    destruct Hm as (txt' & Hm & ?). exists x. rewrite Hm in Hk. by simplify_eq.
  - intros _. split; [done|]. intros mType name [x Hx]. pose proof (mem_value mType name m Hv) as Hm.
    rewrite Hx in Hm. destruct Hm as (txt & Hm & _). rewrite mem_dashboard; [by rewrite Hm|].
    apply GetMetric_cases in Hx as [[? _]|[? _]]; auto.
Qed.
End MemBackend.

(** The order in which PostgreSQL returns the rows of a table. *)
Class RowOrder := {
  rows_of : DBStorage.table -> list ((string * string) * DBStorage.row);
  rows_of_perm tb : rows_of tb ≡ₚ map_to_list tb
}.

Section DBBackend.
Context `{RetryGo, PgErrCode, RowOrder}.

#[export] Instance DBStorage_Storage : Storage DBStorage.t := {|
  UpdateGauge := DBStorage.UpdateGauge;
  UpdateCounter := DBStorage.UpdateCounter;
  UpdateBatch := DBStorage.UpdateBatch;
  GetMetric := DBStorage.GetMetric;
  GetValue := DBStorage.GetValue;
  GetAllMetrics := DBStorage.GetAllMetrics rows_of |}.

Definition db_holds (s : DBStorage.t) (m : MemStorage.t) : Prop :=
  DBStorage.refines (DBStorage.db s) m /\ DBStorage.no_lost s /\ MemStorage.valid m.

Definition db_answers (s : DBStorage.t) : Prop := DBStorage.script s = [].

Lemma db_read_only s s' m :
  DBStorage.read_only s s' -> db_holds s m -> db_holds s' m /\ (db_answers s -> db_answers s').
Proof.
  intros [Hdb Hsuf] (Hr & Hn & Hv). split.
  - split; [by rewrite Hdb|]. split; [by eapply DBStorage.no_lost_suffix|done].
  - unfold db_answers. intros Hs. rewrite Hs in Hsuf. by apply suffix_nil_inv in Hsuf.
Qed.

(** An update: [m'] is what the in-memory storage would hold. *)
Lemma db_update f g s m m' :
  DBStorage.implements f g -> db_holds s m -> MemStorage.valid m' ->
  (forall tb, g (DBStorage.db s) = Ok tb -> DBStorage.refines tb m') ->
  let '(s', r) := Do DBStorage.sleep f DBStorage.isRetriablePgError s in
  db_holds s' (match r with None => m' | Some _ => m end) /\ (db_answers s -> db_answers s').
Proof.
  intros Hf (Hr & Hn & Hv) Hv' Hg.
  pose proof (DBStorage.Do_refines f g s m m' Hf Hn Hr Hg) as Hd.
  pose proof (DBStorage.Do_retried f g s Hf) as Ht.
  destruct (Do _ _ _ _) as [s' r]. destruct Hd as [??], Ht as [Hsuf _].
  split; [by destruct r|]. unfold db_answers. intros Hs. rewrite Hs in Hsuf. by apply suffix_nil_inv in Hsuf.
Qed.

Lemma db_gauge_ok name v s : db_answers s -> (DBStorage.UpdateGauge name v s).2 = None.
Proof.
  intros Hs. unfold DBStorage.UpdateGauge, Do. rewrite DoWithDelays_loop. cbn [length delays retry_loop].
  unfold DBStorage.ExecContext, DBStorage.next_reply. by rewrite Hs.
Qed.

#[export] Program Instance DBStorage_laws : StorageLaws DBStorage.t := {|
  holds := db_holds;
  answers := db_answers |}.
Next Obligation. by intros s m (_ & _ & ?). Qed.
Next Obligation.
  intros name v s m Hm Hv. pose proof (db_gauge_ok name v s) as Hok.
  pose proof (db_update _ _ s m (MemStorage.UpdateGauge name v m).1
    (DBStorage.ExecContext_implements (DBStorage.upsert_gauge name v)) Hm) as Hu.
  change (DBStorage.UpdateGauge name v s) with
    (Do DBStorage.sleep (DBStorage.ExecContext (DBStorage.upsert_gauge name v)) DBStorage.isRetriablePgError s) in Hok.
  cbn -[Do]. unfold DBStorage.UpdateGauge. destruct (Do _ _ _ _) as [s' r]. destruct Hm as (Hr & _ & Hvm).
  destruct Hu as [? Ha]; [by apply MemStorage.valid_UpdateGauge| |].
  - intros tb. by apply DBStorage.upsert_gauge_refines.
  - split; [done|]. intros Hs. split; [by apply Ha|by apply Hok].
Qed.
Next Obligation.
  intros name d s m Hm Hd. eapply db_update; [apply DBStorage.ExecContext_implements|done|..];
    destruct Hm as (Hr & _ & Hvm).
  - by apply MemStorage.valid_UpdateCounter.
  - intros tb. by apply DBStorage.upsert_counter_refines.
Qed.
Next Obligation.
  intros ms s m Hm Hms. eapply db_update; [apply DBStorage.batch_attempt_implements|done|..];
    destruct Hm as (Hr & _ & Hvm).
  - by apply MemStorage.valid_apply_all.
  - intros tb. by apply DBStorage.batch_table_refines.
Qed.
Next Obligation.
  intros name mType s m Hm. pose proof (DBStorage.GetMetric_sound name mType s) as Hs.
  pose proof (DBStorage.GetMetric_up name mType s) as Hup.
  pose proof (DBStorage.refines_metric _ _ name mType (proj1 Hm)) as Heq. cbn.
  destruct (DBStorage.GetMetric name mType s) as [s' o]. destruct Hs as [Hro Ho].
  destruct (db_read_only s s' m Hro Hm) as [??]. rewrite Heq in Ho, Hup.
  split; [done|]. split; [done|]. intros Ha. split; [auto|]. by injection (Hup Ha).
Qed.
Next Obligation.
  intros mType name s m Hm. pose proof (DBStorage.GetMetric_sound name mType s) as Hs.
  pose proof (DBStorage.GetMetric_up name mType s) as Hup.
  pose proof (DBStorage.refines_metric _ _ name mType (proj1 Hm)) as Heq. cbn. unfold DBStorage.GetValue.
  destruct (DBStorage.GetMetric name mType s) as [s' o]. destruct Hs as [Hro Ho].
  destruct (db_read_only s s' m Hro Hm) as [Hm' Ha]. rewrite Heq in Ho, Hup. pose proof (proj2 (proj2 Hm)) as Hv.
  destruct o as [x|]; (split; [done|]); split.
  - intros txt Ht. exists x. destruct Ho as [?|Ho]; [done|]. split; [done|]. symmetry in Ho.
    apply GetMetric_cases in Ho as [(-> & v & Hg & ->)|(-> & d & Hc & ->)].
    + rewrite bool_decide_true in Ht by done. simplify_eq/=. eauto with go.
    + rewrite bool_decide_false, bool_decide_true in Ht by done. simplify_eq/=. eauto with go.
  - intros Hs. split; [auto|]. intros _. destruct Ho as [?|Ho]; [done|]. symmetry in Ho.
    apply GetMetric_cases in Ho as [(-> & v & Hg & ->)|(-> & d & Hc & ->)].
    + by rewrite bool_decide_true by done.
    + by rewrite bool_decide_false, bool_decide_true by done.
  - done.
  - intros Hs. split; [auto|]. injection (Hup Hs) as _ <-. done.
Qed.
Next Obligation.
  intros s m Hm. pose proof (DBStorage.GetAllMetrics_sound rows_of s m rows_of_perm (proj1 Hm)) as Hs. cbn.
  destruct (DBStorage.GetAllMetrics rows_of s) as [s' r]. destruct Hs as (Hro & Hsnd & Hcmp).
  destruct (db_read_only s s' m Hro Hm) as [Hm' Ha]. destruct Hm as (Hr & _ & Hv).
  split; [done|]. split.
  - intros key txt Hk. destruct (Hsnd key txt Hk) as (e & He & Ht).
    destruct (DBStorage.row_text_metric _ m e key txt Hr He Ht)
      as (id & x & [(v & -> & -> & -> & Hg)|(d & -> & -> & -> & Hc)]).
    + exists Gauge, id, (gauge_metric id v). rewrite MemStorage.GetMetric_gauge, Hg. split_and!; [done|done|eauto 6 with go].
    + exists Counter, id, (counter_metric id d). rewrite MemStorage.GetMetric_counter, Hc.
      split_and!; [done|done|apply denotes_counter, ParseInt_FormatInt; by eapply valid_counter].
  - intros Hs. split; [auto|]. intros mType name [x Hx].
    apply GetMetric_cases in Hx as [(-> & v & Hg & _)|(-> & d & Hc & _)].
    + apply (Hcmp Hs ((name, Gauge), DBStorage.gauge_row v) _ (Sprintf_g v)); [|done].
      cbn. by rewrite (DBStorage.ref_gauge _ _ Hr), Hg.
    + apply (Hcmp Hs ((name, Counter), DBStorage.counter_row d) _ (FormatInt d)); [|done].
      cbn. by rewrite (DBStorage.ref_counter _ _ Hr), Hc.
Qed.
End DBBackend.

(** ** Instances of the theorems *)

Module ServiceExamples.
#[local] Instance ascii_only : UnicodeTables := {| IsPrint_table _ := false |}.
#[local] Instance retrygo0 : RetryGo := documented_retrygo 0.
#[local] Instance class08 : PgErrCode := {|
  IsConnectionException code := bool_decide (str_take 2 code = "08") |}.
#[local] Instance key_order : RowOrder := {| rows_of := map_to_list; rows_of_perm _ := Permutation_refl _ |}.

(** A callback that counts through the sleeps it records. *)
Definition counting : MetricService.t DBStorage.t := MetricService.Mk (Some (DBStorage.sleep 1)).

Lemma sample_holds script : (forall e, DBStorage.RLost e ∉ script) ->
  db_holds (DBStorage.Mk DBStorage.sample_table script []) DBStorage.sample_mem.
Proof.
  intros Hs. split_and!; [apply DBStorage.sample_refines|exact Hs|].
  split; apply map_Forall_singleton; by vm_compute.
Qed.

Lemma no_lost_nil : forall e, DBStorage.RLost e ∉ [].
Proof. intros e He. inversion He. Qed.

Lemma updates_all_or_nothing_witness :
  let s := DBStorage.Mk DBStorage.sample_table [] [] in
  let '(s', r) := MetricService.UpdateMetric counting Counter "PollCount" "37" s in
  r = None /\ DBStorage.slept s' = [1%Z] /\
  MetricService.all_or_nothing counting DBStorage.sample_mem
    (MemStorage.apply_metric (counter_metric "PollCount" 37) DBStorage.sample_mem) s' r.
Proof.
  pose proof (proj1 (MetricService.updates_all_or_nothing counting _ _
    (sample_holds [] no_lost_nil)) Counter "PollCount" "37") as H.
  split; [by vm_compute|]. split; [by vm_compute|exact H].
Defined.

Lemma lookups_correct_witness :
  let s := DBStorage.Mk DBStorage.sample_table [] [] in
  (MetricService.GetMetric counting Gauge "Alloc" s).2
    = MetricService.lookup_spec Gauge "Alloc" DBStorage.sample_mem /\
  (MetricService.GetMetric counting Gauge "Alloc" s).2 = Ok (gauge_metric "Alloc" (float64_of_Z 1234567)).
Proof.
  pose proof (proj1 (MetricService.lookups_correct counting Gauge "Alloc" _ _
    (sample_holds [] no_lost_nil))) as H.
  split; [|by vm_compute].
  exact (proj2 (proj2 H) eq_refl).
Defined.

Lemma text_round_trip_witness :
  let s := DBStorage.Mk DBStorage.sample_table [] [] in
  let '(s1, r) := MetricService.UpdateMetric counting Gauge "Alloc" "-0x1.8p1" s in
  r = None /\ (MetricService.GetValue counting Gauge "Alloc" s1).2 = Ok "-3" /\
  exists txt, (MetricService.GetValue counting Gauge "Alloc" s1).2 = Ok txt /\
    ParseFloat txt = ParseFloat "-0x1.8p1".
Proof.
  assert (MetricService.quiet counting) as Hq by (by intros s m Hh; split).
  pose proof (MetricService.text_round_trip counting Gauge "Alloc" "-0x1.8p1" _ _ _
    ltac:(done) (sample_holds [] no_lost_nil) eq_refl Hq eq_refl) as H.
  split; [by vm_compute|]. split; [by vm_compute|]. exact (proj2 (proj1 H eq_refl)).
Defined.
End ServiceExamples.
