(* ===== verification/FileStore.v ===== *)
(** * internal/repository: FileBackedStorage

    [MemStorage] with snapshots in a JSON file.  The file system is part of the
    state: the files' contents, and a script of what happens to the next file
    operations (they all succeed when it is used up). *)

From S2P Require Import Prelude Errors GoInt GoStrings GoFloat GoFloatFacts Model GoJson GoJsonFacts Storage Service.

(** A write can fail before it touches the file, or after the file was truncated
    and [k] bytes were written. *)
Inductive io_reply :=
| IoOk
| IoErr (e : error)
| IoPartial (k : nat) (e : error).

Inductive log_entry :=
| LogError (msg : string) (err : error)
| LogInfo (msg : string).

Module FileBackedStorage.

Record t := Mk {
  mem : MemStorage.t;
  path : string;
  files : gmap string string;
  io : list io_reply;
  logged : list log_entry
}.

Definition NewFileBackedStorage (path : string) (files : gmap string string) : t :=
  Mk MemStorage.NewMemStorage path files [] [].

Definition set_mem (m : MemStorage.t) (s : t) : t := Mk m (path s) (files s) (io s) (logged s).
Definition set_files (f : gmap string string) (s : t) : t := Mk (mem s) (path s) f (io s) (logged s).
Definition log (e : log_entry) (s : t) : t := Mk (mem s) (path s) (files s) (io s) (logged s ++ [e]).

(** The delegating methods. *)
Definition on_mem (r : MemStorage.t * option error) (s : t) : t * option error := (set_mem r.1 s, r.2).
Definition UpdateGauge (name : string) (value : float64) (s : t) : t * option error :=
  on_mem (MemStorage.UpdateGauge name value (mem s)) s.
Definition UpdateCounter (name : string) (value : Z) (s : t) : t * option error :=
  on_mem (MemStorage.UpdateCounter name value (mem s)) s.
Definition UpdateBatch (ms : list Metrics) (s : t) : t * option error :=
  on_mem (MemStorage.UpdateBatch ms (mem s)) s.
Definition GetMetric (name mType : string) (s : t) : option Metrics := MemStorage.GetMetric name mType (mem s).
Definition GetValue (mType name : string) (s : t) : option string := MemStorage.GetValue mType name (mem s).
Definition GetAllMetrics (s : t) : gmap string string := MemStorage.GetAllMetrics (mem s).

(** ** The file system *)

Definition next_io (s : t) : io_reply * t :=
  match io s with
  | [] => (IoOk, s)
  | r :: rs => (r, Mk (mem s) (path s) (files s) rs (logged s))
  end.

(** [os.WriteFile(s.path, data, 0644)] *)
Definition WriteFile (data : string) (s : t) : t * option error :=
  let '(r, s) := next_io s in
  match r with
  | IoOk => (set_files (<[path s := data]> (files s)) s, None)
  | IoErr e => (s, Some e)
  | IoPartial k e => (set_files (<[path s := str_take k data]> (files s)) s, Some e)
  end.

(** [os.ReadFile(s.path)] *)
Definition ReadFile (s : t) : t * res string :=
  let '(r, s) := next_io s in
  match r with
  | IoOk => (s, match files s !! path s with Some data => Ok data | None => Err (Sentinel sErrNotExist) end)
  | IoErr e | IoPartial _ e => (s, Err e)
  end.

(** [os.IsNotExist] of an error of [ReadFile]. *)
Definition IsNotExist (e : error) : bool := bool_decide (e = Sentinel sErrNotExist).

(** ** Saving and loading *)

(** [Save] with the maps visited in the orders [gs] and [cs]. *)
Definition Save_ordered (gs : list (string * float64)) (cs : list (string * Z)) (s : t) : t * option error :=
  match MarshalIndent_metrics (MemStorage.Snapshot_ordered gs cs) with
  | Err err => (s, Some err)
  | Ok data => WriteFile data s
  end.

(** The body of the loop of [Load]. *)
Definition load_metric (s : t) (m : Metrics) : t :=
  if bool_decide (MType m = Gauge) then
    match Value m with Some v => set_mem (MemStorage.UpdateGauge (ID m) v (mem s)).1 s | None => s end
  else if bool_decide (MType m = Counter) then
    match Delta m with Some d => set_mem (MemStorage.UpdateCounter (ID m) d (mem s)).1 s | None => s end
  else s.

Section Operations.
Context `{JsonErrorText} `{MapRange}.

Definition Save (s : t) : t * option error :=
  Save_ordered (range (MemStorage.gauges (mem s))) (range (MemStorage.counters (mem s))) s.

Definition Load (s : t) : t * option error :=
  match ReadFile s with
  | (s, Err err) => if IsNotExist err then (s, None) else (s, Some err)
  | (s, Ok data) =>
      match Unmarshal_metrics data with
      | Err err => (s, Some err)
      | Ok metrics => (fold_left load_metric metrics s, None)
      end
  end.

Definition SaveOnUpdate (s : t) : t :=
  match Save s with
  | (s, Some err) => log (LogError "sync save failed" err) s
  | (s, None) => s
  end.

Definition Close (s : t) : t * option error := Save s.

(** The goroutine of [StartPeriodicSave] reacts to what its [select] picks. *)
Inductive select_event := Tick | CtxDone.

Definition periodic_tick (s : t) : t :=
  match Save s with
  | (s, Some err) => log (LogError "periodic save failed" err) s
  | (s, None) => log (LogInfo "metrics saved") s
  end.

(** The loop over the events picked, with the updates other goroutines make
    before each of them; the flag says whether it is still running. *)
Fixpoint StartPeriodicSave (events : list ((MemStorage.t -> MemStorage.t) * select_event)) (s : t) : t * bool :=
  match events with
  | [] => (s, true)
  | (upd, Tick) :: events => StartPeriodicSave events (periodic_tick (set_mem (upd (mem s)) s))
  | (upd, CtxDone) :: _ => (set_mem (upd (mem s)) s, false)
  end.
End Operations.

(** ** The contract of the service *)

#[export] Instance FileBackedStorage_Storage : Storage t := {|
  Service.UpdateGauge := UpdateGauge;
  Service.UpdateCounter := UpdateCounter;
  Service.UpdateBatch := UpdateBatch;
  Service.GetMetric name mType s := (s, GetMetric name mType s);
  Service.GetValue mType name s := (s, GetValue mType name s);
  Service.GetAllMetrics s := (s, GetAllMetrics s) |}.

Definition file_holds (s : t) (m : MemStorage.t) : Prop := mem s = m /\ MemStorage.valid m.

Lemma file_holds_mem s m : file_holds s m -> holds (mem s) m.
Proof. done. Qed.

#[export] Program Instance FileBackedStorage_laws : StorageLaws t := {|
  holds := file_holds;
  answers _ := True |}.
Next Obligation. by intros s m [_ ?]. Qed.
Next Obligation.
  intros name v s m Hm Hv. pose proof (UpdateGauge_law name v (mem s) m (file_holds_mem _ _ Hm) Hv) as [? _].
  cbn. by auto.
Qed.
Next Obligation.
  intros name d s m Hm Hd. pose proof (UpdateCounter_law name d (mem s) m (file_holds_mem _ _ Hm) Hd) as [? _].
  cbn. by auto.
Qed.
Next Obligation.
  intros ms s m Hm Hms. pose proof (UpdateBatch_law ms (mem s) m (file_holds_mem _ _ Hm) Hms) as [? _].
  cbn. by auto.
Qed.
Next Obligation. intros name mType s m Hm. exact (GetMetric_law name mType (mem s) m (file_holds_mem _ _ Hm)). Qed.
Next Obligation. intros mType name s m Hm. exact (GetValue_law mType name (mem s) m (file_holds_mem _ _ Hm)). Qed.
Next Obligation. intros s m Hm. exact (GetAllMetrics_law (mem s) m (file_holds_mem _ _ Hm)). Qed.

(** ** What a snapshot file holds *)

Section Properties.
Context `{JsonErrorText}.

(** The storage has a JSON form that reads back: finite gauges and names in
    UTF-8. *)
Definition finite_gauges (m : MemStorage.t) : Prop := map_Forall (fun _ v => finite v = true) (MemStorage.gauges m).
Definition utf8_names (m : MemStorage.t) : Prop :=
  map_Forall (fun n _ => ValidString n = true) (MemStorage.gauges m) /\
  map_Forall (fun n _ => ValidString n = true) (MemStorage.counters m).

Lemma load_metrics ms s : fold_left load_metric ms s = set_mem (MemStorage.apply_all ms (mem s)) s.
Proof.
  revert s. induction ms as [|m ms IH]; intros s; [by destruct s|]. cbn [fold_left]. rewrite IH.
  assert (load_metric s m = set_mem (MemStorage.apply_metric m (mem s)) s) as ->; [|done].
  unfold load_metric, MemStorage.apply_metric.
  repeat case_match; by destruct s.
Qed.

Lemma snapshot_Forall (P : Metrics -> Prop) m gs cs :
  range_order (MemStorage.gauges m) gs -> range_order (MemStorage.counters m) cs ->
  (Forall P (MemStorage.Snapshot_ordered gs cs) <->
   map_Forall (fun n v => P (gauge_metric n v)) (MemStorage.gauges m) /\
   map_Forall (fun n d => P (counter_metric n d)) (MemStorage.counters m)).
Proof.
  intros Hg Hc. unfold MemStorage.Snapshot_ordered. rewrite Forall_app, !Forall_fmap, !Forall_forall.
  unfold map_Forall. split.
  - intros [H1 H2]. split; intros n x Hx.
    + apply (H1 (n, x)). by apply (range_order_elem _ _ n x Hg).
    + apply (H2 (n, x)). by apply (range_order_elem _ _ n x Hc).
  - intros [H1 H2]. split; intros [n x] Hx.
    + apply H1. by apply (range_order_elem _ _ n x Hg).
    + apply H2. by apply (range_order_elem _ _ n x Hc).
Qed.

Lemma snapshot_valid m gs cs :
  MemStorage.valid m -> range_order (MemStorage.gauges m) gs -> range_order (MemStorage.counters m) cs ->
  Forall (fun x => valid_metric x = true) (MemStorage.Snapshot_ordered gs cs).
Proof.
  intros [Hg Hc] ??. apply (snapshot_Forall _ m); [done..|]. split; intros n x Hx.
  - exact (Hg n x Hx).
  - unfold valid_metric. cbn. by rewrite (Hc n x Hx).
Qed.

Lemma snapshot_encodable m gs cs :
  range_order (MemStorage.gauges m) gs -> range_order (MemStorage.counters m) cs ->
  forallb encodable (MemStorage.Snapshot_ordered gs cs) = true <-> finite_gauges m.
Proof.
  intros Hg Hc. rewrite forallb_forall, <- List.Forall_forall. rewrite (snapshot_Forall _ m) by done.
  split; [by intros [? _]|]. intros Hf. split; [exact Hf|]. by intros n d _.
Qed.

Lemma snapshot_sanitize m gs cs :
  utf8_names m -> range_order (MemStorage.gauges m) gs -> range_order (MemStorage.counters m) cs ->
  map sanitize_metric (MemStorage.Snapshot_ordered gs cs) = MemStorage.Snapshot_ordered gs cs.
Proof.
  intros [Hg Hc] Hgs Hcs. rewrite <- (map_id (MemStorage.Snapshot_ordered gs cs)) at 2.
  apply map_ext_Forall. apply (snapshot_Forall _ m); [done..|].
  split; intros n x Hx; unfold sanitize_metric; cbn [ID MType Delta Value Hash gauge_metric counter_metric];
    rewrite (sanitize_valid n); [done|exact (Hg n x Hx)|done|exact (Hc n x Hx)].
Qed.

(** Loading what a storage holding [m] saved. *)
Lemma Load_saved m gs cs data s :
  MemStorage.valid m -> range_order (MemStorage.gauges m) gs -> range_order (MemStorage.counters m) cs ->
  MarshalIndent_metrics (MemStorage.Snapshot_ordered gs cs) = Ok data ->
  io s = [] -> files s !! path s = Some data ->
  Load s = (set_mem (MemStorage.apply_all (map sanitize_metric (MemStorage.Snapshot_ordered gs cs)) (mem s)) s, None).
Proof.
  intros Hv Hg Hc Hdata Hio Hf. unfold Load, ReadFile, next_io. rewrite Hio, Hf.
  unfold MarshalIndent_metrics in Hdata. destruct (metrics_json _) as [js|] eqn:Hjs; [|done].
  assert (data = print_json indented 0 (JArr js)) as -> by (by injection Hdata).
  pose proof (snapshot_valid m gs cs Hv Hg Hc) as Hms.
  pose proof (proj2 (read_metrics indented _ js "" None indented_ws Hms Hjs eq_refl) eq_refl) as Hu.
  rewrite string_app_nil_r in Hu. cbv beta iota. by rewrite Hu, load_metrics.
Qed.

(** The file of [s] restores [m]: loading it into an empty storage gives [m]. *)
Definition restores (s : t) (m : MemStorage.t) : Prop := forall l,
  path l = path s -> files l !! path l = files s !! path s -> io l = [] -> mem l = MemStorage.NewMemStorage ->
  (Load l).2 = None /\ mem (Load l).1 = m.

Lemma written_restores m gs cs data s :
  MemStorage.valid m -> utf8_names m -> range_order (MemStorage.gauges m) gs -> range_order (MemStorage.counters m) cs ->
  MarshalIndent_metrics (MemStorage.Snapshot_ordered gs cs) = Ok data -> files s !! path s = Some data -> restores s m.
Proof.
  intros Hv Hutf Hg Hc Hdata Hs l Hp Hf Hiol Hml. rewrite (Load_saved m gs cs data) by (done || by rewrite Hp in *; rewrite Hf).
  split; [done|]. cbn. rewrite (snapshot_sanitize m), Hml by done. by apply MemStorage.replay_empty.
Qed.

Lemma Save_ordered_restores gs cs s :
  MemStorage.valid (mem s) -> finite_gauges (mem s) -> utf8_names (mem s) ->
  range_order (MemStorage.gauges (mem s)) gs -> range_order (MemStorage.counters (mem s)) cs -> io s = [] ->
  let '(s', r) := Save_ordered gs cs s in
  r = None /\ mem s' = mem s /\ restores s' (mem s).
Proof.
  intros Hv Hfin Hutf Hg Hc Hio. unfold Save_ordered.
  pose proof (snapshot_encodable (mem s) gs cs Hg Hc) as He.
  pose proof (proj2 (Marshal_metrics_ok (MemStorage.Snapshot_ordered gs cs))) as Hm.
  rewrite (proj2 He Hfin) in Hm. destruct (MarshalIndent_metrics _) as [data|] eqn:Hdata; [|done].
  unfold WriteFile, next_io. rewrite Hio. split_and!; [done..|].
  apply (written_restores (mem s) gs cs data); try done. apply lookup_insert_eq.
Qed.

(** A gauge without a JSON form makes every save fail before it opens the file. *)
Lemma Save_ordered_not_finite gs cs s :
  ~ finite_gauges (mem s) ->
  range_order (MemStorage.gauges (mem s)) gs -> range_order (MemStorage.counters (mem s)) cs ->
  exists e, Save_ordered gs cs s = (s, Some e).
Proof.
  intros Hfin Hg Hc. unfold Save_ordered.
  pose proof (proj2 (Marshal_metrics_ok (MemStorage.Snapshot_ordered gs cs))) as Hm.
  destruct (MarshalIndent_metrics _) as [data|e]; [|eauto]. cbn in Hm. symmetry in Hm.
  by apply (snapshot_encodable (mem s)) in Hm.
Qed.

Lemma Save_mem gs cs s : mem (Save_ordered gs cs s).1 = mem s /\ path (Save_ordered gs cs s).1 = path s.
Proof.
  unfold Save_ordered. destruct (MarshalIndent_metrics _); [|done].
  unfold WriteFile, next_io. destruct (io s) as [|[] ?]; done.
Qed.

(** A write that breaks off leaves a file that is refused, or the whole
    snapshot. *)
Lemma WriteFile_partial m gs cs data k e rest s l :
  MemStorage.valid m -> range_order (MemStorage.gauges m) gs -> range_order (MemStorage.counters m) cs ->
  MarshalIndent_metrics (MemStorage.Snapshot_ordered gs cs) = Ok data ->
  io s = IoPartial k e :: rest -> k < String.length data ->
  path l = path s -> files l = files (WriteFile data s).1 -> io l = [] ->
  exists e', Load l = (l, Some e').
Proof.
  intros Hv Hg Hc Hdata Hio Hk Hp Hfl Hiol. unfold MarshalIndent_metrics in Hdata.
  destruct (metrics_json _) as [js|] eqn:Hjs; [|done].
  assert (data = print_json indented 0 (JArr js)) as -> by (by injection Hdata).
  pose proof (metrics_json_spec _ js (snapshot_valid m gs cs Hv Hg Hc) Hjs) as [Hok _].
  assert (str_drop k (print_json indented 0 (JArr js)) <> "") as Hne.
  { intros He. apply (f_equal String.length) in He. rewrite str_drop_length in He.
    cbn [String.length] in He. lia. }
  destruct (unmarshal_prefix indented js _ _ indented_ws Hok (eq_sym (str_take_drop k _)) Hne) as [e' He'].
  exists e'. unfold Load, ReadFile, next_io. rewrite Hiol, Hp, Hfl.
  unfold WriteFile, next_io. rewrite Hio. cbn [fst files set_files path]. rewrite lookup_insert_eq. by rewrite He'.
Qed.
End Properties.

Section Saving.
Context `{JsonErrorText} `{MapRange}.

Lemma Save_mem' s : mem (Save s).1 = mem s /\ path (Save s).1 = path s.
Proof. apply Save_mem. Qed.

Lemma SaveOnUpdate_mem s : mem (SaveOnUpdate s) = mem s.
Proof. unfold SaveOnUpdate. pose proof (Save_mem' s) as [Hm _]. by destruct (Save s) as [s' [e|]]. Qed.

Lemma SaveOnUpdate_quiet : MetricService.quiet (MetricService.Mk (Some SaveOnUpdate)).
Proof. intros s m [Hm Hv]. split; [|done]. split; [cbn; by rewrite SaveOnUpdate_mem|done]. Qed.

(** A storage whose contents can be written down. *)
Definition savable (s : t) : Prop := MemStorage.valid (mem s) /\ finite_gauges (mem s) /\ utf8_names (mem s) /\ io s = [].

Lemma Save_restores s : savable s -> let '(s', r) := Save s in r = None /\ mem s' = mem s /\ restores s' (mem s).
Proof. intros (Hv & Hf & Hu & Hio). apply Save_ordered_restores; auto using range_ok. Qed.

(** C26. Save and load: with finite gauges, names in UTF-8 and a file system that
    works, every way of saving succeeds, whatever the iteration orders of the
    maps, and a server that starts on the file and loads it holds exactly the
    metrics that were saved, gauges bit for bit. *)
Theorem save_load_round_trip gs cs s :
  savable s -> range_order (MemStorage.gauges (mem s)) gs -> range_order (MemStorage.counters (mem s)) cs ->
  (Save_ordered gs cs s).2 = None /\ restores (Save_ordered gs cs s).1 (mem s) /\
  (Close s).2 = None /\ restores (Close s).1 (mem s) /\
  restores (SaveOnUpdate s) (mem s) /\ restores (periodic_tick s) (mem s).
Proof.
  intros Hs Hg Hc. pose proof (Save_restores s Hs) as Hr. destruct Hs as (Hv & Hf & Hu & Hio).
  pose proof (Save_ordered_restores gs cs s Hv Hf Hu Hg Hc Hio) as Ho.
  unfold Close, SaveOnUpdate, periodic_tick.
  destruct (Save_ordered gs cs s), (Save s) as [s' [e|]]; destruct Hr as (? & _ & Hr), Ho as (? & _ & Ho); done.
Qed.

(** The file restores the storage if the update was acknowledged. *)
Definition durable (x : t * option error) : Prop :=
  x.2 = None -> finite_gauges (mem x.1) -> utf8_names (mem x.1) -> restores x.1 (mem x.1).

Lemma durable_saved s : MemStorage.valid (mem s) -> io s = [] -> durable (SaveOnUpdate s, None).
Proof.
  intros Hv Hio _. cbn. rewrite SaveOnUpdate_mem. intros Hf Hu.
  pose proof (Save_restores s (conj Hv (conj Hf (conj Hu Hio)))) as Hr. unfold SaveOnUpdate.
  destruct (Save s) as [s' [e|]]; by destruct Hr as (? & _ & Hr).
Qed.

Lemma durable_error s e : durable (s, Some e).
Proof. done. Qed.

(** C13. With [SaveOnUpdate] as the callback, no acknowledged update is lost:
    on a file system that works, when an update of the service (as text, as a
    model, or a non-empty batch) returns without an error, and the gauges of the storage
    are then finite and its names in UTF-8, the file restores the storage as it is
    then.  (With other gauges an acknowledged update is not on the file:
    [non_finite_gauge_blocks_saves].) *)
Theorem acknowledged_updates_are_durable `{UnicodeTables} s :
  MemStorage.valid (mem s) -> io s = [] ->
  let svc := MetricService.Mk (Some SaveOnUpdate) in
  (forall mType name value, durable (MetricService.UpdateMetric svc mType name value s)) /\
  (forall m, valid_metric m = true -> durable (MetricService.UpdateMetricFromModel svc m s)) /\
  (forall ms, ms <> [] -> Forall (fun m => valid_metric m = true) ms -> durable (MetricService.UpdateBatch svc ms s)).
Proof.
  intros Hv Hio svc. split_and!.
  - intros mType name value. unfold MetricService.UpdateMetric.
    destruct (bool_decide _); [|destruct (bool_decide _); [|apply durable_error]].
    + destruct (ParseFloat value) as [v|] eqn:Hp; [|apply durable_error]. apply durable_saved; [|done].
      apply MemStorage.valid_UpdateGauge; [done|by eapply ParseFloat_valid].
    + destruct (ParseInt _ value) as [d|] eqn:Hp; [|apply durable_error]. apply durable_saved; [|done].
      by apply MemStorage.valid_UpdateCounter.
  - intros m [Hd Hx]%andb_true_iff. unfold MetricService.UpdateMetricFromModel.
    destruct (bool_decide _); [|destruct (bool_decide _); [|apply durable_error]].
    + destruct (Value m) as [v|]; [|apply durable_error]. apply durable_saved; [|done].
      by apply MemStorage.valid_UpdateGauge.
    + destruct (Delta m) as [d|]; [|apply durable_error]. apply durable_saved; [|done].
      by apply MemStorage.valid_UpdateCounter.
  - intros ms Hne Hms. unfold MetricService.UpdateBatch. destruct ms as [|x ms]; [done|].
    rewrite bool_decide_false by done. apply durable_saved; [|done]. by apply MemStorage.valid_apply_all.
Qed.

(** C34. One gauge that is NaN or infinite blocks persistence: the update that
    sets it is acknowledged, and from then on every save fails and leaves the
    file as it was, whatever else is updated, until that gauge is overwritten. *)
Theorem non_finite_gauge_blocks_saves `{UnicodeTables} s name txt v ms :
  ParseFloat txt = Ok v -> finite v = false -> MemStorage.gauge_writes name ms = [] ->
  let svc := MetricService.Mk (Some SaveOnUpdate) in
  let '(s1, r1) := MetricService.UpdateMetric svc Gauge name txt s in
  let s2 := set_mem (MemStorage.apply_all ms (mem s1)) s1 in
  r1 = None /\ files s1 = files s /\ (exists e, Save s2 = (s2, Some e)) /\ files (SaveOnUpdate s2) = files s.
Proof.
  intros Hv Hfin Hms svc.
  assert (forall s', MemStorage.gauges (mem s') !! name = Some v -> exists e, Save s' = (s', Some e)) as Hfail.
  { intros s' Hg. apply Save_ordered_not_finite; [|apply range_ok..]. intros H'.
    pose proof (map_Forall_lookup_1 _ _ _ _ H' Hg) as Hf. cbn in Hf. congruence. }
  unfold MetricService.UpdateMetric. rewrite bool_decide_true, Hv by done. cbn [Service.UpdateGauge FileBackedStorage_Storage].
  unfold UpdateGauge, on_mem. cbn [fst snd MemStorage.UpdateGauge].
  set (s0 := set_mem _ s). destruct (Hfail s0) as [e He]; [apply lookup_insert_eq|].
  assert (SaveOnUpdate s0 = log (LogError "sync save failed" e) s0) as Hs0 by (unfold SaveOnUpdate; by rewrite He).
  unfold MetricService.notifyUpdate. cbn [MetricService.onUpdate svc]. rewrite Hs0.
  cbv zeta. set (s2 := set_mem _ _).
  destruct (Hfail s2) as [e2 He2].
  { subst s2. cbn [mem set_mem]. rewrite MemStorage.apply_all_gauges, Hms. apply lookup_insert_eq. }
  split_and!; [done|done|by exists e2|]. unfold SaveOnUpdate. by rewrite He2.
Qed.

(** [Load] on every branch: a missing file is no error and changes nothing;
    a file that cannot be read, or was cut short by a write that broke off, is
    an error and changes nothing; a snapshot's gauges replace those in memory
    and its counters are added to them. *)
Theorem Load_cases old l :
  MemStorage.valid (mem old) -> path l = path old -> io l = [] ->
  (files l !! path l = None -> Load l = (l, None)) /\
  (forall e rest, e <> Sentinel sErrNotExist ->
     let l' := Mk (mem l) (path l) (files l) (IoErr e :: rest) (logged l) in
     (Load l').2 = Some e /\ mem (Load l').1 = mem l) /\
  (forall gs cs,
     range_order (MemStorage.gauges (mem old)) gs -> range_order (MemStorage.counters (mem old)) cs ->
     files l = files (Save_ordered gs cs old).1 ->
     (forall data k e rest, MarshalIndent_metrics (MemStorage.Snapshot_ordered gs cs) = Ok data ->
        io old = IoPartial k e :: rest -> k < String.length data -> exists e', Load l = (l, Some e')) /\
     (savable old -> let '(l', r) := Load l in
        r = None /\ forall name,
          MemStorage.gauges (mem l') !! name =
            (match MemStorage.gauges (mem old) !! name with Some v => Some v | None => MemStorage.gauges (mem l) !! name end) /\
          MemStorage.counters (mem l') !! name =
            match MemStorage.counters (mem old) !! name with
            | Some d => Some (int64_add (default 0%Z (MemStorage.counters (mem l) !! name)) d)
            | None => MemStorage.counters (mem l) !! name
            end)).
Proof.
  intros Hv Hp Hio. split_and!.
  - intros Hf. unfold Load, ReadFile, next_io. rewrite Hio, Hf. done.
  - intros e rest He. unfold Load, ReadFile, next_io. cbn. unfold IsNotExist. by rewrite bool_decide_false.
  - intros gs cs Hg Hc Hf. unfold Save_ordered in Hf. split.
    + intros data k e rest Hdata Hold Hk. rewrite Hdata in Hf. by eapply (WriteFile_partial (mem old)).
    + intros (_ & Hfin & Hutf & Hold).
      pose proof (snapshot_encodable (mem old) gs cs Hg Hc) as He.
      pose proof (proj2 (Marshal_metrics_ok (MemStorage.Snapshot_ordered gs cs))) as Hm.
      rewrite (proj2 He Hfin) in Hm. destruct (MarshalIndent_metrics _) as [data|] eqn:Hdata; [|done].
      unfold WriteFile, next_io in Hf. rewrite Hold in Hf. cbn in Hf.
      rewrite (Load_saved (mem old) gs cs data); [|done..|rewrite Hf, Hp; apply lookup_insert_eq].
      rewrite (snapshot_sanitize (mem old)) by done. split; [done|]. intros name. by apply MemStorage.replay_snapshot.
Qed.
End Saving.

(** ** Instances of the theorems *)

#[local] Instance some_texts : JsonErrorText := {|
  SyntaxError_text _ := "invalid character";
  UnmarshalTypeError_text _ ty := "json: cannot unmarshal into Go value of type " +:+ ty |}.
#[local] Instance key_order : MapRange := {| range A := map_to_list; range_ok A m := range_order_canonical m |}.
#[local] Instance ascii_only : UnicodeTables := {| IsPrint_table _ := false |}.

Definition sample : t :=
  Mk (MemStorage.Mk {[ "Alloc" := round_pow false 1 10 (-1) ]} {[ "PollCount" := int64_min ]})
     "/tmp/metrics-db.json" ∅ [] [].

Lemma file_sample_valid : MemStorage.valid (mem sample).
Proof. split; apply map_Forall_singleton; by vm_compute. Qed.

Lemma file_sample_savable : savable sample.
Proof.
  split; [apply file_sample_valid|]. split; [apply map_Forall_singleton; by vm_compute|].
  split; [|done]. split; apply map_Forall_singleton; by vm_compute.
Qed.

Lemma save_load_round_trip_witness :
  savable sample /\ restores (SaveOnUpdate sample) (mem sample) /\
  Load (Mk MemStorage.NewMemStorage (path sample) (files (Close sample).1) [] [])
  = (Mk (mem sample) (path sample) (files (Close sample).1) [] [], None).
Proof.
  pose proof (save_load_round_trip _ _ sample file_sample_savable (range_order_canonical _) (range_order_canonical _)) as H.
  split; [exact file_sample_savable|]. split; [exact (proj1 (proj2 (proj2 (proj2 (proj2 H)))))|]. by vm_compute.
Defined.

Lemma acknowledged_updates_are_durable_witness :
  durable (MetricService.UpdateMetric (MetricService.Mk (Some SaveOnUpdate)) Counter "PollCount" "-7" sample).
Proof. exact (proj1 (acknowledged_updates_are_durable sample file_sample_valid eq_refl) Counter "PollCount" "-7"). Defined.

Lemma non_finite_gauge_blocks_saves_witness :
  let svc := MetricService.Mk (Some SaveOnUpdate) in
  let '(s1, r1) := MetricService.UpdateMetric svc Gauge "Alloc" "NaN" sample in
  r1 = None /\ files s1 = ∅.
Proof.
  pose proof (non_finite_gauge_blocks_saves sample "Alloc" "NaN" F_nan [] eq_refl eq_refl eq_refl) as H.
  split; [exact (proj1 H)|exact (proj1 (proj2 H))].
Defined.

Lemma Load_cases_witness :
  let old := Mk (mem sample) (path sample) ∅ [IoPartial 40 (ErrorText "no space left on device")] [] in
  let l := Mk (mem sample) (path sample) (files (Save old).1) [] [] in
  exists e', Load l = (l, Some e').
Proof.
  intros old l.
  destruct (MarshalIndent_metrics (MemStorage.Snapshot (mem sample))) as [data|] eqn:Hd; [|by vm_compute in Hd].
  refine (proj1 (proj2 (proj2 (Load_cases old l file_sample_valid eq_refl eq_refl)) _ _ (range_order_canonical _)
    (range_order_canonical _) eq_refl) data 40 (ErrorText "no space left on device") [] Hd eq_refl _).
  vm_compute in Hd. injection Hd as <-. apply Nat.ltb_lt. by vm_compute.
Defined.
End FileBackedStorage.
