(* ===== verification/Overlap.v ===== *)
(** * Requests that overlap, over the file storage

    When every update saves, each request that updates the storage takes the storage's
    mutex for the update, gives it back, and then saves under the mutex of the file:
    snapshot, [os.WriteFile], unlock.  Here these are separate steps, and requests
    interleave in any way.  [os.WriteFile] is two steps, as the file is empty in
    between. *)

From S2P Require Import Prelude Errors GoInt GoStrings GoFloat GoFloatFacts Model GoJson Storage Service FileStore.

Module Overlap.

(** What the service asks of the storage. *)
Inductive update :=
| SetGauge (name : string) (v : float64)
| AddCounter (name : string) (d : Z)
| ApplyBatch (ms : list Metrics).

Definition apply (m : MemStorage.t) (u : update) : MemStorage.t :=
  match u with
  | SetGauge name v => (MemStorage.UpdateGauge name v m).1
  | AddCounter name d => (MemStorage.UpdateCounter name d m).1
  | ApplyBatch ms => (MemStorage.UpdateBatch ms m).1
  end.

(** Where a request is: its update has taken effect and [SaveOnUpdate] is called; it
    has [s.mu]; it has a snapshot; the file is open and truncated; [Save] is about to
    return; the client has its reply. *)
Inductive pc :=
| Updated
| Locked
| Snapped (ms : list Metrics)
| Opened (data : string)
| Saved (err : option error)
| Replied (err : option error).

Record t := Mk {
  storage : FileBackedStorage.t;
  mu : option nat;
  requests : list (update * pc)
}.

(** The steps of the requests.  Opening the file and writing can fail, the latter after
    [n] bytes. *)
Inductive label :=
| Update (u : update)
| Lock (i : nat)
| Snap (i : nat)
| Open (i : nat) (fails : option error)
| Write (i : nat) (fails : option (nat * error))
| Reply (i : nat).

Definition move (i : nat) (u : update) (p : pc) (f : FileBackedStorage.t) (lock : option nat) (s : t) : t :=
  Mk f lock (<[i := (u, p)]> (requests s)).

Definition put_file (data : string) (f : FileBackedStorage.t) : FileBackedStorage.t :=
  FileBackedStorage.set_files (<[FileBackedStorage.path f := data]> (FileBackedStorage.files f)) f.

Section Steps.
Context `{JsonErrorText} `{MapRange}.

(** The snapshot [Save] takes. *)
Definition snapshot (m : MemStorage.t) : list Metrics :=
  MemStorage.Snapshot_ordered (range (MemStorage.gauges m)) (range (MemStorage.counters m)).

Definition fire (b : label) (s : t) : option t :=
  let f := storage s in
  match b with
  | Update u =>
      Some (Mk (FileBackedStorage.set_mem (apply (FileBackedStorage.mem f) u) f) (mu s) (requests s ++ [(u, Updated)]))
  | Lock i =>
      match requests s !! i, mu s with
      | Some (u, Updated), None => Some (move i u Locked f (Some i) s)
      | _, _ => None
      end
  | Snap i =>
      match requests s !! i with
      | Some (u, Locked) => Some (move i u (Snapped (snapshot (FileBackedStorage.mem f))) f (mu s) s)
      | _ => None
      end
  | Open i fails =>
      match requests s !! i with
      | Some (u, Snapped ms) =>
          match MarshalIndent_metrics ms, fails with
          | Err err, _ | _, Some err => Some (move i u (Saved (Some err)) f (mu s) s)
          | Ok data, None => Some (move i u (Opened data) (put_file "" f) (mu s) s)
          end
      | _ => None
      end
  | Write i fails =>
      match requests s !! i with
      | Some (u, Opened data) =>
          match fails with
          | None => Some (move i u (Saved None) (put_file data f) (mu s) s)
          | Some (n, err) => Some (move i u (Saved (Some err)) (put_file (str_take n data) f) (mu s) s)
          end
      | _ => None
      end
  | Reply i =>
      match requests s !! i with
      | Some (u, Saved err) => Some (move i u (Replied err) f None s)
      | _ => None
      end
  end.

Definition step (s s' : t) : Prop := exists b, fire b s = Some s'.

(** The updates in the order they took effect, and the memory after the first [k]. *)
Definition updates (s : t) : list update := (requests s).*1.
Definition after (m0 : MemStorage.t) (us : list update) (k : nat) : MemStorage.t := foldl apply m0 (take k us).

Definition in_save (p : pc) : bool := match p with Updated | Replied _ => false | _ => true end.

(** No save has failed; no file is open. *)
Definition failed (p : pc) : bool := match p with Saved (Some _) | Replied (Some _) => true | _ => false end.
Definition writing (p : pc) : bool := match p with Opened _ => true | _ => false end.
Definition no_error (s : t) : Prop := Forall (fun r => failed r.2 = false) (requests s).
Definition no_write (s : t) : Prop := Forall (fun r => writing r.2 = false) (requests s).

(** ** The invariant *)

Definition content (s : t) : option string := FileBackedStorage.files (storage s) !! FileBackedStorage.path (storage s).

(** The file is the snapshot after [k] updates; at first it is what it was. *)
Definition file_is (m0 : MemStorage.t) (f0 : option string) (s : t) (k : nat) : Prop :=
  if bool_decide (k = 0) then content s = f0
  else exists data, MarshalIndent_metrics (snapshot (after m0 (updates s) k)) = Ok data /\ content s = Some data.

Definition request_ok (m0 : MemStorage.t) (us : list update) (saved i : nat) (p : pc) : Prop :=
  match p with
  | Updated | Locked => True
  | Snapped ms => exists k, i < k <= length us /\ saved <= k /\ ms = snapshot (after m0 us k)
  | Opened data => exists k, i < k <= length us /\ saved <= k /\
      MarshalIndent_metrics (snapshot (after m0 us k)) = Ok data
  | Saved _ | Replied _ => i < saved
  end.

Record inv (m0 : MemStorage.t) (f0 : option string) (s : t) : Prop := {
  inv_mem : FileBackedStorage.mem (storage s) = foldl apply m0 (updates s);
  inv_mu i u p : requests s !! i = Some (u, p) -> in_save p = true <-> mu s = Some i;
  inv_owner i : mu s = Some i -> i < length (requests s);
  inv_open i u data : requests s !! i = Some (u, Opened data) -> content s = Some "";
  inv_saved : no_error s -> exists saved, saved <= length (requests s) /\
    (forall i u p, requests s !! i = Some (u, p) -> request_ok m0 (updates s) saved i p) /\
    (no_write s -> file_is m0 f0 s saved)
}.

(** *** A request's step *)

Lemma move_updates i u p p' f l s : requests s !! i = Some (u, p) -> updates (move i u p' f l s) = updates s.
Proof.
  intros Hi. unfold updates, move. cbn [requests]. rewrite list_fmap_insert. apply list_insert_id.
  by rewrite list_lookup_fmap, Hi.
Qed.

Lemma move_Forall (P : pc -> bool) i u p p' f l s : requests s !! i = Some (u, p) -> (P p = true -> P p' = true) ->
  Forall (fun r => P r.2 = false) (requests (move i u p' f l s)) -> Forall (fun r => P r.2 = false) (requests s).
Proof.
  intros Hi Hp. cbn [requests move]. rewrite !Forall_lookup. intros Hs j [u' q] Hj. cbn [snd].
  destruct (decide (i = j)) as [<-|Hne].
  - rewrite Hi in Hj. injection Hj as <- <-. specialize (Hs i (u, p')). cbn [snd] in Hs.
    rewrite list_lookup_insert_eq in Hs by (by eapply lookup_lt_Some). specialize (Hs eq_refl). destruct (P p); [|done].
    rewrite Hp in Hs; done.
  - apply (Hs j (u', q)). by rewrite list_lookup_insert_ne.
Qed.

(** A request that saves, before or after the step, is the only one that does. *)
Lemma only_saver m0 f0 s i u p j u' q : inv m0 f0 s -> requests s !! i = Some (u, p) -> requests s !! j = Some (u', q) ->
  in_save p = true \/ mu s = None -> in_save q = true -> i = j.
Proof.
  intros Hi H1 H2 Hp Hq. apply (inv_mu _ _ _ Hi j u' q H2) in Hq. destruct Hp as [Hp|Hp]; [|congruence].
  apply (inv_mu _ _ _ Hi i u p H1) in Hp. congruence.
Qed.

Lemma move_inv m0 f0 s i u p p' f :
  inv m0 f0 s -> requests s !! i = Some (u, p) -> FileBackedStorage.mem f = FileBackedStorage.mem (storage s) ->
  in_save p = true \/ mu s = None /\ in_save p' = true -> (failed p = true -> failed p' = true) ->
  let s' := move i u p' f (if in_save p' then Some i else None) s in
  (forall data, p' = Opened data -> content s' = Some "") ->
  (failed p' = false -> forall saved, saved <= length (requests s) -> request_ok m0 (updates s) saved i p ->
     (no_write s -> file_is m0 f0 s saved) ->
     exists saved', saved <= saved' <= length (requests s) /\ request_ok m0 (updates s) saved' i p' /\
       (no_write s' -> file_is m0 f0 s' saved')) ->
  inv m0 f0 s'.
Proof.
  intros Hs Hi Hm Hp Hf s' Hopen Hsaved. assert (updates s' = updates s) as Hup by (by eapply move_updates).
  assert (in_save p = true \/ mu s = None) as Hp' by tauto.
  assert (i < length (requests s)) as Hlt by (by eapply lookup_lt_Some).
  assert (forall j u' q, requests s' !! j = Some (u', q) -> i = j /\ u' = u /\ q = p' \/ i <> j /\ requests s !! j = Some (u', q)) as Hreq.
  { intros j u' q. cbn [requests s' move]. intros [(-> & [= -> ->] & _)|[? ?]]%list_lookup_insert_Some; auto. }
  assert (forall j u' q, i <> j -> requests s !! j = Some (u', q) -> in_save q = false) as Hother.
  { intros j u' q Hne Hj. destruct (in_save q) eqn:Hq; [|done]. destruct Hne. by apply (only_saver m0 f0 s i u p j u' q). }
  split.
  - rewrite Hup. cbn [storage s' move]. rewrite Hm. apply Hs.
  - intros j u' q [(<- & -> & ->)|[Hne Hj]]%Hreq; cbn [mu s' move].
    + by destruct (in_save p').
    + rewrite (Hother j u' q Hne Hj). destruct (in_save p'); split; congruence.
  - intros j. cbn [mu requests s' move]. rewrite length_insert. destruct (in_save p'); congruence.
  - intros j u' data [(<- & -> & Hq)|[Hne Hj]]%Hreq; [by eapply Hopen|]. by apply Hother in Hj.
  - intros He. assert (no_error s) as He0 by exact (move_Forall failed i u p p' f _ s Hi Hf He).
    destruct (inv_saved _ _ _ Hs He0) as (saved & Hle & Hok & Hfi).
    assert (failed p' = false) as Hf'.
    { unfold no_error in He. rewrite Forall_lookup in He. apply (He i (u, p')). cbn [requests s' move].
      by apply list_lookup_insert_eq. }
    destruct (Hsaved Hf' saved Hle (Hok i u p Hi) Hfi) as (saved' & Hle' & Hok' & Hfi').
    exists saved'. cbn [requests s' move]. rewrite length_insert. split; [lia|]. split; [|exact Hfi']. rewrite Hup.
    intros j u' q [(<- & -> & ->)|[Hne Hj]]%Hreq; [done|]. pose proof (Hother j u' q Hne Hj) as Hq. pose proof (Hok j u' q Hj) as Hj'.
    destruct q; try done; cbn [request_ok] in *; lia.
Qed.

Lemma same_file m0 f0 s s' k : content s' = content s -> updates s' = updates s -> file_is m0 f0 s k -> file_is m0 f0 s' k.
Proof. unfold file_is. by intros -> ->. Qed.

(** Steps that leave the file alone. *)
Lemma move_quiet m0 f0 s i u p p' :
  inv m0 f0 s -> requests s !! i = Some (u, p) -> in_save p = true \/ mu s = None /\ in_save p' = true ->
  writing p = false -> writing p' = false -> (failed p = true -> failed p' = true) ->
  (failed p' = false -> forall saved, saved <= length (requests s) -> request_ok m0 (updates s) saved i p ->
     request_ok m0 (updates s) saved i p') ->
  inv m0 f0 (move i u p' (storage s) (if in_save p' then Some i else None) s).
Proof.
  intros Hs Hi Hp Hw Hw' Hf Hok. apply (move_inv m0 f0 s i u p); try done; [by intros data ->|].
  intros He saved Hle Hr Hfi. exists saved. split_and!; [done|done|by apply Hok|]. intros Hn.
  eapply (same_file _ _ s); [done|by eapply move_updates|]. apply Hfi.
  eapply (move_Forall writing i u p p'); [exact Hi|congruence|exact Hn].
Qed.

Lemma after_app m0 us us' k : k <= length us -> after m0 (us ++ us') k = after m0 us k.
Proof. intros Hk. unfold after. by rewrite take_app_le. Qed.

Lemma update_inv m0 f0 s u :
  inv m0 f0 s -> inv m0 f0 (Mk (FileBackedStorage.set_mem (apply (FileBackedStorage.mem (storage s)) u) (storage s)) (mu s) (requests s ++ [(u, Updated)])).
Proof.
  intros [Hm Hmu Ho Hop Hsv]. set (s' := Mk _ _ _).
  assert (updates s' = updates s ++ [u]) as Hup by (unfold updates; cbn [requests s']; by rewrite fmap_app).
  assert (length (updates s) = length (requests s)) as Hlen by apply length_fmap.
  assert (forall j u' q, requests s' !! j = Some (u', q) -> requests s !! j = Some (u', q) \/ j = length (requests s) /\ q = Updated) as Hreq.
  { intros j u' q. cbn [requests s']. rewrite lookup_app_Some, list_lookup_singleton_Some. intros [?|(? & ? & [= <- <-])]; [by left|right; split; [lia|done]]. }
  split; cbn [storage mu s' FileBackedStorage.set_mem FileBackedStorage.mem].
  - by rewrite Hup, foldl_app, Hm.
  - intros j u' q [Hj|[-> ->]]%Hreq; [by eapply Hmu|]. split; [done|]. intros Hl. apply Ho in Hl. lia.
  - intros j Hj. cbn [requests s']. rewrite length_app. apply Ho in Hj. lia.
  - intros j u' data [Hj|[_ ?]]%Hreq; [by eapply Hop|done].
  - intros He. apply Forall_app in He as [He _].
    destruct (Hsv He) as (saved & Hle & Hok & Hfi). exists saved. cbn [requests s']. split; [rewrite length_app; lia|]. split.
    + intros j u' q [Hj|[-> ->]]%Hreq; [|done]. pose proof (Hok j u' q Hj) as Hj'. rewrite Hup.
      destruct q; try done; destruct Hj' as (k & Hk & Hk' & He'); exists k; rewrite length_app, after_app by lia; (split_and!; [lia..|done]).
    + intros Hw. apply Forall_app in Hw as [Hw _]. pose proof (Hfi Hw) as Hf. unfold file_is in *. rewrite Hup, after_app by lia. exact Hf.
Qed.

Lemma fire_inv_overlap m0 f0 b s s' : inv m0 f0 s -> fire b s = Some s' -> inv m0 f0 s'.
Proof.
  intros Hs Hb. destruct b as [u|i|i|i fails|i fails|i]; cbn [fire] in Hb.
  { injection Hb as <-. by apply update_inv. }
  all: destruct (requests s !! i) as [[u p]|] eqn:Hi; [|done].
  all: assert (i < length (updates s)) as Hlt by (unfold updates; rewrite length_fmap; by eapply lookup_lt_Some).
  all: pose proof (inv_mu _ _ _ Hs i u p Hi) as Hl.
  - destruct p; try done. destruct (mu s) eqn:Hm; [done|]. injection Hb as <-. by apply (move_quiet m0 f0 s i u Updated Locked); auto.
  - destruct p; try done. rewrite (proj1 Hl eq_refl) in Hb. injection Hb as <-. apply (move_quiet m0 f0 s i u Locked (Snapped _)); auto.
    intros _ saved Hle _. exists (length (updates s)). rewrite (inv_mem _ _ _ Hs). unfold after. rewrite firstn_all.
    split_and!; [lia..| |done]. unfold updates. by rewrite length_fmap.
  - destruct p as [| |ms| | |]; try done. rewrite (proj1 Hl eq_refl) in Hb. destruct (MarshalIndent_metrics ms) as [data|err] eqn:Hd.
    2: { injection Hb as <-. by apply (move_quiet m0 f0 s i u (Snapped ms) (Saved (Some err))); auto. }
    destruct fails as [err|]; injection Hb as <-.
    { by apply (move_quiet m0 f0 s i u (Snapped ms) (Saved (Some err))); auto. }
    apply (move_inv m0 f0 s i u (Snapped ms) (Opened data)); auto.
    + intros data' _. unfold content. cbn. apply lookup_insert_eq.
    + intros _ saved Hle (k & Hk & Hk' & ->) _. exists saved. split_and!; [done|done|by exists k|].
      intros Hn. unfold no_write in Hn. rewrite Forall_lookup in Hn. specialize (Hn i (u, Opened data)). cbn [requests move snd writing] in Hn.
      rewrite list_lookup_insert_eq in Hn by (by eapply lookup_lt_Some). by specialize (Hn eq_refl).
  - destruct p as [| | |data| |]; try done. rewrite (proj1 Hl eq_refl) in Hb. destruct fails as [[n err]|]; injection Hb as <-.
    { apply (move_inv m0 f0 s i u (Opened data) (Saved (Some err))); by auto. }
    apply (move_inv m0 f0 s i u (Opened data) (Saved None)); auto; [done|].
    intros _ saved Hle (k & Hk & Hk' & Hd) _. exists k. unfold updates in Hk. rewrite length_fmap in Hk.
    split_and!; [lia|lia|cbn; lia|]. intros _. unfold file_is. rewrite bool_decide_false by lia.
    exists data. rewrite (move_updates i u (Opened data)) by done. split; [done|]. unfold content. cbn. apply lookup_insert_eq.
  - destruct p as [| | | |err|]; try done. injection Hb as <-. by apply (move_quiet m0 f0 s i u (Saved err) (Replied err)); auto.
Qed.

(** ** What is on the disk *)

(** Starting on a file with this content gives the metrics [m]. *)
Definition loads (o : option string) (m : MemStorage.t) : Prop := forall l,
  FileBackedStorage.files l !! FileBackedStorage.path l = o -> FileBackedStorage.io l = [] ->
  FileBackedStorage.mem l = MemStorage.NewMemStorage ->
  (FileBackedStorage.Load l).2 = None /\ FileBackedStorage.mem (FileBackedStorage.Load l).1 = m.

(** Updates of the types of the program, with names in UTF-8. *)
Definition update_ok (u : update) : Prop :=
  match u with
  | SetGauge name v => valid_float v = true /\ ValidString name = true
  | AddCounter name d => ValidString name = true
  | ApplyBatch ms => Forall (fun x => valid_metric x = true /\ ValidString (ID x) = true) ms
  end.

Definition state_ok (m : MemStorage.t) : Prop := MemStorage.valid m /\ FileBackedStorage.utf8_names m.

Lemma apply_metric_ok x m : valid_metric x = true -> ValidString (ID x) = true -> state_ok m -> state_ok (MemStorage.apply_metric x m).
Proof.
  intros Hx Hn [Hv [Hg Hc]]. split; [by apply MemStorage.valid_apply_metric|]. unfold MemStorage.apply_metric.
  repeat case_match; split; cbn; try done; by apply map_Forall_insert_2.
Qed.

Lemma apply_ok u m : update_ok u -> state_ok m -> state_ok (apply m u).
Proof.
  destruct u as [name v|name d|ms]; cbn [update_ok apply].
  - intros [Hv Hn] [Hm [Hg Hc]]. split; [by apply MemStorage.valid_UpdateGauge|]. split; [by apply map_Forall_insert_2|done].
  - intros Hn [Hm [Hg Hc]]. split; [by apply MemStorage.valid_UpdateCounter|]. split; [done|by apply map_Forall_insert_2].
  - cbn [MemStorage.UpdateBatch fst]. unfold MemStorage.apply_all. intros Hms. revert m.
    induction Hms as [|x ms [Hx Hn] _ IH]; intros m Hm; [done|]. by apply IH, apply_metric_ok.
Qed.

Lemma after_ok m0 us k : Forall update_ok us -> state_ok m0 -> state_ok (after m0 us k).
Proof.
  intros Hus Hm. apply (Forall_take _ k) in Hus. revert Hm. unfold after. revert m0. induction Hus as [|u us' Hu _ IH]; intros m0 Hm; [done|]. by apply IH, apply_ok.
Qed.

Lemma file_is_loads m0 s k : state_ok m0 -> Forall update_ok (updates s) -> forall f0, loads f0 m0 ->
  file_is m0 f0 s k -> loads (content s) (after m0 (updates s) k).
Proof.
  intros Hm Hus f0 Hf0. unfold file_is. case_bool_decide as Hk; [subst k; intros ->; exact Hf0|].
  intros (data & Hd & ->) l Hl Hio Hml. destruct (after_ok m0 (updates s) k Hus Hm) as [Hv Hn].
  eapply FileBackedStorage.written_restores; [exact Hv|exact Hn|apply range_ok|apply range_ok|exact Hd|done..].
Qed.

(** ** Progress *)

Definition rank (p : pc) : nat :=
  match p with Updated => 5 | Locked => 4 | Snapped _ => 3 | Opened _ => 2 | Saved _ => 1 | Replied _ => 0 end.
Definition work (s : t) : nat := sum_list_with (fun r => rank r.2) (requests s).
Definition arrives (b : label) : bool := match b with Update _ => true | _ => false end.

Lemma move_work i u p p' f l s : requests s !! i = Some (u, p) -> rank p' < rank p -> work (move i u p' f l s) < work s.
Proof.
  intros Hi Hr. unfold work, move. cbn [requests]. rewrite insert_take_drop by (by eapply lookup_lt_Some).
  rewrite <- (take_drop_middle (requests s) i (u, p) Hi) at 3. rewrite !sum_list_with_app. cbn [sum_list_with snd]. lia.
Qed.

Lemma fire_works b s s' : arrives b = false -> fire b s = Some s' -> work s' < work s.
Proof.
  intros Ha Hb. destruct b as [u|i|i|i fails|i fails|i]; [done|..]; cbn [fire] in Hb.
  all: destruct (requests s !! i) as [[u p]|] eqn:Hi; [|done]; destruct p; try done.
  all: repeat case_match; simplify_eq; apply (move_work i u _ _ _ _ _ Hi); cbn; lia.
Qed.

Lemma rank_done p : rank p = 0 <-> exists err, p = Replied err.
Proof. destruct p; cbn; split; try lia; try (by intros [? ?]); by eexists. Qed.

Lemma work_done s : work s = 0 <-> Forall (fun r => exists err, r.2 = Replied err) (requests s).
Proof.
  unfold work. induction (requests s) as [|[u p] rs IH]; cbn [sum_list_with snd]; [by split|].
  rewrite Forall_cons, <- IH, <- rank_done. cbn [snd]. lia.
Qed.

Lemma can_step m0 f0 s : inv m0 f0 s -> work s <> 0 -> exists b s', arrives b = false /\ fire b s = Some s'.
Proof.
  intros Hs Hw. destruct (mu s) as [i|] eqn:Hm.
  - destruct (lookup_lt_is_Some_2 (requests s) i) as [[u p] Hi]; [by eapply inv_owner|].
    pose proof (proj2 (inv_mu _ _ _ Hs i u p Hi) Hm) as Hp. destruct p as [| |ms|data|err|]; try done.
    + exists (Snap i). cbn [fire]. rewrite Hi. by eexists.
    + exists (Open i None). cbn [fire]. rewrite Hi. destruct (MarshalIndent_metrics ms); by eexists.
    + exists (Write i None). cbn [fire]. rewrite Hi. by eexists.
    + exists (Reply i). cbn [fire]. rewrite Hi. by eexists.
  - rewrite work_done in Hw. apply not_Forall_Exists in Hw; [|intros [u []]; (by left; eexists) || (right; by intros [? ?])].
    apply Exists_exists in Hw as ([u p] & (i & Hi)%list_elem_of_lookup & Hr).
    pose proof (inv_mu _ _ _ Hs i u p Hi) as Hl. rewrite Hm in Hl. destruct p as [| | | | |err]; try (discriminate (proj1 Hl eq_refl)).
    + exists (Lock i). cbn [fire]. rewrite Hi, Hm. by eexists.
    + destruct Hr. by exists err.
Qed.

(** A server with the metrics [m0], its file up to date, and no request. *)
Definition starts (m0 : MemStorage.t) (s : t) : Prop :=
  FileBackedStorage.mem (storage s) = m0 /\ state_ok m0 /\ loads (content s) m0 /\ mu s = None /\ requests s = [].

Lemma starts_inv m0 s : starts m0 s -> inv m0 (content s) s.
Proof.
  intros (Hm & _ & _ & Hmu & Hr). split; unfold updates; rewrite ?Hr, ?Hmu; try done.
  intros _. exists 0. by split_and!.
Qed.

Lemma reachable_overlap m0 f0 s s' : inv m0 f0 s -> rtc step s s' -> inv m0 f0 s'.
Proof. intros Hi Hs. induction Hs as [|x y z [b Hb] _ IH]; [done|]. by eapply IH, fire_inv_overlap. Qed.

(** C8. Requests that overlap, with every update saved.  However their steps
    interleave: the updates take effect once each, in some order; as long as no save
    failed, whenever no file is being written the file loads the metrics after a
    prefix of that order that has every update whose client has its reply, and when
    all have theirs, exactly the metrics in memory; while a file is being written it
    loads nothing.  No request waits forever: every step of the requests under way
    brings them closer to their replies, and there is one as long as any has none. *)
Theorem overlapping_updates m0 s0 s :
  starts m0 s0 -> rtc step s0 s -> Forall update_ok (updates s) ->
  FileBackedStorage.mem (storage s) = foldl apply m0 (updates s) /\
  (no_error s -> no_write s -> exists k, k <= length (updates s) /\
     (forall i u err, requests s !! i = Some (u, Replied err) -> i < k) /\ loads (content s) (after m0 (updates s) k)) /\
  (no_error s -> work s = 0 -> loads (content s) (FileBackedStorage.mem (storage s))) /\
  (~ no_write s -> forall l, FileBackedStorage.files l !! FileBackedStorage.path l = content s -> FileBackedStorage.io l = [] ->
     exists err, FileBackedStorage.Load l = (l, Some err)) /\
  (forall b s', arrives b = false -> fire b s = Some s' -> work s' < work s) /\
  (work s <> 0 -> exists b s', arrives b = false /\ fire b s = Some s').
Proof.
  intros Hst Hrun Hus. pose proof (reachable_overlap _ _ _ _ (starts_inv m0 s0 Hst) Hrun) as Hi.
  destruct Hst as (_ & Hok & Hl0 & _ & _).
  assert (no_error s -> no_write s -> exists k, k <= length (updates s) /\
     (forall i u err, requests s !! i = Some (u, Replied err) -> i < k) /\ loads (content s) (after m0 (updates s) k)) as Hk.
  { intros He Hw. destruct (inv_saved _ _ _ Hi He) as (k & Hle & Hr & Hf). exists k. unfold updates at 1. rewrite length_fmap.
    split; [done|]. split; [by intros i u err ?%Hr|]. eapply file_is_loads; eauto. }
  split_and!; [apply Hi|exact Hk| | |intros b s'; apply fire_works|by eapply can_step].
  - intros He Hw%work_done. rewrite Forall_lookup in Hw. destruct Hk as (k & Hle & Hr & Hl); [done| |].
    { apply Forall_lookup. intros i [u p] Hp. by destruct (Hw i _ Hp) as [err ->]. }
    rewrite (inv_mem _ _ _ Hi). replace (foldl apply m0 (updates s)) with (after m0 (updates s) k); [done|].
    unfold after. rewrite take_ge; [done|]. destruct (decide (length (updates s) <= k)) as [|Hlt]; [done|].
    destruct (lookup_lt_is_Some_2 (requests s) k) as [[u p] Hp]; [unfold updates in Hlt; rewrite length_fmap in Hlt; lia|].
    destruct (Hw k _ Hp) as [err Hq]. cbn in Hq. subst p. specialize (Hr k u err Hp). lia.
  - intros Hn l Hl Hio. apply not_Forall_Exists in Hn; [|solve_decision].
    apply Exists_exists in Hn as ([u p] & (i & Hp)%list_elem_of_lookup & Hw). cbn [snd] in Hw. destruct p as [| | |data| |]; try (by destruct Hw).
    rewrite (inv_open _ _ _ Hi i u data Hp) in Hl. unfold FileBackedStorage.Load, FileBackedStorage.ReadFile, FileBackedStorage.next_io.
    rewrite Hio, Hl. by eexists.
Qed.

(** Run a schedule. *)
Fixpoint run (bs : list label) (s : t) : option t :=
  match bs with [] => Some s | b :: bs => s ← fire b s; run bs s end.

Lemma schedule_reaches bs s s' : run bs s = Some s' -> rtc step s s'.
Proof.
  revert s. induction bs as [|b bs IH]; intros s; cbn [run]; [intros [= ->]; apply rtc_refl|].
  destruct (fire b s) as [s1|] eqn:Hb; [|done]. intros Hr. eapply rtc_l; [by exists b|by apply IH].
Qed.
End Steps.

(** ** Two requests

    The second update comes between the update and the snapshot of the first; both
    wait for the same mutex. *)
#[local] Existing Instances FileBackedStorage.some_texts FileBackedStorage.key_order.

Definition fresh : t := Mk (FileBackedStorage.NewFileBackedStorage "/m.json" ∅) None [].
Definition schedule : list label :=
  [Update (AddCounter "PollCount" 2); Lock 0; Update (SetGauge "Load" (F_fin false (3 * 2 ^ 51) (-52))); Snap 0; Open 0 None; Write 0 None;
   Reply 0; Lock 1; Snap 1; Open 1 None; Write 1 None; Reply 1].
Definition reached (bs : list label) : t := default fresh (run bs fresh).

Lemma fresh_starts : starts MemStorage.NewMemStorage fresh.
Proof.
  split_and!; [done| | |done|done].
  - split; [apply MemStorage.valid_New|split; apply map_Forall_empty].
  - intros l Hl Hio Hm. unfold FileBackedStorage.Load, FileBackedStorage.ReadFile, FileBackedStorage.next_io. rewrite Hio, Hl. by split.
Qed.

(** Both are done; and in the middle of the second write the first update, whose client
    has its reply, is on no disk. *)
Lemma overlapping_updates_witness :
  loads (content (reached schedule)) (FileBackedStorage.mem (storage (reached schedule))) /\
  requests (reached (take 10 schedule)) !! 0 = Some (AddCounter "PollCount" 2, Replied None) /\
  exists err, FileBackedStorage.Load (FileBackedStorage.NewFileBackedStorage "/m.json" {["/m.json" := ""]})
  = (FileBackedStorage.NewFileBackedStorage "/m.json" {["/m.json" := ""]}, Some err).
Proof.
  assert (forall n, n = 10 \/ n = 12 -> rtc step fresh (reached (take n schedule)) /\ Forall update_ok (updates (reached (take n schedule)))) as Hr.
  { intros n Hn. split; [apply (schedule_reaches (take n schedule)); by destruct Hn as [-> | ->]; vm_compute|].
    destruct Hn as [-> | ->]; by repeat constructor. }
  split_and!.
  - pose proof (overlapping_updates _ fresh (reached schedule) fresh_starts (proj1 (Hr 12 ltac:(auto))) (proj2 (Hr 12 ltac:(auto)))) as Ht.
    apply (proj1 (proj2 (proj2 Ht))); [by repeat constructor|done].
  - by vm_compute.
  - pose proof (overlapping_updates _ fresh (reached (take 10 schedule)) fresh_starts (proj1 (Hr 10 ltac:(auto))) (proj2 (Hr 10 ltac:(auto)))) as Ht.
    apply (proj1 (proj2 (proj2 (proj2 Ht)))); [|by vm_compute|done]. intros Hw. apply Forall_inv_tail, Forall_inv in Hw. by vm_compute in Hw.
Defined.
End Overlap.
