(* ===== verification/PeriodicSave.v ===== *)
(** * The goroutine of [StartPeriodicSave], step by step

    A save takes the mutex of the file, takes a snapshot, encodes it, truncates the file,
    writes, gives the mutex back and logs; other goroutines run between these steps, and
    the process may end between any two of them.  Run in a row they are
    [FileBackedStorage.periodic_tick] ([save_in_a_row]). *)

From S2P Require Import Prelude Errors GoInt GoStrings GoFloat GoFloatFacts Model GoJson Storage Service FileStore Overlap.

Module PeriodicSave.

(** Where the goroutine is: not started, or returned; in its [select]; about to lock
    [s.mu]; with the mutex; with a snapshot; with the file open and truncated, and what
    the write will answer; about to unlock and log. *)
Inductive pc :=
| Off
| Selecting
| Ticked
| Locked
| Snapped (ms : list Metrics)
| Opened (data : string) (r : io_reply)
| Saved (err : option error).

Inductive label := SaveTick | SaveLock | SaveSnap | SaveOpen | SaveWrite | SaveUnlock.

(** The goroutine has [s.mu]; the file is open. *)
Definition holds_mu (q : pc) : bool := match q with Locked | Snapped _ | Opened _ _ | Saved _ => true | _ => false end.
Definition writing (q : pc) : bool := match q with Opened _ _ => true | _ => false end.

Section Steps.
Context `{JsonErrorText} `{MapRange}.

(** One step of the goroutine.  [os.WriteFile] can fail to open the file, or break off
    after a part of the data. *)
Definition step (b : label) (q : pc) (f : FileBackedStorage.t) : option (pc * FileBackedStorage.t) :=
  match b, q with
  | SaveTick, Selecting => Some (Ticked, f)
  | SaveLock, Ticked => Some (Locked, f)
  | SaveSnap, Locked => Some (Snapped (Overlap.snapshot (FileBackedStorage.mem f)), f)
  | SaveOpen, Snapped ms =>
      match MarshalIndent_metrics ms with
      | Err err => Some (Saved (Some err), f)
      | Ok data =>
          let '(r, f) := FileBackedStorage.next_io f in
          match r with
          | IoErr e => Some (Saved (Some e), f)
          | _ => Some (Opened data r, Overlap.put_file "" f)
          end
      end
  | SaveWrite, Opened data r =>
      match r with
      | IoPartial k e => Some (Saved (Some e), Overlap.put_file (str_take k data) f)
      | _ => Some (Saved None, Overlap.put_file data f)
      end
  | SaveUnlock, Saved err =>
      Some (Selecting, match err with
                       | Some err => FileBackedStorage.log (LogError "periodic save failed" err) f
                       | None => FileBackedStorage.log (LogInfo "metrics saved") f
                       end)
  | _, _ => None
  end.

(** The step the goroutine takes by itself while it saves. *)
Definition next (q : pc) : option label :=
  match q with
  | Ticked => Some SaveLock
  | Locked => Some SaveSnap
  | Snapped _ => Some SaveOpen
  | Opened _ _ => Some SaveWrite
  | Saved _ => Some SaveUnlock
  | _ => None
  end.

(** How many of these it has before it. *)
Definition rank (q : pc) : nat :=
  match q with Ticked => 5 | Locked => 4 | Snapped _ => 3 | Opened _ _ => 2 | Saved _ => 1 | _ => 0 end.

Lemma next_step q b f : next q = Some b -> exists q' f', step b q f = Some (q', f').
Proof.
  destruct q; try done; intros [= <-]; cbn; try by eexists _, _.
  - destruct (MarshalIndent_metrics ms); [|by eexists _, _]. destruct (FileBackedStorage.next_io f) as [[] ?]; by eexists _, _.
  - destruct r; by eexists _, _.
Qed.

Lemma step_rank b q f q' f' : step b q f = Some (q', f') ->
  q <> Off /\ q' <> Off /\ (b = SaveTick /\ rank q = 0 /\ rank q' = 5 \/ next q = Some b /\ rank q' < rank q).
Proof.
  destruct b, q; try done; cbn; repeat case_match; try done; intros [= <- <-]; (split; [done|]; split; [done|]);
    (by left) || (right; split; [done|cbn; lia]).
Qed.

(** The memory and the path are not touched. *)
Lemma step_frame b q f q' f' : step b q f = Some (q', f') ->
  FileBackedStorage.mem f' = FileBackedStorage.mem f /\ FileBackedStorage.path f' = FileBackedStorage.path f /\
  (FileBackedStorage.io f = [] -> FileBackedStorage.io f' = []).
Proof.
  destruct b, q; try done; cbn; [by intros [= <- <-]..| | |by intros [= <- <-]; destruct err].
  - destruct (MarshalIndent_metrics ms); [|by intros [= <- <-]]. unfold FileBackedStorage.next_io.
    destruct (FileBackedStorage.io f) as [|[] rs] eqn:Hi; intros [= <- <-]; cbn; by rewrite ?Hi.
  - destruct r; by intros [= <- <-].
Qed.

Fixpoint run (bs : list label) (x : pc * FileBackedStorage.t) : option (pc * FileBackedStorage.t) :=
  match bs with
  | [] => Some x
  | b :: bs => match step b x.1 x.2 with Some x => run bs x | None => None end
  end.

(** A save that nothing interrupts: at most six steps, and the storage that
    [periodic_tick] leaves. *)
Lemma save_in_a_row f : exists bs, length bs <= 6 /\ run (SaveTick :: SaveLock :: SaveSnap :: SaveOpen :: bs) (Selecting, f)
  = Some (Selecting, FileBackedStorage.periodic_tick f).
Proof.
  cbn [run step fst snd]. unfold FileBackedStorage.periodic_tick, FileBackedStorage.Save, FileBackedStorage.Save_ordered, Overlap.snapshot.
  destruct (MarshalIndent_metrics _) as [data|err]; [|by exists [SaveUnlock]; split; [cbn; lia|]].
  unfold FileBackedStorage.WriteFile. destruct (FileBackedStorage.next_io f) as [[|e|k e] f1].
  - exists [SaveWrite; SaveUnlock]. split; [cbn; lia|]. cbn. unfold Overlap.put_file. cbn. by rewrite insert_insert_eq.
  - by exists [SaveUnlock]; split; [cbn; lia|].
  - exists [SaveWrite; SaveUnlock]. split; [cbn; lia|]. cbn. unfold Overlap.put_file. cbn. by rewrite insert_insert_eq.
Qed.

(** ** A save with nothing else going on

    On a disk that works, over a memory that does not change, the file restores the
    memory before, and after; in between it is empty. *)
Definition restores_if_savable (f : FileBackedStorage.t) : Prop :=
  FileBackedStorage.finite_gauges (FileBackedStorage.mem f) -> FileBackedStorage.utf8_names (FileBackedStorage.mem f) ->
  FileBackedStorage.restores f (FileBackedStorage.mem f).

Definition content (f : FileBackedStorage.t) : option string := FileBackedStorage.files f !! FileBackedStorage.path f.

Definition settled (q : pc) (f : FileBackedStorage.t) : Prop :=
  match q with
  | Snapped ms => ms = Overlap.snapshot (FileBackedStorage.mem f) /\ restores_if_savable f
  | Opened data r => r = IoOk /\ MarshalIndent_metrics (Overlap.snapshot (FileBackedStorage.mem f)) = Ok data /\ content f = Some ""
  | _ => restores_if_savable f
  end.

Lemma step_settled b q f q' f' : MemStorage.valid (FileBackedStorage.mem f) -> FileBackedStorage.io f = [] ->
  settled q f -> step b q f = Some (q', f') -> settled q' f'.
Proof.
  intros Hv Hio Hs. destruct b, q; try done; cbn.
  - by intros [= <- <-].
  - by intros [= <- <-].
  - by intros [= <- <-].
  - destruct Hs as [-> Hs]. destruct (MarshalIndent_metrics _) as [data|err] eqn:Hd; [|by intros [= <- <-]].
    unfold FileBackedStorage.next_io. rewrite Hio. intros [= <- <-]. split_and!; [done|done|]. unfold content. cbn. by apply lookup_insert_eq.
  - destruct Hs as (-> & Hd & _). intros [= <- <-] Hf Hu. cbn in *.
    eapply FileBackedStorage.written_restores; [exact Hv|exact Hu|apply range_ok|apply range_ok|exact Hd|]. apply lookup_insert_eq.
  - by intros [= <- <-]; destruct err.
Qed.
End Steps.
End PeriodicSave.
