(* ===== verification/Http.v ===== *)
(** * net/http, as far as the server uses it

    A handler's use of its [ResponseWriter] is the list of calls it makes on it,
    in order; a middleware that wraps the writer transforms that list; [respond]
    is what the server sends for it.  No handler of the program reads back what it
    wrote. *)

From S2P Require Import Prelude Errors GoInt GoStrings Model GoJson.

(** ** Headers *)

(** [http.Header] *)
Abbreviation header := (gmap string (list string)).

Definition is_lower (c : Ascii.ascii) : bool := in_range 97 122 (char_code c).
Definition is_upper (c : Ascii.ascii) : bool := in_range 65 90 (char_code c).
Definition to_upper (c : Ascii.ascii) : Ascii.ascii := if is_lower c then char_of (char_code c - 32) else c.
Definition to_lower (c : Ascii.ascii) : Ascii.ascii := if is_upper c then char_of (char_code c + 32) else c.

(** [textproto.CanonicalMIMEHeaderKey], on names made of letters, digits and
    hyphens: the only ones the program uses. *)
Fixpoint canonical_go (upper : bool) (k : string) : string :=
  match k with
  | EmptyString => ""
  | String c k => String (if upper then to_upper c else to_lower c) (canonical_go (is_char "-"%char c) k)
  end.
Definition CanonicalKey (k : string) : string := canonical_go true k.

Definition header_Get (k : string) (h : header) : string :=
  match h !! CanonicalKey k with Some (v :: _) => v | _ => "" end.
Definition header_Set (k v : string) (h : header) : header := <[CanonicalKey k := [v]]> h.
Definition header_Del (k : string) (h : header) : header := delete (CanonicalKey k) h.

Lemma header_Get_Set k v h : header_Get k (header_Set k v h) = v.
Proof. unfold header_Get, header_Set. by rewrite lookup_insert_eq. Qed.

Lemma header_Get_Set_ne k k' v h :
  CanonicalKey k <> CanonicalKey k' -> header_Get k (header_Set k' v h) = header_Get k h.
Proof. intros. unfold header_Get, header_Set. by rewrite lookup_insert_ne. Qed.

Lemma header_Get_Del k h : header_Get k (header_Del k h) = "".
Proof. unfold header_Get, header_Del. by rewrite lookup_delete_eq. Qed.

Lemma header_Get_Del_ne k k' h :
  CanonicalKey k <> CanonicalKey k' -> header_Get k (header_Del k' h) = header_Get k h.
Proof. intros. unfold header_Get, header_Del. by rewrite lookup_delete_ne. Qed.

#[export] Hint Rewrite header_Get_Set header_Get_Del : go.

(** ** Requests *)

(** [http.NewRequest] of a client parses the URL: it is the error, or the request URI
    that reaches the server. *)
Class URLs := { url_RequestURI : string -> res string }.

Record request := MkRequest {
  Method : string;
  RequestURI : string;
  Header : header;
  RemoteAddr : string;
  Body : body;
  URLParam : string -> string      (** the parameters chi took from the path *)
}.

Definition with_body (b : body) (r : request) : request :=
  MkRequest (Method r) (RequestURI r) (Header r) (RemoteAddr r) b (URLParam r).
Definition with_header (h : header) (r : request) : request :=
  MkRequest (Method r) (RequestURI r) h (RemoteAddr r) (Body r) (URLParam r).
Definition with_params (p : string -> string) (r : request) : request :=
  MkRequest (Method r) (RequestURI r) (Header r) (RemoteAddr r) (Body r) p.

(** [io.ReadAll(r.Body)] and [bytes.NewReader(data)] *)
Definition ReadAll (b : body) : res string :=
  match read_error b with Some e => Err e | None => Ok (bytes b) end.
Definition NewReader (data : string) : body := MkBody data None.

(** ** Responses *)

(** A call on the writer. *)
Inductive wop :=
| HSet (k v : string)
| HDel (k : string)
| WriteHeader (status : Z)
| Write (data : string).

Definition StatusOK : Z := 200.
Definition StatusBadRequest : Z := 400.
Definition StatusForbidden : Z := 403.
Definition StatusNotFound : Z := 404.
Definition StatusInternalServerError : Z := 500.

Definition StatusText (code : Z) : string :=
  if (code =? 200)%Z then "OK"
  else if (code =? 400)%Z then "Bad Request"
  else if (code =? 403)%Z then "Forbidden"
  else if (code =? 404)%Z then "Not Found"
  else if (code =? 500)%Z then "Internal Server Error"
  else "".

Definition newline : string := String (char_of 10) "".

(** [http.Error] and [http.NotFound] *)
Definition http_Error (msg : string) (code : Z) : list wop :=
  [HDel "Content-Length"; HSet "Content-Type" "text/plain; charset=utf-8";
   HSet "X-Content-Type-Options" "nosniff"; WriteHeader code; Write (msg +:+ newline)].
Definition http_NotFound : list wop := http_Error "404 page not found" StatusNotFound.

(** The server's writer: the live header map; once the header is sent, the status
    and the headers sent; the bytes of the body. *)
Record writer := MkWriter {
  live : header;
  sent : option (Z * header);
  written : string
}.

Definition send_header (status : Z) (w : writer) : writer :=
  match sent w with
  | Some _ => w                                   (* superfluous WriteHeader *)
  | None => MkWriter (live w) (Some (status, live w)) (written w)
  end.

Definition perform (w : writer) (op : wop) : writer :=
  match op with
  | HSet k v => MkWriter (header_Set k v (live w)) (sent w) (written w)
  | HDel k => MkWriter (header_Del k (live w)) (sent w) (written w)
  | WriteHeader status => send_header status w
  | Write data => let w := send_header StatusOK w in MkWriter (live w) (sent w) (written w +:+ data)
  end.

Definition perform_all (ops : list wop) (w : writer) : writer := fold_left perform ops w.

Record response := MkResponse { resp_status : Z; resp_header : header; resp_body : string }.

(** What the server sends when the handler returns. *)
Definition respond (ops : list wop) : response :=
  let w := send_header StatusOK (perform_all ops (MkWriter ∅ None "")) in
  match sent w with
  | Some (status, h) => MkResponse status h (written w)
  | None => MkResponse StatusOK (live w) (written w)
  end.

(** A handler on states [W]. *)
Definition http_Handler (W : Type) : Type := request -> W -> W * list wop.

(** ** Facts about call lists *)

Lemma perform_all_app a b w : perform_all (a ++ b) w = perform_all b (perform_all a w).
Proof. apply fold_left_app. Qed.

Lemma send_header_sent status w : sent w <> None -> send_header status w = w.
Proof. unfold send_header. by destruct (sent w). Qed.

Lemma send_header_is_sent status w : sent (send_header status w) <> None.
Proof. unfold send_header. destruct (sent w) eqn:E; cbn; congruence. Qed.

(** Once the header is sent, status and headers are fixed. *)
Lemma perform_sent w op x : sent w = Some x -> sent (perform w op) = Some x.
Proof. intros H. destruct op; cbn; unfold send_header; by rewrite ?H. Qed.

Lemma perform_all_sent ops w x : sent w = Some x -> sent (perform_all ops w) = Some x.
Proof.
  unfold perform_all. revert w. induction ops as [|op ops IH]; intros w H; [done|].
  by apply IH, perform_sent.
Qed.

(** The body is the concatenation of the writes. *)
Definition body_of (ops : list wop) : string :=
  concat_strings (omap (fun op => match op with Write d => Some d | _ => None end) ops).

Lemma written_send status w : written (send_header status w) = written w.
Proof. unfold send_header. by destruct (sent w). Qed.

Lemma perform_all_written ops w : written (perform_all ops w) = written w +:+ body_of ops.
Proof.
  unfold perform_all. revert w. induction ops as [|op ops IH]; intros w; cbn [fold_left].
  - by rewrite string_app_nil_r.
  - rewrite IH. destruct op; cbn; rewrite ?written_send; [done..|].
    unfold body_of. cbn. by rewrite string_app_assoc.
Qed.

Lemma respond_body ops : resp_body (respond ops) = body_of ops.
Proof.
  unfold respond. set (w := perform_all ops _). assert (written w = body_of ops) as Hw.
  { subst w. rewrite perform_all_written. cbn. apply string_app_nil_l. }
  pose proof (written_send StatusOK w) as Hs. destruct (sent (send_header StatusOK w)) as [[s h]|]; cbn; congruence.
Qed.

(** The status is the first one written; a write comes with [200 OK]. *)
Definition first_status (ops : list wop) : option Z :=
  head (omap (fun op => match op with WriteHeader s => Some s | Write _ => Some StatusOK | _ => None end) ops).

Lemma perform_all_status ops w :
  sent w = None -> fst <$> sent (perform_all ops w) = first_status ops.
Proof.
  unfold perform_all. revert w. induction ops as [|op ops IH]; intros w Hw; cbn [fold_left]; [by rewrite Hw|].
  destruct op as [k v|k|s|d]; cbn [perform].
  - by apply IH.
  - by apply IH.
  - unfold send_header. rewrite Hw. fold (perform_all ops (MkWriter (live w) (Some (s, live w)) (written w))).
    by rewrite (perform_all_sent ops _ (s, live w)).
  - unfold send_header. rewrite Hw. cbn.
    fold (perform_all ops (MkWriter (live w) (Some (StatusOK, live w)) (written w +:+ d))).
    by rewrite (perform_all_sent ops _ (StatusOK, live w)).
Qed.

Lemma respond_status ops : resp_status (respond ops) = default StatusOK (first_status ops).
Proof.
  rewrite <- (perform_all_status ops (MkWriter ∅ None "")) by done. unfold respond.
  set (w := perform_all ops _). unfold send_header. destruct (sent w) as [[s h]|] eqn:E; cbn; by rewrite ?E.
Qed.
