(* ===== verification/AuditTrail.v ===== *)
(** * internal/audit: the audit publisher and its observers

    [Publisher] hands each event to every observer; a file observer appends it as
    a JSON line, an HTTP observer posts it.  Files, the network and the log are
    the state; scripts say what happens to the next writes and posts (they all
    succeed when used up). *)

From S2P Require Import Prelude Errors GoInt GoStrings GoFloat Model GoJson FileStore Http.

Record Event := MkEvent { TS : Z; Metrics_ : list string; IPAddress : string }.

(** What happens to a POST: the client fails, or a response comes back. *)
Inductive post_reply :=
| PostErr (e : error)
| PostStatus (code : Z).

Module AuditTrail.

Record world := MkWorld {
  files : gmap string string;           (** by path *)
  file_io : list io_reply;
  posts : list (string * string);       (** the requests given to the client: URL and body *)
  net : list post_reply;
  closed : list string;                 (** the files closed *)
  logged : list error
}.

Definition log (e : error) (w : world) : world :=
  MkWorld (files w) (file_io w) (posts w) (net w) (closed w) (logged w ++ [e]).

(** [json.Marshal(e)]: no field can fail to encode. *)
Definition event_json (e : Event) : json :=
  JObj [("ts", JNum (FormatInt (TS e))); ("metrics", JArr (map JStr (Metrics_ e)));
        ("ip_address", JStr (IPAddress e))].
Definition Marshal_event (e : Event) : string := print_json compact 0 (event_json e).

Section Observers.
Context `{UnicodeTables, URLs}.

(** [f.Write] on a file opened for appending. *)
Definition append_file (path data : string) (w : world) : world * option error :=
  let put k w := MkWorld (<[path := default "" (files w !! path) +:+ str_take k data]> (files w))
                   (file_io w) (posts w) (net w) (closed w) (logged w) in
  if bool_decide (path ∈ closed w) then (w, Some (Errorf ("write " +:+ path +:+ ": ") (ErrorText "file already closed")))
  else
  match file_io w with
  | [] => (put (String.length data) w, None)
  | r :: rs =>
      let w := MkWorld (files w) rs (posts w) (net w) (closed w) (logged w) in
      match r with
      | IoOk => (put (String.length data) w, None)
      | IoErr e => (w, Some e)
      | IoPartial k e => (put k w, Some e)
      end
  end.

(** [FileObserver.Receive] *)
Definition file_Receive (path : string) (e : Event) (w : world) : world * option error :=
  let data := Marshal_event e in
  match append_file path (data +:+ String (char_of 10) "") w with
  | (w, Some err) => (w, Some (Errorf ("audit: write " +:+ Quote path +:+ ": ") err))
  | (w, None) => (w, None)
  end.

(** [FileObserver.Close] *)
Definition file_Close (path : string) (w : world) : world * option error :=
  (MkWorld (files w) (file_io w) (posts w) (net w) (closed w ++ [path]) (logged w), None).

(** [HTTPObserver.Receive]: a URL that does not parse makes no request. *)
Definition http_Receive (url : string) (e : Event) (w : world) : world * option error :=
  let data := Marshal_event e in
  match url_RequestURI url with
  | Err err => (w, Some (Errorf "audit: build request: " err))
  | Ok _ =>
      let '(r, net) := match net w with [] => (PostStatus 200, []) | r :: rs => (r, rs) end in
      let w := MkWorld (files w) (file_io w) (posts w ++ [(url, data)]) net (closed w) (logged w) in
      match r with
      | PostErr err => (w, Some (Errorf ("audit: post " +:+ Quote url +:+ ": ") err))
      | PostStatus code =>
          if ((code <? 200) || (300 <=? code))%Z then
            (w, Some (ErrorText ("audit: unexpected status " +:+ FormatInt code +:+ " from " +:+ Quote url)))
          else (w, None)
      end
  end.

(** An [Observer] is one of the two kinds; only the file observer is an
    [io.Closer]. *)
Inductive Observer :=
| FileObserver (path : string)
| HTTPObserver (url : string).

#[export] Instance Observer_eq_dec : EqDecision Observer.
Proof. solve_decision. Defined.

Definition Receive (o : Observer) : Event -> world -> world * option error :=
  match o with FileObserver path => file_Receive path | HTTPObserver url => http_Receive url end.

Record Publisher := NewPublisher { logger : bool; observers : list Observer }.

(** The loop of [Notify] over the observers. *)
Fixpoint notify_all (lg : bool) (os : list Observer) (e : Event) (w : world) : world :=
  match os with
  | [] => w
  | o :: os =>
      let '(w, err) := Receive o e w in
      notify_all lg os e (match err with Some err => if lg then log err w else w | None => w end)
  end.

Definition Notify (p : Publisher) (e : Event) (w : world) : world := notify_all (logger p) (observers p) e w.

Fixpoint close_all (os : list Observer) (firstErr : option error) (w : world) : world * option error :=
  match os with
  | [] => (w, firstErr)
  | FileObserver path :: os =>
      let '(w, err) := file_Close path w in
      close_all os (match firstErr with None => err | Some _ => firstErr end) w
  | HTTPObserver _ :: os => close_all os firstErr w
  end.

Definition Close (p : Publisher) (w : world) : world * option error := close_all (observers p) None w.

(** [buildAuditPublisher] of the server: the file first, then the URL; nil when
    neither is configured.  [opened] is what opening the audit file answers. *)
Definition buildAuditPublisher (AuditFile AuditURL : string) (opened : option error) : res (option Publisher) :=
  file ← (if bool_decide (AuditFile = "") then Ok []
          else match opened with
               | Some err => Err (Errorf ("audit: open " +:+ Quote AuditFile +:+ ": ") err)
               | None => Ok [FileObserver AuditFile]
               end);
  let os := file ++ (if bool_decide (AuditURL = "") then [] else [HTTPObserver AuditURL]) in
  Ok (match os with [] => None | _ => Some (NewPublisher true os) end).

(** ** Properties *)

Definition line (e : Event) : string := Marshal_event e +:+ String (char_of 10) "".

(** The URL an observer posts to, if it parses; those of a publisher; and how often a
    publisher appends to a file. *)
Definition posts_to (o : Observer) : option string :=
  match o with
  | HTTPObserver url => match url_RequestURI url with Ok _ => Some url | Err _ => None end
  | FileObserver _ => None
  end.
Definition urls (p : Publisher) : list string := omap posts_to (observers p).
Definition appends (path : string) (p : Publisher) : nat :=
  length (filter (fun o => o = FileObserver path) (observers p)).

Lemma posts_append path data w : posts (append_file path data w).1 = posts w.
Proof. unfold append_file. case_bool_decide; [done|]. by destruct (file_io w) as [|[] ?]. Qed.

Lemma posts_Receive o e w :
  posts (Receive o e w).1 = posts w ++ map (fun url => (url, Marshal_event e)) (option_list (posts_to o)).
Proof.
  destruct o as [path|url]; cbn [Receive posts_to].
  - unfold file_Receive. pose proof (posts_append path (Marshal_event e +:+ String (char_of 10) "") w) as Hp.
    destruct (append_file _ _ _) as [w' [err|]]; cbn in *; by rewrite Hp, app_nil_r.
  - unfold http_Receive. destruct (url_RequestURI url); [|by rewrite app_nil_r].
    destruct (net w) as [|[err|code] rs]; [done|done|]. by destruct (_ || _).
Qed.

Lemma posts_notify lg os e w :
  posts (notify_all lg os e w) = posts w ++ map (fun url => (url, Marshal_event e)) (omap posts_to os).
Proof.
  revert w. induction os as [|o os IH]; intros w; cbn [notify_all]; [by rewrite app_nil_r|].
  pose proof (posts_Receive o e w) as Ho. destruct (Receive o e w) as [w1 err]. cbn [fst] in Ho.
  rewrite IH. replace (posts (match err with Some err => if lg then log err w1 else w1 | None => w1 end))
    with (posts w1) by (by destruct err, lg).
  rewrite Ho. cbn. destruct (posts_to o); cbn; by rewrite <- ?app_assoc, ?app_nil_r.
Qed.

Lemma closed_append path data w : closed (append_file path data w).1 = closed w.
Proof. unfold append_file. case_bool_decide; [done|]. by destruct (file_io w) as [|[] ?]. Qed.

Lemma closed_Receive o e w : closed (Receive o e w).1 = closed w.
Proof.
  destruct o as [path|url]; cbn [Receive].
  - unfold file_Receive. pose proof (closed_append path (Marshal_event e +:+ String (char_of 10) "") w) as Hp.
    by destruct (append_file _ _ _) as [w' [err|]].
  - unfold http_Receive. destruct (url_RequestURI url); [|done].
    destruct (net w) as [|[err|code] rs]; [done|done|]. by destruct (_ || _).
Qed.

(** One observer and one file. *)
Lemma file_Receive_ok o path e w :
  file_io w = [] ->
  file_io (Receive o e w).1 = [] /\
  default "" (files (Receive o e w).1 !! path)
  = default "" (files w !! path) +:+ (if bool_decide (o = FileObserver path /\ path ∉ closed w) then line e else "").
Proof.
  intros Hio. destruct o as [p|url]; cbn [Receive].
  - unfold file_Receive, append_file. case_bool_decide as Hcl.
    { rewrite bool_decide_false, string_app_nil_r by (by intros [[= <-] ?]). done. }
    rewrite Hio, str_take_all. cbn [fst file_io files]. split; [done|].
    destruct (decide (p = path)) as [->|Hp].
    + rewrite bool_decide_true, lookup_insert_eq by done. done.
    + rewrite bool_decide_false, lookup_insert_ne, string_app_nil_r by (congruence || by intros [[= ?] ?]). done.
  - rewrite bool_decide_false, string_app_nil_r by (by intros [? ?]). unfold http_Receive.
    destruct (url_RequestURI url); [|done]. destruct (net w) as [|[err|code] rs]; [done|done|]. by destruct (_ || _).
Qed.

(** An error is logged, and stays in the log. *)
Lemma logged_Receive o e w : logged (Receive o e w).1 = logged w.
Proof.
  destruct o as [path|url]; cbn [Receive].
  - unfold file_Receive, append_file. case_bool_decide; [done|]. by destruct (file_io w) as [|[] ?].
  - unfold http_Receive. destruct (url_RequestURI url); [|done]. destruct (net w) as [|[err|code] rs]; [done|done|]. by destruct (_ || _).
Qed.

Lemma logged_notify lg os e w : exists errs, logged (notify_all lg os e w) = logged w ++ errs /\
  (lg = true -> forall url err, HTTPObserver url ∈ os -> url_RequestURI url = Err err -> Errorf "audit: build request: " err ∈ errs).
Proof.
  revert w. induction os as [|o os IH]; intros w; cbn [notify_all].
  { exists []. rewrite app_nil_r. split; [done|]. by intros _ url err ?%not_elem_of_nil. }
  pose proof (logged_Receive o e w) as Hl. destruct (Receive o e w) as [w1 err1] eqn:Hr. cbn [fst] in Hl.
  destruct (IH (match err1 with Some err => if lg then log err w1 else w1 | None => w1 end)) as (errs & He & Hin).
  exists ((match err1 with Some err => if lg then [err] else [] | None => [] end) ++ errs). split.
  - rewrite He, <- Hl, app_assoc. f_equal. by destruct err1, lg; cbn; rewrite ?app_nil_r.
  - intros Hlg url err Ho Hu. apply elem_of_app. apply elem_of_cons in Ho as [<-|Ho]; [left|right; by eapply Hin].
    cbn [Receive] in Hr. unfold http_Receive in Hr. rewrite Hu in Hr. injection Hr as <- <-. rewrite Hlg. by left.
Qed.

Lemma urls_spec p url : url ∈ urls p <-> HTTPObserver url ∈ observers p /\ exists uri, url_RequestURI url = Ok uri.
Proof.
  unfold urls. rewrite list_elem_of_omap. split.
  - intros ([path|u] & Ho & Hu); [done|]. cbn in Hu. destruct (url_RequestURI u) as [uri|] eqn:Hq; [|done].
    injection Hu as ->. split; [done|by exists uri].
  - intros [Ho [uri Hu]]. exists (HTTPObserver url). split; [done|]. cbn. by rewrite Hu.
Qed.

Lemma logged_run p es w : exists errs, logged (fold_left (fun w e => Notify p e w) es w) = logged w ++ errs.
Proof.
  revert w. induction es as [|e es IH]; intros w; cbn [fold_left]; [exists []; by rewrite app_nil_r|].
  destruct (IH (Notify p e w)) as [more ->]. destruct (logged_notify (logger p) (observers p) e w) as (errs & He & _).
  exists (errs ++ more). unfold Notify. by rewrite He, app_assoc.
Qed.

Lemma file_notify lg os path e w :
  file_io w = [] -> path ∉ closed w ->
  file_io (notify_all lg os e w) = [] /\ closed (notify_all lg os e w) = closed w /\
  default "" (files (notify_all lg os e w) !! path)
  = default "" (files w !! path) +:+ concat_strings (repeat (line e) (length (filter (fun o => o = FileObserver path) os))).
Proof.
  revert w. induction os as [|o os IH]; intros w Hio Hcl; cbn [notify_all]; [by rewrite string_app_nil_r|].
  destruct (file_Receive_ok o path e w Hio) as [Hio1 Hf]. pose proof (closed_Receive o e w) as Hc.
  destruct (Receive o e w) as [w1 err]. cbn [fst] in *.
  set (w2 := match err with Some err => if lg then log err w1 else w1 | None => w1 end).
  assert (file_io w2 = [] /\ files w2 = files w1 /\ closed w2 = closed w) as (Hio2 & Hf2 & Hc2) by (subst w2; by destruct err, lg).
  destruct (IH w2 Hio2) as (-> & -> & ->); [by rewrite Hc2|]. split_and!; [done..|]. rewrite Hf2, Hf, filter_cons, string_app_assoc. f_equal.
  case_bool_decide as Ho; case_decide; (done || tauto).
Qed.

(** Bytes other than a newline. *)
Fixpoint one_line (s : string) : bool :=
  match s with EmptyString => true | String c s => negb (char_code c =? 10)%Z && one_line s end.

Lemma one_line_app a b : one_line (a +:+ b) = one_line a && one_line b.
Proof. induction a as [|c a IH]; [done|]. rewrite string_app_cons. cbn. by rewrite IH, andb_assoc. Qed.

Lemma one_line_digits s : all_digits s = true -> one_line s = true.
Proof.
  induction s as [|c s IH]; [done|]. cbn. intros [Hc Hs]%andb_true_iff. rewrite (IH Hs).
  unfold is_digit in Hc. apply in_range_iff in Hc. rewrite (proj2 (Z.eqb_neq _ _)) by lia. done.
Qed.

Lemma one_line_int z : one_line (FormatInt z) = true.
Proof.
  unfold FormatInt. destruct (Z.ltb_spec z 0); [change (one_line (String "-"%char ?s)) with (one_line s)|];
    apply one_line_digits, FormatUint_digits; lia.
Qed.

Lemma one_line_high s : all_high s = true -> one_line s = true.
Proof.
  induction s as [|c s IH]; [done|]. cbn. intros [Hc%Z.leb_le Hs]%andb_true_iff. rewrite (IH Hs).
  rewrite (proj2 (Z.eqb_neq _ _)) by lia. done.
Qed.

(** No string puts a raw newline into the JSON text. *)
Lemma one_line_ascii c : (char_code c < 0x80)%Z -> one_line (print_chunk (char_code c, String c "")) = true.
Proof.
  intros Hc. pose proof (by_all_chars (fun c => implb (char_code c <? 0x80)%Z
    (one_line (print_chunk (char_code c, String c "")))) ltac:(by vm_compute) c) as H'.
  cbn beta in H'. by rewrite (proj2 (Z.ltb_lt _ _) Hc) in H'.
Qed.

Lemma one_line_chunk s :
  s <> "" -> one_line (print_chunk ((DecodeRune s).1, str_take (DecodeRune s).2 s)) = true.
Proof.
  intros Hs. destruct (decide (DecodeRune s = (RuneError, 1))) as [Hb|Hb].
  { unfold print_chunk. by rewrite bad_chunk_first, bool_decide_true. }
  destruct (Z.lt_ge_cases (DecodeRune s).1 0x80) as [Hlt|Hge].
  { destruct (DecodeRune_low s Hs Hlt) as (c & s' & -> & Hc & ->). by apply one_line_ascii. }
  unfold print_chunk. rewrite bad_chunk_first, bool_decide_false, (proj2 (Z.ltb_ge _ _)) by done.
  destruct ((_ =? 0x2028)%Z || (_ =? 0x2029)%Z) eqn:Hu; [|by apply one_line_high, DecodeRune_high_bytes].
  apply orb_true_iff in Hu as [->%Z.eqb_eq| ->%Z.eqb_eq]; by vm_compute.
Qed.

Lemma one_line_print_str s : one_line (print_str s) = true.
Proof.
  unfold print_str. change (one_line (String dquote ?x)) with (one_line x). rewrite one_line_app, andb_true_r.
  induction s as [|s Hs IH] using chunks_ind; [done|]. rewrite chunks_cons by done.
  cbn [fmap list_fmap concat_strings foldr]. rewrite one_line_app, one_line_chunk by done. exact IH.
Qed.

Lemma one_line_items d l : forallb one_line l = true -> one_line (print_items compact d l) = true.
Proof.
  induction l as [|x [|y l] IH]; [done|cbn; by rewrite andb_true_r|]. cbn [forallb]. intros [Hx Hl]%andb_true_iff.
  rewrite print_items_cons, !one_line_app, Hx. by apply IH.
Qed.

Lemma one_line_block d (a b : string) l :
  one_line a = true -> one_line b = true -> forallb one_line l = true -> one_line (print_block compact d a b l) = true.
Proof.
  intros Ha Hb Hl. unfold print_block. destruct l as [|x l]; rewrite !one_line_app, Ha, Hb; [done|].
  by rewrite one_line_items.
Qed.

Lemma one_line_event e : one_line (Marshal_event e) = true.
Proof.
  unfold Marshal_event, event_json. rewrite print_json_obj. apply one_line_block; [done..|].
  cbn [map forallb]. unfold print_member. cbn [fst snd]. rewrite !one_line_app, !one_line_print_str.
  cbn [print_json]. rewrite one_line_int, one_line_print_str. cbn [one_line after_colon compact andb].
  assert (one_line (print_block compact 1 "[" "]" (map (print_json compact 2) (map JStr (Metrics_ e)))) = true) as ->; [|done].
  apply one_line_block; [done..|]. induction (Metrics_ e) as [|x l IH]; [done|].
  cbn [map forallb print_json]. by rewrite one_line_print_str.
Qed.

(** What a reader of the file or the receiver of a POST makes of an event. *)
Lemma event_reads_back e rest :
  num_end rest = true -> scan_json (Marshal_event e +:+ rest) = Ok (sanitize_json (event_json e), rest).
Proof.
  intros Hr. apply scan_json_print; [apply compact_ws| |cbn|done].
  - cbn [event_json lits_ok foldr]. repeat split; try apply FormatInt_lit.
    cbn. induction (Metrics_ e); cbn; by repeat split.
  - assert (max_list (map depth (map JStr (Metrics_ e))) = 0) as Hd.
    { induction (Metrics_ e) as [|x l IH]; [done|]. cbn in *. by rewrite IH. }
    rewrite Hd. unfold maxNestingDepth. cbn. lia.
Qed.

(** C37. The audit trail is complete and readable.  [Notify] reaches every
    observer whatever happens at the others: every URL that parses gets one POST per event,
    for one that does not an error is logged instead, and while writes succeed every file that is open gets one line per event and file
    observer, in order, after what it held.  A line holds no raw newline, whatever
    bytes the metric names and the address hold, and reads back as the event. *)
Theorem audit_trail p es w path :
  let run es w := fold_left (fun w e => Notify p e w) es w in
  posts (run es w) = posts w ++ (es ≫= fun e => map (fun url => (url, Marshal_event e)) (urls p)) /\
  (forall url, url ∈ urls p <-> HTTPObserver url ∈ observers p /\ exists uri, url_RequestURI url = Ok uri) /\
  (logger p = true -> es <> [] -> forall url err, HTTPObserver url ∈ observers p -> url_RequestURI url = Err err ->
     Errorf "audit: build request: " err ∈ logged (run es w)) /\
  (file_io w = [] -> path ∉ closed w ->
     default "" (files (run es w) !! path)
     = default "" (files w !! path) +:+ concat_strings (es ≫= fun e => repeat (line e) (appends path p))) /\
  (forall e, one_line (Marshal_event e) = true /\
     scan_json (line e) = Ok (sanitize_json (event_json e), String (char_of 10) "")).
Proof.
  intros run. split_and!.
  - subst run. revert w. induction es as [|e es IH]; intros w; cbn; [by rewrite app_nil_r|].
    rewrite IH. unfold Notify. by rewrite posts_notify, <- app_assoc.
  - apply urls_spec.
  - intros Hl He url err Hin Hu. destruct es as [|e es]; [done|]. subst run. cbn [fold_left].
    destruct (logged_notify (logger p) (observers p) e w) as (errs & Hlog & Herr).
    destruct (logged_run p es (Notify p e w)) as [more ->]. unfold Notify. rewrite Hlog.
    apply elem_of_app. left. apply elem_of_app. right. by eapply Herr.
  - subst run. revert w. induction es as [|e es IH]; intros w Hio Hcl; cbn [fold_left mbind list_bind concat_strings foldr].
    + by rewrite string_app_nil_r.
    + destruct (file_notify (logger p) (observers p) path e w Hio Hcl) as (Hio' & Hc' & Hf).
      unfold Notify at 2. rewrite IH by (done || unfold Notify; by rewrite Hc'). rewrite Hf, concat_strings_app, string_app_assoc. done.
  - intros e. split; [apply one_line_event|]. exact (event_reads_back e (String (char_of 10) "") eq_refl).
Qed.
End Observers.

#[local] Instance ascii_only : UnicodeTables := {| IsPrint_table _ := false |}.

(** URLs of this example. *)
#[local] Instance some_urls : URLs := {| url_RequestURI u :=
  match u with String ":" _ => Err (ErrorText "missing protocol scheme") | _ => Ok "/" end |}.

Lemma audit_trail_witness :
  let p := NewPublisher true [FileObserver "/var/log/audit"; HTTPObserver "http://audit/"; HTTPObserver "://"] in
  let e := MkEvent 1700000000 ["Alloc"; "x" +:+ String (char_of 10) "y"] "10.0.0.1" in
  let w0 := MkWorld ∅ [] [] [PostErr (ErrorText "refused"); PostStatus 500] [] [] in
  let w := Notify p e (Notify p e w0) in
  default "" (files w !! "/var/log/audit") = line e +:+ line e /\ map fst (posts w) = ["http://audit/"; "http://audit/"] /\
  Errorf "audit: build request: " (ErrorText "missing protocol scheme") ∈ logged w /\ length (logged w) = 4.
Proof.
  intros p e w0 w. destruct (audit_trail p [e; e] w0 "/var/log/audit") as (Hp & _ & Hl & Hf & _).
  split_and!; [|exact (f_equal (map fst) Hp)| |by vm_compute].
  - etrans; [exact (Hf eq_refl (not_elem_of_nil _))|]. by vm_compute.
  - apply (Hl eq_refl ltac:(done) "://"); [|done]. right. right. by left.
Defined.
End AuditTrail.
