(* ===== verification/Dashboard.v ===== *)
(** * internal/handler: the HTML dashboard

    [htmlTemplate] cut at its actions, and what [html/template] renders of it.  In
    the literals below a tilde stands for a double quote; the template holds no
    tilde. *)

From S2P Require Import Prelude Errors GoInt GoStrings Model.

Record MetricView := MkView { Type_ : string; Name : string; Value_ : string }.

#[export] Instance MetricView_eq_dec : EqDecision MetricView.
Proof. solve_decision. Defined.

Fixpoint quoted (s : string) : string :=
  match s with
  | EmptyString => ""
  | String c s => String (if bool_decide (c = "~"%char) then dquote else c) (quoted s)
  end.

Definition t_head : string := Eval vm_compute in quoted "
<!DOCTYPE html>
<html lang=~en~>
<head>
    <meta charset=~UTF-8~>
    <meta name=~viewport~ content=~width=device-width, initial-scale=1.0~>
    <title>Metrics Dashboard</title>
    <style>
        * { box-sizing: border-box; }
        body {
            font-family: -apple-system, BlinkMacSystemFont, 'Segoe UI', Roboto, Oxygen, Ubuntu, Cantarell, sans-serif;
            background: linear-gradient(135deg, #667eea 0%, #764ba2 100%);
            margin: 0;
            padding: 40px 20px;
            min-height: 100vh;
        }
        .container {
            max-width: 1000px;
            margin: 0 auto;
            background: white;
            border-radius: 16px;
            box-shadow: 0 20px 60px rgba(0,0,0,0.3);
            overflow: hidden;
        }
        .header {
            background: linear-gradient(135deg, #667eea 0%, #764ba2 100%);
            color: white;
            padding: 40px;
            text-align: center;
        }
        .header h1 { margin: 0 0 10px 0; font-size: 2.5em; font-weight: 300; letter-spacing: 1px; }
        .subtitle { opacity: 0.9; font-size: 1.1em; }
        .stats { display: flex; justify-content: center; gap: 20px; margin-top: 25px; flex-wrap: wrap; }
        .stat-card {
            background: rgba(255,255,255,0.15);
            backdrop-filter: blur(10px);
            padding: 12px 24px;
            border-radius: 25px;
            font-size: 0.9em;
            border: 1px solid rgba(255,255,255,0.2);
        }
        .content { padding: 0; }
        table { width: 100%; border-collapse: collapse; }
        thead { background: #f8f9fa; position: sticky; top: 0; z-index: 10; }
        th {
            padding: 20px; text-align: left; font-weight: 600; color: #495057;
            border-bottom: 2px solid #dee2e6; text-transform: uppercase; font-size: 0.8em; letter-spacing: 1px;
        }
        td { padding: 16px 20px; border-bottom: 1px solid #e9ecef; vertical-align: middle; }
        tr { transition: all 0.2s; }
        tr:hover { background-color: #f8f9fa; transform: scale(1.01); box-shadow: 0 2px 8px rgba(0,0,0,0.05); }
        .badge {
            display: inline-block; padding: 6px 14px; border-radius: 20px;
            font-size: 0.75em; font-weight: 700; text-transform: uppercase;
            letter-spacing: 0.5px; box-shadow: 0 2px 4px rgba(0,0,0,0.1);
        }
        .badge-gauge { background: linear-gradient(135deg, #667eea 0%, #764ba2 100%); color: white; }
        .badge-counter { background: linear-gradient(135deg, #f093fb 0%, #f5576c 100%); color: white; }
        .metric-name { font-weight: 600; color: #2d3748; font-size: 1.05em; }
        .metric-value {
            font-family: 'Courier New', Consolas, monospace; font-weight: 700;
            color: #1a202c; background: #edf2f7; padding: 6px 12px;
            border-radius: 6px; display: inline-block; font-size: 0.95em;
        }
        .empty-state { text-align: center; padding: 80px 40px; color: #718096; }
        .empty-state h3 { margin: 0 0 10px 0; color: #2d3748; font-size: 1.5em; }
    </style>
</head>
<body>
    <div class=~container~>
        <div class=~header~>
            <h1>📊 Metrics Dashboard</h1>
            <div class=~subtitle~>Real-time monitoring</div>
            <div class=~stats~>
                <div class=~stat-card~>Total: <strong>".

Definition t_stats : string := Eval vm_compute in quoted "</strong> metrics</div>
                <div class=~stat-card~>Gauge Metrics</div>
                <div class=~stat-card~>Counter Metrics</div>
            </div>
        </div>
        <div class=~content~>
            ".

Definition t_table : string := Eval vm_compute in quoted "
            <table>
                <thead>
                    <tr>
                        <th width=~120~>Type</th>
                        <th>Metric Name</th>
                        <th width=~200~>Value</th>
                    </tr>
                </thead>
                <tbody>
                    ".

Definition t_row : string := Eval vm_compute in quoted "
                    <tr>
                        <td>
                            ".

Definition t_gauge : string := Eval vm_compute in quoted "
                            <span class=~badge badge-gauge~>Gauge</span>
                            ".

Definition t_counter : string := Eval vm_compute in quoted "
                            <span class=~badge badge-counter~>Counter</span>
                            ".

Definition t_cell : string := Eval vm_compute in quoted "
                        </td>
                        <td class=~metric-name~>".

Definition t_name : string := Eval vm_compute in quoted "</td>
                        <td><span class=~metric-value~>".

Definition t_row_end : string := Eval vm_compute in quoted "</span></td>
                    </tr>
                    ".

Definition t_rows_end : string := Eval vm_compute in quoted "
                </tbody>
            </table>
            ".

Definition t_empty : string := Eval vm_compute in quoted "
            <div class=~empty-state~>
                <h3>No metrics available</h3>
                <p>Metrics will appear here once the agent sends data.</p>
            </div>
            ".

Definition t_foot : string := Eval vm_compute in quoted "
        </div>
    </div>
</body>
</html>
".

(** Escaping in HTML text: [html/template]'s replacement table. *)
Definition escape_char (c : Ascii.ascii) : string :=
  let z := char_code c in
  if (z =? 0)%Z then replacement
  else if (z =? 34)%Z then "&#34;"
  else if (z =? 38)%Z then "&amp;"
  else if (z =? 39)%Z then "&#39;"
  else if (z =? 43)%Z then "&#43;"
  else if (z =? 60)%Z then "&lt;"
  else if (z =? 62)%Z then "&gt;"
  else String c "".

Fixpoint html_escape (s : string) : string :=
  match s with EmptyString => "" | String c s => escape_char c +:+ html_escape s end.

(** One turn of [{{range .}}]. *)
Definition render_row (v : MetricView) : string :=
  t_row +:+ (if bool_decide (Type_ v = Gauge) then t_gauge else t_counter) +:+ t_cell
  +:+ html_escape (Name v) +:+ t_name +:+ html_escape (Value_ v) +:+ t_row_end.

(** [listTemplate.Execute] *)
Definition render (data : list MetricView) : string :=
  t_head +:+ FormatInt (Z.of_nat (length data)) +:+ t_stats
  +:+ (match data with [] => t_empty | _ => t_table +:+ concat_strings (map render_row data) +:+ t_rows_end end)
  +:+ t_foot.
