(* ===== verification/Handler.v ===== *)
(** * internal/handler: the HTTP endpoints

    Each endpoint is a function of the request and the process's state that
    returns the calls it makes on its response writer ([Http]).  Goroutines it
    starts are recorded in the state. *)

From S2P Require Import Prelude Errors GoInt GoStrings GoSort GoFloat GoFloatFacts Model GoJson Storage Service FileStore Http AuditTrail Dashboard.

(** Log entries: of failed requests, and those of the logging and the trusted-subnet
    middleware ([Middleware]). *)
Inductive log_line :=
| ErrorLine (msg : string) (err : error)
| AccessLine (uri method : string) (status size : Z)
| RejectLine (x_real_ip trusted_subnet : string).

(** The state of the process a handler can touch: the storage, the audit
    notifications started in goroutines of their own, the log, the clock. *)
Record world (S : Type) := MkWorld {
  st : S;
  spawned : list (AuditTrail.Publisher * Event);
  logs : list log_line;
  clock : Z
}.
Arguments MkWorld {S} _ _ _ _.
Arguments st {S} _.
Arguments spawned {S} _.
Arguments logs {S} _.
Arguments clock {S} _.

Definition set_st {S} (s : S) (w : world S) : world S := MkWorld s (spawned w) (logs w) (clock w).
Definition spawn {S} (p : AuditTrail.Publisher) (e : Event) (w : world S) : world S :=
  MkWorld (st w) (spawned w ++ [(p, e)]) (logs w) (clock w).
Definition log {S} (l : log_line) (w : world S) : world S :=
  MkWorld (st w) (spawned w) (logs w ++ [l]) (clock w).
Definition log_error {S} (msg : string) (err : error) (w : world S) : world S := log (ErrorLine msg err) w.

(** ** The client's address *)

Fixpoint LastIndexByte (s : string) (c : Ascii.ascii) : option nat :=
  match s with
  | EmptyString => None
  | String c' s =>
      match LastIndexByte s c with
      | Some i => Some (S i)
      | None => if bool_decide (c' = c) then Some O else None
      end
  end.

(** [net.SplitHostPort]: the host, or [None] for an error. *)
Definition SplitHostPort (hostport : string) : option string :=
  i ← LastIndexByte hostport ":"%char;
  match hostport with
  | String "["%char _ =>
      e ← IndexByte hostport "]"%char;
      if bool_decide (e + 1 = i) then
        let host := str_drop 1 (str_take e hostport) in
        match IndexByte (str_drop 1 hostport) "["%char, IndexByte (str_drop (e + 1) hostport) "]"%char with
        | None, None => Some host
        | _, _ => None
        end
      else None
  | _ =>
      let host := str_take i hostport in
      match IndexByte host ":"%char, IndexByte hostport "["%char, IndexByte hostport "]"%char with
      | None, None, None => Some host
      | _, _, _ => None
      end
  end.

Definition clientIP (r : request) : string :=
  let ip := TrimSpace (header_Get "X-Real-IP" (Header r)) in
  if negb (bool_decide (ip = "")) then ip
  else
    let xff := header_Get "X-Forwarded-For" (Header r) in
    if negb (bool_decide (xff = "")) then
      match IndexByte xff ","%char with
      | Some i => TrimSpace (str_take i xff)
      | None => TrimSpace xff
      end
    else
      match SplitHostPort (RemoteAddr r) with
      | None => RemoteAddr r
      | Some host => host
      end.

Definition httpStatusForError (err : error) : Z :=
  if Is err sErrMetricNotFound then StatusNotFound
  else if Is err sErrUnknownType || Is err sErrMetricNameEmpty
       || Is err sErrValueRequired || Is err sErrDeltaRequired then StatusBadRequest
  else StatusBadRequest.

(** ** The dashboard's rows *)

(** The [less] of [sort.Slice]. *)
Definition view_less (a b : MetricView) : bool :=
  if negb (bool_decide (Type_ a = Type_ b)) then str_lt (Type_ a) (Type_ b) else str_lt (Name a) (Name b).

(** [sort.Slice] leaves the order of equal elements open; the views of one
    dashboard never are ([view_keys_NoDup]). *)
Definition sort_views (l : list MetricView) : list MetricView := sort view_less l.

(** The loop of [ListMetrics] over the entries of the map. *)
Definition view_of (e : string * string) : option MetricView :=
  let '(key, val) := e in
  i ← IndexByte key "/"%char; Some (MkView (str_take i key) (str_drop (i + 1) key) val).
Definition views (entries : list (string * string)) : list MetricView := omap view_of entries.

Module Handler.

Section Endpoints.
Context {S : Type} `{Storage S} `{UnicodeTables, PgErrorText, JsonErrorText, MapRange}.

Record t := NewMetricHandler {
  svc : MetricService.t S;
  pinger : option (S -> S * option error);
  publisher : option AuditTrail.Publisher
}.

(** Run a service call on the storage. *)
Definition on_storage {A} (f : S -> S * A) (w : world S) : world S * A :=
  let '(s, a) := f (st w) in (set_st s w, a).

Definition emitAudit (h : t) (r : request) (metrics : list string) (w : world S) : world S :=
  match publisher h with
  | None => w
  | Some p => spawn p (MkEvent (clock w) metrics (clientIP r)) w
  end.

Definition internalError (msg : string) (err : error) (w : world S) : world S * list wop :=
  (log_error msg err w, http_Error (StatusText StatusInternalServerError) StatusInternalServerError).

(** [http.Error(w, err.Error(), httpStatusForError(err))] *)
Definition error_reply (err : error) : list wop := http_Error (Error err) (httpStatusForError err).

Definition Ping (h : t) : http_Handler (world S) := fun r w =>
  match pinger h with
  | None => (w, http_Error "database not configured" StatusInternalServerError)
  | Some ping =>
      match on_storage ping w with
      | (w, Some err) => internalError "db ping failed" err w
      | (w, None) => (w, [WriteHeader StatusOK])
      end
  end.

Definition UpdateMetric (h : t) : http_Handler (world S) := fun r w =>
  let mType := URLParam r "type" in
  let name := URLParam r "name" in
  let value := URLParam r "value" in
  if bool_decide (name = "") then (w, http_NotFound)
  else
    match on_storage (MetricService.UpdateMetric (svc h) mType name value) w with
    | (w, Some err) => (w, error_reply err)
    | (w, None) => (emitAudit h r [name] w, [WriteHeader StatusOK])
    end.

Definition GetValue (h : t) : http_Handler (world S) := fun r w =>
  let mType := URLParam r "type" in
  let name := URLParam r "name" in
  if bool_decide (name = "") then (w, http_NotFound)
  else
    match on_storage (MetricService.GetValue (svc h) mType name) w with
    | (w, Err err) => (w, error_reply err)
    | (w, Ok val) => (w, [HSet "Content-Type" "text/plain"; WriteHeader StatusOK; Write val])
    end.

(** The JSON reply: the header is sent before the value is encoded. *)
Definition json_reply (m : Metrics) (w : world S) : world S * list wop :=
  let head := [HSet "Content-Type" "application/json"; WriteHeader StatusOK] in
  match Encode_metric m with
  | Err err => (log_error "failed to encode response" err w, head)
  | Ok txt => (w, head ++ [Write txt])
  end.

Definition UpdateMetricJSON (h : t) : http_Handler (world S) := fun r w =>
  match Decode_metric (Body r) with
  | Err err => (w, http_Error ("invalid json: " +:+ Error err) StatusBadRequest)
  | Ok m =>
      if bool_decide (ID m = "") then (w, http_Error "id is required" StatusBadRequest)
      else
        match on_storage (MetricService.UpdateMetricFromModel (svc h) m) w with
        | (w, Some err) => (w, error_reply err)
        | (w, None) =>
            match on_storage (MetricService.GetMetric (svc h) (MType m) (ID m)) w with
            | (w, Err err) => internalError "failed to get metric after update" err w
            | (w, Ok updated) => json_reply updated (emitAudit h r [ID m] w)
            end
        end
  end.

Definition GetValueJSON (h : t) : http_Handler (world S) := fun r w =>
  match Decode_metric (Body r) with
  | Err err => (w, http_Error ("invalid json: " +:+ Error err) StatusBadRequest)
  | Ok req =>
      if bool_decide (ID req = "") then (w, http_Error "id is required" StatusBadRequest)
      else
        match on_storage (MetricService.GetMetric (svc h) (MType req) (ID req)) w with
        | (w, Err err) => (w, error_reply err)
        | (w, Ok m) => json_reply m w
        end
  end.

Definition UpdateMetricsBatch (h : t) : http_Handler (world S) := fun r w =>
  match Decode_metrics (Body r) with
  | Err err => (w, http_Error ("invalid json: " +:+ Error err) StatusBadRequest)
  | Ok metrics =>
      if bool_decide (length metrics = 0) then (w, [WriteHeader StatusOK])
      else
        match on_storage (MetricService.UpdateBatch (svc h) metrics) w with
        | (w, Some err) => internalError "batch update failed" err w
        | (w, None) => (emitAudit h r (ID <$> metrics) w, [WriteHeader StatusOK])
        end
  end.

(** [ListMetrics], the map being visited in the order [entries]. *)
Definition list_page (entries : list (string * string)) : list wop :=
  [HSet "Content-Type" "text/html; charset=utf-8"; WriteHeader StatusOK;
   Write (render (sort_views (views entries)))].

Definition ListMetrics (h : t) : http_Handler (world S) := fun r w =>
  let '(w, metrics) := on_storage (MetricService.GetAllMetrics (svc h)) w in
  (w, list_page (range metrics)).

(** ** Routes *)

Inductive endpoint :=
| EListMetrics | EPing | EUpdateMetricJSON | EGetValueJSON | EUpdateMetricsBatch | EUpdateMetric | EGetValue.

Definition handle (h : t) (e : endpoint) : http_Handler (world S) :=
  match e with
  | EListMetrics => ListMetrics h
  | EPing => Ping h
  | EUpdateMetricJSON => UpdateMetricJSON h
  | EGetValueJSON => GetValueJSON h
  | EUpdateMetricsBatch => UpdateMetricsBatch h
  | EUpdateMetric => UpdateMetric h
  | EGetValue => GetValue h
  end.

Definition Routes : list (string * string * endpoint) :=
  [("GET", "/", EListMetrics); ("GET", "/ping", EPing);
   ("POST", "/update", EUpdateMetricJSON); ("POST", "/update/", EUpdateMetricJSON);
   ("POST", "/value", EGetValueJSON); ("POST", "/value/", EGetValueJSON);
   ("POST", "/updates/", EUpdateMetricsBatch);
   ("POST", "/update/{type}/{name}/{value}", EUpdateMetric);
   ("GET", "/value/{type}/{name}", EGetValue)].
End Endpoints.
Arguments t : clear implicits.
End Handler.

(** The router is third-party code: given the routes and a request it picks an
    endpoint and the path parameters, or answers by itself. *)
Class Chi := {
  chi_route {E} : list (string * string * E) -> string -> string -> option (E * (string -> string));
  chi_default : request -> list wop
}.

(** [Routes().ServeHTTP] *)
Definition serve {S} `{Storage S} `{UnicodeTables, PgErrorText, JsonErrorText, MapRange, Chi}
    (h : Handler.t S) : http_Handler (world S) := fun r w =>
  match chi_route Handler.Routes (Method r) (RequestURI r) with
  | Some (e, params) => Handler.handle h e (with_params params r) w
  | None => (w, chi_default r)
  end.
