(* ===== verification/HandlerFacts.v ===== *)
(** * What the HTTP endpoints guarantee

    The dashboard's order, the client's address, and the endpoints against any
    storage that keeps the contract of [Service]. *)

From Stdlib Require Import Sorted.
From stdpp Require Import sorting.
From S2P Require Import Prelude Errors GoInt GoStrings GoSort GoFloat GoFloatFacts Model GoJson Storage Service FileStore Http AuditTrail Dashboard Handler.

(** ** Sorted views *)

Definition view_key (v : MetricView) : string * string := (Type_ v, Name v).

(** [a] may stand before [b]. *)
Definition view_le (a b : MetricView) : Prop := view_less b a = false.

Lemma view_less_asym a b : view_less a b = true -> view_less b a = false.
Proof.
  unfold view_less. destruct (decide (Type_ a = Type_ b)) as [Heq|Hne].
  - rewrite !bool_decide_true by done. cbn. intros Hab. destruct (str_lt (Name b) (Name a)) eqn:Hba; [|done].
    by rewrite <- (str_lt_irrefl (Name a)), (str_lt_trans _ _ _ Hab Hba).
  - rewrite !bool_decide_false by congruence. cbn. intros Hab. destruct (str_lt (Type_ b) (Type_ a)) eqn:Hba; [|done].
    by rewrite <- (str_lt_irrefl (Type_ a)), (str_lt_trans _ _ _ Hab Hba).
Qed.

Lemma view_le_antisym a b : view_le a b -> view_le b a -> view_key a = view_key b.
Proof.
  unfold view_le, view_less, view_key. destruct (decide (Type_ a = Type_ b)) as [Heq|Hne].
  - rewrite !bool_decide_true by done. cbn. intros H1 H2. by rewrite Heq, (str_lt_total (Name a) (Name b)).
  - rewrite !bool_decide_false by congruence. cbn. intros H1 H2. by destruct Hne; apply str_lt_total.
Qed.

Lemma view_le_trans a b c : view_le a b -> view_le b c -> view_le a c.
Proof.
  unfold view_le. intros Hab Hbc. apply not_true_is_false. intros Hca.
  destruct (view_less a b) eqn:Hab'; destruct (view_less b c) eqn:Hbc'.
  - assert (view_less a c = true) as Hac; [|by rewrite (view_less_asym _ _ Hac) in Hca].
    revert Hab' Hbc'. unfold view_less.
    destruct (decide (Type_ a = Type_ b)) as [E1|N1], (decide (Type_ b = Type_ c)) as [E2|N2].
    + rewrite !bool_decide_true by congruence. cbn. apply str_lt_trans.
    + rewrite (bool_decide_true (Type_ a = Type_ b)), !bool_decide_false by congruence. cbn. by rewrite E1.
    + rewrite (bool_decide_true (Type_ b = Type_ c)), !bool_decide_false by congruence. cbn. by rewrite E2.
    + rewrite (bool_decide_false (Type_ a = Type_ b)), (bool_decide_false (Type_ b = Type_ c)) by done. cbn.
      intros H1 H2. pose proof (str_lt_trans _ _ _ H1 H2) as H3. rewrite bool_decide_false; [done|].
      intros E. rewrite E, str_lt_irrefl in H3. done.
  - pose proof (view_le_antisym b c Hbc Hbc') as [= E1 E2].
    revert Hca Hab. unfold view_less. rewrite E1, E2. congruence.
  - pose proof (view_le_antisym a b Hab Hab') as [= E1 E2].
    revert Hca Hbc. unfold view_less. rewrite E1, E2. congruence.
  - pose proof (view_le_antisym a b Hab Hab') as [= E1 E2].
    revert Hca Hbc. unfold view_less. rewrite E1, E2. congruence.
Qed.

Lemma sort_views_perm l : sort_views l ≡ₚ l.
Proof. apply sort_perm. Qed.

Lemma sort_views_sorted l : StronglySorted view_le (sort_views l).
Proof. apply sort_sorted; [apply view_less_asym|intros a b c; apply view_le_trans]. Qed.

(** Views with different keys have one sorted order. *)
Lemma sorted_views_unique l1 l2 : NoDup (view_key <$> l1) -> l1 ≡ₚ l2 -> sort_views l1 = sort_views l2.
Proof.
  intros Hnd Hp. apply sort_unique; [apply view_less_asym|intros a b c; apply view_le_trans| | |apply sort_views_sorted].
  - intros a b Ha Hb Hab Hba. pose proof (view_le_antisym a b Hab Hba) as Hk.
    apply list_elem_of_lookup in Ha as [i Hi]. apply list_elem_of_lookup in Hb as [j Hj].
    assert (i = j) as ->; [|by simplify_eq].
    eapply NoDup_lookup; [exact Hnd| |]; rewrite list_lookup_fmap, ?Hi, ?Hj; cbn; by rewrite ?Hk.
  - by rewrite sort_views_perm.
Qed.

(** ** Replies *)

Definition status (ops : list wop) : Z := resp_status (respond ops).
Definition reply (ops : list wop) : string := resp_body (respond ops).

Lemma status_of ops s : first_status ops = Some s -> status ops = s.
Proof. intros H. unfold status. by rewrite respond_status, H. Qed.

Lemma status_error msg code : status (http_Error msg code) = code.
Proof. by apply status_of. Qed.

Lemma reply_error msg code : reply (http_Error msg code) = msg +:+ newline.
Proof. unfold reply. rewrite respond_body. unfold body_of. cbn. by rewrite string_app_nil_r. Qed.

Lemma error_status err :
  httpStatusForError err = if Is err sErrMetricNotFound then StatusNotFound else StatusBadRequest.
Proof. unfold httpStatusForError. destruct (Is err sErrMetricNotFound); [done|]. by destruct (_ || _). Qed.

Lemma error_status_bad err : httpStatusForError err <> StatusOK.
Proof. rewrite error_status. by destruct (Is _ _). Qed.

(** A value that does not parse is not a metric that is not found. *)
Lemma ParseFloat_found s e : ParseFloat s = Err e -> Is e sErrMetricNotFound = false.
Proof. unfold ParseFloat. repeat case_match; by intros [= <-]. Qed.

Lemma parse_uint_found s n e : parse_uint s n = Err e -> e = sErrSyntax \/ e = sErrRange.
Proof.
  revert n. induction s as [|c s IH]; intros n; cbn; [done|]. repeat case_match; intros; simplify_eq; eauto.
Qed.

Lemma ParseInt_found fn s e : ParseInt fn s = Err e -> Is e sErrMetricNotFound = false.
Proof.
  unfold ParseInt. destruct s as [|c s]; [by intros [= <-]|]. destruct (split_sign _) as [neg [|d ds]]; [by intros [= <-]|].
  destruct (parse_uint _ _) as [un|e'] eqn:Hu.
  - repeat case_match; by intros [= <-].
  - apply parse_uint_found in Hu as [-> | ->]; by intros [= <-].
Qed.

Lemma text_update_found mType name value e :
  MetricService.text_update mType name value = Err e -> Is e sErrMetricNotFound = false.
Proof.
  unfold MetricService.text_update. repeat case_bool_decide; [destruct (ParseFloat value) eqn:E|
    destruct (ParseInt "ParseInt" value) eqn:E|]; intros; simplify_eq/=; [| |done];
    eauto using ParseFloat_found, ParseInt_found.
Qed.

Lemma model_update_found x e :
  MetricService.model_update x = Err e -> Is e sErrMetricNotFound = false.
Proof. unfold MetricService.model_update. repeat case_match; intros; by simplify_eq. Qed.

(** What is decoded from JSON holds values of the fields' types. *)
Lemma set_field_valid `{JsonErrorText} f v m :
  valid_metric m = true -> valid_metric (set_field f v m).1 = true.
Proof.
  destruct m as [id ty d x h]. unfold valid_metric. cbn [Delta Value]. intros [Hd Hx]%andb_true_iff.
  destruct f; cbn [set_field].
  1,2,5: destruct (decode_string _ _); cbn; by rewrite Hd, Hx.
  - unfold decode_ptr. destruct v; cbn [Delta Value fst]; rewrite ?Hx, ?andb_true_r; try by destruct d.
    destruct (ParseInt _ _) eqn:E; cbn; rewrite ?Hx, ?andb_true_r; [by eapply ParseInt_range|by destruct d].
  - unfold decode_ptr. destruct v; cbn [Delta Value fst]; rewrite ?Hd; try by destruct x.
    destruct (ParseFloat _) eqn:E; cbn; rewrite ?Hd; [by eapply ParseFloat_valid|by destruct x].
Qed.

Lemma decode_members_valid `{JsonErrorText} l m saved :
  valid_metric m = true -> valid_metric (decode_members l m saved).1 = true.
Proof.
  revert m saved. induction l as [|[k v] l IH]; intros m saved Hm; cbn; [done|].
  destruct (find_field k) as [f|]; [|by apply IH].
  pose proof (set_field_valid f v m Hm). destruct (set_field f v m). by apply IH.
Qed.

Lemma decode_metric_valid `{JsonErrorText} v : valid_metric (decode_metric v).1 = true.
Proof. destruct v; cbn; try done. by apply decode_members_valid. Qed.

Lemma decode_elements_valid `{JsonErrorText} l saved :
  Forall (fun x => valid_metric x = true) (decode_elements l saved).1.
Proof.
  revert saved. induction l as [|v l IH]; intros saved; cbn; [constructor|].
  pose proof (decode_metric_valid v). destruct (decode_metric v) as [m e]. specialize (IH (save saved e)).
  destruct (decode_elements _ _). by constructor.
Qed.

Lemma Decode_metric_valid `{JsonErrorText} b x : Decode_metric b = Ok x -> valid_metric x = true.
Proof.
  intros (v & _ & Hx)%bind_Ok. pose proof (decode_metric_valid v).
  destruct (decode_metric v) as [y [e|]]; by simplify_eq/=.
Qed.

Lemma Decode_metrics_valid `{JsonErrorText} b ms :
  Decode_metrics b = Ok ms -> Forall (fun x => valid_metric x = true) ms.
Proof.
  intros (v & _ & Hx)%bind_Ok. destruct v; simplify_eq/=; try constructor.
  pose proof (decode_elements_valid l None). destruct (decode_elements l None) as [y [e|]]; by simplify_eq/=.
Qed.

(** ** The update endpoints *)

Module HandlerFacts.

Section Endpoints.
Context {S : Type} `{StorageLaws S} `{UnicodeTables, PgErrorText, JsonErrorText, MapRange}.

(** The audit event of a request that updated [names], if there is a
    publisher. *)
Definition audit_of (h : Handler.t S) (r : request) (names : list string) (w : world S)
    : list (AuditTrail.Publisher * Event) :=
  match Handler.publisher h with
  | None => []
  | Some p => [(p, MkEvent (clock w) names (clientIP r))]
  end.

Lemma emitAudit_spec h r names w :
  st (Handler.emitAudit h r names w) = st w /\
  spawned (Handler.emitAudit h r names w) = spawned w ++ audit_of h r names w.
Proof. unfold Handler.emitAudit, audit_of. destruct (Handler.publisher h); cbn; by rewrite ?app_nil_r. Qed.

(** The request was refused: nothing happened. *)
Definition refused (w w' : world S) (ops : list wop) : Prop := w' = w /\ status ops = StatusBadRequest.

(** The update [m] to [m'] was applied, followed by the service's callback, and
    audited once; or it was not applied and not audited. *)
Definition applied (h : Handler.t S) (r : request) (names : list string) (m m' : MemStorage.t) (w w' : world S) : Prop :=
  (exists s, holds s m' /\ st w' = MetricService.notifyUpdate (Handler.svc h) s) /\
  spawned w' = spawned w ++ audit_of h r names w.
Definition not_applied (m : MemStorage.t) (w w' : world S) : Prop := holds (st w') m /\ spawned w' = spawned w.

Lemma applied_once h r names m m' w s' e :
  MetricService.all_or_nothing (Handler.svc h) m m' s' e ->
  match e with
  | None => applied h r names m m' w (Handler.emitAudit h r names (set_st s' w))
  | Some _ => not_applied m w (set_st s' w)
  end.
Proof.
  intros (s1 & Hs1 & ->). destruct e as [e|]; [done|].
  destruct (emitAudit_spec h r names (set_st (MetricService.notifyUpdate (Handler.svc h) s1) w)) as [Hst Hsp].
  split; [exists s1; by rewrite Hst|exact Hsp].
Qed.

Lemma UpdateMetric_refused h r w e mType name value :
  URLParam r "type" = mType -> URLParam r "name" = name -> URLParam r "value" = value -> name <> "" ->
  MetricService.UpdateMetric (Handler.svc h) mType name value (st w) = (st w, Some e) ->
  Is e sErrMetricNotFound = false ->
  let '(w', ops) := Handler.UpdateMetric h r w in refused w w' ops.
Proof.
  intros <- <- <- Hn Hu He. unfold Handler.UpdateMetric, Handler.on_storage.
  rewrite (bool_decide_false (_ = "")), Hu by done. split; [by destruct w|].
  unfold Handler.error_reply. by rewrite status_error, error_status, He.
Qed.

(** C15. [POST /update/{type}/{name}/{value}].  A request without a name is
    answered 404; one whose value does not parse or whose type is unknown, 400;
    both leave the process as it was.  Every other request is answered 200, the
    update applied to the storage exactly as the in-memory storage would, the
    service's callback run and one audit event started with the metric's name; or
    another status when the storage failed, and then nothing is applied and
    nothing audited. *)
Theorem UpdateMetric_applies_once h r w m :
  holds (st w) m ->
  let mType := URLParam r "type" in let name := URLParam r "name" in let value := URLParam r "value" in
  let '(w', ops) := Handler.UpdateMetric h r w in
  if bool_decide (name = "") then w' = w /\ status ops = StatusNotFound
  else match MetricService.text_update mType name value with
  | Err _ => refused w w' ops
  | Ok x =>
      (status ops = StatusOK /\ applied h r [name] m (MemStorage.apply_metric x m) w w') \/
      (status ops <> StatusOK /\ not_applied m w w')
  end.
Proof.
  intros Hm mType name value. unfold Handler.UpdateMetric. fold name mType value.
  case_bool_decide as Hn; [split; [done|apply status_error]|].
  pose proof (MetricService.UpdateMetric_outcome (Handler.svc h) (st w) m mType name value Hm) as Ho.
  unfold Handler.on_storage. destruct (MetricService.UpdateMetric _ _ _ _ _) as [s' e].
  destruct (MetricService.text_update mType name value) as [x|e'] eqn:Hx.
  - pose proof (applied_once h r [name] _ _ w _ _ Ho) as Ha. destruct e as [e|].
    + right. split; [|done]. unfold Handler.error_reply. rewrite status_error. apply error_status_bad.
    + left. split; [by apply status_of|done].
  - destruct Ho as (-> & e1 & -> & He). split; [by destruct w|].
    unfold Handler.error_reply. by rewrite status_error, error_status, He, (text_update_found _ _ _ _ Hx).
Qed.

(** A batch that decodes to at least one metric. *)
Lemma batch_applied h r w m ms :
  holds (st w) m -> Decode_metrics (Body r) = Ok ms -> ms <> [] ->
  let '(w', ops) := Handler.UpdateMetricsBatch h r w in
  (status ops = StatusOK /\ applied h r (ID <$> ms) m (MemStorage.apply_all ms m) w w') \/
  (status ops = StatusInternalServerError /\ reply ops = "Internal Server Error" +:+ newline /\
   not_applied m w w').
Proof.
  intros Hm Hd Hne. unfold Handler.UpdateMetricsBatch. rewrite Hd.
  pose proof (MetricService.UpdateBatch_outcome (Handler.svc h) ms (st w) m Hm (Decode_metrics_valid _ _ Hd)) as Ho.
  rewrite bool_decide_false in Ho by done. rewrite bool_decide_false by (by destruct ms).
  unfold Handler.on_storage. destruct (MetricService.UpdateBatch _ _ _) as [s' e].
  pose proof (applied_once h r (ID <$> ms) _ _ w _ _ Ho) as Ha. destruct e as [e|].
  - right. split_and!; [apply status_error|apply reply_error|done..].
  - left. split; [by apply status_of|done].
Qed.

(** C17. [POST /updates/].  A body that is not a JSON array of metrics is answered
    400 and an empty array 200, without an effect; every other batch is applied
    as a whole, the callback run and one audit event started with all its names,
    and answered 200; or it fails as a whole and is answered 500 with a text that
    does not depend on the error, without an effect and without an event. *)
Theorem UpdateMetricsBatch_applies_once h r w m :
  holds (st w) m ->
  let '(w', ops) := Handler.UpdateMetricsBatch h r w in
  match Decode_metrics (Body r) with
  | Err _ => refused w w' ops
  | Ok ms =>
      if bool_decide (ms = []) then w' = w /\ status ops = StatusOK
      else
        (status ops = StatusOK /\ applied h r (ID <$> ms) m (MemStorage.apply_all ms m) w w') \/
        (status ops = StatusInternalServerError /\ reply ops = "Internal Server Error" +:+ newline /\
         not_applied m w w')
  end.
Proof.
  intros Hm. pose proof (batch_applied h r w m) as Hb. unfold Handler.UpdateMetricsBatch in *.
  destruct (Decode_metrics (Body r)) as [ms|e]; [|split; [done|apply status_error]].
  destruct ms as [|x ms]; [split; [done|by apply status_of]|].
  rewrite (bool_decide_false (x :: ms = [])) by done. by apply Hb.
Qed.

(** ** The JSON endpoints *)

(** The reply holds the metric [x] as JSON, or nothing when it has no JSON
    form. *)
Definition replies_with (x : Metrics) (ops : list wop) : Prop :=
  status ops = StatusOK /\
  if encodable x then Decode_metric (NewReader (reply ops)) = Ok (sanitize_metric x) else reply ops = "".

Lemma json_reply_spec x (w : world S) :
  valid_metric x = true ->
  let '(w', ops) := Handler.json_reply x w in
  replies_with x ops /\ st w' = st w /\ spawned w' = spawned w.
Proof.
  intros Hx. unfold Handler.json_reply, Encode_metric, replies_with. rewrite <- metric_json_encodable.
  unfold Marshal_metric. destruct (metric_json x) as [j|e] eqn:Hj; cbn [fmap result_fmap is_ok].
  - split; [|done]. split; [by apply status_of|]. unfold reply. rewrite respond_body. unfold body_of. cbn.
    rewrite string_app_nil_r. apply read_metric; [done| |done]. unfold Marshal_metric. by rewrite Hj.
  - split; [|done]. split; [by apply status_of|]. unfold reply. by rewrite respond_body.
Qed.

Lemma lookup_valid mType name m x :
  MemStorage.valid m -> MetricService.lookup_spec mType name m = Ok x -> valid_metric x = true.
Proof.
  intros Hv. unfold MetricService.lookup_spec. repeat case_bool_decide; try done.
  destruct (MemStorage.GetMetric name mType m) as [y|] eqn:E; intros; simplify_eq.
  apply GetMetric_cases in E as [(_ & v & Hg & ->)|(_ & d & Hc & ->)]; unfold valid_metric; cbn.
  - by eapply valid_gauge.
  - rewrite andb_true_r. by eapply valid_counter.
Qed.

(** The update a body asks for is one of the metric the body names. *)
Lemma model_update_names x u :
  MetricService.model_update x = Ok u -> ID u = ID x /\ MType u = MType x.
Proof.
  unfold MetricService.model_update. repeat case_bool_decide; try done;
    [destruct (Value x)|destruct (Delta x)]; intros; by simplify_eq/=.
Qed.

Lemma model_update_found_after x u m :
  ID x <> "" -> MetricService.model_update x = Ok u ->
  is_ok (MetricService.lookup_spec (MType x) (ID x) (MemStorage.apply_metric u m)) = true.
Proof.
  intros Hid. unfold MetricService.model_update, MetricService.lookup_spec. rewrite (bool_decide_false (ID x = "")) by done.
  destruct (decide (MType x = Gauge)) as [Hg|Hg]; [|destruct (decide (MType x = Counter)) as [Hc|Hc]].
  - rewrite !bool_decide_true by auto. destruct (Value x) as [v|]; intros; simplify_eq.
    by rewrite Hg, MemStorage.GetMetric_gauge, MemStorage.gauge_after.
  - rewrite (bool_decide_false (MType x = Gauge)), !bool_decide_true by auto.
    destruct (Delta x) as [v|]; [intros [= <-]|done].
    by rewrite Hc, MemStorage.GetMetric_counter, MemStorage.counter_after.
  - by rewrite (bool_decide_false (MType x = Gauge)), (bool_decide_false (MType x = Counter)) by done.
Qed.

(** The outcome of an update from a body, with the readiness of the storage. *)
Lemma UpdateMetricFromModel_ready (h : Handler.t S) (s : S) m x u :
  holds s m -> valid_metric x = true -> MetricService.model_update x = Ok u ->
  let '(s', e) := MetricService.UpdateMetricFromModel (Handler.svc h) x s in
  exists s1 : S, (answers s -> answers s1) /\
    match e with
    | None => holds s1 (MemStorage.apply_metric u m) /\ s' = MetricService.notifyUpdate (Handler.svc h) s1
    | Some _ => holds s1 m /\ s' = s1
    end.
Proof.
  intros Hm [Hd Hv]%andb_true_iff. unfold MetricService.UpdateMetricFromModel, MetricService.model_update.
  destruct (bool_decide (MType x = Gauge)); [|destruct (bool_decide (MType x = Counter)); [|done]].
  - destruct (Value x) as [v|]; [intros [= <-]|done]. pose proof (UpdateGauge_law (ID x) v s m Hm Hv) as Hl.
    destruct (UpdateGauge (ID x) v s) as [s1 [e|]]; destruct Hl as [? Ha]; exists s1;
      (split; [intros Hs; by apply Ha|by split]).
  - destruct (Delta x) as [d|]; [intros [= <-]|done]. pose proof (UpdateCounter_law (ID x) d s m Hm Hd) as Hl.
    destruct (UpdateCounter (ID x) d s) as [s1 [e|]]; destruct Hl as [? Ha]; exists s1; by split.
Qed.

(** C16. [POST /update].  A body that is not a metric in JSON, has no id, no field
    of its type or an unknown type is answered 400 without an effect.  Every
    other update is applied, the callback run, one audit event started, and the
    reply is the metric as it is then stored; or it fails without an effect and
    is not answered 200; or it is applied and could not be read back, which is
    answered 500 and not audited, and happens only when the storage does not
    answer. *)
Theorem UpdateMetricJSON_applies_once h r w m :
  holds (st w) m -> MetricService.quiet (Handler.svc h) ->
  let '(w', ops) := Handler.UpdateMetricJSON h r w in
  match x ← Decode_metric (Body r);
        if bool_decide (ID x = "") then Err (Sentinel sErrMetricNameEmpty) else MetricService.model_update x with
  | Err _ => refused w w' ops
  | Ok u =>
      let m' := MemStorage.apply_metric u m in
      (exists x, MetricService.lookup_spec (MType u) (ID u) m' = Ok x /\ replies_with x ops /\
         holds (st w') m' /\ spawned w' = spawned w ++ audit_of h r [ID u] w) \/
      (status ops <> StatusOK /\ not_applied m w w') \/
      (status ops = StatusInternalServerError /\ ~ answers (st w) /\ holds (st w') m' /\ spawned w' = spawned w)
  end.
Proof.
  intros Hm Hq. unfold Handler.UpdateMetricJSON.
  destruct (Decode_metric (Body r)) as [x|e] eqn:Hd; cbn [mbind result_bind]; [|split; [done|apply status_error]].
  case_bool_decide as Hid; [split; [done|apply status_error]|].
  pose proof (Decode_metric_valid _ _ Hd) as Hx. unfold Handler.on_storage.
  destruct (MetricService.model_update x) as [u|e] eqn:Hu.
  2:{ pose proof (MetricService.UpdateMetricFromModel_outcome (Handler.svc h) (st w) m x Hm Hx) as Ho.
      destruct (MetricService.UpdateMetricFromModel _ _ _) as [s' e']. rewrite Hu in Ho. destruct Ho as [-> ->].
      split; [by destruct w|]. unfold Handler.error_reply.
      by rewrite status_error, error_status, (model_update_found _ _ Hu). }
  pose proof (UpdateMetricFromModel_ready h (st w) m x u Hm Hx Hu) as Ho.
  destruct (MetricService.UpdateMetricFromModel _ _ _) as [s' e']. destruct Ho as (s1 & Ha & Ho).
  destruct e' as [e'|]; destruct Ho as [Hh ->].
  { right; left. split; [|by split]. unfold Handler.error_reply. rewrite status_error. apply error_status_bad. }
  destruct (Hq s1 _ Hh) as [Hh' Ha']. set (s2 := MetricService.notifyUpdate _ _) in *.
  pose proof (MetricService.GetMetric_outcome (Handler.svc h) (MType x) (ID x) s2 _ Hh') as Hg.
  destruct (model_update_names x u Hu) as [-> ->].
  pose proof (model_update_found_after x u m Hid Hu) as Hf.
  cbn [st set_st]. destruct (MetricService.GetMetric _ _ _ _) as [s3 g]. destruct Hg as (Hh3 & Hg & Hga).
  destruct (MetricService.lookup_spec _ _ _) as [y|] eqn:Hy; [|done].
  destruct g as [y'|e].
  - destruct Hg as [[= ->]|?]; [|done].
    pose proof (json_reply_spec y (Handler.emitAudit h r [ID x] (set_st s3 (set_st s2 w)))) as Hr.
    destruct (Handler.json_reply _ _) as [w' ops]. left. exists y. split; [done|].
    destruct Hr as (Hr & Hst & Hsp); [eapply lookup_valid; [by eapply holds_valid|done]|].
    destruct (emitAudit_spec h r [ID x] (set_st s3 (set_st s2 w))) as [Hst' Hsp'].
    split; [done|]. rewrite Hst, Hst', Hsp, Hsp'. by split.
  - right; right. split_and!; [apply status_error| |done..]. intros Hs. by apply Ha, Ha', Hga in Hs.
Qed.

(** [POST /value].  A body that is not a metric in JSON, or names an empty id
    or an unknown type, is answered 400; a metric the storage does not hold, 404;
    one it holds, 200 with the metric as it is stored (with an empty body when its
    value is NaN or infinite); nothing changes and nothing is audited. *)
Theorem GetValueJSON_reads h r w m :
  holds (st w) m -> answers (st w) ->
  let '(w', ops) := Handler.GetValueJSON h r w in
  holds (st w') m /\ spawned w' = spawned w /\
  match Decode_metric (Body r) with
  | Err _ => status ops = StatusBadRequest
  | Ok x =>
      match MetricService.lookup_spec (MType x) (ID x) m with
      | Ok y => replies_with y ops
      | Err e => status ops = if bool_decide (e = Sentinel sErrMetricNotFound) then StatusNotFound else StatusBadRequest
      end
  end.
Proof.
  intros Hm Ha. unfold Handler.GetValueJSON.
  destruct (Decode_metric (Body r)) as [x|e] eqn:Hd.
  2:{ do 2 (split; [done|]). apply status_error. }
  case_bool_decide as Hid.
  { do 2 (split; [done|]). unfold MetricService.lookup_spec. rewrite bool_decide_true by done. apply status_error. }
  pose proof (MetricService.GetMetric_outcome (Handler.svc h) (MType x) (ID x) (st w) m Hm) as Hg.
  unfold Handler.on_storage. destruct (MetricService.GetMetric _ _ _ _) as [s' g].
  destruct Hg as (Hh & _ & Hg). specialize (Hg Ha) as ->.
  destruct (MetricService.lookup_spec _ _ _) as [y|e] eqn:Hy.
  - pose proof (json_reply_spec y (set_st s' w)) as Hr. destruct (Handler.json_reply _ _) as [w' ops].
    destruct Hr as (Hr & Hst & Hsp); [eapply lookup_valid; [by eapply holds_valid|done]|]. by rewrite Hst, Hsp.
  - do 2 (split; [done|]). unfold Handler.error_reply. rewrite status_error, error_status. revert Hy.
    unfold MetricService.lookup_spec. repeat case_match; intros; by simplify_eq.
Qed.

(** ** Text lookups *)

(** C18. A value posted as text is served back: after [POST
    /update/gauge/<name>/<value>] was answered 200, [GET /value/gauge/<name>] is
    answered 200 with a text of the same float64, NaN and infinities included;
    for a counter, with the decimal text of the old value plus the posted delta
    in 64-bit arithmetic.  A storage that answers never refuses a gauge. *)
Theorem posted_value_is_served (h : Handler.t S) r r' w m u :
  holds (st w) m -> answers (st w) -> MetricService.quiet (Handler.svc h) ->
  let mType := URLParam r "type" in let name := URLParam r "name" in let value := URLParam r "value" in
  name <> "" -> MetricService.text_update mType name value = Ok u ->
  URLParam r' "type" = mType -> URLParam r' "name" = name ->
  let '(w1, ops) := Handler.UpdateMetric h r w in
  let '(_, ops') := Handler.GetValue h r' w1 in
  (mType = Gauge -> status ops = StatusOK) /\
  (status ops = StatusOK -> status ops' = StatusOK /\
     (mType = Gauge -> ParseFloat (reply ops') = ParseFloat value) /\
     (mType = Counter -> exists d, ParseInt "ParseInt" value = Ok d /\
        ParseInt "ParseInt" (reply ops') = Ok (int64_add (default 0%Z (MemStorage.counters m !! name)) d))).
Proof.
  intros Hm Ha Hq mType name value Hn Hu Hty Hnm.
  pose proof (MetricService.text_readback (Handler.svc h) mType name value u (st w) m Hn Hm Ha Hq Hu) as Hr.
  unfold Handler.UpdateMetric, Handler.GetValue. rewrite Hty, Hnm. fold mType name value.
  rewrite !(bool_decide_false (name = "")) by done. unfold Handler.on_storage.
  destruct (MetricService.UpdateMetric _ _ _ _ _) as [s1 e]. destruct Hr as [Hg Hc].
  destruct e as [e|].
  { cbn [st set_st]. assert (status (Handler.error_reply e) <> StatusOK) as Hbad
      by (unfold Handler.error_reply; rewrite status_error; apply error_status_bad).
    destruct (MetricService.GetValue _ _ _ _) as [s2 [txt|e']]; (split; [by intros [? _]%Hg|done]). }
  rewrite (proj1 (emitAudit_spec h r [name] (set_st s1 w))). cbn [st set_st].
  assert (status [WriteHeader StatusOK] = StatusOK) as Hok by (by apply status_of).
  assert (forall txt, status [HSet "Content-Type" "text/plain"; WriteHeader StatusOK; Write txt] = StatusOK /\
    reply [HSet "Content-Type" "text/plain"; WriteHeader StatusOK; Write txt] = txt) as Htxt.
  { intros txt. split; [by apply status_of|]. unfold reply. rewrite respond_body. unfold body_of. cbn.
    by rewrite string_app_nil_r. }
  assert (mType = Gauge \/ mType = Counter) as [Hmt|Hmt].
  { revert Hu. unfold MetricService.text_update. repeat case_bool_decide; auto. done. }
  - destruct (Hg Hmt) as (_ & txt & Ht & Hp). destruct (MetricService.GetValue _ _ _ _) as [s2 g]. cbn [snd] in Ht. subst g.
    destruct (Htxt txt) as [-> ->]. split; [done|]. intros _. split; [done|]. split; [done|]. by rewrite Hmt.
  - destruct (Hc Hmt eq_refl) as (txt & d & Ht & Hd & Hp). destruct (MetricService.GetValue _ _ _ _) as [s2 g].
    cbn [snd] in Ht. subst g. destruct (Htxt txt) as [-> ->]. split; [done|]. intros _. split; [done|].
    split; [by rewrite Hmt|]. intros _. by exists d.
Qed.

(** ** The dashboard *)

Lemma view_of_key mType name txt :
  mType = Gauge \/ mType = Counter -> view_of (mType +:+ "/" +:+ name, txt) = Some (MkView mType name txt).
Proof.
  intros Hm. assert (IndexByte mType "/"%char = None) as Hi by (by destruct Hm as [-> | ->]).
  unfold view_of. change (mType +:+ "/" +:+ name) with (mType +:+ String "/"%char name).
  rewrite IndexByte_app by done. cbn [mbind option_bind]. rewrite str_take_app by done.
  assert (str_drop (String.length mType + 1) (mType +:+ String "/"%char name) = name) as ->; [|done].
  change (mType +:+ String "/"%char name) with (mType +:+ (String "/"%char "" +:+ name)).
  rewrite <- string_app_assoc. apply str_drop_app. by rewrite string_length_app.
Qed.

Lemma view_of_inv key txt v : view_of (key, txt) = Some v -> Type_ v +:+ "/" +:+ Name v = key /\ Value_ v = txt.
Proof.
  unfold view_of. destruct (IndexByte key "/"%char) as [i|] eqn:Hi; [|done]. intros [= <-]. cbn. split; [|done].
  revert i Hi. induction key as [|c key IH]; intros i; cbn [IndexByte]; [done|]. case_bool_decide as Hc.
  - intros [= <-]. cbn. by rewrite Hc.
  - destruct (IndexByte key "/"%char) as [j|]; intros [= <-]. cbn [str_take str_drop Nat.add].
    rewrite string_app_cons. f_equal. by apply IH.
Qed.

(** The keys of the map are distinct, so the rows are. *)
Lemma view_keys_NoDup (m : gmap string string) l :
  range_order m l -> NoDup (view_key <$> views l).
Proof.
  intros Hl. pose proof (range_order_NoDup m l Hl) as Hnd. clear Hl. unfold views.
  induction l as [|[k txt] l IH]; [constructor|]. apply NoDup_cons in Hnd as [Hk Hnd]. specialize (IH Hnd).
  cbn [omap list_omap]. destruct (view_of (k, txt)) as [v|] eqn:Hv; [|exact IH].
  cbn. apply NoDup_cons. split; [|exact IH]. intros (v' & He & Hin)%list_elem_of_fmap.
  apply list_elem_of_omap in Hin as ([k' txt'] & Hin & Hv').
  apply view_of_inv in Hv as [<- _]. apply view_of_inv in Hv' as [<- _]. injection He as Ht Hn.
  change (Type_ v +:+ "/" +:+ Name v ∉ l.*1) in Hk. apply Hk. rewrite Ht, Hn.
  apply list_elem_of_fmap. by exists (Type_ v' +:+ "/" +:+ Name v', txt').
Qed.

Lemma views_perm l1 l2 : l1 ≡ₚ l2 -> views l1 ≡ₚ views l2.
Proof. unfold views. by intros ->. Qed.

(** Text that HTML takes for text: no markup and no quotes. *)
Definition inert (s : string) : Prop :=
  forall c, In c (String.list_ascii_of_string s) ->
    c <> "<"%char /\ c <> ">"%char /\ c <> dquote /\ c <> "'"%char /\ c <> Ascii.zero.

Lemma list_ascii_app a b :
  String.list_ascii_of_string (a +:+ b) = String.list_ascii_of_string a ++ String.list_ascii_of_string b.
Proof. induction a as [|c a IH]; [done|]. exact (f_equal (cons c) IH). Qed.

Definition inertb (s : string) : bool :=
  forallb (fun c => negb (bool_decide (c ∈ ["<"%char; ">"%char; dquote; "'"%char; Ascii.zero])))
    (String.list_ascii_of_string s).

Lemma inertb_inert s : inertb s = true -> inert s.
Proof.
  unfold inertb, inert. rewrite forallb_forall. intros Hs c Hc. specialize (Hs c Hc).
  apply negb_true_iff, bool_decide_eq_false in Hs. repeat split; intros ->; apply Hs; set_solver.
Qed.

Lemma html_escape_inert s : inert (html_escape s).
Proof.
  apply inertb_inert. induction s as [|c s IH]; [done|]. unfold inertb in *. cbn [html_escape].
  rewrite list_ascii_app, forallb_app, IH, andb_true_r. exact (by_all_chars (fun c => inertb (escape_char c)) eq_refl c).
Qed.

(** C25. The dashboard shows the storage.  Over a storage that answers, the page has
    one row per stored metric and no other, with a text of the metric's value;
    the rows are sorted by type and then by name in byte order; the names and
    values in them hold no markup, quotes or NUL; the page does not depend on the order in
    which the map of metrics is visited; and nothing changes or is audited. *)
Theorem dashboard_shows_storage h r w m :
  holds (st w) m -> answers (st w) ->
  let '(w', ops) := Handler.ListMetrics h r w in
  holds (st w') m /\ spawned w' = spawned w /\ status ops = StatusOK /\
  exists rows,
    reply ops = render rows /\
    StronglySorted view_le rows /\ NoDup (view_key <$> rows) /\
    (forall mType name, (mType, name) ∈ view_key <$> rows <-> is_Some (MemStorage.GetMetric name mType m)) /\
    (forall v, v ∈ rows -> (exists x, MemStorage.GetMetric (Name v) (Type_ v) m = Some x /\ denotes x (Value_ v)) /\
       inert (html_escape (Name v)) /\ inert (html_escape (Value_ v))) /\
    (forall l : list (string * string), range_order (MetricService.GetAllMetrics (Handler.svc h) (st w)).2 l ->
       Handler.list_page l = ops).
Proof.
  intros Hm Ha. unfold Handler.ListMetrics, Handler.on_storage, MetricService.GetAllMetrics.
  pose proof (GetAllMetrics_law (st w) m Hm) as Hl. destruct (GetAllMetrics (st w)) as [s' e].
  destruct Hl as (Hh & Hsnd & Hcmp). specialize (Hcmp Ha) as [_ Hcmp].
  do 2 (split; [done|]). split; [by apply status_of|].
  set (vs := views (range e)). pose proof (range_ok e) as Hr. exists (sort_views vs).
  assert (forall v, v ∈ vs <-> exists key, e !! key = Some (Value_ v) /\ view_of (key, Value_ v) = Some v) as Hvs.
  { intros v. unfold vs, views. rewrite list_elem_of_omap. split.
    - intros ([key txt] & Hin & Hv). apply (range_order_elem _ _ _ _ Hr) in Hin.
      pose proof (view_of_inv _ _ _ Hv) as [_ <-]. by exists key.
    - intros (key & Hk & Hv). exists (key, Value_ v). split; [|done]. by apply (range_order_elem _ _ _ _ Hr). }
  split_and!.
  - unfold reply. rewrite respond_body. unfold body_of. cbn. by rewrite string_app_nil_r.
  - apply sort_views_sorted.
  - rewrite sort_views_perm. by eapply view_keys_NoDup.
  - intros mType name. rewrite sort_views_perm, list_elem_of_fmap. split.
    + intros (v & [= -> ->] & (key & Hk & Hv)%Hvs). destruct (Hsnd _ _ Hk) as (ty & n & x & -> & Hx & _).
      rewrite view_of_key in Hv by (apply GetMetric_cases in Hx as [[? _]|[? _]]; auto).
      destruct v as [vt vn vv]. injection Hv as -> ->. by exists x.
    + intros [x Hx]. destruct (Hcmp mType name ltac:(by eexists)) as [txt Ht].
      exists (MkView mType name txt). split; [done|]. apply Hvs. exists (mType +:+ "/" +:+ name). split; [done|].
      apply view_of_key. apply GetMetric_cases in Hx as [[? _]|[? _]]; auto.
  - intros v. rewrite sort_views_perm, Hvs. intros (key & Hk & Hv). split; [|split; apply html_escape_inert].
    destruct (Hsnd _ _ Hk) as (ty & n & x & -> & Hx & Hd).
    rewrite view_of_key in Hv by (apply GetMetric_cases in Hx as [[? _]|[? _]]; auto).
    destruct v as [vt vn vv]. injection Hv as -> ->. by exists x.
  - intros l Hlr. unfold Handler.list_page. do 4 f_equal. apply (f_equal render).
    apply sorted_views_unique; [by eapply view_keys_NoDup|]. apply views_perm. unfold range_order in *. by rewrite Hlr, Hr.
Qed.
End Endpoints.

(** ** The client's address *)

(** [net.JoinHostPort] *)
Definition JoinHostPort (host port : string) : string :=
  match IndexByte host ":"%char with
  | Some _ => "[" +:+ host +:+ "]:" +:+ port
  | None => host +:+ ":" +:+ port
  end.

Definition free_of (c : Ascii.ascii) (s : string) : Prop := IndexByte s c = None.

Lemma IndexByte_app_none a b c : IndexByte a c = None -> IndexByte b c = None -> IndexByte (a +:+ b) c = None.
Proof.
  induction a as [|x a IH]; [done|]. rewrite string_app_cons. cbn. case_bool_decide; [done|].
  destruct (IndexByte a c); [done|]. intros _ Hb. by rewrite IH.
Qed.

Lemma IndexByte_cons x s c : x <> c -> IndexByte s c = None -> IndexByte (String x s) c = None.
Proof. intros. cbn. rewrite bool_decide_false by done. by destruct (IndexByte s c). Qed.

Lemma LastIndexByte_none s c : IndexByte s c = None -> LastIndexByte s c = None.
Proof.
  induction s as [|x s IH]; [done|]. cbn. case_bool_decide; [done|].
  destruct (IndexByte s c); [done|]. intros _. by rewrite IH.
Qed.

Lemma LastIndexByte_app a c b :
  IndexByte b c = None -> LastIndexByte (a +:+ String c b) c = Some (String.length a).
Proof.
  intros Hb. induction a as [|x a IH].
  - rewrite string_app_nil_l. cbn. rewrite LastIndexByte_none by done. by rewrite bool_decide_true.
  - rewrite string_app_cons. cbn. by rewrite IH.
Qed.

Lemma SplitHostPort_join host port :
  free_of "["%char host -> free_of "]"%char host ->
  free_of ":"%char port -> free_of "["%char port -> free_of "]"%char port ->
  SplitHostPort (JoinHostPort host port) = Some host.
Proof.
  unfold free_of, JoinHostPort. intros Ho Hc Hp Hpo Hpc. unfold SplitHostPort.
  destruct (IndexByte host ":"%char) as [k|] eqn:Hk.
  - assert ("[" +:+ host +:+ "]:" +:+ port = ("[" +:+ host +:+ "]") +:+ String ":"%char port) as ->
      by (by rewrite !string_app_assoc).
    rewrite LastIndexByte_app by done. cbn [mbind option_bind].
    change (("[" +:+ host +:+ "]") +:+ String ":"%char port)
      with (String "["%char ((host +:+ "]") +:+ String ":"%char port)).
    rewrite (string_app_assoc host). change ("]" +:+ String ":"%char port) with (String "]"%char (String ":"%char port)).
    cbn [IndexByte]. rewrite bool_decide_false, IndexByte_app by done. cbn [fmap option_fmap option_map].
    cbn [mbind option_bind].
    assert (S (String.length host) + 1 = String.length ("[" +:+ host +:+ "]")) as Hlen
      by (rewrite !string_length_app; cbn; lia).
    rewrite bool_decide_true by done. rewrite Nat.add_comm.
    change (str_drop (1 + S (String.length host)) (String "["%char ?s)) with (str_drop (S (String.length host)) s).
    change (str_drop 1 (String "["%char ?s)) with s.
    change (str_drop 1 (str_take (S (String.length host)) (String "["%char ?s))) with (str_take (String.length host) s).
    rewrite IndexByte_app_none; [|done|by do 2 (apply IndexByte_cons; [done|])].
    change (String "]"%char (String ":"%char port)) with ("]" +:+ String ":"%char port).
    rewrite <- string_app_assoc, str_drop_app by (rewrite string_length_app; cbn; lia).
    rewrite IndexByte_cons, string_app_assoc by done. by rewrite str_take_app.
  - change (host +:+ ":" +:+ port) with (host +:+ String ":"%char port).
    rewrite LastIndexByte_app by done. cbn [mbind option_bind]. rewrite str_take_app, Hk by done.
    rewrite !(IndexByte_app_none host) by (done || by apply IndexByte_cons).
    destruct host as [|c host]; [done|]. revert Ho. rewrite string_app_cons. cbn [IndexByte].
    case_bool_decide as Hco; [done|]. intros _. by destruct c as [[] [] [] [] [] [] [] []].
Qed.

(** The address of an audit event: the trimmed [X-Real-IP] unless it is blank;
    else the first entry of [X-Forwarded-For], trimmed, when that header is there;
    else the host the connection came from, IPv6 hosts without their brackets. *)
Theorem clientIP_precedence r :
  (TrimSpace (header_Get "X-Real-IP" (Header r)) <> "" ->
     clientIP r = TrimSpace (header_Get "X-Real-IP" (Header r))) /\
  (TrimSpace (header_Get "X-Real-IP" (Header r)) = "" ->
     (forall first others, header_Get "X-Forwarded-For" (Header r) = first +:+ "," +:+ others ->
        free_of ","%char first -> clientIP r = TrimSpace first) /\
     (forall first, header_Get "X-Forwarded-For" (Header r) = first -> first <> "" ->
        free_of ","%char first -> clientIP r = TrimSpace first) /\
     (forall host port, header_Get "X-Forwarded-For" (Header r) = "" ->
        RemoteAddr r = JoinHostPort host port ->
        free_of "["%char host -> free_of "]"%char host ->
        free_of ":"%char port -> free_of "["%char port -> free_of "]"%char port ->
        clientIP r = host)).
Proof.
  unfold clientIP. split; [intros H; by rewrite bool_decide_false|]. intros ->. rewrite bool_decide_true by done. cbn [negb].
  split_and!.
  - intros first others -> Hf. rewrite bool_decide_false by (by destruct first). cbn [negb].
    change (first +:+ "," +:+ others) with (first +:+ String ","%char others).
    rewrite IndexByte_app by done. by rewrite str_take_app.
  - intros first -> Hne Hf. rewrite bool_decide_false by done. cbn [negb]. unfold free_of in Hf. by rewrite Hf.
  - intros host port -> -> Ho Hc Hp Hpo Hpc. rewrite bool_decide_true by done. cbn [negb].
    by rewrite SplitHostPort_join.
Qed.
End HandlerFacts.

(** ** Instances of the theorems *)

Module HandlerExamples.
Import HandlerFacts.

#[export] Instance ascii_only : UnicodeTables := {| IsPrint_table _ := false |}.
#[export] Instance pg_text : PgErrorText := {| PgError_text code := "ERROR: SQLSTATE " +:+ code |}.
#[export] Instance json_texts : JsonErrorText := {|
  SyntaxError_text _ := "invalid character";
  UnmarshalTypeError_text _ ty := "json: cannot unmarshal into Go value of type " +:+ ty |}.
#[export] Instance key_order : MapRange := {| range _ := map_to_list; range_ok _ _ := Permutation_refl _ |}.

Definition auditor : AuditTrail.Publisher := AuditTrail.NewPublisher true [AuditTrail.FileObserver "/var/log/audit"].
Definition h0 : Handler.t MemStorage.t :=
  Handler.NewMetricHandler (MetricService.Mk None) None (Some auditor).
Definition w0 : world MemStorage.t := MkWorld MemStorage.sample [] [] 1700000000.

Definition req (params : list (string * string)) (data : string) : request :=
  MkRequest "POST" "" (header_Set "x-real-ip" " 10.0.0.7 " ∅) "192.0.2.1:4444" (NewReader data)
    (fun k => default "" ((list_to_map params : gmap string string) !! k)).

Lemma w0_holds : holds (st w0) MemStorage.sample.
Proof. split; [done|apply MemStorage.sample_valid]. Qed.

Lemma h0_quiet : MetricService.quiet (Handler.svc h0).
Proof. by intros s m Hs; split. Qed.

Definition q (s : string) : string := String dquote s +:+ String dquote "".
Definition counter_body : string := "{" +:+ q "id" +:+ ":" +:+ q "PollCount" +:+ "," +:+ q "type" +:+ ":"
  +:+ q "counter" +:+ "," +:+ q "delta" +:+ ":3}".

Lemma UpdateMetric_applies_once_witness :
  let '(w', ops) := Handler.UpdateMetric h0 (req [("type", "counter"); ("name", "PollCount"); ("value", "3")] "") w0 in
  status ops = 200%Z /\ spawned w' = [(auditor, MkEvent 1700000000 ["PollCount"] "10.0.0.7")] /\
  applied h0 (req [("type", "counter"); ("name", "PollCount"); ("value", "3")] "") ["PollCount"] MemStorage.sample
    (MemStorage.apply_metric (counter_metric "PollCount" 3) MemStorage.sample) w0 w'.
Proof.
  pose proof (UpdateMetric_applies_once h0 (req [("type", "counter"); ("name", "PollCount"); ("value", "3")] "")
    w0 _ w0_holds) as H.
  split; [by vm_compute|]. split; [by vm_compute|].
  destruct H as [[_ H]|[H _]]; [exact H|]. exfalso. by vm_compute in H.
Defined.

Lemma UpdateMetricsBatch_applies_once_witness :
  let r := req [] ("[" +:+ counter_body +:+ "," +:+ counter_body +:+ "]") in
  let '(w', ops) := Handler.UpdateMetricsBatch h0 r w0 in
  applied h0 r ["PollCount"; "PollCount"] MemStorage.sample
    (MemStorage.apply_all [counter_metric "PollCount" 3; counter_metric "PollCount" 3] MemStorage.sample) w0 w'.
Proof.
  intros r. pose proof (UpdateMetricsBatch_applies_once h0 r w0 _ w0_holds) as H.
  replace (Decode_metrics (Body r)) with (Ok [counter_metric "PollCount" 3; counter_metric "PollCount" 3] : res (list Metrics))
    in H by (by vm_compute).
  destruct (Handler.UpdateMetricsBatch h0 r w0) as [w' ops] eqn:E.
  destruct H as [[_ H]|[H _]]; [exact H|]. exfalso. revert H. change ops with ((w', ops).2). rewrite <- E. by vm_compute.
Defined.

Lemma UpdateMetricJSON_applies_once_witness :
  let r := req [] counter_body in
  let '(w', ops) := Handler.UpdateMetricJSON h0 r w0 in
  holds (st w') (MemStorage.apply_metric (counter_metric "PollCount" 3) MemStorage.sample) /\ replies_with
    (counter_metric "PollCount" (int64_add (default 0%Z (MemStorage.counters MemStorage.sample !! "PollCount")) 3)) ops.
Proof.
  intros r. pose proof (UpdateMetricJSON_applies_once h0 r w0 _ w0_holds h0_quiet) as H.
  replace (Decode_metric (Body r)) with (Ok (counter_metric "PollCount" 3) : res Metrics) in H by (by vm_compute).
  destruct (Handler.UpdateMetricJSON h0 r w0) as [w' ops] eqn:E. cbn [mbind result_bind] in H.
  destruct H as [(x & Hx & Hr & Hh & _)|[[H _]|[H _]]].
  - split; [exact Hh|]. vm_compute in Hx. injection Hx as <-. exact Hr.
  - exfalso. apply H. change ops with ((w', ops).2). rewrite <- E. by vm_compute.
  - exfalso. revert H. change ops with ((w', ops).2). rewrite <- E. by vm_compute.
Defined.

Lemma GetValueJSON_reads_witness :
  let r := req [] counter_body in
  spawned (Handler.GetValueJSON h0 r w0).1 = [] /\
  match MetricService.lookup_spec Counter "PollCount" MemStorage.sample with
  | Ok y => replies_with y (Handler.GetValueJSON h0 r w0).2
  | Err _ => False
  end.
Proof.
  intros r. pose proof (GetValueJSON_reads h0 r w0 _ w0_holds I) as H.
  replace (Decode_metric (Body r)) with (Ok (counter_metric "PollCount" 3) : res Metrics) in H by (by vm_compute).
  destruct (Handler.GetValueJSON h0 r w0) as [w' ops]. destruct H as (_ & Hs & H). split; [exact Hs|].
  cbn [MType ID counter_metric] in H. destruct (MetricService.lookup_spec _ _ _) eqn:E; [exact H|by vm_compute in E].
Defined.

Lemma posted_value_is_served_witness :
  let r := req [("type", "gauge"); ("name", "Load"); ("value", "NaN")] "" in
  reply (Handler.GetValue h0 r (Handler.UpdateMetric h0 r w0).1).2 = "NaN" /\
  status (Handler.GetValue h0 r (Handler.UpdateMetric h0 r w0).1).2 = StatusOK.
Proof.
  intros r. pose proof (posted_value_is_served h0 r r w0 _ (gauge_metric "Load" F_nan) w0_holds I h0_quiet) as H.
  split; [by vm_compute|]. specialize (H ltac:(by vm_compute) eq_refl eq_refl eq_refl).
  destruct (Handler.UpdateMetric h0 r w0) as [w1 ops]. cbn [fst].
  destruct (Handler.GetValue h0 r w1) as [w2 ops']. destruct H as [H1 H2]. exact (proj1 (H2 (H1 eq_refl))).
Defined.

Lemma dashboard_shows_storage_witness :
  status (Handler.ListMetrics h0 (req [] "") w0).2 = StatusOK /\
  exists rows, reply (Handler.ListMetrics h0 (req [] "") w0).2 = render rows /\ StronglySorted view_le rows.
Proof.
  pose proof (dashboard_shows_storage h0 (req [] "") w0 _ w0_holds I) as H.
  destruct (Handler.ListMetrics h0 (req [] "") w0) as [w' ops].
  destruct H as (_ & _ & Hs & rows & Hr & Ho & _). split; [exact Hs|]. by exists rows.
Defined.

Definition ipv6 : request := MkRequest "GET" "" ∅ "[::1]:80" (NewReader "") (fun _ => "").

Lemma clientIP_precedence_witness : clientIP (req [] "") = "10.0.0.7" /\ clientIP ipv6 = "::1".
Proof.
  split; [by vm_compute|].
  assert (TrimSpace (header_Get "X-Real-IP" (Header ipv6)) = "") as H1 by (by vm_compute).
  assert (header_Get "X-Forwarded-For" (Header ipv6) = "") as H2 by (by vm_compute).
  destruct (clientIP_precedence ipv6) as [_ H]. destruct (H H1) as (_ & _ & H').
  exact (H' "::1" "80" H2 eq_refl eq_refl eq_refl eq_refl eq_refl eq_refl).
Defined.
End HandlerExamples.
