(* ===== verification/Concurrent.v ===== *)
(** * Requests that overlap, at the endpoints

    A handler is a goroutine that calls the storage; the storage's mutex makes each call
    one step, and between the calls of one handler other handlers run.  Here the service
    and the endpoints are programs over the calls ([prog]); run alone they are the
    functions of [Service] and [Handler] ([handle_prog]); run together, in any
    interleaving, over the memory or over the file storage, they are linearizable
    ([requests_linearize]). *)

From S2P Require Import Prelude Errors GoInt GoStrings GoSort GoFloat GoFloatFacts Model GoJson Storage Service FileStore Http AuditTrail Dashboard Handler HandlerFacts.

#[local] Existing Instance FileBackedStorage.FileBackedStorage_Storage.

Module Concurrent.

(** ** Programs over the storage *)

(** The calls that leave the handler: those of [repository.Storage], the callback
    [onUpdate], and [Pinger]. *)
Inductive call : Type -> Type :=
| CUpdateGauge (name : string) (value : float64) : call (option error)
| CUpdateCounter (name : string) (value : Z) : call (option error)
| CUpdateBatch (metrics : list Metrics) : call (option error)
| CGetMetric (name mType : string) : call (option Metrics)
| CGetValue (mType name : string) : call (option string)
| CGetAllMetrics : call (gmap string string)
| COnUpdate : call unit
| CPing : call (option error).

Inductive prog (A : Type) : Type :=
| Ret (a : A)
| Vis {R} (c : call R) (k : R -> prog A).
Arguments Ret {A} _.
Arguments Vis {A R} _ _.

Fixpoint bind {A B} (p : prog A) (f : A -> prog B) : prog B :=
  match p with
  | Ret a => f a
  | Vis c k => Vis c (fun x => bind (k x) f)
  end.

Definition trigger {R} (c : call R) : prog R := Vis c Ret.

Declare Scope prog_scope.
Notation "'let!' x := p 'in' q" := (bind p (fun x => q)) (at level 10, x pattern, q at level 200) : prog_scope.
#[local] Open Scope prog_scope.

(** ** The service *)
Section Service.
Context `{UnicodeTables} (callback : bool).

Definition notifyUpdate : prog unit := if callback then trigger COnUpdate else Ret tt.

(** An update, and the callback when it succeeded. *)
Definition updating (c : call (option error)) (wrap : error -> error) : prog (option error) :=
  let! r := trigger c in
  match r with
  | Some err => Ret (Some (wrap err))
  | None => let! _ := notifyUpdate in Ret None
  end.

Definition UpdateMetric (mType name value : string) : prog (option error) :=
  if bool_decide (mType = Gauge) then
    match ParseFloat value with
    | Err err => Ret (Some (Errorf "invalid gauge value: " err))
    | Ok val => updating (CUpdateGauge name val) (fun err => err)
    end
  else if bool_decide (mType = Counter) then
    match ParseInt "ParseInt" value with
    | Err err => Ret (Some (Errorf "invalid counter value: " err))
    | Ok val => updating (CUpdateCounter name val) (fun err => err)
    end
  else Ret (Some (Sentinel sErrUnknownType)).

Definition UpdateMetricFromModel (m : Metrics) : prog (option error) :=
  if bool_decide (MType m = Gauge) then
    match Value m with
    | None => Ret (Some (Sentinel sErrValueRequired))
    | Some v => updating (CUpdateGauge (ID m) v) (Errorf ("failed to update gauge " +:+ Quote (ID m) +:+ ": "))
    end
  else if bool_decide (MType m = Counter) then
    match Delta m with
    | None => Ret (Some (Sentinel sErrDeltaRequired))
    | Some d => updating (CUpdateCounter (ID m) d) (Errorf ("failed to update counter " +:+ Quote (ID m) +:+ ": "))
    end
  else Ret (Some (Sentinel sErrUnknownType)).

Definition UpdateBatch (metrics : list Metrics) : prog (option error) :=
  if bool_decide (length metrics = 0) then Ret None
  else updating (CUpdateBatch metrics) (Errorf "batch update failed: ").

(** A lookup, after the checks of the name and the type. *)
Definition looking_up {A} (mType name : string) (c : call (option A)) : prog (res A) :=
  if bool_decide (name = "") then Ret (Err (Sentinel sErrMetricNameEmpty))
  else if bool_decide (mType <> Gauge /\ mType <> Counter) then Ret (Err (Sentinel sErrUnknownType))
  else let! r := trigger c in Ret (match r with Some a => Ok a | None => Err (Sentinel sErrMetricNotFound) end).

Definition GetMetric (mType name : string) : prog (res Metrics) := looking_up mType name (CGetMetric name mType).
Definition GetValue (mType name : string) : prog (res string) := looking_up mType name (CGetValue mType name).
End Service.

(** ** The endpoints *)

(** What a handler leaves besides the calls: the names it audits, the error it logs, the
    calls on the response writer. *)
Record outcome := MkOutcome {
  audited : option (list string);
  complaint : option (string * error);
  ops : list wop
}.

Definition replies (ops : list wop) : outcome := MkOutcome None None ops.

Section Endpoints.
Context `{UnicodeTables, PgErrorText, JsonErrorText, MapRange}.

(** Whether [onUpdate] and the pinger are set. *)
Context (callback has_pinger : bool).

Definition internalError (msg : string) (err : error) : outcome :=
  MkOutcome None (Some (msg, err)) (http_Error (StatusText StatusInternalServerError) StatusInternalServerError).
Definition error_reply (err : error) : outcome := replies (http_Error (Error err) (httpStatusForError err)).

Definition Ping : prog outcome :=
  if has_pinger then
    let! r := trigger CPing in
    Ret (match r with Some err => internalError "db ping failed" err | None => replies [WriteHeader StatusOK] end)
  else Ret (replies (http_Error "database not configured" StatusInternalServerError)).

Definition UpdateMetric_endpoint (r : request) : prog outcome :=
  let mType := URLParam r "type" in
  let name := URLParam r "name" in
  let value := URLParam r "value" in
  if bool_decide (name = "") then Ret (replies http_NotFound)
  else
    let! e := UpdateMetric callback mType name value in
    Ret (match e with Some err => error_reply err | None => MkOutcome (Some [name]) None [WriteHeader StatusOK] end).

Definition GetValue_endpoint (r : request) : prog outcome :=
  let mType := URLParam r "type" in
  let name := URLParam r "name" in
  if bool_decide (name = "") then Ret (replies http_NotFound)
  else
    let! e := GetValue mType name in
    Ret (match e with
         | Err err => error_reply err
         | Ok val => replies [HSet "Content-Type" "text/plain"; WriteHeader StatusOK; Write val]
         end).

Definition json_reply (m : Metrics) (audited : option (list string)) : outcome :=
  let head := [HSet "Content-Type" "application/json"; WriteHeader StatusOK] in
  match Encode_metric m with
  | Err err => MkOutcome audited (Some ("failed to encode response", err)) head
  | Ok txt => MkOutcome audited None (head ++ [Write txt])
  end.

Definition UpdateMetricJSON (r : request) : prog outcome :=
  match Decode_metric (Body r) with
  | Err err => Ret (replies (http_Error ("invalid json: " +:+ Error err) StatusBadRequest))
  | Ok m =>
      if bool_decide (ID m = "") then Ret (replies (http_Error "id is required" StatusBadRequest))
      else
        let! e := UpdateMetricFromModel callback m in
        match e with
        | Some err => Ret (error_reply err)
        | None =>
            let! u := GetMetric (MType m) (ID m) in
            Ret (match u with
                 | Err err => internalError "failed to get metric after update" err
                 | Ok updated => json_reply updated (Some [ID m])
                 end)
        end
  end.

Definition GetValueJSON (r : request) : prog outcome :=
  match Decode_metric (Body r) with
  | Err err => Ret (replies (http_Error ("invalid json: " +:+ Error err) StatusBadRequest))
  | Ok req =>
      if bool_decide (ID req = "") then Ret (replies (http_Error "id is required" StatusBadRequest))
      else
        let! e := GetMetric (MType req) (ID req) in
        Ret (match e with Err err => error_reply err | Ok m => json_reply m None end)
  end.

Definition UpdateMetricsBatch (r : request) : prog outcome :=
  match Decode_metrics (Body r) with
  | Err err => Ret (replies (http_Error ("invalid json: " +:+ Error err) StatusBadRequest))
  | Ok metrics =>
      if bool_decide (length metrics = 0) then Ret (replies [WriteHeader StatusOK])
      else
        let! e := UpdateBatch callback metrics in
        Ret (match e with
             | Some err => internalError "batch update failed" err
             | None => MkOutcome (Some (ID <$> metrics)) None [WriteHeader StatusOK]
             end)
  end.

Definition ListMetrics : prog outcome :=
  let! metrics := trigger CGetAllMetrics in Ret (replies (Handler.list_page (range metrics))).

Definition handler (e : Handler.endpoint) (r : request) : prog outcome :=
  match e with
  | Handler.EListMetrics => ListMetrics
  | Handler.EPing => Ping
  | Handler.EUpdateMetricJSON => UpdateMetricJSON r
  | Handler.EGetValueJSON => GetValueJSON r
  | Handler.EUpdateMetricsBatch => UpdateMetricsBatch r
  | Handler.EUpdateMetric => UpdateMetric_endpoint r
  | Handler.EGetValue => GetValue_endpoint r
  end.
End Endpoints.

(** ** Running alone *)
Section Alone.
Context {S : Type} `{Storage S} `{UnicodeTables, PgErrorText, JsonErrorText, MapRange}.
Context (h : Handler.t S).

Definition exec {R} (c : call R) : S -> S * R :=
  match c in call R return S -> S * R with
  | CUpdateGauge name value => Service.UpdateGauge name value
  | CUpdateCounter name value => Service.UpdateCounter name value
  | CUpdateBatch metrics => Service.UpdateBatch metrics
  | CGetMetric name mType => Service.GetMetric name mType
  | CGetValue mType name => Service.GetValue mType name
  | CGetAllMetrics => Service.GetAllMetrics
  | COnUpdate => fun s => (MetricService.notifyUpdate (Handler.svc h) s, tt)
  | CPing => fun s => match Handler.pinger h with Some ping => ping s | None => (s, None) end
  end.

Fixpoint alone {A} (p : prog A) (s : S) : S * A :=
  match p with
  | Ret a => (s, a)
  | Vis c k => let '(s, x) := exec c s in alone (k x) s
  end.

Definition handler_of (e : Handler.endpoint) (r : request) : prog outcome :=
  handler (bool_decide (is_Some (MetricService.onUpdate (Handler.svc h)))) (bool_decide (is_Some (Handler.pinger h))) e r.

(** What becomes of the process's state. *)
Definition finish (r : request) (o : outcome) (w : world S) : world S :=
  let w := match audited o with Some names => Handler.emitAudit h r names w | None => w end in
  match complaint o with Some (msg, err) => log_error msg err w | None => w end.

Lemma alone_bind {A B} (p : prog A) (f : A -> prog B) s : alone (bind p f) s = let '(s, a) := alone p s in alone (f a) s.
Proof. revert s. induction p as [a|R c k IH]; intros s; cbn; [done|]. destruct (exec c s) as [s' x]. apply IH. Qed.

Lemma alone_trigger {R} (c : call R) s : alone (trigger c) s = exec c s.
Proof. cbn. by destruct (exec c s). Qed.

Lemma alone_updating (c : call (option error)) wrap s :
  alone (updating (bool_decide (is_Some (MetricService.onUpdate (Handler.svc h)))) c wrap) s =
  match exec c s with
  | (s, Some err) => (s, Some (wrap err))
  | (s, None) => (MetricService.notifyUpdate (Handler.svc h) s, None)
  end.
Proof.
  unfold updating. rewrite alone_bind, alone_trigger. destruct (exec c s) as [s' [err|]]; [done|].
  rewrite alone_bind. unfold notifyUpdate, MetricService.notifyUpdate. case_bool_decide as Hc; cbn.
  - unfold MetricService.notifyUpdate. by destruct (MetricService.onUpdate _).
  - destruct (MetricService.onUpdate _); [|done]. by destruct Hc.
Qed.

Lemma alone_UpdateMetric mType name value s :
  alone (UpdateMetric (bool_decide (is_Some (MetricService.onUpdate (Handler.svc h)))) mType name value) s
  = MetricService.UpdateMetric (Handler.svc h) mType name value s.
Proof.
  unfold UpdateMetric, MetricService.UpdateMetric. 
  case_bool_decide; [destruct (ParseFloat value); [apply alone_updating|done]|].
  case_bool_decide; [destruct (ParseInt _ value); [apply alone_updating|done]|done].
Qed.

Lemma alone_UpdateMetricFromModel m s :
  alone (UpdateMetricFromModel (bool_decide (is_Some (MetricService.onUpdate (Handler.svc h)))) m) s
  = MetricService.UpdateMetricFromModel (Handler.svc h) m s.
Proof.
  unfold UpdateMetricFromModel, MetricService.UpdateMetricFromModel.
  case_bool_decide; [destruct (Value m); [apply alone_updating|done]|].
  case_bool_decide; [destruct (Delta m); [apply alone_updating|done]|done].
Qed.

Lemma alone_UpdateBatch ms s :
  alone (UpdateBatch (bool_decide (is_Some (MetricService.onUpdate (Handler.svc h)))) ms) s
  = MetricService.UpdateBatch (Handler.svc h) ms s.
Proof. unfold UpdateBatch, MetricService.UpdateBatch. case_bool_decide; [done|apply alone_updating]. Qed.

Lemma alone_GetMetric mType name s : alone (GetMetric mType name) s = MetricService.GetMetric (Handler.svc h) mType name s.
Proof.
  unfold GetMetric, looking_up, MetricService.GetMetric. repeat (case_bool_decide; [done|]). rewrite alone_bind, alone_trigger. cbn.
  by destruct (Service.GetMetric name mType s) as [s' [x|]].
Qed.

Lemma alone_GetValue mType name s : alone (GetValue mType name) s = MetricService.GetValue (Handler.svc h) mType name s.
Proof.
  unfold GetValue, looking_up, MetricService.GetValue. repeat (case_bool_decide; [done|]). rewrite alone_bind, alone_trigger. cbn.
  by destruct (Service.GetValue mType name s) as [s' [x|]].
Qed.

(** The programs, run alone, are the handlers of [Handler]. *)
Lemma handle_prog e r w :
  Handler.handle h e r w = let '(s, o) := alone (handler_of e r) (st w) in (finish r o (set_st s w), ops o).
Proof.
  unfold handler_of. destruct e; cbn [handler Handler.handle].
  - unfold ListMetrics, Handler.ListMetrics, Handler.on_storage. rewrite alone_bind, alone_trigger. cbn [exec].
    unfold MetricService.GetAllMetrics. by destruct (GetAllMetrics (st w)).
  - unfold Ping, Handler.Ping, Handler.on_storage. destruct (Handler.pinger h) as [ping|] eqn:Hp; cbn [bool_decide]; [|by destruct w].
    rewrite bool_decide_true by done. rewrite alone_bind, alone_trigger. cbn [exec]. rewrite Hp. by destruct (ping (st w)) as [s [err|]].
  - unfold UpdateMetricJSON, Handler.UpdateMetricJSON, Handler.on_storage.
    destruct (Decode_metric (Body r)) as [m|err]; [|by destruct w]. case_bool_decide; [by destruct w|].
    rewrite alone_bind, alone_UpdateMetricFromModel. destruct (MetricService.UpdateMetricFromModel _ _ _) as [s [err|]]; [done|].
    rewrite alone_bind, alone_GetMetric. cbn [st set_st]. destruct (MetricService.GetMetric _ _ _ _) as [s' [u|err]]; [|done].
    cbn. unfold json_reply, Handler.json_reply. by destruct (Encode_metric u).
  - unfold GetValueJSON, Handler.GetValueJSON, Handler.on_storage.
    destruct (Decode_metric (Body r)) as [m|err]; [|by destruct w]. case_bool_decide; [by destruct w|].
    rewrite alone_bind, alone_GetMetric. destruct (MetricService.GetMetric _ _ _ _) as [s' [u|err]]; [|done].
    cbn. unfold json_reply, Handler.json_reply. by destruct (Encode_metric u).
  - unfold UpdateMetricsBatch, Handler.UpdateMetricsBatch, Handler.on_storage.
    destruct (Decode_metrics (Body r)) as [ms|err]; [|by destruct w]. case_bool_decide; [by destruct w|].
    rewrite alone_bind, alone_UpdateBatch. by destruct (MetricService.UpdateBatch _ _ _) as [s [err|]].
  - unfold UpdateMetric_endpoint, Handler.UpdateMetric, Handler.on_storage. case_bool_decide; [by destruct w|].
    rewrite alone_bind, alone_UpdateMetric. by destruct (MetricService.UpdateMetric _ _ _ _ _) as [s [err|]].
  - unfold GetValue_endpoint, Handler.GetValue, Handler.on_storage. case_bool_decide; [by destruct w|].
    rewrite alone_bind, alone_GetValue. by destruct (MetricService.GetValue _ _ _ _) as [s [x|err]].
Qed.

(** No call tells apart storages that [same] relates. *)
Definition respected (same : relation S) : Prop := forall R (c : call R) s1 s2,
  same s1 s2 -> same (exec c s1).1 (exec c s2).1 /\ (exec c s1).2 = (exec c s2).2.

Lemma alone_respected (same : relation S) {A} (p : prog A) s1 s2 :
  respected same -> same s1 s2 -> same (alone p s1).1 (alone p s2).1 /\ (alone p s1).2 = (alone p s2).2.
Proof.
  intros Hx. revert s1 s2. induction p as [a|R c k IH]; intros s1 s2 Hs; cbn; [done|]. destruct (Hx R c s1 s2 Hs) as [Hs' Ha].
  destruct (exec c s1) as [t1 x1], (exec c s2) as [t2 x2]. cbn in *. subst x2. by apply IH.
Qed.
End Alone.

(** ** Running together *)

Definition reads {R} (c : call R) : bool :=
  match c with CGetMetric _ _ | CGetValue _ _ | CGetAllMetrics => true | _ => false end.
Definition quiet {R} (c : call R) : bool := match c with COnUpdate => true | _ => reads c end.

(** [p] is [q], or the callback and then [q]. *)
Definition notifying {A} (p q : prog A) : Prop := p = q \/ exists k, p = Vis COnUpdate k /\ k tt = q.

(** Programs of at most one read; of at most one call, with the callback after it; and of
    at most one call, the callback, and then at most one read. *)
Definition one_read {A} (p : prog A) : Prop :=
  match p with Ret _ => True | Vis c k => reads c = true /\ forall y, exists a, k y = Ret a end.
Definition one_call {A} (p : prog A) : Prop :=
  match p with Ret _ => True | Vis c k => forall x, exists a, notifying (k x) (Ret a) end.
Definition one_write {A} (p : prog A) : Prop :=
  match p with Ret _ => True | Vis c k => forall x, exists q, notifying (k x) q /\ one_read q end.

Lemma notifying_bind {A B} (p q : prog A) (f : A -> prog B) : notifying p q -> notifying (bind p f) (bind q f).
Proof. intros [->|(k & -> & <-)]; [by left|right]. by eexists. Qed.

Lemma one_call_bind {A B} (p : prog A) (f : A -> B) : one_call p -> one_call (bind p (fun a => Ret (f a))).
Proof.
  destruct p as [a|R c k]; [done|]. intros Hk x. cbn in *. destruct (Hk x) as [a Ha]. exists (f a). by apply (notifying_bind _ (Ret a)).
Qed.

Lemma one_read_bind {A B} (p : prog A) (f : A -> B) : one_read p -> one_read (bind p (fun a => Ret (f a))).
Proof. destruct p as [a|R c k]; [done|]. intros [Hr Hk]. split; [done|]. intros y. destruct (Hk y) as [a ->]. by eexists. Qed.

Lemma one_read_call {A} (p : prog A) : one_read p -> one_call p.
Proof. destruct p as [a|R c k]; [done|]. intros [_ Hk] x. destruct (Hk x) as [a ->]. exists a. by left. Qed.

Lemma one_call_write {A} (p : prog A) : one_call p -> one_write p.
Proof. destruct p as [a|R c k]; [done|]. intros Hk x. destruct (Hk x) as [a Ha]. by exists (Ret a). Qed.

Lemma one_write_bind {A B} (p : prog A) (f : A -> prog B) : one_call p -> (forall a, one_read (f a)) -> one_write (bind p f).
Proof.
  intros Hp Hf. destruct p as [a|R c k]; cbn; [by apply one_call_write, one_read_call|]. intros x. cbn in Hp. destruct (Hp x) as [a Ha].
  exists (f a). split; [by apply (notifying_bind _ (Ret a))|apply Hf].
Qed.

Section Shapes.
Context `{UnicodeTables, PgErrorText, JsonErrorText, MapRange}.

Lemma updating_one_call b c wrap : one_call (updating b c wrap).
Proof.
  intros [err|]; cbn; [by eexists; left|]. exists None. unfold notifyUpdate. destruct b; [right; by eexists|by left].
Qed.

Lemma UpdateMetric_one_call b mType name value : one_call (UpdateMetric b mType name value).
Proof. unfold UpdateMetric. repeat case_bool_decide; try done; case_match; try done; apply updating_one_call. Qed.

Lemma UpdateMetricFromModel_one_call b m : one_call (UpdateMetricFromModel b m).
Proof. unfold UpdateMetricFromModel. repeat case_bool_decide; try done; case_match; try done; apply updating_one_call. Qed.

Lemma looking_up_one_read {A} mType name (c : call (option A)) : reads c = true -> one_read (looking_up mType name c).
Proof. intros Hc. unfold looking_up. repeat case_bool_decide; try done. split; [done|]. intros x. by eexists. Qed.

(** Every handler but [UpdateMetricJSON] makes at most one call besides the callback, and
    that one at most one update and then a read. *)
Lemma handler_one_call b has_pinger e r : e <> Handler.EUpdateMetricJSON -> one_call (handler b has_pinger e r).
Proof.
  intros He. destruct e; try done; cbn [handler].
  - intros x. eexists. by left.
  - unfold Ping. destruct has_pinger; [|done]. intros x. eexists. by left.
  - unfold GetValueJSON. case_match; [|done]. case_bool_decide; [done|]. by apply one_call_bind, one_read_call, looking_up_one_read.
  - unfold UpdateMetricsBatch. case_match; [|done]. case_bool_decide; [done|]. apply one_call_bind. unfold UpdateBatch.
    case_bool_decide; [done|apply updating_one_call].
  - unfold UpdateMetric_endpoint. case_bool_decide; [done|]. apply one_call_bind, UpdateMetric_one_call.
  - unfold GetValue_endpoint. case_bool_decide; [done|]. by apply one_call_bind, one_read_call, looking_up_one_read.
Qed.

Lemma handler_one_write b has_pinger e r : one_write (handler b has_pinger e r).
Proof.
  destruct e; try (by apply one_call_write, handler_one_call). cbn [handler].
  unfold UpdateMetricJSON. case_match; [|done]. case_bool_decide; [done|].
  apply one_write_bind; [apply UpdateMetricFromModel_one_call|]. intros [err|]; [done|]. by apply one_read_bind, looking_up_one_read.
Qed.
End Shapes.

Section Together.
Context {S : Type} `{Storage S} `{UnicodeTables, PgErrorText, JsonErrorText, MapRange}.
Context (h : Handler.t S).

Inductive status := Running (p : prog outcome) | Replied (o : outcome).

Record t := Mk { store : S; requests : list (Handler.endpoint * request * status) }.

Inductive label :=
| Arrive (e : Handler.endpoint) (r : request)
| Act (i : nat)
| Reply (i : nat).

Definition move (i : nat) (e : Handler.endpoint) (r : request) (q : status) (s : S) (x : t) : t :=
  Mk s (<[i := (e, r, q)]> (requests x)).

(** The next call of a handler. *)
Definition act {A} (p : prog A) (s : S) : option (S * prog A) :=
  match p with Ret _ => None | Vis c k => let '(s, a) := exec h c s in Some (s, k a) end.

Definition fire (b : label) (x : t) : option t :=
  match b with
  | Arrive e r => Some (Mk (store x) (requests x ++ [(e, r, Running (handler_of h e r))]))
  | Act i =>
      match requests x !! i with
      | Some (e, r, Running p) => '(s, q) ← act p (store x); Some (move i e r (Running q) s x)
      | _ => None
      end
  | Reply i =>
      match requests x !! i with
      | Some (e, r, Running (Ret o)) => Some (move i e r (Replied o) (store x) x)
      | _ => None
      end
  end.

Definition step (x y : t) : Prop := exists b, fire b x = Some y.

(** *** One request after the other *)

(** The storage after the requests [order] were handled one after the other. *)
Definition handled (e : Handler.endpoint) (r : request) (s : S) : S * list wop :=
  let '(w, ops) := Handler.handle h e r (MkWorld s [] [] 0%Z) in (st w, ops).

Definition serial (rs : list (Handler.endpoint * request)) (s0 : S) (order : list nat) : S :=
  foldl (fun s i => match rs !! i with Some (e, r) => (handled e r s).1 | None => s end) s0 order.

(** The reply of a handler that makes its first call in [s1] and the rest in [s2]. *)
Definition rest {A} (p : prog A) (s : S) : prog A := match p with Ret a => Ret a | Vis c k => k (exec h c s).2 end.
Definition split_reply {A} (p : prog A) (s1 s2 : S) : A := (alone h (rest p s1) s2).2.

Lemma handled_alone e r s : handled e r s = ((alone h (handler_of h e r) s).1, ops (alone h (handler_of h e r) s).2).
Proof.
  unfold handled. rewrite handle_prog. cbn [st]. destruct (alone h (handler_of h e r) s) as [s' o]. cbn [fst snd]. f_equal.
  unfold finish, Handler.emitAudit. by destruct (audited o), (complaint o) as [[? ?]|], (Handler.publisher h).
Qed.

(** *** Storages that look the same

    An equivalence of storages that no call can tell apart, and that reads and the
    callback keep. *)
Record lawful (same : relation S) : Prop := {
  law_equiv : Equivalence same;
  law_exec {R} (c : call R) s1 s2 : same s1 s2 -> same (exec h c s1).1 (exec h c s2).1 /\ (exec h c s1).2 = (exec h c s2).2;
  law_quiet {R} (c : call R) s : quiet c = true -> same (exec h c s).1 s
}.

Context (same : relation S) (L : lawful same).
#[local] Existing Instance law_equiv.

Lemma alone_same {A} (p : prog A) s1 s2 : same s1 s2 -> same (alone h p s1).1 (alone h p s2).1 /\ (alone h p s1).2 = (alone h p s2).2.
Proof using L. apply alone_respected. intros R c. apply L. Qed.

#[local] Instance alone_Proper {A} (p : prog A) : Proper (same ==> same) (fun s => (alone h p s).1).
Proof using L. intros s1 s2 Hs. by apply alone_same. Qed.

#[local] Instance split_Proper {A} (p : prog A) : Proper (same ==> same ==> eq) (split_reply p).
Proof using L.
  intros s1 s2 Hs t1 t2 Ht. unfold split_reply. destruct p as [a|R c k]; [done|]. cbn.
  destruct (law_exec _ L c s1 s2 Hs) as [_ ->]. by apply alone_same.
Qed.

Lemma alone_notifying {A} (p q : prog A) s : notifying p q -> same (alone h p s).1 (alone h q s).1 /\ (alone h p s).2 = (alone h q s).2.
Proof using L.
  pose proof (law_equiv _ L). intros [->|(k & -> & <-)]; [done|]. pose proof (law_quiet _ L COnUpdate s eq_refl) as Hs. cbn in *. by apply alone_same.
Qed.

Lemma alone_read {A} (p : prog A) s : one_read p -> same (alone h p s).1 s.
Proof using L.
  pose proof (law_equiv _ L). destruct p as [a|R c k]; [done|]. intros [Hr Hk]. cbn. pose proof (law_quiet _ L c s) as Hq.
  destruct (exec h c s) as [s1 x]. destruct (Hk x) as [a ->]. apply Hq. by destruct c.
Qed.

(** What follows the first call changes nothing. *)
Lemma alone_first {A R} (c : call R) (k : R -> prog A) s : one_write (Vis c k) -> same (alone h (Vis c k) s).1 (exec h c s).1.
Proof using L.
  pose proof (law_equiv _ L). intros Hw. cbn. destruct (exec h c s) as [s1 x]. destruct (Hw x) as (q & Hn & Hq).
  destruct (alone_notifying _ _ s1 Hn) as [-> _]. by apply alone_read.
Qed.

Lemma split_one_call {A} (p : prog A) s1 s2 : one_call p -> split_reply p s1 s2 = (alone h p s1).2.
Proof using L.
  destruct p as [a|R c k]; [done|]. intros Hc. unfold split_reply. cbn. destruct (exec h c s1) as [s x]. cbn.
  destruct (Hc x) as [a Ha]. by rewrite !(proj2 (alone_notifying _ _ _ Ha)).
Qed.

(** *** The invariant *)

Definition asked (x : t) : list (Handler.endpoint * request) := (requests x).*1.

(** Where request [i] is, when the handlers took effect in the order [order]: it has not
    yet; it has, and may still read; its reply is settled, by what a handler reads at
    its place or later; it is answered. *)
Definition request_ok (rs : list (Handler.endpoint * request)) (s0 : S) (order : list nat) (i : nat) (p : prog outcome) (q : status) : Prop :=
  match q with
  | Running p' =>
      p' = p /\ i ∉ order \/
      exists pre post, order = pre ++ i :: post /\
        ((exists p2, notifying p' p2 /\ one_read p2 /\ forall s, (alone h p2 s).2 = split_reply p (serial rs s0 pre) s) \/
         exists later post2, post = later ++ post2 /\ p' = Ret (split_reply p (serial rs s0 pre) (serial rs s0 (pre ++ i :: later))))
  | Replied o => exists pre later post, order = pre ++ i :: later ++ post /\
      o = split_reply p (serial rs s0 pre) (serial rs s0 (pre ++ i :: later))
  end.

Record inv (s0 : S) (order : list nat) (x : t) : Prop := {
  inv_NoDup : NoDup order;
  inv_known i : i ∈ order -> i < length (requests x);
  inv_store : same (store x) (serial (asked x) s0 order);
  inv_requests i e r q : requests x !! i = Some (e, r, q) -> request_ok (asked x) s0 order i (handler_of h e r) q
}.

Lemma serial_snoc rs s0 order i : serial rs s0 (order ++ [i]) =
  match rs !! i with Some (e, r) => (handled e r (serial rs s0 order)).1 | None => serial rs s0 order end.
Proof. unfold serial. by rewrite foldl_app. Qed.

Lemma serial_prefix rs more s0 order : Forall (fun i => i < length rs) order -> serial (rs ++ more) s0 order = serial rs s0 order.
Proof.
  unfold serial. revert s0. induction order as [|i order IH]; intros s0 Hall; [done|]. apply Forall_cons in Hall as [Hi Hall]. cbn [foldl].
  rewrite lookup_app_l by done. by apply IH.
Qed.

(** What a request is does not change when others take effect or arrive. *)
Lemma request_ok_later rs s0 order more i p q : i ∉ more \/ i ∈ order -> request_ok rs s0 order i p q -> request_ok rs s0 (order ++ more) i p q.
Proof.
  intros Hi. destruct q as [p'|o]; cbn [request_ok].
  - intros [[-> Hn]|(pre & post & -> & Hp)].
    + left. split; [done|]. destruct Hi; [|done]. intros [|]%elem_of_app; done.
    + right. exists pre, (post ++ more). split; [by rewrite <- app_assoc|]. destruct Hp as [Hp|(later & post2 & -> & ->)]; [by left|].
      right. exists later, (post2 ++ more). by rewrite app_assoc.
  - intros (pre & later & post & -> & ->). exists pre, later, (post ++ more). split; [|done]. by rewrite <- !app_assoc, <- app_comm_cons, <- app_assoc.
Qed.

Lemma request_ok_arrives rs more s0 order i p q : Forall (fun j => j < length rs) order ->
  request_ok rs s0 order i p q -> request_ok (rs ++ more) s0 order i p q.
Proof.
  intros Hall. assert (forall pre post, order = pre ++ post -> serial (rs ++ more) s0 pre = serial rs s0 pre) as Hpre.
  { intros pre post ->. apply Forall_app in Hall as [Hall _]. by apply serial_prefix. }
  destruct q as [p'|o]; cbn [request_ok].
  - intros [Hp|(pre & post & Ho & Hp)]; [by left|right]. exists pre, post. split; [done|]. rewrite (Hpre pre _ Ho).
    destruct Hp as [Hp|(later & post2 & -> & ->)]; [by left|right]. exists later, post2. split; [done|].
    rewrite (Hpre (pre ++ i :: later) post2); [done|]. by rewrite Ho, <- app_assoc.
  - intros (pre & later & post & Ho & ->). exists pre, later, post. split; [done|]. rewrite (Hpre pre _ Ho), (Hpre (pre ++ i :: later) post); [done|].
    by rewrite Ho, <- app_assoc.
Qed.

(** A step of request [i], which takes effect with it or has before. *)
Lemma act_step_inv s0 order more x i e r q q' s : inv s0 order x -> requests x !! i = Some (e, r, q) ->
  (more = [] \/ more = [i] /\ i ∉ order) -> same s (serial (asked x) s0 (order ++ more)) ->
  request_ok (asked x) s0 (order ++ more) i (handler_of h e r) q' -> inv s0 (order ++ more) (move i e r q' s x).
Proof.
  intros [I1 I2 I3 I4] Hi Hm Hs Hq. pose proof (lookup_lt_Some _ _ _ Hi) as Hlt.
  assert (asked (move i e r q' s x) = asked x) as Ha.
  { unfold asked, move. cbn [requests]. rewrite list_fmap_insert. apply list_insert_id. by rewrite list_lookup_fmap, Hi. }
  split; rewrite ?Ha; [| |done|].
  - apply NoDup_app. split; [done|]. destruct Hm as [->|[-> Hn]]; (split; [|try apply NoDup_singleton; by constructor]).
    + intros j _ []%not_elem_of_nil.
    + intros j Hj ->%list_elem_of_singleton. done.
  - intros j [Hj|Hj]%elem_of_app; unfold move; cbn [requests]; rewrite length_insert; [by apply I2|].
    destruct Hm as [->|[-> _]]; [by apply not_elem_of_nil in Hj|apply list_elem_of_singleton in Hj as ->; done].
  - intros j e' r' q2. unfold move. cbn [requests]. rewrite list_lookup_insert by done. case_decide as Hj.
    + destruct Hj as [<- _]. intros [= <- <- <-]. exact Hq.
    + intros Hl. apply request_ok_later; [|by apply I4]. left. destruct Hm as [->|[-> _]]; [apply not_elem_of_nil|].
      rewrite list_elem_of_singleton. naive_solver.
Qed.

Lemma asked_lookup x i e r q : requests x !! i = Some (e, r, q) -> asked x !! i = Some (e, r).
Proof. intros Hi. unfold asked. by rewrite list_lookup_fmap, Hi. Qed.

(** The first call. *)
Lemma first_inv s0 order x i e r s q : inv s0 order x -> requests x !! i = Some (e, r, Running (handler_of h e r)) -> i ∉ order ->
  act (handler_of h e r) (store x) = Some (s, q) -> inv s0 (order ++ [i]) (move i e r (Running q) s x).
Proof using L.
  pose proof (law_equiv _ L). intros Hx Hi Hn Hact. pose proof (inv_store _ _ _ Hx) as Hst. pose proof (asked_lookup _ _ _ _ _ Hi) as Ha.
  eapply act_step_inv; [done|done|by right|rewrite serial_snoc, Ha, handled_alone; cbn [fst]|right; exists order, []; split; [done|left]];
    unfold handler_of in *; pose proof (handler_one_write (bool_decide (is_Some (MetricService.onUpdate (Handler.svc h)))) (bool_decide (is_Some (Handler.pinger h))) e r) as Hw;
    destruct (handler _ _ e r) as [o|R c k]; try done; cbn [act] in Hact; destruct (law_exec _ L c _ _ Hst) as [Hs Hans].
  - rewrite (alone_first _ _ _ Hw), <- Hs. by destruct (exec h c (store x)); injection Hact as <- <-.
  - destruct (exec h c (store x)) as [s1 a]. injection Hact as <- <-. destruct (Hw a) as (p2 & Hp2 & Hr). exists p2. split_and!; [done|done|].
    intros s2. unfold split_reply. cbn [rest]. cbn in Hans. rewrite <- Hans. symmetry. by apply alone_notifying.
Qed.

(** A call after it. *)
Lemma act_inv s0 order x i e r p s q : inv s0 order x -> requests x !! i = Some (e, r, Running p) ->
  act p (store x) = Some (s, q) -> exists more, inv s0 (order ++ more) (move i e r (Running q) s x).
Proof using L.
  pose proof (law_equiv _ L). intros Hx Hi Hact. pose proof (inv_store _ _ _ Hx) as Hst.
  destruct (inv_requests _ _ _ Hx _ _ _ _ Hi) as [[-> Hn]|(pre & post & Ho & [(p2 & Hp2 & Hr & Hsplit)|(later & post2 & _ & ->)])]; [|exists []|done].
  { exists [i]. by apply first_inv. }
  destruct Hp2 as [->|(k & -> & Hk)].
  - destruct p2 as [a|R c k]; [done|]. destruct Hr as [Hc Hk]. cbn [act] in Hact.
    pose proof (law_quiet _ L c (store x)) as Hq. specialize (Hsplit (store x)). cbn in Hsplit.
    destruct (exec h c (store x)) as [s1 y]. injection Hact as <- <-. destruct (Hk y) as [o Ho']. rewrite Ho' in *. cbn in Hq, Hsplit.
    eapply act_step_inv; [done|done|by left|rewrite app_nil_r, Hq; [done|by destruct c]|].
    rewrite app_nil_r. right. exists pre, post. split; [done|right]. exists post, []. split; [by rewrite app_nil_r|].
    by rewrite Hsplit, <- Ho, Hst.
  - cbn [act] in Hact. pose proof (law_quiet _ L COnUpdate (store x) eq_refl) as Hq. cbn in Hact, Hq. injection Hact as <- <-.
    eapply act_step_inv; [done|done|by left|by rewrite app_nil_r, Hq|].
    rewrite app_nil_r. right. exists pre, post. split; [done|left]. exists p2. split_and!; [by left|done|done].
Qed.

Lemma reply_inv s0 order x i e r o : inv s0 order x -> requests x !! i = Some (e, r, Running (Ret o)) ->
  exists more, inv s0 (order ++ more) (move i e r (Replied o) (store x) x).
Proof using L.
  intros Hx Hi. pose proof (inv_store _ _ _ Hx) as Hst. pose proof (asked_lookup _ _ _ _ _ Hi) as Ha.
  destruct (inv_requests _ _ _ Hx _ _ _ _ Hi) as [[Hp Hn]|(pre & post & Ho & Hp)].
  - exists [i]. eapply act_step_inv; [done|done|by right| |].
    + rewrite serial_snoc, Ha, handled_alone, <- Hp. exact Hst.
    + exists order, [], []. split; [done|]. by rewrite <- Hp.
  - exists []. eapply act_step_inv; [done|done|by left|by rewrite app_nil_r|]. rewrite app_nil_r.
    destruct Hp as [(p2 & [<-|(k & Hk & _)] & _ & Hp)|(later & post2 & -> & Hp)]; [| done|].
    + exists pre, [], post. split; [done|]. by rewrite <- Hp.
    + exists pre, later, post2. split; [done|]. by injection Hp.
Qed.

Lemma arrive_inv s0 order x e r : inv s0 order x -> inv s0 order (Mk (store x) (requests x ++ [(e, r, Running (handler_of h e r))])).
Proof.
  intros [I1 I2 I3 I4].
  assert (Forall (fun j => j < length (asked x)) order) as Hall.
  { apply Forall_forall. intros j Hj. unfold asked. rewrite length_fmap. by apply I2. }
  assert (asked (Mk (store x) (requests x ++ [(e, r, Running (handler_of h e r))])) = asked x ++ [(e, r)]) as Ha by (unfold asked; cbn [requests]; by rewrite fmap_app).
  split; rewrite ?Ha; [done| |by rewrite serial_prefix|].
  - intros i Hi. cbn [requests]. rewrite length_app. apply I2 in Hi. lia.
  - cbn [requests]. intros i e' r' q [Hl|[Hlen Hl]]%lookup_app_Some; [by apply request_ok_arrives, I4|].
    apply list_lookup_singleton_Some in Hl as [Hz [= <- <- <-]]. left. split; [done|]. intros Hi. apply I2 in Hi. lia.
Qed.

Lemma fire_inv_order b s0 order x y : inv s0 order x -> fire b x = Some y -> exists more, inv s0 (order ++ more) y.
Proof using L.
  intros Hx. destruct b as [e r|i|i]; cbn [fire].
  - intros [= <-]. exists []. rewrite app_nil_r. by apply arrive_inv.
  - destruct (requests x !! i) as [[[e r] [p|o]]|] eqn:Hi; try done. destruct (act p (store x)) as [[s q]|] eqn:Hact; [|done].
    intros [= <-]. by eapply act_inv.
  - destruct (requests x !! i) as [[[e r] [[o|R c k]|o]]|] eqn:Hi; try done. intros [= <-]. by apply reply_inv.
Qed.

(** The handlers' effects in one order: every run is, for the storage and for the answers,
    the requests handled one after the other. *)
Lemma run_inv s0 x : rtc step (Mk s0 []) x -> exists order, inv s0 order x.
Proof using L.
  intros Hs. refine (rtc_ind_r (fun x => exists order, inv s0 order x) _ _ _ x Hs).
  - exists []. pose proof (law_equiv _ L). split; [constructor|intros i []%not_elem_of_nil|done|done].
  - intros y z _ [b Hb] [order Ho]. destruct (fire_inv_order b s0 order y z Ho Hb) as [more Hm]. by eexists.
Qed.

Lemma run_inv_later s0 order x y : inv s0 order x -> rtc step x y -> exists more, inv s0 (order ++ more) y.
Proof using L.
  intros Hx Hs. refine (rtc_ind_r (fun y => exists more, inv s0 (order ++ more) y) _ _ _ y Hs).
  - exists []. by rewrite app_nil_r.
  - intros y' z _ [b Hb] [more Ho]. destruct (fire_inv_order b s0 _ y' z Ho Hb) as [more2 Hm]. exists (more ++ more2). by rewrite app_assoc.
Qed.
(** C9. Requests that overlap are linearizable.  Over a storage whose reads and whose
    callback do not change what calls can see (the memory, and the file storage however
    it saves), in any interleaving of the handlers' calls, at any two moments [x] and
    later [y]: the requests that took effect did so once each and in one order, that of
    [y] extending that of [x]; the storage looks as [Handler.handle] leaves it when it
    handles them one after the other in this order; a request answered by [x] has its
    place before every request that arrived after [x]; every answer is the one
    [Handler.handle] gives at the request's place, but for [UpdateMetricJSON], whose
    update takes effect there and whose echo may be read at a later place. *)
Theorem requests_linearize s0 x y :
  rtc step (Mk s0 []) x -> rtc step x y ->
  exists order more, NoDup (order ++ more) /\
    same (store x) (serial (asked x) s0 order) /\ same (store y) (serial (asked y) s0 (order ++ more)) /\
    (forall i e r o, requests x !! i = Some (e, r, Replied o) -> i ∈ order) /\
    (forall i, i ∈ order -> i < length (requests x)) /\
    (forall i e r o, requests y !! i = Some (e, r, Replied o) -> exists pre later post,
       order ++ more = pre ++ i :: later ++ post /\
       o = split_reply (handler_of h e r) (serial (asked y) s0 pre) (serial (asked y) s0 (pre ++ i :: later)) /\
       (e <> Handler.EUpdateMetricJSON -> ops o = (handled e r (serial (asked y) s0 pre)).2)).
Proof using L.
  intros Hx Hy. destruct (run_inv s0 x Hx) as [order Ho]. destruct (run_inv_later s0 order x y Ho Hy) as [more Hm].
  exists order, more. split_and!; [apply Hm|apply Ho|apply Hm| |apply Ho|].
  - intros i e r o Hi. destruct (inv_requests _ _ _ Ho _ _ _ _ Hi) as (pre & later & post & -> & _).
    apply elem_of_app. right. left.
  - intros i e r o Hi. destruct (inv_requests _ _ _ Hm _ _ _ _ Hi) as (pre & later & post & -> & Hq). exists pre, later, post.
    split_and!; [done|done|]. intros He. rewrite handled_alone, Hq, split_one_call; [done|]. by apply handler_one_call.
Qed.

(** A run given by its steps. *)
Fixpoint run (bs : list label) (x : t) : option t :=
  match bs with [] => Some x | b :: bs => y ← fire b x; run bs y end.

Lemma run_steps bs x : bool_decide (is_Some (run bs x)) = true -> rtc step x (default x (run bs x)).
Proof.
  intros Hr%bool_decide_eq_true. revert x Hr. induction bs as [|b bs IH]; intros x; cbn [run]; [done|].
  destruct (fire b x) as [z|] eqn:Hb; [|by intros [? ?]]. cbn [mbind option_bind]. intros Hr.
  apply rtc_l with z; [by exists b|]. specialize (IH z Hr). by destruct (run bs z).
Qed.

Definition answered (x : t) (i : nat) : bool := match requests x !! i with Some (_, _, Replied _) => true | _ => false end.

Lemma answered_lookup x i : answered x i = true -> exists e r o, requests x !! i = Some (e, r, Replied o).
Proof. unfold answered. destruct (requests x !! i) as [[[e r] [p|o]]|]; try done. intros _. by eexists _, _, _. Qed.
End Together.

(** The memory, and the file storage however it saves. *)
Lemma memory_lawful `{UnicodeTables} (h : Handler.t MemStorage.t) :
  MetricService.onUpdate (Handler.svc h) = None -> Handler.pinger h = None -> lawful h eq.
Proof.
  intros Hu Hp. split; [typeclasses eauto|by intros R c s1 s2 ->|].
  intros R c s Hq. destruct c; try done. cbn. unfold MetricService.notifyUpdate. by rewrite Hu.
Qed.

Lemma file_lawful `{UnicodeTables, JsonErrorText, MapRange} (h : Handler.t FileBackedStorage.t) :
  MetricService.onUpdate (Handler.svc h) = None \/ MetricService.onUpdate (Handler.svc h) = Some FileBackedStorage.SaveOnUpdate ->
  Handler.pinger h = None -> lawful h (fun f g => FileBackedStorage.mem f = FileBackedStorage.mem g).
Proof.
  intros Hu Hp. assert (forall s, FileBackedStorage.mem (MetricService.notifyUpdate (Handler.svc h) s) = FileBackedStorage.mem s) as Hn.
  { intros s. unfold MetricService.notifyUpdate. destruct Hu as [-> | ->]; [done|apply FileBackedStorage.SaveOnUpdate_mem]. }
  split.
  - split; [by intros s|by intros s1 s2|intros s1 s2 s3; congruence].
  - intros R c s1 s2 Hs. destruct c; cbn; rewrite ?Hn, ?Hp; cbn; unfold FileBackedStorage.GetMetric, FileBackedStorage.GetValue, FileBackedStorage.GetAllMetrics;
      by rewrite Hs.
  - intros R c s Hq. destruct c; try done. cbn. apply Hn.
Qed.
End Concurrent.

(** ** Two updates that overlap, and a read after the first was answered

    Over the file, saved at every update. *)
Module ConcurrentExamples.
Import HandlerExamples Concurrent.

Definition h1 : Handler.t FileBackedStorage.t :=
  Handler.NewMetricHandler (MetricService.SetOnUpdate FileBackedStorage.SaveOnUpdate MetricService.NewMetricService) None (Some auditor).

Definition post : label := Arrive Handler.EUpdateMetricJSON (req [] counter_body).
Definition start : t := Mk (FileBackedStorage.Mk MemStorage.sample "/m.json" ∅ [] []) [].
Definition first_answered : t :=
  default start (run h1 [post; post; Act 0; Act 1; Act 0; Act 0; Concurrent.Reply 0] start).
Definition all_answered : t :=
  default first_answered (run h1 [Act 1; Act 1; Concurrent.Reply 1; Arrive Handler.EGetValueJSON (req [] counter_body); Act 2; Concurrent.Reply 2] first_answered).

Lemma first_reached : rtc (step h1) start first_answered.
Proof. apply run_steps. by vm_compute. Qed.

Lemma all_reached : rtc (step h1) first_answered all_answered.
Proof. apply run_steps. by vm_compute. Qed.

Definition answer (x : @t FileBackedStorage.t) (i : nat) : string :=
  match requests x !! i with Some (_, _, Replied o) => reply (ops o) | _ => "" end.

(** Both echoes hold both updates: the handler reads after the other's update. *)
Lemma both_echo_both : answer all_answered 0 = answer all_answered 1 /\ answer all_answered 0 = answer all_answered 2 /\
  answer all_answered 0 <> "".
Proof. by vm_compute. Qed.

Lemma requests_linearize_witness : exists order more, NoDup (order ++ more) /\ 0 ∈ order /\
  FileBackedStorage.mem (store all_answered) = FileBackedStorage.mem (serial h1 (asked all_answered) (store start) (order ++ more)).
Proof.
  destruct (requests_linearize h1 _ (file_lawful h1 (or_intror eq_refl) eq_refl) (store start) first_answered all_answered first_reached all_reached) as
    (order & more & Hnd & _ & Hst & Hin & _).
  destruct (answered_lookup first_answered 0) as (e & r & o & Hi); [by vm_compute|].
  exists order, more. split_and!; [exact Hnd|exact (Hin _ _ _ _ Hi)|exact Hst].
Defined.
End ConcurrentExamples.
