(* ===== verification/Hash.v ===== *)
(** * pkg/hash: HMAC-SHA256 signatures

    [Sign] and [Equal], with SHA-256 (FIPS 180-4), HMAC (RFC 2104) and the
    hexadecimal encoding written out on bytes as integers. *)

From S2P Require Import Prelude GoInt GoStrings.
Local Open Scope Z_scope.

(** Bytes as integers. *)
Definition to_bytes (s : string) : list Z := map char_code (String.list_ascii_of_string s).
Definition of_bytes (l : list Z) : string := String.string_of_list_ascii (map char_of l).

(** ** SHA-256 *)

Definition mask32 : Z := 0xFFFFFFFF.
Definition add32 (a b : Z) : Z := Z.land (a + b) mask32.
Definition rotr (n x : Z) : Z := Z.lor (Z.shiftr x n) (Z.land (Z.shiftl x (32 - n)) mask32).
Definition not32 (x : Z) : Z := Z.lxor x mask32.

(** The round constants are the first 32 bits of the fractional parts of the cube
    roots of the first 64 primes; the initial digest, those of the square roots of
    the first 8. *)
Definition is_prime (n : Z) : bool :=
  forallb (fun d => negb (n mod Z.of_nat d =? 0)) (seq 2 (Z.to_nat (Z.sqrt n) - 1)).
Definition first_primes : list Z := filter is_prime (map Z.of_nat (seq 2 310)).

(** The integer cube root of [n], by bisection of [lo, lo + 2^k). *)
Fixpoint cube_root (k : nat) (lo n : Z) : Z :=
  match k with
  | O => lo
  | S k =>
      let mid := lo + 2 ^ Z.of_nat k in
      cube_root k (if mid * mid * mid <=? n then mid else lo) n
  end.

Definition sha256_K : list Z := Eval vm_compute in
  map (fun p => Z.land (cube_root 40 0 (p * 2 ^ 96)) mask32) first_primes.
Definition sha256_H : list Z := Eval vm_compute in
  map (fun p => Z.land (Z.sqrt (p * 2 ^ 64)) mask32) (firstn 8 first_primes).

Record digest := Dig { d0 : Z; d1 : Z; d2 : Z; d3 : Z; d4 : Z; d5 : Z; d6 : Z; d7 : Z }.

Definition sha256_init : digest :=
  let h := fun n => nth n sha256_H 0 in Dig (h 0%nat) (h 1%nat) (h 2%nat) (h 3%nat) (h 4%nat) (h 5%nat) (h 6%nat) (h 7%nat).

Definition Sigma0 x := Z.lxor (rotr 2 x) (Z.lxor (rotr 13 x) (rotr 22 x)).
Definition Sigma1 x := Z.lxor (rotr 6 x) (Z.lxor (rotr 11 x) (rotr 25 x)).
Definition sigma0 x := Z.lxor (rotr 7 x) (Z.lxor (rotr 18 x) (Z.shiftr x 3)).
Definition sigma1 x := Z.lxor (rotr 17 x) (Z.lxor (rotr 19 x) (Z.shiftr x 10)).
Definition Ch x y z := Z.lxor (Z.land x y) (Z.land (not32 x) z).
Definition Maj x y z := Z.lxor (Z.land x y) (Z.lxor (Z.land x z) (Z.land y z)).

Definition sha256_round (h : digest) (kw : Z * Z) : digest :=
  let '(Dig a b c d e f g i) := h in
  let t1 := add32 (add32 (add32 i (Sigma1 e)) (Ch e f g)) (add32 kw.1 kw.2) in
  let t2 := add32 (Sigma0 a) (Maj a b c) in
  Dig (add32 t1 t2) a b c (add32 d t1) e f g.

(** The message schedule, last word first. *)
Fixpoint schedule (n : nat) (w : list Z) : list Z :=
  match n with
  | O => w
  | S n =>
      let at_ k := nth k w 0 in
      schedule n (add32 (add32 (sigma1 (at_ 1%nat)) (at_ 6%nat)) (add32 (sigma0 (at_ 14%nat)) (at_ 15%nat)) :: w)
  end.

Definition word (l : list Z) : Z := fold_left (fun acc b => acc * 256 + b) l 0.

Fixpoint groups (fuel n : nat) (l : list Z) : list (list Z) :=
  match fuel, l with
  | S fuel, _ :: _ => firstn n l :: groups fuel n (skipn n l)
  | _, _ => []
  end.

Definition sha256_block (h : digest) (block : list Z) : digest :=
  let w := rev (schedule 48 (rev (map word (groups 16 4 block)))) in
  let '(Dig a b c d e f g i) := fold_left sha256_round (combine sha256_K w) h in
  Dig (add32 (d0 h) a) (add32 (d1 h) b) (add32 (d2 h) c) (add32 (d3 h) d)
      (add32 (d4 h) e) (add32 (d5 h) f) (add32 (d6 h) g) (add32 (d7 h) i).

(** An integer as [n] bytes, big end first. *)
Fixpoint big_endian (n : nat) (x : Z) : list Z :=
  match n with O => [] | S n => Z.land (Z.shiftr x (8 * Z.of_nat n)) 255 :: big_endian n x end.

Definition sha256_pad (l : list Z) : list Z :=
  let len := Z.of_nat (length l) in
  l ++ [0x80] ++ repeat 0 (Z.to_nat ((55 - len) mod 64)) ++ big_endian 8 (8 * len).

Definition sha256 (l : list Z) : list Z :=
  let p := sha256_pad l in
  let '(Dig a b c d e f g i) := fold_left sha256_block (groups (length p) 64 p) sha256_init in
  concat (map (big_endian 4) [a; b; c; d; e; f; g; i]).

(** ** HMAC *)

Definition hmac_sha256 (key msg : list Z) : list Z :=
  let key := if Z.of_nat (length key) <=? 64 then key else sha256 key in
  let key := key ++ repeat 0 (64 - length key)%nat in
  sha256 (map (Z.lxor 0x5c) key ++ sha256 (map (Z.lxor 0x36) key ++ msg)).

(** ** Hexadecimal *)

Definition hex_digit (n : Z) : Ascii.ascii := char_of (if n <? 10 then 48 + n else 87 + n).
Definition hex_value (c : Ascii.ascii) : option Z :=
  let z := char_code c in
  if in_range 48 57 z then Some (z - 48)
  else if in_range 97 102 z then Some (z - 87)
  else if in_range 65 70 z then Some (z - 55)
  else None.

Fixpoint hex_EncodeToString (l : list Z) : string :=
  match l with
  | [] => ""
  | b :: l => String (hex_digit (Z.shiftr b 4)) (String (hex_digit (Z.land b 15)) (hex_EncodeToString l))
  end.

(** [hex.DecodeString], without the bytes it returns with an error. *)
Fixpoint hex_DecodeString (s : string) : option (list Z) :=
  match s with
  | EmptyString => Some []
  | String c1 (String c2 s) =>
      a ← hex_value c1; b ← hex_value c2; l ← hex_DecodeString s; Some (a * 16 + b :: l)
  | String _ EmptyString => None
  end.

(** ** The package *)

Definition Sign (body key : string) : string :=
  hex_EncodeToString (hmac_sha256 (to_bytes key) (to_bytes body)).

Definition Equal (a b : string) : bool :=
  match hex_DecodeString a, hex_DecodeString b with
  | Some aBytes, Some bBytes => bool_decide (aBytes = bBytes)
  | _, _ => false
  end.

(** The published test vectors. *)
Example sha256_abc :
  hex_EncodeToString (sha256 (to_bytes "abc")) = "ba7816bf8f01cfea414140de5dae2223b00361a396177a9cb410ff61f20015ad".
Proof. by vm_compute. Qed.

Example sha256_two_blocks :
  hex_EncodeToString (sha256 (to_bytes "abcdbcdecdefdefgefghfghighijhijkijkljklmklmnlmnomnopnopq"))
  = "248d6a61d20638b8e5c026930c3e6039a33ce45964ff2167f6ecedd419db06c1".
Proof. by vm_compute. Qed.

Example hmac_rfc4231 :
  Sign "what do ya want for nothing?" "Jefe" = "5bdcc146bf60754e6a042426089575c75a003f089d2739839dec58b964ec3843".
Proof. by vm_compute. Qed.

(** ** Properties *)

Definition byte (b : Z) : Prop := 0 <= b < 256.

Lemma big_endian_bytes n x : Forall byte (big_endian n x).
Proof.
  induction n as [|n IH]; constructor; [|done]. unfold byte. change 255 with (Z.ones 8).
  rewrite Z.land_ones by lia. apply Z.mod_pos_bound. lia.
Qed.

Lemma sha256_bytes l : Forall byte (sha256 l) /\ length (sha256 l) = 32%nat.
Proof.
  unfold sha256. destruct (fold_left _ _ _). split; [|done].
  cbn [map concat]. rewrite !Forall_app. split_and!; try apply big_endian_bytes. constructor.
Qed.

Lemma hex_value_digit n : 0 <= n < 16 -> hex_value (hex_digit n) = Some n.
Proof.
  intros Hn. assert (exists k, (k < 16)%nat /\ n = Z.of_nat k) as (k & Hk & ->) by (exists (Z.to_nat n); lia).
  do 16 (destruct k as [|k]; [by vm_compute|]). lia.
Qed.

Lemma hex_round_trip l : Forall byte l -> hex_DecodeString (hex_EncodeToString l) = Some l.
Proof.
  induction 1 as [|b l [Hb1 Hb2] _ IH]; [done|]. cbn [hex_EncodeToString hex_DecodeString].
  assert (0 <= Z.shiftr b 4 < 16) as H1 by (rewrite Z.shiftr_div_pow2 by lia; change (2 ^ 4) with 16; split;
    [apply Z.div_pos|apply Z.div_lt_upper_bound]; lia).
  assert (Z.land b 15 = b mod 16) as H2 by (change 15 with (Z.ones 4); by rewrite Z.land_ones).
  rewrite H2, !hex_value_digit by (done || apply Z.mod_pos_bound; lia). cbn [mbind option_bind].
  rewrite IH. cbn. do 2 f_equal. rewrite Z.shiftr_div_pow2 by lia. change (2 ^ 4) with 16.
  pose proof (Z.div_mod b 16). lia.
Qed.

Lemma hmac_bytes key msg : Forall byte (hmac_sha256 key msg) /\ length (hmac_sha256 key msg) = 32%nat.
Proof. apply sha256_bytes. Qed.

Lemma hex_length l : String.length (hex_EncodeToString l) = (2 * length l)%nat.
Proof. induction l as [|b l IH]; [done|]. cbn [hex_EncodeToString String.length length]. rewrite IH. lia. Qed.

Lemma Sign_decodes body key : hex_DecodeString (Sign body key) = Some (hmac_sha256 (to_bytes key) (to_bytes body)).
Proof. apply hex_round_trip, hmac_bytes. Qed.

Lemma Sign_not_empty body key : Sign body key <> "".
Proof.
  intros H. pose proof (hex_length (hmac_sha256 (to_bytes key) (to_bytes body))) as Hl. unfold Sign in H.
  rewrite H, (proj2 (hmac_bytes _ _)) in Hl. done.
Qed.

Lemma Equal_Sign a body key :
  Equal a (Sign body key) = true <-> hex_DecodeString a = Some (hmac_sha256 (to_bytes key) (to_bytes body)).
Proof.
  unfold Equal. rewrite Sign_decodes. destruct (hex_DecodeString a) as [l|]; [|done].
  rewrite bool_decide_eq_true. split; congruence.
Qed.

(** Signatures: [Sign] writes 64 hexadecimal digits that decode to the
    HMAC-SHA256 of the body; a signature is accepted exactly when it decodes,
    in upper or lower case, to that digest; so every signature [Sign] makes is
    accepted, and only for the body and key it was made from, unless their digests
    collide. *)
Theorem signature_verification body key a :
  String.length (Sign body key) = 64%nat /\
  (Equal a (Sign body key) = true <-> hex_DecodeString a = Some (hmac_sha256 (to_bytes key) (to_bytes body))) /\
  Equal (Sign body key) (Sign body key) = true /\
  (forall body' key', Equal (Sign body' key') (Sign body key) = true <->
     hmac_sha256 (to_bytes key') (to_bytes body') = hmac_sha256 (to_bytes key) (to_bytes body)).
Proof.
  split_and!.
  - unfold Sign. by rewrite hex_length, (proj2 (hmac_bytes _ _)).
  - apply Equal_Sign.
  - apply Equal_Sign, Sign_decodes.
  - intros body' key'. rewrite Equal_Sign, Sign_decodes. split; congruence.
Qed.
