(* ===== verification/Crypto.v ===== *)
(** * pkg/crypto: the hybrid RSA-OAEP + AES-GCM envelope

    The envelope is two bytes of length, the AES key wrapped with RSA-OAEP, the
    nonce, and the sealed text.  RSA and AES-GCM themselves are functions the
    model is given, with the laws that make them a cipher. *)

From S2P Require Import Prelude Errors GoInt GoStrings.

Class Primitives := {
  PublicKey : Type;
  PrivateKey : Type;
  public_of : PrivateKey -> PublicKey;
  (** [rsa.EncryptOAEP] with the random bytes it uses, [rsa.DecryptOAEP] *)
  EncryptOAEP : string -> PublicKey -> string -> res string;
  DecryptOAEP : PrivateKey -> string -> res string;
  (** AES-GCM under a key of 16, 24 or 32 bytes and a nonce of [NonceSize]
      bytes: [gcm.Seal] and [gcm.Open]. *)
  NonceSize : nat;
  Seal : string -> string -> string -> string;
  Open : string -> string -> string -> res string
}.

Class PrimitiveLaws `{Primitives} := {
  OAEP_inverse seed priv k wrapped :
    EncryptOAEP seed (public_of priv) k = Ok wrapped -> DecryptOAEP priv wrapped = Ok k;
  GCM_inverse key nonce text :
    String.length nonce = NonceSize -> Open key nonce (Seal key nonce text) = Ok text
}.

Module Crypto.

Definition wrappedLenBytes : nat := 2.
Definition aesKeyBytes : nat := 32.

(** The slice [s[i:j]]; [None] is a run-time panic. *)
Definition slice (s : string) (i j : nat) : option string :=
  if decide (i <= j <= String.length s) then Some (str_take (j - i) (str_drop i s)) else None.

(** [binary.BigEndian.PutUint16] and [Uint16] *)
Definition PutUint16 (n : Z) : string :=
  String (char_of (Z.land (Z.shiftr n 8) 255)) (String (char_of (Z.land n 255)) "").
Definition Uint16 (b : string) : option Z :=
  match b with
  | String h (String l _) => Some (Z.lor (char_code l) (Z.shiftl (char_code h) 8))
  | _ => None
  end.

(** [aes.NewCipher] *)
Definition NewCipher (key : string) : res string :=
  let k := String.length key in
  if bool_decide (k = 16 \/ k = 24 \/ k = 32) then Ok key
  else Err (ErrorText ("crypto/aes: invalid key size " +:+ FormatInt (Z.of_nat k))).

(** What the random source answers to the reads of one [Encrypt]. *)
Record entropy := MkEntropy { key_bytes : res string; nonce_bytes : res string; oaep_seed : string }.

Section Envelope.
Context `{Primitives}.

Definition wrap_err {A} (msg : string) (r : res A) : res A :=
  match r with Ok a => Ok a | Err e => Err (Errorf msg e) end.

Definition Encrypt (rnd : entropy) (pub : PublicKey) (plaintext : string) : res string :=
  aesKey ← wrap_err "rand aes key: " (key_bytes rnd);
  block ← wrap_err "aes new cipher: " (NewCipher aesKey);
  nonce ← wrap_err "rand nonce: " (nonce_bytes rnd);
  let ciphertext := Seal block nonce plaintext in
  wrapped ← wrap_err "rsa wrap: " (EncryptOAEP (oaep_seed rnd) pub aesKey);
  if (0xFFFF <? Z.of_nat (String.length wrapped))%Z then
    Err (ErrorText ("wrapped key too large: " +:+ FormatInt (Z.of_nat (String.length wrapped))))
  else Ok (PutUint16 (Z.of_nat (String.length wrapped)) +:+ wrapped +:+ nonce +:+ ciphertext).

(** [None] is a panic. *)
Definition Decrypt (priv : PrivateKey) (envelope : string) : option (res string) :=
  let len := String.length envelope in
  if decide (len < wrappedLenBytes) then
    Some (Err (ErrorText ("envelope too short: " +:+ FormatInt (Z.of_nat len) +:+ " bytes")))
  else
    head ← slice envelope 0 wrappedLenBytes;
    n ← Uint16 head;
    let keyLen := Z.to_nat n in
    if decide (len < wrappedLenBytes + keyLen) then Some (Err (ErrorText "envelope truncated (wrapped key)"))
    else
      wrapped ← slice envelope wrappedLenBytes (wrappedLenBytes + keyLen);
      match wrap_err "rsa unwrap: " (DecryptOAEP priv wrapped) with
      | Err e => Some (Err e)
      | Ok aesKey =>
          match wrap_err "aes new cipher: " (NewCipher aesKey) with
          | Err e => Some (Err e)
          | Ok block =>
              let nonceSize := NonceSize in
              if decide (len < wrappedLenBytes + keyLen + nonceSize) then
                Some (Err (ErrorText "envelope truncated (nonce)"))
              else
                nonce ← slice envelope (wrappedLenBytes + keyLen) (wrappedLenBytes + keyLen + nonceSize);
                ciphertext ← slice envelope (wrappedLenBytes + keyLen + nonceSize) len;
                if decide (String.length nonce = nonceSize) then
                  Some (wrap_err "aes-gcm open: " (Open block nonce ciphertext))
                else None
          end
      end.

(** ** Properties *)

Lemma slice_some s i j : i <= j <= String.length s ->
  exists t, slice s i j = Some t /\ String.length t = j - i.
Proof.
  intros Hij. unfold slice. rewrite decide_True by done. eexists. split; [done|].
  apply str_take_length. rewrite str_drop_length. lia.
Qed.

Lemma slice_app a b c i j :
  i = String.length a -> j = i + String.length b -> slice (a +:+ b +:+ c) i j = Some b.
Proof.
  intros -> ->. unfold slice. rewrite !string_length_app, decide_True by lia. f_equal.
  rewrite str_drop_app by done. apply str_take_app. lia.
Qed.

Lemma slice_to_end a b i j :
  i = String.length a -> j = i + String.length b -> slice (a +:+ b) i j = Some b.
Proof. intros Hi Hj. rewrite <- (string_app_nil_r b) at 1. by apply slice_app. Qed.

Lemma Uint16_Put n : (0 <= n <= 0xFFFF)%Z -> Uint16 (PutUint16 n) = Some n.
Proof.
  intros Hn. unfold Uint16, PutUint16. f_equal. change 255%Z with (Z.ones 8). rewrite !Z.land_ones by lia.
  rewrite !char_code_of by (apply Z.mod_pos_bound; lia).
  rewrite Z.shiftr_div_pow2, Z.shiftl_mul_pow2 by lia. change (2 ^ 8)%Z with 256%Z.
  assert (0 <= n / 256 < 256)%Z by (split; [apply Z.div_pos|apply Z.div_lt_upper_bound]; lia).
  rewrite (Z.mod_small (n / 256)) by done. pose proof (Z.mod_pos_bound n 256 ltac:(lia)).
  pose proof (Z.add_lor_land (n mod 256) (n / 256 * 256)) as Hadd.
  assert (Z.land (n mod 256) (n / 256 * 256) = 0)%Z as Hand.
  { apply Z.bits_inj'. intros k Hk. rewrite Z.land_spec, Z.bits_0.
    change 256%Z with (2 ^ 8)%Z. destruct (Z.lt_ge_cases k 8).
    - rewrite Z.mul_pow2_bits_low, andb_false_r by lia. done.
    - rewrite Z.mod_pow2_bits_high by lia. done. }
  rewrite Hand in Hadd. pose proof (Z.div_mod n 256). lia.
Qed.

Lemma Decrypt_envelope `{!PrimitiveLaws} rnd priv text envelope :
  (forall nonce, nonce_bytes rnd = Ok nonce -> String.length nonce = NonceSize) ->
  Encrypt rnd (public_of priv) text = Ok envelope -> Decrypt priv envelope = Some (Ok text).
Proof.
  intros Hnonce. unfold Encrypt.
  destruct (key_bytes rnd) as [k|]; [cbn [wrap_err mbind result_bind]|done].
  destruct (NewCipher k) as [blk|] eqn:Hk; [cbn [wrap_err mbind result_bind]|done].
  destruct (nonce_bytes rnd) as [nonce|]; [cbn [wrap_err mbind result_bind]|done]. specialize (Hnonce _ eq_refl).
  destruct (EncryptOAEP _ _ _) as [wrapped|] eqn:Hw; [cbn [wrap_err mbind result_bind]|done].
  destruct (Z.ltb_spec 0xFFFF (Z.of_nat (String.length wrapped))) as [|Hsmall]; [done|]. intros [= <-].
  set (hd := PutUint16 _). set (ct := Seal _ _ _).
  assert (String.length hd = 2) as Hhd by done.
  assert (String.length (hd +:+ wrapped +:+ nonce +:+ ct)
    = 2 + String.length wrapped + NonceSize + String.length ct) as Hlen by (rewrite !string_length_app; lia).
  assert (slice (hd +:+ wrapped +:+ nonce +:+ ct) 0 2 = Some hd) as Hs1 by (by apply (slice_app "" hd)).
  assert (slice (hd +:+ wrapped +:+ nonce +:+ ct) 2 (2 + String.length wrapped) = Some wrapped) as Hs2
    by (apply slice_app; lia).
  assert (slice (hd +:+ wrapped +:+ nonce +:+ ct) (2 + String.length wrapped)
    (2 + String.length wrapped + NonceSize) = Some nonce) as Hs3.
  { rewrite <- (string_app_assoc hd). apply slice_app; rewrite ?string_length_app; lia. }
  assert (slice (hd +:+ wrapped +:+ nonce +:+ ct) (2 + String.length wrapped + NonceSize)
    (2 + String.length wrapped + NonceSize + String.length ct) = Some ct) as Hs4.
  { rewrite <- !string_app_assoc. apply slice_to_end; rewrite ?string_length_app; lia. }
  unfold Decrypt. rewrite Hlen. unfold wrappedLenBytes. rewrite decide_False by lia.
  rewrite Hs1. cbn [mbind option_bind]. replace (Uint16 hd) with (Some (Z.of_nat (String.length wrapped))) by (symmetry; apply Uint16_Put; lia).
  cbn [mbind option_bind].
  rewrite Nat2Z.id, decide_False by lia. rewrite Hs2. cbn [mbind option_bind].
  rewrite (OAEP_inverse _ _ _ _ Hw). cbn [wrap_err]. rewrite Hk. cbn [wrap_err].
  rewrite decide_False by lia. rewrite Hs3. cbn [mbind option_bind]. rewrite Hs4. cbn [mbind option_bind].
  rewrite decide_True by done. subst ct. by rewrite GCM_inverse.
Qed.

(** C38. The envelope round trip: what [Encrypt] makes for a public key is
    opened by [Decrypt] with its private key, whatever the random bytes; the
    envelope is as long as its parts, and [Encrypt] fails only when the random
    source or RSA does, or the wrapped key's length does not fit two bytes. *)
Theorem envelope_round_trip `{!PrimitiveLaws} rnd priv text :
  (forall key, key_bytes rnd = Ok key -> String.length key = aesKeyBytes) ->
  (forall nonce, nonce_bytes rnd = Ok nonce -> String.length nonce = NonceSize) ->
  match Encrypt rnd (public_of priv) text with
  | Ok envelope =>
      Decrypt priv envelope = Some (Ok text) /\
      exists key nonce wrapped,
        key_bytes rnd = Ok key /\ nonce_bytes rnd = Ok nonce /\
        EncryptOAEP (oaep_seed rnd) (public_of priv) key = Ok wrapped /\
        String.length envelope
        = 2 + String.length wrapped + NonceSize + String.length (Seal key nonce text)
  | Err _ =>
      (exists e, key_bytes rnd = Err e) \/ (exists e, nonce_bytes rnd = Err e) \/
      exists key, key_bytes rnd = Ok key /\
        match EncryptOAEP (oaep_seed rnd) (public_of priv) key with
        | Ok wrapped => (0xFFFF < Z.of_nat (String.length wrapped))%Z
        | Err _ => True
        end
  end.
Proof.
  intros Hkey Hnonce. pose proof (Decrypt_envelope rnd priv text) as Hd.
  destruct (Encrypt rnd (public_of priv) text) as [envelope|e] eqn:He.
  - split; [by apply Hd|]. revert He. unfold Encrypt.
    destruct (key_bytes rnd) as [k|]; [cbn [wrap_err mbind result_bind]|done]. specialize (Hkey _ eq_refl).
    unfold NewCipher. rewrite Hkey, bool_decide_true by (unfold aesKeyBytes; lia). cbn [wrap_err mbind result_bind].
    destruct (nonce_bytes rnd) as [nonce|]; [cbn [wrap_err mbind result_bind]|done]. specialize (Hnonce _ eq_refl).
    destruct (EncryptOAEP _ _ _) as [wrapped|] eqn:Hw; [cbn [wrap_err mbind result_bind]|done].
    destruct (_ <? _)%Z; [done|]. intros [= <-]. exists k, nonce, wrapped. split_and!; [done..|].
    rewrite !string_length_app. cbn. lia.
  - revert He. unfold Encrypt.
    destruct (key_bytes rnd) as [k|]; [cbn [wrap_err mbind result_bind]|by eauto]. specialize (Hkey _ eq_refl).
    unfold NewCipher. rewrite Hkey, bool_decide_true by (unfold aesKeyBytes; lia). cbn [wrap_err mbind result_bind].
    destruct (nonce_bytes rnd) as [nonce|]; [cbn [wrap_err mbind result_bind]|by eauto].
    intros He. right; right. exists k. split; [done|]. revert He.
    destruct (EncryptOAEP _ _ _) as [wrapped|] eqn:Hw; [cbn [wrap_err mbind result_bind]|done].
    destruct (Z.ltb_spec 0xFFFF (Z.of_nat (String.length wrapped))); [|done]. by intros _.
Qed.

(** No slice expression is out of range. *)
Lemma Decrypt_returns priv envelope : exists r, Decrypt priv envelope = Some r.
Proof.
  unfold Decrypt, wrappedLenBytes. case_decide as H0; [by eauto|].
  destruct (slice_some envelope 0 2 ltac:(lia)) as (hd & -> & Hhd). cbn [mbind option_bind].
  destruct hd as [|h [|l hd]]; cbn in Hhd; [lia..|]. cbn [Uint16 mbind option_bind].
  match goal with |- context [Z.to_nat ?z] => set (keyLen := Z.to_nat z) end. case_decide as H1; [by eauto|].
  destruct (slice_some envelope 2 (2 + keyLen) ltac:(lia)) as (wrapped & -> & _). cbn [mbind option_bind].
  destruct (wrap_err _ _) as [k|]; [|by eauto]. destruct (wrap_err _ _) as [blk|]; [|by eauto].
  case_decide as H2; [by eauto|].
  destruct (slice_some envelope (2 + keyLen) (2 + keyLen + NonceSize) ltac:(lia)) as (nonce & -> & Hn).
  destruct (slice_some envelope (2 + keyLen + NonceSize) (String.length envelope) ltac:(lia)) as (ct & -> & _).
  cbn [mbind option_bind]. rewrite decide_True by lia. by eauto.
Qed.

(** [Decrypt] returns on every input: no envelope, however short or
    corrupted, makes a slice expression or the cipher panic, and one that is
    shorter than its own length fields is refused before a key is used. *)
Theorem Decrypt_never_panics priv envelope :
  (exists r, Decrypt priv envelope = Some r) /\
  (String.length envelope < 2 -> exists msg, Decrypt priv envelope = Some (Err (ErrorText msg))).
Proof.
  split; [apply Decrypt_returns|].
  intros Hs. unfold Decrypt, wrappedLenBytes. rewrite decide_True by done. by eauto.
Qed.
End Envelope.

(** A cipher that hides nothing, to instantiate the theorems with. *)
Definition marked (mark s : string) : res string :=
  if HasPrefix s mark then Ok (str_drop (String.length mark) s) else Err (ErrorText "bad mark").

Lemma marked_app mark s : marked mark (mark +:+ s) = Ok s.
Proof. unfold marked. by rewrite HasPrefix_app, str_drop_app. Qed.

#[export] Instance plain : Primitives := {|
  PublicKey := unit; PrivateKey := unit; public_of _ := tt;
  EncryptOAEP _ _ k := Ok ("RSA" +:+ k);
  DecryptOAEP _ w := marked "RSA" w;
  NonceSize := 12;
  Seal _ _ text := "GCM" +:+ text;
  Open _ _ text := marked "GCM" text |}.

#[export] Instance plain_laws : PrimitiveLaws.
Proof. split; [intros seed priv k w [= <-]; apply marked_app|intros; apply marked_app]. Qed.

Definition rnd0 : entropy := MkEntropy (Ok "0123456789abcdef0123456789abcdef") (Ok "nonce-nonce-") "seed".

Definition priv0 : PrivateKey := tt.

Lemma envelope_round_trip_witness :
  exists envelope, Encrypt rnd0 (public_of priv0) "text" = Ok envelope /\ Decrypt priv0 envelope = Some (Ok "text") /\ String.length envelope = 56.
Proof.
  assert (forall key, key_bytes rnd0 = Ok key -> String.length key = aesKeyBytes) as Hk by (by intros key [= <-]).
  assert (forall nonce, nonce_bytes rnd0 = Ok nonce -> String.length nonce = NonceSize) as Hn by (by intros nonce [= <-]).
  pose proof (envelope_round_trip rnd0 priv0 "text" Hk Hn) as H.
  destruct (Encrypt rnd0 (public_of priv0) "text") as [envelope|e] eqn:E; [|by vm_compute in E].
  exists envelope. split; [done|]. destruct H as [Hd _]. split; [exact Hd|].
  vm_compute in E. injection E as <-. by vm_compute.
Defined.

Lemma Decrypt_never_panics_witness :
  String.length "x" < 2 /\ exists msg, Decrypt priv0 "x" = Some (Err (ErrorText msg)).
Proof. split; [by vm_compute|]. apply Decrypt_never_panics. by vm_compute. Defined.
End Crypto.
