(* ===== verification/Keys.v ===== *)
(** * pkg/crypto: key files

    [LoadPublicKey] and [LoadPrivateKey].  PEM and the ASN.1 encodings of keys are
    functions the model is given. *)

From S2P Require Import Prelude Errors GoInt GoStrings Crypto.

(** What [x509] finds in an encoding that can hold several kinds of keys: an RSA key,
    or the name of another type. *)
Inductive any_key (K : Type) := RSA (k : K) | NotRSA (type : string).
Arguments RSA {K} _.
Arguments NotRSA {K} _.

Class KeyFormats `{Primitives} := {
  pem_Decode : string -> option string;
  ParsePKIXPublicKey : string -> res (any_key PublicKey);
  ParsePKCS1PublicKey : string -> res PublicKey;
  ParsePKCS1PrivateKey : string -> res PrivateKey;
  ParsePKCS8PrivateKey : string -> res (any_key PrivateKey)
}.

Module Keys.
Section Load.
Context `{KeyFormats, UnicodeTables} (ReadFile : string -> res string).

Definition LoadPublicKey (path : string) : res PublicKey :=
  match ReadFile path with
  | Err err => Err (Errorf ("read public key " +:+ Quote path +:+ ": ") err)
  | Ok data =>
      match pem_Decode data with
      | None => Err (ErrorText ("no PEM block in " +:+ Quote path))
      | Some block =>
          match ParsePKIXPublicKey block with
          | Ok (RSA pub) => Ok pub
          | Ok (NotRSA type) => Err (ErrorText ("not an RSA public key: " +:+ type))
          | Err _ =>
              match ParsePKCS1PublicKey block with
              | Ok pub => Ok pub
              | Err _ => Err (ErrorText ("parse public key " +:+ Quote path +:+ ": unsupported format"))
              end
          end
      end
  end.

Definition LoadPrivateKey (path : string) : res PrivateKey :=
  match ReadFile path with
  | Err err => Err (Errorf ("read private key " +:+ Quote path +:+ ": ") err)
  | Ok data =>
      match pem_Decode data with
      | None => Err (ErrorText ("no PEM block in " +:+ Quote path))
      | Some block =>
          match ParsePKCS1PrivateKey block with
          | Ok priv => Ok priv
          | Err _ =>
              match ParsePKCS8PrivateKey block with
              | Ok (RSA priv) => Ok priv
              | Ok (NotRSA type) => Err (ErrorText ("not an RSA private key: " +:+ type))
              | Err _ => Err (ErrorText ("parse private key " +:+ Quote path +:+ ": unsupported format"))
              end
          end
      end
  end.

(** A key loads exactly when the file holds a PEM block with an RSA key in one of the
    two encodings; the first that parses decides. *)
Lemma LoadPublicKey_loads path pub : LoadPublicKey path = Ok pub <->
  exists data block, ReadFile path = Ok data /\ pem_Decode data = Some block /\
    (ParsePKIXPublicKey block = Ok (RSA pub) \/ is_ok (ParsePKIXPublicKey block) = false /\ ParsePKCS1PublicKey block = Ok pub).
Proof.
  unfold LoadPublicKey. split.
  - intros Hl. destruct (ReadFile path) as [data|]; [|done]. destruct (pem_Decode data) as [block|] eqn:Hb; [|done].
    exists data, block. split_and!; [done..|]. destruct (ParsePKIXPublicKey block) as [[]|]; simplify_eq; [by left|right].
    destruct (ParsePKCS1PublicKey block); by simplify_eq.
  - intros (data & block & -> & -> & [-> |[Hn ->]]); [done|]. by destruct (ParsePKIXPublicKey block).
Qed.

Lemma LoadPrivateKey_loads path priv : LoadPrivateKey path = Ok priv <->
  exists data block, ReadFile path = Ok data /\ pem_Decode data = Some block /\
    (ParsePKCS1PrivateKey block = Ok priv \/ is_ok (ParsePKCS1PrivateKey block) = false /\ ParsePKCS8PrivateKey block = Ok (RSA priv)).
Proof.
  unfold LoadPrivateKey. split.
  - intros Hl. destruct (ReadFile path) as [data|]; [|done]. destruct (pem_Decode data) as [block|] eqn:Hb; [|done].
    exists data, block. split_and!; [done..|]. destruct (ParsePKCS1PrivateKey block); simplify_eq; [by left|right].
    split; [done|]. by destruct (ParsePKCS8PrivateKey block) as [[]|]; simplify_eq.
  - intros (data & block & -> & -> & [-> |[Hn ->]]); [done|]. by destruct (ParsePKCS1PrivateKey block).
Qed.
End Load.
End Keys.
