(* ===== verification/Compress.v ===== *)
(** * pkg/compress and compress/gzip

    A gzip writer passes bytes on to the writer below it when it sees fit; what it
    writes and when is left open, only that a reader gets back what was written.
    The program uses one level, [gzip.BestSpeed]. *)

From S2P Require Import Prelude Errors GoInt GoStrings Model GoJson Http.

Class Gzip := {
  (** the calls on the writer below made by [Write d] after the writes [ds],
      and by [Close] after the writes [ds] *)
  gzip_write : list string -> string -> list string;
  gzip_close : list string -> list string;
  (** [gzip.NewReader(b)] and the stream read from it *)
  gzip_NewReader : body -> res body
}.

(** The calls below made by the writes [rest] after [ds], and the final
    [Close]. *)
Fixpoint gzip_calls `{Gzip} (ds rest : list string) : list string :=
  match rest with
  | [] => gzip_close ds
  | d :: rest => gzip_write ds d ++ gzip_calls (ds ++ [d]) rest
  end.

Class GzipLaws `{Gzip} := {
  gzip_round_trip ds :
    gzip_NewReader (NewReader (concat_strings (gzip_calls [] ds))) = Ok (NewReader (concat_strings ds))
}.

(** [compress.GzipData]: the level is a valid one and writes to a
    [bytes.Buffer] do not fail, so neither does this. *)
Definition GzipData `{Gzip} (data : string) : res string := Ok (concat_strings (gzip_calls [] [data])).

Lemma GzipData_reads_back `{GzipLaws} data :
  exists gz, GzipData data = Ok gz /\ gzip_NewReader (NewReader gz) = Ok (NewReader data).
Proof.
  eexists. split; [done|]. rewrite gzip_round_trip. cbn. by rewrite string_app_nil_r.
Qed.

(** A format that frames the text, to instantiate theorems with. *)
Definition gz_magic : string := String (char_of 0x1f) (String (char_of 0x8b) "").
#[export] Instance framed_gzip : Gzip := {|
  gzip_write _ _ := [];
  gzip_close ds := [gz_magic; concat_strings ds];
  gzip_NewReader b :=
    if HasPrefix (bytes b) gz_magic then Ok (MkBody (str_drop 2 (bytes b)) (read_error b))
    else Err (ErrorText "gzip: invalid header") |}.

#[export] Instance framed_gzip_laws : GzipLaws.
Proof.
  split. intros ds.
  assert (forall pre, concat_strings (gzip_calls pre ds) = gz_magic +:+ concat_strings (pre ++ ds)) as Hc.
  { induction ds as [|d ds IH]; intros pre; cbn [gzip_calls gzip_write gzip_close framed_gzip app].
    - change (concat_strings [gz_magic; concat_strings pre]) with (gz_magic +:+ concat_strings pre +:+ "").
      by rewrite string_app_nil_r, app_nil_r.
    - by rewrite IH, <- app_assoc. }
  rewrite Hc. cbn [gzip_NewReader framed_gzip bytes read_error NewReader].
  rewrite HasPrefix_app, str_drop_app by done. done.
Qed.
