(* ===== verification/Middleware.v ===== *)
(** * internal/middleware and the router

    A middleware takes a handler to a handler: it may answer by itself, change the
    request, and transform the calls the inner handler makes on the response
    writer it was given. *)

From S2P Require Import Prelude Errors GoInt GoStrings NetIP GoFloat Model GoJson Storage Service FileStore Http AuditTrail Dashboard Handler Hash Crypto Compress.

(** internal/httpconst *)
Definition HeaderHashSHA256 : string := "HashSHA256".
Definition HeaderCryptoEncrypted : string := "X-Crypto-Encrypted".
Definition HeaderXRealIP : string := "X-Real-IP".

Module Middleware.

Section Middleware.
Context {S : Type}.

Definition middleware : Type := http_Handler (world S) -> http_Handler (world S).

(** ** Logger: a [responseWriter] that remembers the status and the size *)

Definition seen_status (ops : list wop) : Z :=
  fold_left (fun s op => match op with WriteHeader s' => s' | _ => s end) ops StatusOK.
Definition seen_size (ops : list wop) : Z :=
  fold_left (fun n op => match op with Write d => n + Z.of_nat (String.length d) | _ => n end)%Z ops 0%Z.

Definition Logger : middleware := fun next r w =>
  let '(w, ops) := next r w in
  (log (AccessLine (RequestURI r) (Method r) (seen_status ops) (seen_size ops)) w, ops).

(** ** Trusted subnet *)

Definition TrustedSubnetMiddleware `{UnicodeTables} (cidr : string) : res (option middleware) :=
  if bool_decide (cidr = "") then Ok None
  else
    match ParseCIDR cidr with
    | Err err => Err (Errorf ("trusted_subnet: invalid CIDR " +:+ Quote cidr +:+ ": ") err)
    | Ok network =>
        Ok (Some (fun next r w =>
          let raw := header_Get HeaderXRealIP (Header r) in
          match ParseIP raw with
          | Some ip =>
              if negb (Net_Contains network ip)
              then (log (RejectLine raw cidr) w, http_Error (StatusText StatusForbidden) StatusForbidden)
              else next r w
          | None => (log (RejectLine raw cidr) w, http_Error (StatusText StatusForbidden) StatusForbidden)
          end))
    end.

(** ** Decryption *)

Definition bad_request : list wop := http_Error (StatusText StatusBadRequest) StatusBadRequest.

Definition CryptoMiddleware `{Primitives} (priv : option PrivateKey) : option middleware :=
  match priv with
  | None => None
  | Some priv => Some (fun next r w =>
      if bool_decide (header_Get HeaderCryptoEncrypted (Header r) = "") then next r w
      else
        match ReadAll (Body r) with
        | Err err => (log_error "crypto: read body" err w, bad_request)
        | Ok envelope =>
            match Crypto.Decrypt priv envelope with
            | None => (w, [])                          (* a panic; see [Crypto.Decrypt_never_panics] *)
            | Some (Err err) => (log_error "crypto: decrypt" err w, bad_request)
            | Some (Ok plaintext) =>
                next (with_header (header_Del HeaderCryptoEncrypted (Header r))
                       (with_body (NewReader plaintext) r)) w
            end
        end)
  end.

(** ** Compression *)

(** The calls below a [gzipResponseWriter] and its final [Close], after the
    writes [ds]. *)
Fixpoint gzip_ops `{Gzip} (ds : list string) (ops : list wop) : list wop :=
  match ops with
  | [] => map Write (gzip_close ds)
  | Write d :: ops => map Write (gzip_write ds d) ++ gzip_ops (ds ++ [d]) ops
  | op :: ops => op :: gzip_ops ds ops
  end.

Definition GzipMiddleware `{Gzip} : middleware := fun next r w =>
  let answer (r : request) :=
    if negb (Contains (header_Get "Accept-Encoding" (Header r)) "gzip") then next r w
    else
      let '(w, ops) := next r w in
      (w, [HSet "Content-Encoding" "gzip"; HDel "Content-Length"] ++ gzip_ops [] ops) in
  if bool_decide (header_Get "Content-Encoding" (Header r) = "gzip") then
    match gzip_NewReader (Body r) with
    | Err err => (w, http_Error "failed to decompress request body" StatusBadRequest)
    | Ok gr => answer (with_body gr r)
    end
  else answer r.

(** ** Signatures *)

Definition header_op (op : wop) : bool := match op with HSet _ _ | HDel _ => true | _ => false end.

(** The calls below a [hashResponseWriter] that is flushed at the end: headers
    pass, the status (the last one set) and the body are held back. *)
Definition hash_ops (key : string) (ops : list wop) : list wop :=
  let body := body_of ops in
  let status := seen_status ops in
  filter header_op ops
  ++ (if negb (bool_decide (key = "")) then [HSet HeaderHashSHA256 (Sign body key)] else [])
  ++ (if negb (status =? 0)%Z then [WriteHeader status] else [])
  ++ [Write body].

Definition HashMiddleware (key : string) : option middleware :=
  if bool_decide (key = "") then None
  else Some (fun next r w =>
    match ReadAll (Body r) with
    | Err err =>
        (log_error "failed to read request body" err w,
         http_Error (StatusText StatusInternalServerError) StatusInternalServerError)
    | Ok body =>
        let r := with_body (NewReader body) r in
        let incoming := header_Get HeaderHashSHA256 (Header r) in
        if negb (bool_decide (incoming = "")) && negb (Equal incoming (Sign body key)) then (w, bad_request)
        else
          let '(w, ops) := next r w in
          (w, hash_ops key ops)
    end).

(** ** The router of cmd/server *)

(** [if m != nil { r.Use(m) }] *)
Definition Use (m : option middleware) (next : http_Handler (world S)) : http_Handler (world S) :=
  match m with Some m => m next | None => next end.
End Middleware.
Arguments middleware : clear implicits.

(** chi's [middleware.Recoverer] turns panics of the handlers below it into
    answers; no handler of the model panics, so it is not part of the stack
    here. *)
Definition newRouter {S} `{Storage S} `{UnicodeTables, PgErrorText, JsonErrorText, MapRange, Chi, Primitives, Gzip}
    (h : Handler.t S) (key : string) (privKey : option PrivateKey) (trustedSubnet : option (middleware S))
    : http_Handler (world S) :=
  Logger
    (Use trustedSubnet
      (Use (CryptoMiddleware privKey)
        (GzipMiddleware
          (Use (HashMiddleware key)
            (serve h))))).
End Middleware.
