(* ===== verification/MiddlewareFacts.v ===== *)
(** * What the stack of middleware guarantees

    Which requests reach the routes, in what form, and how their replies arrive
    at the client. *)

From S2P Require Import Prelude Errors GoInt GoStrings NetIP GoFloat Model GoJson Storage Service FileStore Http AuditTrail Dashboard Handler HandlerFacts Hash Crypto Compress Middleware.

(** ** Replies that set headers, then the status, then write *)

Definition tidy (hs : list wop) (code : Z) (ds : list string) : list wop := hs ++ [WriteHeader code] ++ map Write ds.

Definition header_after (hs : list wop) (h : header) : header :=
  fold_left (fun h op => match op with HSet k v => header_Set k v h | HDel k => header_Del k h | _ => h end) hs h.

Definition headers_only (hs : list wop) : Prop := Forall (fun op => Middleware.header_op op = true) hs.

Lemma header_after_app a b h : header_after (a ++ b) h = header_after b (header_after a h).
Proof. apply fold_left_app. Qed.

Lemma perform_headers hs w : headers_only hs ->
  perform_all hs w = MkWriter (header_after hs (live w)) (sent w) (written w).
Proof.
  intros Hhs. revert w. induction Hhs as [|op hs Hop _ IH]; intros w; [by destruct w|].
  unfold perform_all in *. cbn [fold_left]. rewrite IH. by destruct op.
Qed.

Lemma perform_writes ds w x : sent w = Some x ->
  perform_all (map Write ds) w = MkWriter (live w) (Some x) (written w +:+ concat_strings ds).
Proof.
  unfold perform_all. revert w. induction ds as [|d ds IH]; intros w Hw; cbn [map fold_left].
  - destruct w as [l s b]. cbn in *. by rewrite Hw, string_app_nil_r.
  - cbn [perform]. unfold send_header. rewrite Hw, IH by done. cbn [live written]. by rewrite string_app_assoc.
Qed.

Lemma respond_tidy hs code ds : headers_only hs ->
  respond (tidy hs code ds) = MkResponse code (header_after hs ∅) (concat_strings ds).
Proof.
  intros Hhs. unfold respond, tidy. rewrite !perform_all_app, (perform_headers hs) by done. cbn [live sent written].
  change (perform_all [WriteHeader code] ?w) with (send_header code w). 
  rewrite (perform_writes ds (send_header code _) (code, header_after hs ∅)) by reflexivity. reflexivity.
Qed.

(** [ops] sets the headers [k] does not belong to. *)
Definition untouched (k : string) (ops : list wop) : Prop :=
  Forall (fun op => match op with HSet k' _ | HDel k' => CanonicalKey k <> CanonicalKey k' | _ => True end) ops.

Lemma header_after_untouched k hs h : untouched k hs -> header_Get k (header_after hs h) = header_Get k h.
Proof.
  intros Hk. revert h. induction Hk as [|op hs Hop _ IH]; intros h; [done|]. cbn [header_after fold_left].
  change (header_Get k (header_after hs (match op with HSet k v => header_Set k v h | HDel k => header_Del k h | _ => h end))
    = header_Get k h).
  rewrite IH. destruct op; [by apply header_Get_Set_ne|by apply header_Get_Del_ne|done..].
Qed.

(** A reply whose handler leaves the headers of the middleware alone. *)
Definition plain_reply (ops : list wop) : Prop :=
  exists hs code ds, ops = tidy hs code ds /\ headers_only hs /\ (0 < code)%Z /\
    untouched "Content-Encoding" hs /\ untouched HeaderHashSHA256 hs.

Ltac plain hs code ds :=
  exists hs, code, ds;
  split_and!; [reflexivity|repeat constructor|done|repeat (constructor; [done|]); constructor..].

Lemma plain_error msg code : (0 < code)%Z -> plain_reply (http_Error msg code).
Proof.
  intros.
  plain [HDel "Content-Length"; HSet "Content-Type" "text/plain; charset=utf-8";
    HSet "X-Content-Type-Options" "nosniff"] code [msg +:+ newline].
Qed.

Lemma plain_status code : (0 < code)%Z -> plain_reply [WriteHeader code].
Proof. intros. plain (@nil wop) code (@nil string). Qed.

Lemma plain_one k v code d :
  CanonicalKey "Content-Encoding" <> CanonicalKey k -> CanonicalKey HeaderHashSHA256 <> CanonicalKey k ->
  (0 < code)%Z -> plain_reply [HSet k v; WriteHeader code; Write d].
Proof. intros. plain [HSet k v] code [d]. Qed.

Lemma plain_error_reply `{UnicodeTables, PgErrorText} err : plain_reply (Handler.error_reply err).
Proof. apply plain_error. rewrite error_status. by destruct (Is _ _). Qed.

#[local] Hint Resolve plain_error plain_status plain_error_reply : go.
#[local] Hint Extern 1 (0 < _)%Z => reflexivity : go.

Section Endpoints.
Context {S : Type} `{Storage S} `{UnicodeTables, PgErrorText, JsonErrorText, MapRange}.

Lemma plain_json x (w : world S) : plain_reply (Handler.json_reply x w).2.
Proof.
  unfold Handler.json_reply. destruct (Encode_metric x) as [txt|]; cbn [snd app].
  - by apply plain_one.
  - plain [HSet "Content-Type" "application/json"] StatusOK (@nil string).
Qed.

(** Every endpoint's reply is of that form. *)
Lemma handle_plain (h : Handler.t S) e r w : plain_reply (Handler.handle h e r w).2.
Proof.
  destruct e; cbn [Handler.handle].
  - unfold Handler.ListMetrics. destruct (Handler.on_storage _ _) as [w' m]. by apply plain_one.
  - unfold Handler.Ping. destruct (Handler.pinger h); [|eauto with go].
    destruct (Handler.on_storage _ _) as [w' [e|]]; unfold Handler.internalError; eauto with go.
  - unfold Handler.UpdateMetricJSON. destruct (Decode_metric _); [|eauto with go].
    case_bool_decide; [eauto with go|].
    destruct (Handler.on_storage _ _) as [w' [e|]]; [eauto with go|].
    destruct (Handler.on_storage _ _) as [w2 [x|e]]; [apply plain_json|unfold Handler.internalError; eauto with go].
  - unfold Handler.GetValueJSON. destruct (Decode_metric _); [|eauto with go].
    case_bool_decide; [eauto with go|].
    destruct (Handler.on_storage _ _) as [w' [x|e]]; [apply plain_json|eauto with go].
  - unfold Handler.UpdateMetricsBatch. destruct (Decode_metrics _); [|eauto with go].
    case_bool_decide; [eauto with go|].
    destruct (Handler.on_storage _ _) as [w' [e|]]; unfold Handler.internalError; eauto with go.
  - unfold Handler.UpdateMetric. case_bool_decide; [eauto with go|].
    destruct (Handler.on_storage _ _) as [w' [e|]]; eauto with go.
  - unfold Handler.GetValue. case_bool_decide; [eauto with go|].
    destruct (Handler.on_storage _ _) as [w' [x|e]]; [by apply plain_one|eauto with go].
Qed.
End Endpoints.

(** What the program relies on of chi: its own answers are of that form, and a
    request for a path without parameters goes to its route. *)
Class ChiLaws `{Chi} := {
  chi_default_plain r : plain_reply (chi_default r);
  chi_static {E} (routes : list (string * string * E)) method path e :
    (method, path, e) ∈ routes -> Contains path "{" = false ->
    NoDup (fst <$> routes) -> exists params, chi_route routes method path = Some (e, params)
}.

(** ** The middleware on such replies *)

Section Stack.
Context `{Gzip}.

Lemma gzip_ops_headers ds hs ops : headers_only hs -> Middleware.gzip_ops ds (hs ++ ops) = hs ++ Middleware.gzip_ops ds ops.
Proof. induction 1 as [|op hs Hop _ IH]; [done|]. destruct op; cbn; by rewrite ?IH. Qed.

Lemma gzip_ops_writes ds ds' : Middleware.gzip_ops ds (map Write ds') = map Write (gzip_calls ds ds').
Proof. revert ds. induction ds' as [|d ds' IH]; intros ds; [done|]. cbn. by rewrite IH, map_app. Qed.

Lemma gzip_ops_tidy hs code ds : headers_only hs ->
  Middleware.gzip_ops [] (tidy hs code ds) = tidy hs code (gzip_calls [] ds).
Proof. intros. unfold tidy. rewrite gzip_ops_headers by done. cbn. by rewrite gzip_ops_writes. Qed.

Lemma body_of_tidy hs code ds : headers_only hs -> body_of (tidy hs code ds) = concat_strings ds.
Proof. intros Hhs. rewrite <- respond_body. by rewrite respond_tidy. Qed.

Lemma seen_status_tidy hs code ds : headers_only hs -> Middleware.seen_status (tidy hs code ds) = code.
Proof.
  intros Hhs. unfold Middleware.seen_status, tidy. rewrite fold_left_app.
  assert (forall s, fold_left (fun s op => match op with WriteHeader s' => s' | _ => s end) hs s = s) as ->.
  { induction Hhs as [|op hs Hop _ IH]; intros s; [done|]. by destruct op; cbn. }
  cbn. generalize code. induction ds; intros; cbn; auto.
Qed.

Lemma filter_tidy hs code ds : headers_only hs -> filter Middleware.header_op (tidy hs code ds) = hs.
Proof.
  intros Hhs. unfold tidy. rewrite !filter_app.
  assert (filter Middleware.header_op (map Write ds) = []) as -> by (by induction ds).
  change (filter Middleware.header_op [WriteHeader code]) with (@nil wop). rewrite app_nil_r.
  induction Hhs as [|op hs Hop _ IH]; [done|]. rewrite filter_cons, decide_True by (by rewrite Hop). by rewrite IH.
Qed.

Lemma hash_ops_tidy key hs code ds : headers_only hs -> key <> "" -> code <> 0%Z ->
  Middleware.hash_ops key (tidy hs code ds)
  = tidy (hs ++ [HSet HeaderHashSHA256 (Sign (concat_strings ds) key)]) code [concat_strings ds].
Proof.
  intros Hhs Hkey Hcode. unfold Middleware.hash_ops. rewrite filter_tidy, body_of_tidy, seen_status_tidy by done.
  rewrite bool_decide_false by done. rewrite (proj2 (Z.eqb_neq code 0)) by done.
  unfold tidy. cbn [negb]. by rewrite <- app_assoc.
Qed.
End Stack.

(** ** The router *)

Lemma seen_size_body ops : Middleware.seen_size ops = Z.of_nat (String.length (body_of ops)).
Proof.
  unfold Middleware.seen_size, body_of.
  assert (forall n, fold_left (fun n op => match op with Write d => n + Z.of_nat (String.length d) | _ => n end)%Z ops n
    = (n + Z.of_nat (String.length (concat_strings (omap (fun op => match op with Write d => Some d | _ => None end) ops))))%Z)
    as Hs; [|by rewrite Hs].
  induction ops as [|op ops IH]; intros n; cbn [fold_left]; [cbn; lia|]. rewrite IH.
  destruct op; cbn [omap list_omap]; [done..|]. cbn [concat_strings foldr].
  change (String.append data ?x) with (data +:+ x). rewrite string_length_app. unfold concat_strings. lia.
Qed.

Section Router.
Context {S : Type} `{Storage S} `{UnicodeTables, PgErrorText, JsonErrorText, MapRange}.
Context `{CL : ChiLaws, Primitives, GL : GzipLaws}.

(** The sender's address is in the subnet, when one is configured. *)
Definition trusted (cidr : string) (r : request) : bool :=
  bool_decide (cidr = "") ||
  match ParseCIDR cidr, ParseIP (header_Get HeaderXRealIP (Header r)) with
  | Ok network, Some ip => Net_Contains network ip
  | _, _ => false
  end.

(** The request after decryption, if it can be decrypted. *)
Definition decrypted (priv : option PrivateKey) (r : request) : option request :=
  match priv with
  | None => Some r
  | Some priv =>
      if bool_decide (header_Get HeaderCryptoEncrypted (Header r) = "") then Some r
      else
        match ReadAll (Body r) with
        | Err _ => None
        | Ok envelope =>
            match Crypto.Decrypt priv envelope with
            | Some (Ok text) =>
                Some (with_header (header_Del HeaderCryptoEncrypted (Header r)) (with_body (NewReader text) r))
            | _ => None
            end
        end
  end.

Definition unzipped (r : request) : option request :=
  if bool_decide (header_Get "Content-Encoding" (Header r) = "gzip") then
    match gzip_NewReader (Body r) with Ok b => Some (with_body b r) | Err _ => None end
  else Some r.

(** The request if its body is readable and it is not signed falsely. *)
Definition verified (key : string) (r : request) : option request :=
  if bool_decide (key = "") then Some r
  else
    match ReadAll (Body r) with
    | Err _ => None
    | Ok b =>
        if bool_decide (header_Get HeaderHashSHA256 (Header r) = "")
           || Equal (header_Get HeaderHashSHA256 (Header r)) (Sign b key)
        then Some (with_body (NewReader b) r) else None
    end.

(** The request that reaches the routes, if one does. *)
Definition arriving (cidr key : string) (priv : option PrivateKey) (r : request) : option request :=
  if trusted cidr r then r ← decrypted priv r; r ← unzipped r; verified key r else None.

(** What the client reads of the reply is [body]. *)
Definition reads (r : request) (ops : list wop) (body : string) : Prop :=
  if Contains (header_Get "Accept-Encoding" (Header r)) "gzip" then
    header_Get "Content-Encoding" (resp_header (respond ops)) = "gzip" /\
    gzip_NewReader (NewReader (reply ops)) = Ok (NewReader body)
  else reply ops = body.

(** [ops] sends the status and the body of [ops1], signed with [key]. *)
Definition signed_copy (key : string) (ops ops1 : list wop) : Prop :=
  exists hs ds, ops = tidy hs (status ops1) ds /\ headers_only hs /\ (0 < status ops1)%Z /\
    untouched "Content-Encoding" hs /\ concat_strings ds = reply ops1 /\
    (key <> "" -> forall h, header_Get HeaderHashSHA256 (header_after hs h) = Sign (reply ops1) key).

Lemma plain_signed ops : plain_reply ops -> signed_copy "" ops ops.
Proof.
  intros (hs & code & ds & -> & Hhs & Hc & Hu & _). unfold signed_copy, status, reply. rewrite respond_tidy by done.
  exists hs, ds. by split_and!.
Qed.

(** A middleware that passes a request on, or rejects it without an effect. *)
Definition rejects (w w' : world S) (ops : list wop) : Prop :=
  st w' = st w /\ spawned w' = spawned w /\ (400 <= status ops)%Z /\
  exists hs ds, ops = tidy hs (status ops) ds /\ headers_only hs.

Lemma rejected_error w w' msg code :
  st w' = st w -> spawned w' = spawned w -> (400 <= code)%Z -> rejects w w' (http_Error msg code).
Proof.
  intros. split_and!; [done..|by rewrite status_error|]. rewrite status_error.
  eexists [_; _; _], [_]. split; [reflexivity|repeat constructor].
Qed.

Lemma hash_step key next r w :
  (forall r w, plain_reply (next r w).2) ->
  let '(w', ops) := Middleware.Use (Middleware.HashMiddleware key) next r w in
  match verified key r with
  | None => rejects w w' ops
  | Some r' => let '(w1, ops1) := next r' w in w' = w1 /\ signed_copy key ops ops1
  end.
Proof.
  intros Hn. unfold Middleware.HashMiddleware, verified. destruct (decide (key = "")) as [->|Hk].
  { rewrite !bool_decide_true by done. cbn [Middleware.Use]. pose proof (Hn r w).
    destruct (next r w). split; [done|by apply plain_signed]. }
  rewrite !(bool_decide_false (key = "")) by done. cbn [Middleware.Use].
  destruct (ReadAll (Body r)) as [b|e]; [|by apply rejected_error]. cbn [Header with_body].
  destruct (bool_decide (header_Get HeaderHashSHA256 (Header r) = "")), (Equal _ _);
    cbn [negb andb orb]; try by apply rejected_error.
  all: pose proof (Hn (with_body (NewReader b) r) w) as (hs & code & ds & He & Hhs & Hc & Hu & Hu').
  all: destruct (next _ _) as [w1 ops1]; cbn [snd] in He; subst ops1; split; [done|].
  all: rewrite hash_ops_tidy by (done || lia); unfold signed_copy, status, reply; rewrite respond_tidy by done.
  all: eexists _, _; split_and!; [reflexivity|by apply Forall_app; split; [|repeat constructor]|done| |apply string_app_nil_r|].
  all: try (by apply Forall_app; split; [done|repeat constructor]).
  all: intros _ h; rewrite header_after_app; apply header_Get_Set.
Qed.

(** A reply as the client of [r] reads it, with its signature. *)
Definition delivers (key : string) (r : request) (ops ops1 : list wop) : Prop :=
  status ops = status ops1 /\ reads r ops (reply ops1) /\
  (key <> "" -> header_Get HeaderHashSHA256 (resp_header (respond ops)) = Sign (reply ops1) key) /\
  exists hs ds, ops = tidy hs (status ops) ds /\ headers_only hs.

Lemma gzip_headers : headers_only [HSet "Content-Encoding" "gzip"; HDel "Content-Length"].
Proof. repeat constructor. Qed.

(** The compressed form of a reply. *)
Lemma zipped hs code ds :
  headers_only hs ->
  [HSet "Content-Encoding" "gzip"; HDel "Content-Length"] ++ Middleware.gzip_ops [] (tidy hs code ds)
  = tidy ([HSet "Content-Encoding" "gzip"; HDel "Content-Length"] ++ hs) code (gzip_calls [] ds).
Proof. intros. rewrite gzip_ops_tidy by done. reflexivity. Qed.

Lemma gzip_delivers key r ops ops1 :
  signed_copy key ops ops1 ->
  delivers key r
    (if Contains (header_Get "Accept-Encoding" (Header r)) "gzip" then
       [HSet "Content-Encoding" "gzip"; HDel "Content-Length"] ++ Middleware.gzip_ops [] ops
     else ops) ops1.
Proof using GL.
  intros (hs & ds & -> & Hhs & Hc & Hu & Hb & Hk). unfold delivers, reads.
  assert (headers_only ([HSet "Content-Encoding" "gzip"; HDel "Content-Length"] ++ hs)) as Hhs'
    by (apply Forall_app; split; [apply gzip_headers|done]).
  destruct (Contains _ _).
  - rewrite zipped by done. unfold status, reply. rewrite respond_tidy by done.
    cbn [resp_status resp_header resp_body]. split; [done|]. split; [split|].
    + rewrite header_after_app, header_after_untouched by done. reflexivity.
    + rewrite gzip_round_trip. unfold reply in Hb. by rewrite Hb.
    + split; [intros Hne; rewrite header_after_app; by apply Hk|]. by eexists _, _.
  - unfold status, reply. rewrite respond_tidy by done. cbn [resp_status resp_header resp_body].
    split; [done|]. split; [done|]. split; [intros Hne; by apply Hk|]. by eexists _, _.
Qed.

Lemma gzip_rejects r w w' ops :
  rejects w w' ops ->
  rejects w w' (if Contains (header_Get "Accept-Encoding" (Header r)) "gzip" then
    [HSet "Content-Encoding" "gzip"; HDel "Content-Length"] ++ Middleware.gzip_ops [] ops else ops).
Proof.
  intros (Hst & Hsp & Hs & hs & ds & He & Hhs). destruct (Contains _ _); [|by split_and!; [..|exists hs, ds]].
  set (code := status ops) in *. clearbody code. subst ops. rewrite zipped by done.
  assert (headers_only ([HSet "Content-Encoding" "gzip"; HDel "Content-Length"] ++ hs)) as Hhs'
    by (apply Forall_app; split; [apply gzip_headers|done]).
  split_and!; [done..| |]; unfold status; rewrite respond_tidy by done; [done|]. by eexists _, _.
Qed.

Lemma gzip_step (serve_at : http_Handler (world S)) key next verify r w :
  (forall r w, let '(w', ops) := next r w in
     match verify r with
     | None => rejects w w' ops
     | Some r' => let '(w1, ops1) := serve_at r' w in w' = w1 /\ signed_copy key ops ops1
     end) ->
  let '(w', ops) := Middleware.GzipMiddleware next r w in
  match r' ← unzipped r; verify r' with
  | None => rejects w w' ops
  | Some r' => let '(w1, ops1) := serve_at r' w in w' = w1 /\ delivers key r ops ops1
  end.
Proof using GL.
  intros Hn. unfold Middleware.GzipMiddleware, unzipped.
  assert (forall r', Header r' = Header r ->
    let '(w', ops) := (if negb (Contains (header_Get "Accept-Encoding" (Header r')) "gzip") then next r' w
      else let '(w, ops) := next r' w in
        (w, [HSet "Content-Encoding" "gzip"; HDel "Content-Length"] ++ Middleware.gzip_ops [] ops)) in
    match verify r' with
    | None => rejects w w' ops
    | Some r' => let '(w1, ops1) := serve_at r' w in w' = w1 /\ delivers key r ops ops1
    end) as Ha.
  { intros r' ->. pose proof (Hn r' w) as Hr. pose proof (fun ops ops1 => gzip_delivers key r ops ops1) as Hd.
    pose proof (fun w' ops => gzip_rejects r w w' ops) as Hj.
    destruct (Contains _ _), (next r' w) as [w' ops]; cbn [negb]; destruct (verify r') as [r2|]; try by apply Hj.
    all: destruct (serve_at r2 w) as [w1 ops1]; destruct Hr as [-> Hr]; split; [done|by apply Hd]. }
  case_bool_decide; [|by apply Ha]. destruct (gzip_NewReader (Body r)) as [b|e]; [by apply Ha|].
  by apply rejected_error.
Qed.

Lemma serve_plain h r w : plain_reply (serve h r w).2.
Proof using CL.
  unfold serve. destruct (chi_route _ _ _) as [[e params]|]; [apply handle_plain|apply chi_default_plain].
Qed.

(** The part of the stack below the trusted-subnet check. *)
Lemma crypto_step h key priv r w :
  let '(w', ops) := Middleware.Use (Middleware.CryptoMiddleware priv)
    (Middleware.GzipMiddleware (Middleware.Use (Middleware.HashMiddleware key) (serve h))) r w in
  match r1 ← decrypted priv r; r2 ← unzipped r1; verified key r2 with
  | None => rejects w w' ops
  | Some r' => let '(w1, ops1) := serve h r' w in w' = w1 /\ delivers key r ops ops1
  end.
Proof using CL GL.
  set (inner := Middleware.GzipMiddleware _).
  assert (forall r1, header_Get "Accept-Encoding" (Header r1) = header_Get "Accept-Encoding" (Header r) ->
    let '(w', ops) := inner r1 w in
    match r2 ← unzipped r1; verified key r2 with
    | None => rejects w w' ops
    | Some r' => let '(w1, ops1) := serve h r' w in w' = w1 /\ delivers key r ops ops1
    end) as Hi.
  { intros r1 Ha. subst inner.
    pose proof (gzip_step (serve h) key (Middleware.Use (Middleware.HashMiddleware key) (serve h)) (verified key) r1 w
      (fun r w => hash_step key (serve h) r w (serve_plain h))) as Hg.
    destruct (Middleware.GzipMiddleware _ r1 w) as [w' ops]. destruct (_ ≫= _) as [r'|]; [|done].
    destruct (serve h r' w) as [w1 ops1]. unfold delivers, reads in *. by rewrite Ha in Hg. }
  unfold Middleware.CryptoMiddleware, decrypted. destruct priv as [p|]; cbn [Middleware.Use]; [|by apply Hi].
  case_bool_decide; [by apply Hi|]. destruct (ReadAll (Body r)) as [envelope|]; [|by apply rejected_error].
  destruct (Crypto.Decrypt_returns p envelope) as [[text|err] ->]; [|by apply rejected_error].
  cbn [mbind option_bind]. apply Hi. by apply header_Get_Del_ne.
Qed.

(** The stack below the access log. *)
Lemma router_step h cidr key priv subnet r w :
  Middleware.TrustedSubnetMiddleware cidr = Ok subnet ->
  let '(w', ops) := Middleware.Use subnet (Middleware.Use (Middleware.CryptoMiddleware priv)
    (Middleware.GzipMiddleware (Middleware.Use (Middleware.HashMiddleware key) (serve h)))) r w in
  match arriving cidr key priv r with
  | None => rejects w w' ops
  | Some r' => let '(w1, ops1) := serve h r' w in w' = w1 /\ delivers key r ops ops1
  end.
Proof using CL GL.
  intros Hm. pose proof (crypto_step h key priv r w) as Hc. unfold arriving, trusted.
  revert Hm. unfold Middleware.TrustedSubnetMiddleware. case_bool_decide as Hd.
  - intros [= <-]. exact Hc.
  - destruct (ParseCIDR cidr) as [network|]; [|done]. intros [= <-]. cbn [Middleware.Use orb].
    destruct (ParseIP _) as [ip|]; [|by apply rejected_error].
    destruct (Net_Contains network ip); [exact Hc|by apply rejected_error].
Qed.

(** C7. What the router does with a request.  A request from outside the trusted
    subnet, whose body cannot be read, decrypted or decompressed, or whose
    signature is not the one of its decompressed body, gets a 4xx or 5xx answer
    and touches neither the storage nor the audit trail.  Every other one reaches
    the routes decrypted and decompressed, and the status and body of the
    endpoint's answer are what the client reads, decompressing when it asked for
    gzip, signed under the server's key.  The access log gets one line per request
    with the status and the size that were sent. *)
Theorem router_spec h cidr key priv subnet r w :
  Middleware.TrustedSubnetMiddleware cidr = Ok subnet ->
  let '(w', ops) := Middleware.newRouter h key priv subnet r w in
  last (logs w') = Some (AccessLine (RequestURI r) (Method r) (status ops) (Z.of_nat (String.length (reply ops)))) /\
  match arriving cidr key priv r with
  | None => st w' = st w /\ spawned w' = spawned w /\ (400 <= status ops)%Z
  | Some r' =>
      let '(w1, ops1) := serve h r' w in
      st w' = st w1 /\ spawned w' = spawned w1 /\ status ops = status ops1 /\ reads r ops (reply ops1) /\
      (key <> "" -> header_Get HeaderHashSHA256 (resp_header (respond ops)) = Sign (reply ops1) key)
  end.
Proof using CL GL.
  intros Hm. pose proof (router_step h cidr key priv subnet r w Hm) as Hs.
  unfold Middleware.newRouter, Middleware.Logger.
  destruct (Middleware.Use subnet _ r w) as [w' ops]. cbn [logs log]. rewrite last_snoc.
  assert (forall hs ds, ops = tidy hs (status ops) ds /\ headers_only hs ->
    Middleware.seen_status ops = status ops /\ Middleware.seen_size ops = Z.of_nat (String.length (reply ops))) as Hl.
  { intros hs ds [He Hhs]. split; [rewrite He at 1; by apply seen_status_tidy|].
    unfold reply. rewrite respond_body. apply seen_size_body. }
  destruct (arriving cidr key priv r) as [r'|].
  - destruct (serve h r' w) as [w1 ops1]. destruct Hs as [-> (? & ? & ? & hs & ds & Ht)].
    destruct (Hl hs ds Ht) as [-> ->]. by split_and!.
  - destruct Hs as (? & ? & ? & hs & ds & Ht). destruct (Hl hs ds Ht) as [-> ->]. by split_and!.
Qed.
End Router.
