(* ===== verification/Sender.v ===== *)
(** * internal/agent: the HTTP sender

    Building, signing, compressing and encrypting a report, and sending it with
    retries.  The HTTP client acts on a state of its own, which holds the random
    source too. *)

From S2P Require Import Prelude Errors GoInt GoStrings GoFloat Model GoJson Retry Http Hash Crypto Compress Middleware.

(** [httpClient.Do]: the status of the response, or a [*url.Error]. *)
Class HttpClient (N : Type) := {
  client_Do : request -> N -> N * res Z;
  next_entropy : N -> N * Crypto.entropy;
  client_sleep : Z -> N -> N
}.

(** An address of [net.InterfaceAddrs]. *)
Record iface_addr := MkAddr { is_IPNet : bool; IsLoopback : bool; To4 : option string }.

Module Sender.

Record t `{Primitives} := NewSender_at {
  serverURL : string;
  key : string;
  pubKey : option PublicKey;
  localIP : string
}.

(** [detectLocalIPv4], given what [net.InterfaceAddrs] answers. *)
Definition detectLocalIPv4 (addrs : res (list iface_addr)) : string :=
  match addrs with
  | Err _ => ""
  | Ok addrs =>
      let usable a := if negb (is_IPNet a) || IsLoopback a then None else To4 a in
      default "" (head (omap usable addrs))
  end.

Definition isRetriableHTTPError (err : error) : bool :=
  match As_UrlError err with
  | Some (timeout, temporary) => timeout || temporary
  | None => false
  end.

Section Operations.
Context `{Primitives, Gzip, URLs}.

Definition NewSender (serverURL key : string) (pubKey : option PublicKey) (addrs : res (list iface_addr)) : t :=
  NewSender_at _ serverURL key pubKey (detectLocalIPv4 addrs).

Definition wrap_err {A} (msg : string) (r : res A) : res A :=
  match r with Ok a => Ok a | Err e => Err (Errorf msg e) end.

(** [newRequest]; the random bytes are those [crypto.Encrypt] draws. *)
Definition newRequest (s : t) (rnd : Crypto.entropy) (url body : string) : res request :=
  gz ← wrap_err "compress: " (GzipData body);
  reqBody ← match pubKey s with
            | Some pub => wrap_err "encrypt: " (Crypto.Encrypt rnd pub gz)
            | None => Ok gz
            end;
  uri ← wrap_err "create request: " (url_RequestURI url);
  let h := header_Set "Accept-Encoding" "gzip"
             (header_Set "Content-Encoding" "gzip" (header_Set "Content-Type" "application/json" ∅)) in
  let h := match pubKey s with Some _ => header_Set HeaderCryptoEncrypted "1" h | None => h end in
  let h := if negb (bool_decide (localIP s = "")) then header_Set HeaderXRealIP (localIP s) h else h in
  let h := if negb (bool_decide (key s = "")) then header_Set HeaderHashSHA256 (Sign body (key s)) h else h in
  Ok (MkRequest "POST" uri h "" (NewReader reqBody) (fun _ => "")).

Context {N : Type} `{HttpClient N}.

(** What [send] and [sendBatch] do with an encoded body: build the request, send
    it, look at the status. *)
Definition post (s : t) (url : string) (build_msg send_msg status_msg : string) (body : res string) (n : N)
    : N * option error :=
  match body with
  | Err err => (n, Some err)
  | Ok body =>
      let '(n, rnd) := match pubKey s with Some _ => next_entropy n | None => (n, Crypto.MkEntropy (Ok "") (Ok "") "") end in
      match newRequest s rnd url body with
      | Err err => (n, Some (Errorf build_msg err))
      | Ok req =>
          match client_Do req n with
          | (n, Err err) => (n, Some (Errorf send_msg err))
          | (n, Ok code) =>
              if negb (code =? StatusOK)%Z then (n, Some (ErrorText (status_msg +:+ FormatInt code)))
              else (n, None)
          end
      end
  end.

Definition send (s : t) (m : Metrics) : closure N :=
  post s (serverURL s +:+ "/update")
    ("build request for metric " +:+ ID m +:+ ": ") ("send metric " +:+ ID m +:+ ": ")
    ("unexpected status for metric " +:+ ID m +:+ ": ") (wrap_err "marshal metric: " (Marshal_metric m)).

Definition sendBatch (s : t) (metrics : list Metrics) : closure N :=
  post s (serverURL s +:+ "/updates/") "build batch request: " "send batch: " "unexpected status for batch: "
    (wrap_err "marshal metrics: " (Marshal_metrics metrics)).

Context `{RetryGo}.

(** The function [SendMetrics] retries. *)
Fixpoint send_each (s : t) (metrics : list Metrics) (n : N) : N * option error :=
  match metrics with
  | [] => (n, None)
  | m :: metrics =>
      match send s m n with
      | (n, Some err) => (n, Some err)
      | (n, None) => send_each s metrics n
      end
  end.

Definition SendMetrics (s : t) (metrics : list Metrics) : closure N :=
  Do client_sleep (send_each s metrics) isRetriableHTTPError.

Definition SendBatch (s : t) (metrics : list Metrics) : closure N := fun n =>
  if bool_decide (length metrics = 0) then (n, None)
  else Do client_sleep (sendBatch s metrics) isRetriableHTTPError n.
End Operations.
End Sender.
