(* ===== verification/Delivery.v ===== *)
(** * From the agent to the server

    The agent's HTTP sender and the server's router, joined by a network that can
    lose requests and replies: what reaches the storage, and how often. *)

From S2P Require Import Prelude Errors GoInt GoStrings NetIP GoFloat Model GoJson Storage Retry Service FileStore Http AuditTrail Dashboard Handler HandlerFacts Hash Crypto Compress Middleware MiddlewareFacts Sender.
Import HandlerFacts.HandlerFacts.

(** What happens to one exchange: it works; the request gets lost; or the server
    handles the request and the reply gets lost. *)
Inductive net_event :=
| Exchanged
| LostRequest (e : error)
| LostReply (e : error).

(** The server's view of a request comes with the address of the connection. *)
Definition with_remote (addr : string) (r : request) : request :=
  MkRequest (Method r) (RequestURI r) (Header r) addr (Body r) (URLParam r).

Module Delivery.

(** Everything the sender's calls act on: the server, the script of the network
    (every exchange works when it is used up), the random source, and the sleeps. *)
Record net (S : Type) := MkNet {
  server : world S;
  script : list net_event;
  random : nat -> Crypto.entropy;
  drawn : nat;
  slept : list Z
}.
Arguments MkNet {S} _ _ _ _ _.
Arguments server {S} _.
Arguments script {S} _.
Arguments random {S} _.
Arguments drawn {S} _.
Arguments slept {S} _.

Section Client.
Context {S : Type} (serve_http : http_Handler (world S)) (addr : string).

Definition exchange (r : request) (n : net S) : net S * Z :=
  let '(w, ops) := serve_http (with_remote addr r) (server n) in
  (MkNet w (script n) (random n) (drawn n) (slept n), status ops).

Definition net_Do (r : request) (n : net S) : net S * res Z :=
  match script n with
  | [] => let '(n, code) := exchange r n in (n, Ok code)
  | ev :: rest =>
      let n := MkNet (server n) rest (random n) (drawn n) (slept n) in
      match ev with
      | Exchanged => let '(n, code) := exchange r n in (n, Ok code)
      | LostRequest e => (n, Err e)
      | LostReply e => ((exchange r n).1, Err e)
      end
  end.

Definition net_client : HttpClient (net S) := {|
  client_Do := net_Do;
  next_entropy n := (MkNet (server n) (script n) (random n) (Datatypes.S (drawn n)) (slept n), random n (drawn n));
  client_sleep d n := MkNet (server n) (script n) (random n) (drawn n) (slept n ++ [d]) |}.
End Client.

(** ** A request of the sender at the router *)

Section Arrival.
Context `{PL : PrimitiveLaws, GL : GzipLaws, URLs}.

(** Sender and server are configured for each other: a key they both have is the
    same, and the sender encrypts only for the server's private key. *)
Definition configured (s : Sender.t) (key : string) (priv : option PrivateKey) : Prop :=
  (key = "" \/ Sender.key s = "" \/ Sender.key s = key) /\
  (Sender.pubKey s = None \/ exists p, priv = Some p /\ Sender.pubKey s = Some (public_of p)).

Definition entropy_ok (rnd : Crypto.entropy) : Prop :=
  forall nonce, Crypto.nonce_bytes rnd = Ok nonce -> String.length nonce = NonceSize.

Ltac headers := rewrite ?header_Get_Set; repeat (rewrite header_Get_Set_ne by (by vm_compute); rewrite ?header_Get_Set).

(** The headers and the body of a request. *)
Lemma newRequest_spec s rnd url body r :
  Sender.newRequest s rnd url body = Ok r ->
  Method r = "POST" /\ url_RequestURI url = Ok (RequestURI r) /\
  (exists gz sent, GzipData body = Ok gz /\ Body r = NewReader sent /\
     match Sender.pubKey s with Some pub => Crypto.Encrypt rnd pub gz = Ok sent | None => sent = gz end) /\
  header_Get HeaderCryptoEncrypted (Header r) = (match Sender.pubKey s with Some _ => "1" | None => "" end) /\
  header_Get "Content-Encoding" (Header r) = "gzip" /\
  header_Get "Accept-Encoding" (Header r) = "gzip" /\
  header_Get HeaderXRealIP (Header r) = Sender.localIP s /\
  header_Get HeaderHashSHA256 (Header r)
  = (if bool_decide (Sender.key s = "") then "" else Sign body (Sender.key s)).
Proof.
  unfold Sender.newRequest. destruct (GzipData body) as [gz|] eqn:Hgz; [cbn [Sender.wrap_err mbind result_bind]|done].
  intros (sent & Hsent & (uri & Huri & [= <-])%bind_Ok)%bind_Ok.
  cbn [Method RequestURI Body Header]. split; [done|].
  split; [destruct (url_RequestURI url); by simplify_eq/=|]. split.
  { exists gz, sent. split_and!; [done..|]. destruct (Sender.pubKey s); [|by simplify_eq].
    destruct (Crypto.Encrypt _ _ _); by simplify_eq/=. }
  destruct (decide (Sender.localIP s = "")) as [Hip|Hip]; rewrite ?(bool_decide_true (Sender.localIP s = "")),
    ?(bool_decide_false (Sender.localIP s = "")) by done;
  (destruct (decide (Sender.key s = "")) as [Hk|Hk]; rewrite ?(bool_decide_true (Sender.key s = "")),
    ?(bool_decide_false (Sender.key s = "")) by done);
  cbn [negb]; destruct (Sender.pubKey s); split_and!; headers; rewrite ?Hip; reflexivity.
Qed.

(** It arrives at the routes with the body it was made for. *)
Lemma newRequest_arrives s rnd url body r cidr key priv addr :
  Sender.newRequest s rnd url body = Ok r -> configured s key priv -> entropy_ok rnd ->
  trusted cidr r = true ->
  exists r', arriving cidr key priv (with_remote addr r) = Some r' /\ Body r' = NewReader body /\
    Method r' = "POST" /\ url_RequestURI url = Ok (RequestURI r') /\
    header_Get HeaderXRealIP (Header r') = Sender.localIP s.
Proof using PL GL.
  intros Hr [Hkey Hpub] Hrnd Ht.
  destruct (newRequest_spec s rnd url body r Hr) as (Hm & Hu & (gz & sent & Hgz & Hb & Hs) & Hc & Hce & _ & Hip & Hh).
  destruct (GzipData_reads_back body) as (gz' & Hgz' & Hun). rewrite Hgz in Hgz'. injection Hgz' as <-.
  assert (forall r1, Header r1 = Header r \/ Header r1 = header_Del HeaderCryptoEncrypted (Header r) ->
    Body r1 = NewReader gz -> RequestURI r1 = RequestURI r -> Method r1 = Method r ->
    exists r', (r2 ← unzipped r1; verified key r2) = Some r' /\ Body r' = NewReader body /\
    Method r' = "POST" /\ url_RequestURI url = Ok (RequestURI r') /\
    header_Get HeaderXRealIP (Header r') = Sender.localIP s) as Hin.
  { intros r1 Hh1 Hb1 Hu1 Hm1.
    assert (forall k, CanonicalKey k <> CanonicalKey HeaderCryptoEncrypted ->
      header_Get k (Header r1) = header_Get k (Header r)) as Hg.
    { intros k Hk. destruct Hh1 as [->| ->]; [done|by apply header_Get_Del_ne]. }
    unfold unzipped. rewrite Hg, Hce, bool_decide_true, Hb1, Hun by done. cbn [mbind option_bind].
    unfold verified. cbn [Header with_body Body RequestURI Method]. rewrite !Hg, Hh by done.
    destruct (decide (key = "")) as [Hk|Hk].
    - rewrite (bool_decide_true (key = "")) by done. eexists. split; [done|].
      cbn [Header with_body Body RequestURI Method]. rewrite Hg, Hip, Hu1, Hm1 by done. done.
    - rewrite (bool_decide_false (key = "")) by done. cbn [ReadAll read_error NewReader bytes].
      assert (bool_decide ((if bool_decide (Sender.key s = "") then "" else Sign body (Sender.key s)) = "")
        || Equal (if bool_decide (Sender.key s = "") then "" else Sign body (Sender.key s)) (Sign body key) = true) as ->.
      { case_bool_decide; [done|]. rewrite bool_decide_false by apply Sign_not_empty.
        destruct Hkey as [?|[?| ->]]; [done..|]. apply Equal_Sign, Sign_decodes. }
      eexists. split; [done|]. cbn [Header with_body Body RequestURI Method]. rewrite Hg, Hip, Hu1, Hm1 by done. done. }
  unfold arriving. replace (trusted cidr (with_remote addr r)) with true by (symmetry; exact Ht).
  unfold decrypted. destruct Hpub as [Hn|(p & -> & Hp)].
  - rewrite Hn in Hs, Hc. subst sent. destruct priv as [p|]; cbn [mbind option_bind].
    + cbn [Header with_remote]. rewrite Hc, bool_decide_true by done. cbn [mbind option_bind]. apply Hin; auto.
    + apply Hin; auto.
  - rewrite Hp in Hs, Hc. cbn [Header with_remote Body]. rewrite Hc, bool_decide_false by done. rewrite Hb.
    cbn [ReadAll read_error NewReader bytes].
    rewrite (Crypto.Decrypt_envelope rnd p gz sent Hrnd Hs). cbn [mbind option_bind]. apply Hin; auto.
Qed.
End Arrival.

(** ** Batches *)

Section Batches.
Context {S : Type} `{StorageLaws S} `{UnicodeTables, PgErrorText, JsonErrorText, MapRange}.
Context `{CL : ChiLaws, PL : PrimitiveLaws, GL : GzipLaws, URLs, RetryGo}.

(** The server, its configuration and the sender. *)
Context (h : Handler.t S) (cidr key addr : string) (priv : option PrivateKey)
  (subnet : option (Middleware.middleware S)) (s : Sender.t).

Definition http_server : http_Handler (world S) := Middleware.newRouter h key priv subnet.

#[local] Existing Instance net_client.
Definition client : HttpClient (net S) := net_client http_server addr.
#[local] Existing Instance client.

(** What is assumed of the configuration. *)
Record setup : Prop := {
  subnet_ok : Middleware.TrustedSubnetMiddleware cidr = Ok subnet;
  keys_ok : configured s key priv;
  address_ok r : header_Get HeaderXRealIP (Header r) = Sender.localIP s -> trusted cidr r = true;
  url_ok : url_RequestURI (Sender.serverURL s +:+ "/updates/") = Ok "/updates/";
  quiet_ok : MetricService.quiet (Handler.svc h)
}.

(** A batch that has a JSON form which reads back as itself. *)
Definition sendable (ms : list Metrics) : Prop :=
  Forall (fun m => valid_metric m = true) ms /\ forallb encodable ms = true /\
  map sanitize_metric ms = ms /\ ms <> [].

Definition no_lost_reply (n : net S) : Prop := forall e, LostReply e ∉ script n.

(** The batch [ms] was applied [k] times since [w0], each time audited once. *)
Definition delivered (ms : list Metrics) (w0 : world S) (m : MemStorage.t) (k : nat) (n : net S) : Prop :=
  (forall i, entropy_ok (random n i)) /\
  holds (st (server n)) (Nat.iter k (MemStorage.apply_all ms) m) /\
  exists events, spawned (server n) = spawned w0 ++ events /\
    length events = (match Handler.publisher h with None => 0 | Some _ => k end) /\
    Forall (fun pe => Metrics_ pe.2 = ID <$> ms) events.

Lemma batch_route : (forall params r w,
  chi_route Handler.Routes "POST" "/updates/" = Some (Handler.EUpdateMetricsBatch, params) -> Method r = "POST" ->
  RequestURI r = "/updates/" -> serve h r w = Handler.UpdateMetricsBatch h (with_params params r) w).
Proof. intros params r w Hp Hm Hu. unfold serve. by rewrite Hm, Hu, Hp. Qed.

Lemma Marshal_batch ms : sendable ms ->
  exists body, Marshal_metrics ms = Ok body /\ Decode_metrics (NewReader body) = Ok ms.
Proof.
  intros (Hv & He & Hs & _). rewrite <- metrics_json_encodable in He. unfold Marshal_metrics.
  destruct (metrics_json ms) as [js|] eqn:Hj; [|done]. eexists. split; [done|].
  pose proof (proj1 (read_metrics compact ms js "" None compact_ws Hv Hj eq_refl)) as Hr.
  by rewrite string_app_nil_r, Hs in Hr.
Qed.

(** One request handled by the server: the batch handler gets the body the sender made
    the request for. *)
Lemma exchange_handled ms body rnd r n :
  setup -> Decode_metrics (NewReader body) = Ok ms -> entropy_ok rnd ->
  Sender.newRequest s rnd (Sender.serverURL s +:+ "/updates/") body = Ok r ->
  exists r', Body r' = NewReader body /\
    let '(w1, ops1) := Handler.UpdateMetricsBatch h r' (server n) in
    let '(n', code) := exchange http_server addr r n in
    code = status ops1 /\ st (server n') = st w1 /\ spawned (server n') = spawned w1 /\
    script n' = script n /\ random n' = random n.
Proof using CL PL GL.
  intros [Hsub Hkeys Haddr Hurl Hq] Hdec Hrnd Hr.
  destruct (newRequest_spec s rnd _ body r Hr) as (_ & _ & _ & _ & _ & _ & Hip & _).
  destruct (newRequest_arrives s rnd _ body r cidr key priv addr Hr Hkeys Hrnd (Haddr r Hip))
    as (r' & Harr & Hbody & Hmeth & Huri & _).
  rewrite Hurl in Huri. injection Huri as Huri.
  destruct (chi_static Handler.Routes "POST" "/updates/" Handler.EUpdateMetricsBatch) as [params Hp];
    [set_solver|done|apply (bool_decide_unpack _); by vm_compute|].
  exists (with_params params r'). split; [done|].
  unfold exchange, http_server, Middleware.newRouter, Middleware.Logger.
  pose proof (router_step h cidr key priv subnet (with_remote addr r) (server n) Hsub) as Hst.
  rewrite Harr in Hst. destruct (Middleware.Use subnet _ _ _) as [w' ops].
  rewrite (batch_route params r' (server n) Hp Hmeth (eq_sym Huri)) in Hst.
  destruct (Handler.UpdateMetricsBatch h _ _) as [w1 ops1]. destruct Hst as [-> (-> & _)]. by split_and!.
Qed.

Lemma exchange_counts ms body rnd r w0 m k n :
  setup -> sendable ms -> Decode_metrics (NewReader body) = Ok ms ->
  entropy_ok rnd -> Sender.newRequest s rnd (Sender.serverURL s +:+ "/updates/") body = Ok r ->
  delivered ms w0 m k n ->
  let '(n', code) := exchange http_server addr r n in
  script n' = script n /\
  ((code = StatusOK /\ delivered ms w0 m (k + 1) n') \/ (code <> StatusOK /\ delivered ms w0 m k n')).
Proof using CL PL GL.
  intros Hset Hms Hdec Hrnd Hr (Hent & Hh & events & Hev & Hlen & Hnames).
  destruct (exchange_handled ms body rnd r n Hset Hdec Hrnd Hr) as (r' & Hbody & Hx).
  pose proof (batch_applied h r' (server n) _ ms Hh ltac:(by rewrite Hbody) (proj2 (proj2 (proj2 Hms)))) as Hba.
  destruct (Handler.UpdateMetricsBatch h _ _) as [w1 ops1]. destruct (exchange _ _ _ _) as [n' code].
  destruct Hx as (-> & Hst & Hsp & Hscr & Hran). split; [done|]. unfold delivered. rewrite Hran, Hst, Hsp.
  destruct Hba as [[-> Ha]|(-> & _ & Ha)].
  - left. split; [done|]. destruct Ha as [(s1 & Hs1 & Hst1) Hsp1]. split; [done|].
    rewrite Hst1, Nat.add_1_r. split; [by apply (quiet_ok Hset)|].
    exists (events ++ audit_of h r' (ID <$> ms) (server n)).
    rewrite Hsp1, Hev, app_assoc. split; [done|]. rewrite length_app, Hlen. unfold audit_of.
    destruct (Handler.publisher h); cbn; (split; [lia|]).
    + apply Forall_app. split; [done|]. by repeat constructor.
    + by rewrite app_nil_r.
  - right. split; [done|]. destruct Ha as [Hh1 Hsp1]. split; [done|]. split; [done|]. rewrite Hsp1. eauto.
Qed.

Lemma delivered_same ms w0 m k n n' :
  server n' = server n -> random n' = random n -> delivered ms w0 m k n -> delivered ms w0 m k n'.
Proof. unfold delivered. by intros -> ->. Qed.

(** One call of [sendBatch]. *)
Lemma sendBatch_counts ms w0 m k n :
  setup -> sendable ms -> delivered ms w0 m k n ->
  counts (delivered ms w0 m) no_lost_reply 1 k n (Sender.sendBatch s ms n).
Proof using CL PL GL.
  intros Hset Hms Hk. destruct (Marshal_batch ms Hms) as (body & Hb & Hdec).
  unfold Sender.sendBatch, Sender.post. rewrite Hb. cbn [Sender.wrap_err].
  assert (exists n1 rnd, (match Sender.pubKey s with
      | Some _ => next_entropy n | None => (n, Crypto.MkEntropy (Ok "") (Ok "") "") end) = (n1, rnd) /\
    server n1 = server n /\ random n1 = random n /\ script n1 = script n /\
    (entropy_ok rnd \/ Sender.pubKey s = None)) as (n1 & rnd & -> & Hs1 & Hr1 & Hsc1 & Hrnd).
  { destruct (Sender.pubKey s); eexists _, _; (split; [reflexivity|]); (split_and!; [done..|]); [left; apply Hk|by right]. }
  pose proof (delivered_same ms w0 m k n n1 Hs1 Hr1 Hk) as Hk1.
  unfold counts, no_lost_reply. rewrite <- Hsc1.
  destruct (Sender.newRequest s rnd _ body) as [r|e] eqn:Hr.
  2:{ exists 0. rewrite Nat.add_0_r. split_and!; (done || lia). }
  assert (exists rnd, entropy_ok rnd /\ Sender.newRequest s rnd (Sender.serverURL s +:+ "/updates/") body = Ok r)
    as (rnd' & Hrnd' & Hr').
  { destruct Hrnd as [?|Hn]; [by exists rnd|]. exists (random n 0). split; [apply Hk|].
    rewrite <- Hr. unfold Sender.newRequest. by rewrite Hn. }
  pose proof (fun n' => exchange_counts ms body rnd' r w0 m k n' Hset Hms Hdec Hrnd' Hr') as Hx.
  cbn [client_Do client net_client]. unfold net_Do.
  destruct (script n1) as [|[|err|err] rest] eqn:Hscr; cbn [tail].
  - specialize (Hx n1 Hk1). destruct (exchange _ _ _ _) as [n2 code]. destruct Hx as [Hsc2 [[-> Hd]|[Hc Hd]]].
    + exists 1. cbn. rewrite Hsc2, Hscr. split_and!; (done || lia).
    + rewrite (proj2 (Z.eqb_neq _ _) Hc). exists 0. cbn. rewrite Nat.add_0_r, Hsc2, Hscr. split_and!; (done || lia).
  - specialize (Hx (MkNet (server n1) rest (random n1) (drawn n1) (slept n1)) Hk1).
    destruct (exchange _ _ _ _) as [n2 code]. destruct Hx as [Hsc2 [[-> Hd]|[Hc Hd]]].
    + exists 1. cbn. rewrite Hsc2. cbn. split_and!; [lia|done|lia|]. intros Hl. split; [|done].
      intros e He. apply (Hl e). by right.
    + rewrite (proj2 (Z.eqb_neq _ _) Hc). exists 0. cbn. rewrite Nat.add_0_r, Hsc2. cbn.
      split_and!; [lia|done|done|]. intros Hl. split; [|done]. intros e He. apply (Hl e). by right.
  - exists 0. cbn. rewrite Nat.add_0_r. split_and!; [lia|done|done|]. intros Hl. split; [|done].
    intros e He. apply (Hl e). by right.
  - specialize (Hx (MkNet (server n1) rest (random n1) (drawn n1) (slept n1)) Hk1).
    destruct (exchange _ _ _ _) as [n2 code]. cbn [fst snd].
    destruct Hx as [_ [[_ Hd]|[_ Hd]]]; [exists 1|exists 0; rewrite Nat.add_0_r];
      (split_and!; [lia|done|done|]); intros Hl; exfalso; apply (Hl err); by left.
Qed.

Lemma SendBatch_counts ms n m :
  setup -> sendable ms -> (forall i, entropy_ok (random n i)) -> holds (st (server n)) m ->
  let '(n', e) := Sender.SendBatch s ms n in
  exists k events, k <= 4 /\ holds (st (server n')) (Nat.iter k (MemStorage.apply_all ms) m) /\
    (e = None -> 1 <= k) /\ (no_lost_reply n -> k = match e with None => 1 | Some _ => 0 end) /\
    spawned (server n') = spawned (server n) ++ events /\
    length events = (match Handler.publisher h with None => 0 | Some _ => k end) /\
    Forall (fun pe => Metrics_ pe.2 = ID <$> ms) events.
Proof using CL PL GL.
  intros Hset Hms Hent Hh. unfold Sender.SendBatch. rewrite bool_decide_false by (by destruct Hms as (_ & _ & _ & Hne), ms).
  assert (delivered ms (server n) m 0 n) as Hd0.
  { split; [done|]. split; [done|]. exists []. rewrite app_nil_r. split_and!; [done|by destruct (Handler.publisher h)|done]. }
  pose proof (Do_counts client_sleep (delivered ms (server n) m) no_lost_reply (Sender.sendBatch s ms)
    Sender.isRetriableHTTPError 0 n (fun k n' => sendBatch_counts ms (server n) m k n' Hset Hms)
    (fun d k n' Hk => Hk) (fun d n' Hk => Hk) Hd0) as (k & Hk & (_ & Hd & events & Hev & Hlen & Hn) & Hone & Hc).
  destruct (Do _ _ _ _) as [n' e]. cbn [fst snd Nat.add] in *. exists k, events.
  split_and!; [done|done|done|intros Hl; by destruct (Hc Hl)|done|done|done].
Qed.

(** C1. Delivery of a report.  With sender and server configured for each other,
    over any network: [SendBatch] encodes, compresses, encrypts and signs a batch
    that the router verifies, decrypts and decompresses to the same batch; the
    storage has then been updated with the whole batch some number of times
    between none and four, at least once when no error is returned, with one audit
    event naming its metrics each time; and when no reply gets lost on the way,
    exactly once on success and not at all on an error. *)
Theorem SendBatch_delivers ms n m :
  setup -> sendable ms -> (forall i, entropy_ok (random n i)) -> holds (st (server n)) m ->
  let '(n', e) := Sender.SendBatch s ms n in
  exists k events, k <= 4 /\ holds (st (server n')) (Nat.iter k (MemStorage.apply_all ms) m) /\
    (e = None -> 1 <= k) /\ (no_lost_reply n -> k = match e with None => 1 | Some _ => 0 end) /\
    spawned (server n') = spawned (server n) ++ events /\
    length events = (match Handler.publisher h with None => 0 | Some _ => k end) /\
    Forall (fun pe => Metrics_ pe.2 = ID <$> ms) events.
Proof using CL PL GL. apply SendBatch_counts. Qed.

(** *** A network that works *)

(** The sender can encrypt: it has no key, or the random source and RSA do their
    part. *)
Definition can_encrypt (n : net S) : Prop :=
  match Sender.pubKey s with
  | None => True
  | Some pub => forall i text, is_ok (Crypto.Encrypt (random n i) pub text) = true
  end.

(** The storage takes batches: in the states [A], which batches and the callback
    keep. *)
Definition takes_batches (A : S -> Prop) : Prop := forall ms st, A st ->
  (Service.UpdateBatch ms st).2 = None /\ A (MetricService.UpdateBatch (Handler.svc h) ms st).1.

Lemma UpdateMetricsBatch_accepted r w ms : Decode_metrics (Body r) = Ok ms -> ms <> [] -> (Service.UpdateBatch ms (st w)).2 = None ->
  status (Handler.UpdateMetricsBatch h r w).2 = StatusOK /\
  st (Handler.UpdateMetricsBatch h r w).1 = (MetricService.UpdateBatch (Handler.svc h) ms (st w)).1.
Proof.
  intros Hd Hne Hu. unfold Handler.UpdateMetricsBatch. rewrite Hd, bool_decide_false by (by destruct ms).
  unfold Handler.on_storage, MetricService.UpdateBatch. rewrite bool_decide_false by (by destruct ms).
  destruct (Service.UpdateBatch ms (st w)) as [s' [e|]]; [done|]. split; [by apply status_of|].
  unfold Handler.emitAudit. by destruct (Handler.publisher h).
Qed.

Lemma newRequest_ok rnd body : url_RequestURI (Sender.serverURL s +:+ "/updates/") = Ok "/updates/" ->
  (forall pub, Sender.pubKey s = Some pub -> forall text, is_ok (Crypto.Encrypt rnd pub text) = true) ->
  is_ok (Sender.newRequest s rnd (Sender.serverURL s +:+ "/updates/") body) = true.
Proof using GL.
  intros Hu He. unfold Sender.newRequest. destruct (GzipData_reads_back body) as (gz & -> & _). cbn [Sender.wrap_err mbind result_bind].
  rewrite Hu. destruct (Sender.pubKey s) as [pub|]; [|done]. specialize (He pub eq_refl gz).
  by destruct (Crypto.Encrypt rnd pub gz).
Qed.

Lemma sendBatch_succeeds A ms n :
  setup -> sendable ms -> takes_batches A -> A (st (server n)) -> can_encrypt n -> (forall i, entropy_ok (random n i)) -> script n = [] ->
  (Sender.sendBatch s ms n).2 = None /\ A (st (server (Sender.sendBatch s ms n).1)) /\
  script (Sender.sendBatch s ms n).1 = [] /\ random (Sender.sendBatch s ms n).1 = random n.
Proof using CL PL GL.
  intros Hset Hms HA Hn Henc Hent Hscr. destruct (Marshal_batch ms Hms) as (body & Hb & Hdec).
  unfold Sender.sendBatch, Sender.post. rewrite Hb. cbn [Sender.wrap_err].
  assert (exists n1 rnd, (match Sender.pubKey s with
      | Some _ => next_entropy n | None => (n, Crypto.MkEntropy (Ok "") (Ok "") "") end) = (n1, rnd) /\
    server n1 = server n /\ random n1 = random n /\ script n1 = [] /\ (Sender.pubKey s = None \/ rnd = random n (drawn n)))
    as (n1 & rnd & -> & Hs1 & Hr1 & Hsc1 & Hrnd).
  { destruct (Sender.pubKey s); eexists _, _; (split; [reflexivity|]); split_and!; auto. }
  assert (exists rnd', entropy_ok rnd' /\ Sender.newRequest s rnd = Sender.newRequest s rnd' /\
    forall pub, Sender.pubKey s = Some pub -> forall text, is_ok (Crypto.Encrypt rnd' pub text) = true) as (rnd' & Hrnd' & -> & Hok).
  { exists (random n (drawn n)). split_and!; [by apply Hent| |].
    - destruct Hrnd as [Hnone| ->]; [|done]. unfold Sender.newRequest. by rewrite Hnone.
    - intros pub Hpub text. unfold can_encrypt in Henc. rewrite Hpub in Henc. apply Henc. }
  pose proof (newRequest_ok rnd' body (url_ok Hset) Hok) as Hreq.
  destruct (Sender.newRequest s rnd' _ body) as [r|] eqn:Hr; [|done].
  destruct (exchange_handled ms body rnd' r n1 Hset Hdec Hrnd' Hr) as (r' & Hbody & Hx).
  destruct (HA ms (st (server n1)) ltac:(by rewrite Hs1)) as [Hu HA'].
  destruct (UpdateMetricsBatch_accepted r' (server n1) ms ltac:(by rewrite Hbody) (proj2 (proj2 (proj2 Hms))) Hu) as [Hcode Hst].
  cbn [client_Do client net_client]. unfold net_Do. rewrite Hsc1. destruct (Handler.UpdateMetricsBatch h r' _) as [w1 ops1].
  destruct (exchange _ _ _ _) as [n' code]. cbn [fst snd] in *. destruct Hx as (-> & Hst' & _ & Hsc' & Hran).
  rewrite Hcode. change (negb (StatusOK =? StatusOK)%Z) with false. cbn [fst snd]. rewrite Hst', Hst, Hsc', Hran. by split_and!.
Qed.

Lemma SendBatch_first ms n : ms <> [] -> (Sender.sendBatch s ms n).2 = None -> Sender.SendBatch s ms n = Sender.sendBatch s ms n.
Proof.
  intros Hne Hn. unfold Sender.SendBatch. rewrite bool_decide_false by (by destruct ms). unfold Do. rewrite DoWithDelays_loop.
  cbn [length delays retry_loop]. by destruct (Sender.sendBatch s ms n) as [n' [e|]].
Qed.

(** Batches one after the other, and what each call returned. *)
Fixpoint send_all (bs : list (list Metrics)) (n : net S) : net S * list (option error) :=
  match bs with
  | [] => (n, [])
  | ms :: bs => let '(n1, e) := Sender.SendBatch s ms n in let '(n2, es) := send_all bs n1 in (n2, e :: es)
  end.

Lemma send_all_arrive A bs n m :
  setup -> Forall sendable bs -> takes_batches A -> A (st (server n)) -> can_encrypt n -> (forall i, entropy_ok (random n i)) ->
  script n = [] -> holds (st (server n)) m ->
  Forall (fun e => e = None) (send_all bs n).2 /\
  holds (st (server (send_all bs n).1)) (foldl (fun m ms => MemStorage.apply_all ms m) m bs).
Proof using CL PL GL.
  intros Hset Hbs HA. revert n m. induction Hbs as [|ms bs Hms _ IH]; intros n m Hn Henc Hent Hscr Hm; [done|].
  destruct (sendBatch_succeeds A ms n Hset Hms HA Hn Henc Hent Hscr) as (He & Hn' & Hscr' & Hran).
  pose proof (SendBatch_counts ms n m Hset Hms Hent Hm) as Hc. cbn [send_all foldl].
  rewrite (SendBatch_first ms n (proj2 (proj2 (proj2 Hms))) He) in *. destruct (Sender.sendBatch s ms n) as [n1 e]. cbn [fst snd] in *. subst e.
  destruct Hc as (k & _ & _ & Hh & _ & Hk & _). rewrite Hk in Hh by (intros e; rewrite Hscr; apply not_elem_of_nil). cbn [Nat.iter] in Hh.
  destruct (IH n1 (MemStorage.apply_all ms m)) as [Hes Hh']; [done|unfold can_encrypt; by rewrite Hran|by rewrite Hran|done|exact Hh|].
  destruct (send_all bs n1) as [n2 es]. split; [by constructor|exact Hh'].
Qed.
End Batches.
End Delivery.

(** ** Instances of the theorems *)

Module DeliveryExamples.
Import Delivery HandlerExamples.
#[local] Existing Instances Crypto.plain Crypto.plain_laws.

(** A router that knows only paths without parameters. *)
#[local] Instance exact_chi : Chi := {|
  chi_route E routes method path :=
    match list_find (fun x => x.1 = (method, path)) routes with
    | Some (_, (_, e)) => Some (e, fun _ => "")
    | None => None
    end;
  chi_default _ := http_NotFound |}.

#[local] Instance exact_chi_laws : ChiLaws.
Proof.
  split.
  - intros r. by apply plain_error.
  - intros E routes method path e Hin _ Hnd. cbn. apply list_elem_of_lookup in Hin as [i Hi].
    destruct (list_find_elem_of (fun x => x.1 = (method, path)) routes (method, path, e)) as [[j [[m p] e']] Hj];
      [by eapply list_elem_of_lookup_2|done|].
    rewrite Hj. apply list_find_Some in Hj as (Hj & Heq & _). cbn in Heq.
    assert (i = j) as -> by (eapply NoDup_lookup; [exact Hnd|by rewrite list_lookup_fmap, Hi|by rewrite list_lookup_fmap, Hj, <- Heq]).
    rewrite Hi in Hj. simplify_eq. by eexists.
Qed.

#[local] Instance one_host : URLs := {| url_RequestURI u := Ok (str_drop 13 u) |}.
#[local] Instance retrygo0 : RetryGo := documented_retrygo 0.

Definition in_subnet : option (Middleware.middleware MemStorage.t) :=
  match Middleware.TrustedSubnetMiddleware "10.0.0.0/8" with Ok m => m | Err _ => None end.

Definition sender0 : Sender.t :=
  Sender.NewSender "http://server" "secret" (Some (public_of Crypto.priv0))
    (Ok [MkAddr true true (Some "127.0.0.1"); MkAddr true false None; MkAddr true false (Some "10.0.0.7")]).

Lemma setup0 : setup h0 "10.0.0.0/8" "secret" (Some Crypto.priv0) in_subnet sender0.
Proof.
  split; [done| | |done|apply h0_quiet].
  - split; [by right; right|right]. by exists Crypto.priv0.
  - intros r Hr. unfold trusted. rewrite Hr. by vm_compute.
Qed.

#[local] Instance client0 : HttpClient (net MemStorage.t) :=
  client h0 "secret" "192.0.2.1:5000" (Some Crypto.priv0) in_subnet.

Definition timeout : error := UrlError true false "Client.Timeout exceeded".
Definition net0 : net MemStorage.t :=
  MkNet w0 [LostRequest timeout; LostReply timeout] (fun _ => Crypto.rnd0) 0 [].

(** The first request is lost, the reply to the second one too: the third attempt
    succeeds and the increment has been added twice. *)
Definition sent0 : net MemStorage.t * option error :=
  Sender.SendBatch sender0 [counter_metric "PollCount" 3] net0.

Lemma SendBatch_delivers_witness :
  sent0.2 = None /\ MemStorage.counters (st (server sent0.1)) !! "PollCount" = Some 11%Z /\
  slept sent0.1 = [Second; 3 * Second]%Z /\
  exists k events, k <= 4 /\
    holds (st (server sent0.1)) (Nat.iter k (MemStorage.apply_all [counter_metric "PollCount" 3]) MemStorage.sample) /\
    spawned (server sent0.1) = events /\ length events = k.
Proof.
  do 3 (split; [by vm_compute|]).
  assert (sendable [counter_metric "PollCount" 3]) as Hms by (split_and!; [by repeat constructor|by vm_compute..|done]).
  assert (forall i, entropy_ok (random net0 i)) as Hent by (intros i nonce [= <-]; done).
  pose proof (SendBatch_delivers h0 "10.0.0.0/8" "secret" "192.0.2.1:5000" (Some Crypto.priv0) in_subnet sender0
    [counter_metric "PollCount" 3] net0 MemStorage.sample setup0 Hms Hent w0_holds) as Ht.
  change (Sender.SendBatch _ _ _) with sent0 in Ht. destruct sent0 as [n' e].
  destruct Ht as (k & events & Hk & Hh & _ & _ & Hsp & Hlen & _). by exists k, events.
Defined.

Definition routed0 : world MemStorage.t * list wop :=
  Middleware.newRouter h0 "secret" (Some Crypto.priv0) in_subnet (with_header ∅ (req [] "")) w0.

Lemma router_spec_witness :
  status routed0.2 = 403%Z /\ st routed0.1 = st w0 /\ (400 <= status routed0.2)%Z.
Proof.
  split; [by vm_compute|].
  pose proof (router_spec h0 "10.0.0.0/8" "secret" (Some Crypto.priv0) in_subnet (with_header ∅ (req [] "")) w0 eq_refl) as Ht.
  change (Middleware.newRouter _ _ _ _ _ _) with routed0 in Ht. destruct routed0 as [w' ops].
  replace (arriving "10.0.0.0/8" "secret" (Some Crypto.priv0) (with_header ∅ (req [] ""))) with (None : option request)
    in Ht by (by vm_compute).
  destruct Ht as (_ & Hst & _ & Hs). by split.
Defined.
End DeliveryExamples.
