(* ===== verification/Collector.v ===== *)
(** * internal/agent: the collector

    What the agent samples and how a snapshot becomes a batch.  The samples of the
    runtime and of gopsutil are inputs.  Every method takes the mutex for the part
    that touches the metrics, so it is one step. *)

From S2P Require Import Prelude Errors GoInt GoFloat GoFloatFacts Model Storage FileStore.

(** [runtime.MemStats], the fields the agent reads: all but one are unsigned
    integers. *)
Record MemStats := MkMemStats {
  Alloc : Z; BuckHashSys : Z; Frees : Z; GCCPUFraction : float64; GCSys : Z; HeapAlloc : Z; HeapIdle : Z;
  HeapInuse : Z; HeapObjects : Z; HeapReleased : Z; HeapSys : Z; LastGC : Z; Lookups : Z; MCacheInuse : Z;
  MCacheSys : Z; MSpanInuse : Z; MSpanSys : Z; Mallocs : Z; NextGC : Z; NumForcedGC : Z; NumGC : Z; OtherSys : Z;
  PauseTotalNs : Z; StackInuse : Z; StackSys : Z; Sys : Z; TotalAlloc : Z
}.

Module Collector.

(** The [Metrics] of the agent: the map of gauges and the poll counter. *)
Record t := Mk { gauges : gmap string float64; counter : Z }.

#[export] Instance t_eq_dec : EqDecision t.
Proof. solve_decision. Defined.

Definition NewCollector : t := Mk ∅ 0.

(** A sequence of assignments [c.metrics.Gauge[name] = v]. *)
Definition assign (l : list (string * float64)) (g : gmap string float64) : gmap string float64 :=
  fold_left (fun g '(name, v) => <[name := v]> g) l g.

Definition runtime_gauges (ms : MemStats) (random : float64) : list (string * float64) :=
  let f := float64_of_Z in
  [("Alloc", f (Alloc ms)); ("BuckHashSys", f (BuckHashSys ms)); ("Frees", f (Frees ms));
   ("GCCPUFraction", GCCPUFraction ms); ("GCSys", f (GCSys ms)); ("HeapAlloc", f (HeapAlloc ms));
   ("HeapIdle", f (HeapIdle ms)); ("HeapInuse", f (HeapInuse ms)); ("HeapObjects", f (HeapObjects ms));
   ("HeapReleased", f (HeapReleased ms)); ("HeapSys", f (HeapSys ms)); ("LastGC", f (LastGC ms));
   ("Lookups", f (Lookups ms)); ("MCacheInuse", f (MCacheInuse ms)); ("MCacheSys", f (MCacheSys ms));
   ("MSpanInuse", f (MSpanInuse ms)); ("MSpanSys", f (MSpanSys ms)); ("Mallocs", f (Mallocs ms));
   ("NextGC", f (NextGC ms)); ("NumForcedGC", f (NumForcedGC ms)); ("NumGC", f (NumGC ms));
   ("OtherSys", f (OtherSys ms)); ("PauseTotalNs", f (PauseTotalNs ms)); ("StackInuse", f (StackInuse ms));
   ("StackSys", f (StackSys ms)); ("Sys", f (Sys ms)); ("TotalAlloc", f (TotalAlloc ms)); ("RandomValue", random)].

(** [Collect], given what [runtime.ReadMemStats] and [rand.Float64] answer. *)
Definition Collect (ms : MemStats) (random : float64) (c : t) : t :=
  Mk (assign (runtime_gauges ms random) (gauges c)) (int64_add (counter c) 1).

(** [CollectExtra], given the answers of gopsutil: total and free memory, and the
    load of each CPU. *)
Fixpoint cpu_gauges (i : Z) (pcts : list float64) : list (string * float64) :=
  match pcts with
  | [] => []
  | pct :: pcts => ("CPUutilization" +:+ FormatInt (i + 1), pct) :: cpu_gauges (i + 1) pcts
  end.

Definition CollectExtra (vmStat : res (Z * Z)) (cpuPercents : res (list float64)) (c : t) : t * option error :=
  match vmStat with
  | Err err => (c, Some (Errorf "get virtual memory: " err))
  | Ok (total, free) =>
      match cpuPercents with
      | Err err => (c, Some (Errorf "get cpu percent: " err))
      | Ok pcts =>
          (Mk (assign ([("TotalMemory", float64_of_Z total); ("FreeMemory", float64_of_Z free)] ++ cpu_gauges 0 pcts)
                 (gauges c)) (counter c), None)
      end
  end.

(** The copy shares nothing with the collector. *)
Definition GetSnapshot (c : t) : t := Mk (gauges c) (counter c).

Definition AckCounter (delta : Z) (c : t) : t := Mk (gauges c) (int64_sub (counter c) delta).

(** [convertToModelMetrics], the map being visited in the order [gs]. *)
Definition convert_ordered (gs : list (string * float64)) (d : Z) : list Metrics :=
  ((fun '(name, v) => gauge_metric name v) <$> gs) ++ [counter_metric "PollCount" d].
Definition convertToModelMetrics `{MapRange} (snapshot : t) : list Metrics :=
  convert_ordered (range (gauges snapshot)) (counter snapshot).

(** ** Properties *)

Definition gauge_names : list string := (runtime_gauges (MkMemStats 0 0 0 F_nan 0 0 0 0 0 0 0 0 0 0 0 0 0 0 0 0 0 0 0 0 0 0 0) F_nan).*1.

Lemma runtime_names ms random : (runtime_gauges ms random).*1 = gauge_names.
Proof. done. Qed.

Lemma gauge_names_NoDup : NoDup gauge_names.
Proof. apply (bool_decide_unpack _). by vm_compute. Qed.

Lemma assign_lookup l g name :
  NoDup l.*1 ->
  assign l g !! name = match (list_to_map l : gmap string float64) !! name with Some v => Some v | None => g !! name end.
Proof. intros Hnd. exact (fold_insert_lookup id id l g name Hnd). Qed.

Lemma assign_other l g name : name ∉ l.*1 -> assign l g !! name = g !! name.
Proof.
  revert g. induction l as [|[k v] l IH]; intros g Hn; [done|]. cbn in *.
  apply not_elem_of_cons in Hn as [Hk Hn]. change (assign l (<[k := v]> g) !! name = g !! name).
  rewrite IH by done. by rewrite lookup_insert_ne.
Qed.

(** A snapshot is what the in-memory storage's snapshot of the same maps is. *)
Lemma convert_snapshot gs d : convert_ordered gs d = MemStorage.Snapshot_ordered gs [("PollCount", d)].
Proof. done. Qed.

Lemma upload_effect c gs m name :
  range_order (gauges c) gs ->
  MemStorage.gauges (MemStorage.apply_all (convert_ordered gs (counter c)) m) !! name
    = (match gauges c !! name with Some v => Some v | None => MemStorage.gauges m !! name end) /\
  MemStorage.counters (MemStorage.apply_all (convert_ordered gs (counter c)) m) !! name
    = (if bool_decide (name = "PollCount")
       then Some (int64_add (default 0%Z (MemStorage.counters m !! "PollCount")) (counter c))
       else MemStorage.counters m !! name).
Proof.
  intros Hgs. rewrite convert_snapshot, MemStorage.apply_all_gauges, MemStorage.apply_all_counters.
  rewrite MemStorage.gauge_writes_snapshot, MemStorage.counter_deltas_snapshot, (omap_range_order _ _ _ Hgs).
  split; [by destruct (gauges c !! name)|]. cbn [omap list_omap].
  destruct (decide (name = "PollCount")) as [->|Hn].
  - rewrite !bool_decide_true by done. unfold int64_add, MemStorage.sum_Z. cbn [foldr]. by rewrite Z.add_0_r.
  - by rewrite (bool_decide_false ("PollCount" = name)), (bool_decide_false (name = "PollCount")) by congruence.
Qed.

(** *** What a sample is to leave

    The gauge of each name: the field of [runtime.MemStats] of that name, or the random
    value. *)
Inductive sampled (ms : MemStats) (random : float64) : string -> float64 -> Prop :=
| GAlloc : sampled ms random "Alloc" (float64_of_Z (Alloc ms))
| GBuckHashSys : sampled ms random "BuckHashSys" (float64_of_Z (BuckHashSys ms))
| GFrees : sampled ms random "Frees" (float64_of_Z (Frees ms))
| GGCSys : sampled ms random "GCSys" (float64_of_Z (GCSys ms))
| GHeapAlloc : sampled ms random "HeapAlloc" (float64_of_Z (HeapAlloc ms))
| GHeapIdle : sampled ms random "HeapIdle" (float64_of_Z (HeapIdle ms))
| GHeapInuse : sampled ms random "HeapInuse" (float64_of_Z (HeapInuse ms))
| GHeapObjects : sampled ms random "HeapObjects" (float64_of_Z (HeapObjects ms))
| GHeapReleased : sampled ms random "HeapReleased" (float64_of_Z (HeapReleased ms))
| GHeapSys : sampled ms random "HeapSys" (float64_of_Z (HeapSys ms))
| GLastGC : sampled ms random "LastGC" (float64_of_Z (LastGC ms))
| GLookups : sampled ms random "Lookups" (float64_of_Z (Lookups ms))
| GMCacheInuse : sampled ms random "MCacheInuse" (float64_of_Z (MCacheInuse ms))
| GMCacheSys : sampled ms random "MCacheSys" (float64_of_Z (MCacheSys ms))
| GMSpanInuse : sampled ms random "MSpanInuse" (float64_of_Z (MSpanInuse ms))
| GMSpanSys : sampled ms random "MSpanSys" (float64_of_Z (MSpanSys ms))
| GMallocs : sampled ms random "Mallocs" (float64_of_Z (Mallocs ms))
| GNextGC : sampled ms random "NextGC" (float64_of_Z (NextGC ms))
| GNumForcedGC : sampled ms random "NumForcedGC" (float64_of_Z (NumForcedGC ms))
| GNumGC : sampled ms random "NumGC" (float64_of_Z (NumGC ms))
| GOtherSys : sampled ms random "OtherSys" (float64_of_Z (OtherSys ms))
| GPauseTotalNs : sampled ms random "PauseTotalNs" (float64_of_Z (PauseTotalNs ms))
| GStackInuse : sampled ms random "StackInuse" (float64_of_Z (StackInuse ms))
| GStackSys : sampled ms random "StackSys" (float64_of_Z (StackSys ms))
| GSys : sampled ms random "Sys" (float64_of_Z (Sys ms))
| GTotalAlloc : sampled ms random "TotalAlloc" (float64_of_Z (TotalAlloc ms))
| GGCCPUFraction : sampled ms random "GCCPUFraction" (GCCPUFraction ms)
| GRandomValue : sampled ms random "RandomValue" random.

Lemma sampled_elem ms random name v : sampled ms random name v <-> (name, v) ∈ runtime_gauges ms random.
Proof.
  unfold runtime_gauges. split.
  - by intros []; repeat (apply list_elem_of_here || apply list_elem_of_further).
  - intros Hv. repeat (apply elem_of_cons in Hv as [Hv|Hv]; [injection Hv as -> ->; constructor|]). by apply not_elem_of_nil in Hv.
Qed.

(** The gauge of the [i]-th CPU, counted from 0. *)
Definition cpu_name (i : nat) : string := "CPUutilization" +:+ FormatInt (Z.of_nat i + 1).

(** A sample [l], as pairs of a name and a value, on top of the gauges [g]. *)
Lemma assign_spec l g name v : NoDup l.*1 ->
  assign l g !! name = Some v <-> (name, v) ∈ l \/ (forall u, (name, u) ∉ l) /\ g !! name = Some v.
Proof.
  intros Hnd. rewrite assign_lookup by done. destruct (list_to_map l !! name) as [u|] eqn:Hu.
  - apply elem_of_list_to_map_2 in Hu. split.
    + intros [= ->]. by left.
    + intros [Hv|[Hn _]]; [|by destruct (Hn u)]. f_equal. pose proof (elem_of_list_to_map_1 (M := gmap string) l name v Hnd Hv) as H1.
      pose proof (elem_of_list_to_map_1 (M := gmap string) l name u Hnd Hu) as H2. congruence.
  - apply not_elem_of_list_to_map in Hu. assert (forall u, (name, u) ∉ l) as Hn.
    { intros u Hin. apply Hu. by apply (list_elem_of_fmap_2 fst) in Hin. }
    split; [by intros Hg; right|]. by intros [Hv|[_ Hg]]; [destruct (Hn v)|].
Qed.

Lemma cpu_gauges_elem i pcts name v : (name, v) ∈ cpu_gauges (Z.of_nat i) pcts <->
  exists j, pcts !! j = Some v /\ name = cpu_name (i + j).
Proof.
  revert i. induction pcts as [|pct pcts IH]; intros i; cbn [cpu_gauges].
  { split; [by intros ?%not_elem_of_nil|by intros (j & Hj & _)]. }
  replace (Z.of_nat i + 1)%Z with (Z.of_nat (S i)) by lia. rewrite elem_of_cons, IH. split.
  - intros [[= -> ->]|(j & Hj & ->)]; [exists 0; split; [done|]|exists (S j); split; [done|]]; unfold cpu_name; do 2 f_equal; lia.
  - intros ([|j] & Hj & ->); cbn in Hj; [left; injection Hj as ->; unfold cpu_name; do 3 f_equal; lia|right; exists j; split; [done|]].
    unfold cpu_name. do 2 f_equal. lia.
Qed.

Lemma cpu_name_inj i j : cpu_name i = cpu_name j -> i = j.
Proof.
  unfold cpu_name. intros He%string_app_inj_l. unfold FormatInt in He. rewrite !(proj2 (Z.ltb_ge _ _)) in He by lia.
  apply (f_equal (fun s => digits_value s 0)) in He. rewrite !FormatUint_value in He by lia. injection He. lia.
Qed.

Lemma cpu_gauges_NoDup i pcts : NoDup (cpu_gauges (Z.of_nat i) pcts).*1.
Proof.
  revert i. induction pcts as [|pct pcts IH]; intros i; cbn [cpu_gauges fmap list_fmap fst]; [constructor|].
  replace (Z.of_nat i + 1)%Z with (Z.of_nat (S i)) by lia. constructor; [|apply IH].
  intros ([n v] & Hn & Hin)%list_elem_of_fmap_1. cbn in Hn. subst n. apply cpu_gauges_elem in Hin as (j & _ & Hj).
  assert (cpu_name i = cpu_name (S i + j)) as ?%cpu_name_inj; [|lia]. rewrite <- Hj. unfold cpu_name. do 2 f_equal. lia.
Qed.

Definition extra_gauges (total free : Z) (pcts : list float64) : list (string * float64) :=
  [("TotalMemory", float64_of_Z total); ("FreeMemory", float64_of_Z free)] ++ cpu_gauges 0 pcts.

Lemma extra_other total free pcts name v : name <> "TotalMemory" -> name <> "FreeMemory" ->
  (forall i, i < length pcts -> name <> cpu_name i) -> (name, v) ∉ extra_gauges total free pcts.
Proof.
  intros Ht Hf Hc. unfold extra_gauges. cbn [app]. intros [[= ? _]|[[= ? _]|Hin]%elem_of_cons]%elem_of_cons; [done..|].
  apply (cpu_gauges_elem 0) in Hin as (j & Hj & ->). apply (Hc j); [by eapply lookup_lt_Some|done].
Qed.

Lemma extra_gauges_NoDup total free pcts : NoDup (extra_gauges total free pcts).*1.
Proof.
  assert (forall name, name ∈ (cpu_gauges (Z.of_nat 0) pcts).*1 -> exists j, name = cpu_name j) as Hc.
  { intros name ([n v] & -> & (j & _ & Hj)%cpu_gauges_elem)%list_elem_of_fmap_1. by exists (0 + j). }
  unfold extra_gauges. rewrite fmap_app. cbn [fmap list_fmap fst app]. repeat constructor.
  - intros [?|Hin]%elem_of_cons; [done|]. by apply Hc in Hin as [j Hj].
  - intros Hin. by apply Hc in Hin as [j Hj].
  - apply (cpu_gauges_NoDup 0).
Qed.

(** C35. A report carries the collector's state, and the samples set it.  Whatever the
    order in which the snapshot's map is visited, applying its batch gives the server
    every gauge of the snapshot, adds the poll counter to [PollCount] in 64-bit
    arithmetic, and touches nothing else.  A [Collect] sets each of the 28 gauges to the
    field of its name and leaves the others, and counts one poll; a [CollectExtra] sets
    the two memory gauges and the one of each CPU, counted from 1, and leaves all else;
    when gopsutil fails it returns that error, of the memory first, and changes
    nothing. *)
Theorem report_carries_state c gs m :
  range_order (gauges (GetSnapshot c)) gs ->
  (forall name,
     MemStorage.gauges (MemStorage.UpdateBatch (convert_ordered gs (counter (GetSnapshot c))) m).1 !! name
       = (match gauges c !! name with Some v => Some v | None => MemStorage.gauges m !! name end) /\
     MemStorage.counters (MemStorage.UpdateBatch (convert_ordered gs (counter (GetSnapshot c))) m).1 !! name
       = (if bool_decide (name = "PollCount")
          then Some (int64_add (default 0%Z (MemStorage.counters m !! "PollCount")) (counter c))
          else MemStorage.counters m !! name)) /\
  (forall ms random name v, gauges (Collect ms random c) !! name = Some v <->
     sampled ms random name v \/ (forall u, ~ sampled ms random name u) /\ gauges c !! name = Some v) /\
  (forall ms random, counter (Collect ms random c) = int64_add (counter c) 1) /\
  (forall total free pcts, exists c', CollectExtra (Ok (total, free)) (Ok pcts) c = (c', None) /\ counter c' = counter c /\
     gauges c' !! "TotalMemory" = Some (float64_of_Z total) /\ gauges c' !! "FreeMemory" = Some (float64_of_Z free) /\
     (forall i pct, pcts !! i = Some pct -> gauges c' !! cpu_name i = Some pct) /\
     (forall name, name <> "TotalMemory" -> name <> "FreeMemory" -> (forall i, i < length pcts -> name <> cpu_name i) ->
        gauges c' !! name = gauges c !! name)) /\
  (forall err cpu, CollectExtra (Err err) cpu c = (c, Some (Errorf "get virtual memory: " err))) /\
  (forall mem err, CollectExtra (Ok mem) (Err err) c = (c, Some (Errorf "get cpu percent: " err))).
Proof.
  intros Hgs. split_and!.
  - intros name. exact (upload_effect c gs m name Hgs).
  - intros ms random name v. cbn [Collect gauges]. rewrite assign_spec, sampled_elem by (rewrite runtime_names; apply gauge_names_NoDup).
    by setoid_rewrite sampled_elem.
  - done.
  - intros total free pcts. eexists. split; [done|]. cbn [gauges counter].
    change (_ ++ cpu_gauges 0 pcts) with (extra_gauges total free pcts). split; [done|].
    pose proof (fun name v => assign_spec _ (gauges c) name v (extra_gauges_NoDup total free pcts)) as Ha. split_and!.
    + apply Ha. left. apply list_elem_of_here.
    + apply Ha. left. apply list_elem_of_further, list_elem_of_here.
    + intros i pct Hi. apply Ha. left. apply elem_of_app. right. apply (cpu_gauges_elem 0). by exists i.
    + intros name Ht Hf Hc. apply option_eq. intros v. rewrite Ha. split; [|right; split; [|done]].
      * intros [Hin|[_ Hg]]; [|done]. exfalso. by apply (extra_other total free pcts name v).
      * intros u Hin. by apply (extra_other total free pcts name u).
  - done.
  - by intros [total free] err.
Qed.

(** ** Polls counted by the server *)

Definition sample : Type := MemStats * float64.

Definition poll (ss : list sample) (c : t) : t := fold_left (fun c '(ms, random) => Collect ms random c) ss c.

(** Some polls, then a report that the server applies to its storage; [acked]:
    the collector is told of the upload. *)
Definition report (acked : bool) (ss : list sample) (cm : t * MemStorage.t) : t * MemStorage.t :=
  let c := poll ss cm.1 in
  let snapshot := GetSnapshot c in
  (if acked then AckCounter (counter snapshot) c else c,
   (MemStorage.UpdateBatch (convert_ordered (map_to_list (gauges snapshot)) (counter snapshot)) cm.2).1).

Definition reports (acked : bool) (rs : list (list sample)) (cm : t * MemStorage.t) : t * MemStorage.t :=
  fold_left (fun cm ss => report acked ss cm) rs cm.

(** The number of polls, and the sum over all reports of the polls made before
    them. *)
Definition polls_made (rs : list (list sample)) : Z := MemStorage.sum_Z (Z.of_nat ∘ length <$> rs).
Fixpoint running_total (total : Z) (rs : list (list sample)) : Z :=
  match rs with
  | [] => 0
  | ss :: rs => (total + Z.of_nat (length ss)) + running_total (total + Z.of_nat (length ss)) rs
  end%Z.

Lemma poll_counter ss c total :
  counter c = wrap64 total -> counter (poll ss c) = wrap64 (total + Z.of_nat (length ss)).
Proof.
  revert c total. induction ss as [|[ms random] ss IH]; intros c total Hc.
  - cbn. by rewrite Z.add_0_r.
  - cbn [poll fold_left]. change (counter (poll ss (Collect ms random c)) = wrap64 (total + Z.of_nat (S (length ss)))).
    rewrite (IH _ (total + 1)%Z); [f_equal; lia|]. cbn [Collect counter]. unfold int64_add. by rewrite Hc, wrap64_add_l.
Qed.

Lemma report_count acked ss c m :
  default 0%Z (MemStorage.counters (report acked ss (c, m)).2 !! "PollCount")
  = int64_add (default 0%Z (MemStorage.counters m !! "PollCount")) (counter (poll ss c)).
Proof.
  unfold report, MemStorage.UpdateBatch. cbn [fst snd].
  pose proof (proj2 (upload_effect (GetSnapshot (poll ss c)) _ m "PollCount" (range_order_canonical _))) as Hu.
  rewrite Hu. by rewrite bool_decide_true.
Qed.

Lemma reports_count acked rs c m total base :
  counter c = wrap64 total -> (acked = true -> total = 0%Z) ->
  default 0%Z (MemStorage.counters m !! "PollCount") = wrap64 base ->
  default 0%Z (MemStorage.counters (reports acked rs (c, m)).2 !! "PollCount")
  = wrap64 (base + if acked then polls_made rs else running_total total rs).
Proof.
  revert c m total base. induction rs as [|ss rs IH]; intros c m total base Hc Ha Hb.
  - cbn. by destruct acked; rewrite Z.add_0_r.
  - cbn [reports fold_left]. change (fold_left _ rs ?x) with (reports acked rs x).
    pose proof (poll_counter ss c total Hc) as Hp. pose proof (report_count acked ss c m) as Hr.
    rewrite Hb, Hp in Hr. unfold int64_add in Hr. rewrite wrap64_add_l, wrap64_add_r in Hr.
    rewrite (surjective_pairing (report acked ss (c, m))).
    destruct acked.
    + rewrite (Ha eq_refl) in *. rewrite (IH _ _ 0%Z (base + (0 + Z.of_nat (length ss)))%Z); [|cbn; unfold int64_sub; by rewrite Z.sub_diag|done|exact Hr].
      assert (polls_made (ss :: rs) = Z.of_nat (length ss) + polls_made rs)%Z as -> by done.
      apply (f_equal wrap64). lia.
    + etrans; [exact (IH _ _ _ _ Hp ltac:(done) Hr)|]. apply (f_equal wrap64). cbn [running_total]. lia.
Qed.

(** C36. What the server counts as polls.  As the agent is written, each report
    carries the number of polls since it started, and the server adds them up:
    after several reports its [PollCount] is the sum of the running totals.  Had
    the agent acknowledged each upload with [AckCounter], which its comment asks
    for and nothing calls, the server's [PollCount] would be the number of polls. *)
Theorem poll_count_accumulates rs m :
  MemStorage.valid m ->
  let count acked := default 0%Z (MemStorage.counters (reports acked rs (NewCollector, m)).2 !! "PollCount") in
  let old := default 0%Z (MemStorage.counters m !! "PollCount") in
  count false = int64_add old (wrap64 (running_total 0 rs)) /\
  count true = int64_add old (wrap64 (polls_made rs)).
Proof.
  intros [_ Hv]. cbn zeta.
  assert (default 0%Z (MemStorage.counters m !! "PollCount")
    = wrap64 (default 0%Z (MemStorage.counters m !! "PollCount"))) as Hold.
  { destruct (MemStorage.counters m !! "PollCount") as [d|] eqn:Hd; [|done]. cbn.
    symmetry. apply wrap64_id. exact (map_Forall_lookup_1 _ _ _ _ Hv Hd). }
  unfold int64_add. rewrite !wrap64_add_r. split.
  - by rewrite (reports_count false rs NewCollector m 0 _ eq_refl ltac:(done) Hold).
  - by rewrite (reports_count true rs NewCollector m 0 _ eq_refl ltac:(done) Hold).
Qed.

(** ** Instances of the theorems *)

Definition stats0 : MemStats :=
  MkMemStats 1 2 3 F_nan 5 6 7 8 9 10 11 12 13 14 15 16 17 18 19 20 21 22 23 24 25 26 27.

(** Reports after 1, 1 and 2 polls: the server counts 1 + 2 + 4 instead of 4. *)
Lemma poll_count_accumulates_witness :
  let s := (stats0, F_nan) in
  let count acked :=
    default 0%Z (MemStorage.counters (reports acked [[s]; [s]; [s; s]] (NewCollector, MemStorage.NewMemStorage)).2
      !! "PollCount") in
  count false = 7%Z /\ count true = 4%Z.
Proof.
  intros s. destruct (poll_count_accumulates [[s]; [s]; [s; s]] MemStorage.NewMemStorage MemStorage.valid_New) as [H1 H2].
  split; [exact H1|exact H2].
Defined.

Lemma report_carries_state_witness :
  MemStorage.counters (MemStorage.UpdateBatch (convert_ordered [("Alloc", float64_of_Z 2)] 3) MemStorage.sample).1
    !! "PollCount" = Some 8%Z /\
  gauges (Collect stats0 F_nan (Mk {["Alloc" := float64_of_Z 2]} 3)) !! "HeapSys" = Some (float64_of_Z 11).
Proof.
  assert (range_order (gauges (GetSnapshot (Mk {["Alloc" := float64_of_Z 2]} 3))) [("Alloc", float64_of_Z 2)]) as Hr
    by (unfold range_order; cbn [gauges GetSnapshot]; by rewrite map_to_list_singleton).
  destruct (report_carries_state _ _ MemStorage.sample Hr) as (Hb & Hc & _). split.
  - exact (proj2 (Hb "PollCount")).
  - apply Hc. left. apply (GHeapSys stats0).
Defined.
End Collector.
