(* ===== verification/Agent.v ===== *)
(** * internal/agent: the goroutines of Run

    [Run] starts [rateLimit] workers, two collecting goroutines and a reporter that
    feed and drain a buffered channel.  The state says where each goroutine is, and
    [fire] performs one atomic action of one of them: a label names the goroutine
    and, where its [select] or a sample leaves a choice, the choice.  Reachability is
    by any sequence of actions. *)

From S2P Require Import Prelude Errors GoInt GoFloat Model Storage FileStore Collector.

Module Agent.

(** A batch, as [SendBatch] gets it. *)
Abbreviation batch := (list Metrics).

(** [runCollect]: before its first sample, at its [select], returned. *)
Inductive collect_pc := CFirst | CSelect | CDone.
(** [runCollectExtra]: at its [select], returned. *)
Inductive extra_pc := ESelect | EDone.
(** [runReport]: at its [select]; at the inner [select] with a batch; at the send
    of the final flush; returned, with the deferred [close] to come; finished. *)
Inductive report_pc := RSelect | RSending (b : batch) | RFlushing (b : batch) | RClosing | RDone.
(** A worker: at the head of [range jobs]; in [SendBatch]; returned. *)
Inductive worker_pc := WRange | WSending (b : batch) | WDone.

Record t := Mk {
  ctx_done : bool;
  collector : Collector.t;
  jobs : list batch;               (** the channel's buffer, oldest first *)
  closed : bool;
  collect_at : collect_pc;
  extra_at : extra_pc;
  report_at : report_pc;
  workers : list worker_pc;
  pushed : list batch;             (** the sends on the channel so far *)
  received : list batch;           (** the receives from it *)
  sent : list batch                (** the calls of [SendBatch] that returned *)
}.

#[export] Instance collect_pc_eq_dec : EqDecision collect_pc.
Proof. solve_decision. Defined.
#[export] Instance extra_pc_eq_dec : EqDecision extra_pc.
Proof. solve_decision. Defined.
#[export] Instance report_pc_eq_dec : EqDecision report_pc.
Proof. solve_decision. Defined.
#[export] Instance worker_pc_eq_dec : EqDecision worker_pc.
Proof. solve_decision. Defined.

(** The start of [Run], with [rateLimit] workers. *)
Definition start (c : Collector.t) (rateLimit : nat) : t :=
  Mk false c [] false CFirst ESelect RSelect (replicate rateLimit WRange) [] [] [].

Definition with_ctx (s : t) : t :=
  Mk true (collector s) (jobs s) (closed s) (collect_at s) (extra_at s) (report_at s) (workers s) (pushed s) (received s) (sent s).
Definition with_collect (c : Collector.t) (pc : collect_pc) (s : t) : t :=
  Mk (ctx_done s) c (jobs s) (closed s) pc (extra_at s) (report_at s) (workers s) (pushed s) (received s) (sent s).
Definition with_extra (c : Collector.t) (pc : extra_pc) (s : t) : t :=
  Mk (ctx_done s) c (jobs s) (closed s) (collect_at s) pc (report_at s) (workers s) (pushed s) (received s) (sent s).
Definition with_report (pc : report_pc) (s : t) : t :=
  Mk (ctx_done s) (collector s) (jobs s) (closed s) (collect_at s) (extra_at s) pc (workers s) (pushed s) (received s) (sent s).
Definition push (b : batch) (pc : report_pc) (s : t) : t :=
  Mk (ctx_done s) (collector s) (jobs s ++ [b]) (closed s) (collect_at s) (extra_at s) pc (workers s) (pushed s ++ [b])
    (received s) (sent s).
Definition close (s : t) : t :=
  Mk (ctx_done s) (collector s) (jobs s) true (collect_at s) (extra_at s) RDone (workers s) (pushed s) (received s) (sent s).
Definition with_worker (i : nat) (pc : worker_pc) (s : t) : t :=
  Mk (ctx_done s) (collector s) (jobs s) (closed s) (collect_at s) (extra_at s) (report_at s) (<[i := pc]> (workers s))
    (pushed s) (received s) (sent s).
Definition receive (i : nat) (b : batch) (rest : list batch) (s : t) : t :=
  Mk (ctx_done s) (collector s) rest (closed s) (collect_at s) (extra_at s) (report_at s) (<[i := WSending b]> (workers s))
    (pushed s) (received s ++ [b]) (sent s).
Definition finish_send (i : nat) (b : batch) (s : t) : t :=
  Mk (ctx_done s) (collector s) (jobs s) (closed s) (collect_at s) (extra_at s) (report_at s) (<[i := WRange]> (workers s))
    (pushed s) (received s) (sent s ++ [b]).

Inductive label :=
| Cancel                                           (** the context is cancelled *)
| CollectTick (ms : MemStats) (random : float64)   (** the first sample, or a tick *)
| CollectStop                                      (** [<-ctx.Done()] in [runCollect] *)
| ExtraTick (vm : res (Z * Z)) (cpu : res (list float64))
| ExtraStop
| ReportTick                                       (** a tick in [runReport] *)
| ReportStop                                       (** [<-ctx.Done()] in its outer [select] *)
| ReportSend                                       (** [jobs <- metrics] in its inner [select] *)
| ReportGiveUp                                     (** [<-ctx.Done()] in its inner [select] *)
| ReportFlush                                      (** the send of the final flush *)
| ReportClose                                      (** the deferred [close(jobs)] *)
| Receive (i : nat)                                (** worker [i] takes a batch *)
| Sent (i : nat)                                   (** its [SendBatch] returns *)
| Exit (i : nat).                                  (** the channel is closed and empty *)

Section Run.
Context `{MapRange} (rateLimit : nat).

(** The snapshot the reporter takes. *)
Definition snapshot_batch (s : t) : batch := Collector.convertToModelMetrics (Collector.GetSnapshot (collector s)).

(** A send needs room in the buffer.  (A receiver waiting at an empty channel takes
    the value from the buffer at once.)  A send on a closed channel panics:
    [never_on_closed]. *)
Definition has_room (s : t) : bool := bool_decide (length (jobs s) < rateLimit).

Definition fire (l : label) (s : t) : option t :=
  match l with
  | Cancel => Some (with_ctx s)
  | CollectTick ms random =>
      match collect_at s with
      | CFirst | CSelect => Some (with_collect (Collector.Collect ms random (collector s)) CSelect s)
      | CDone => None
      end
  | CollectStop =>
      match collect_at s with
      | CSelect => if ctx_done s then Some (with_collect (collector s) CDone s) else None
      | _ => None
      end
  | ExtraTick vm cpu =>
      match extra_at s with
      | ESelect => Some (with_extra (Collector.CollectExtra vm cpu (collector s)).1 ESelect s)
      | EDone => None
      end
  | ExtraStop =>
      match extra_at s with
      | ESelect => if ctx_done s then Some (with_extra (collector s) EDone s) else None
      | EDone => None
      end
  | ReportTick =>
      match report_at s with RSelect => Some (with_report (RSending (snapshot_batch s)) s) | _ => None end
  | ReportStop =>
      match report_at s with
      | RSelect => if ctx_done s then Some (with_report (RFlushing (snapshot_batch s)) s) else None
      | _ => None
      end
  | ReportSend =>
      match report_at s with
      | RSending b => if has_room s then Some (push b RSelect s) else None
      | _ => None
      end
  | ReportGiveUp =>
      match report_at s with
      | RSending b => if ctx_done s then Some (with_report (RFlushing b) s) else None
      | _ => None
      end
  | ReportFlush =>
      match report_at s with
      | RFlushing b => if has_room s then Some (push b RClosing s) else None
      | _ => None
      end
  | ReportClose =>
      match report_at s with RClosing => Some (close s) | _ => None end
  | Receive i =>
      match workers s !! i, jobs s with
      | Some WRange, b :: rest => Some (receive i b rest s)
      | _, _ => None
      end
  | Sent i =>
      match workers s !! i with
      | Some (WSending b) => Some (finish_send i b s)
      | _ => None
      end
  | Exit i =>
      match workers s !! i, jobs s with
      | Some WRange, [] => if closed s then Some (with_worker i WDone s) else None
      | _, _ => None
      end
  end.

Definition step (s s' : t) : Prop := exists l, fire l s = Some s'.

(** [wg.Wait()] returns. *)
Definition returned (s : t) : Prop :=
  collect_at s = CDone /\ extra_at s = EDone /\ report_at s = RDone /\ Forall (fun p => p = WDone) (workers s).

(** Run a schedule. *)
Fixpoint run (ls : list label) (s : t) : option t :=
  match ls with [] => Some s | l :: ls => s ← fire l s; run ls s end.

(** ** The invariant *)

(** The batches in workers' hands. *)
Definition in_hand (ws : list worker_pc) : list batch :=
  omap (fun p => match p with WSending b => Some b | _ => None end) ws.

Record inv (s : t) : Prop := {
  inv_workers : length (workers s) = rateLimit;
  inv_room : length (jobs s) <= rateLimit;
  inv_closed : closed s = true <-> report_at s = RDone;
  inv_fifo : pushed s = received s ++ jobs s;
  inv_sent : received s ≡ₚ sent s ++ in_hand (workers s);
  inv_exit : WDone ∈ workers s -> closed s = true /\ jobs s = [];
  inv_flush : match report_at s with RClosing | RDone => exists b, last (pushed s) = Some b | _ => True end;
  inv_ctx : match report_at s with RFlushing _ | RClosing | RDone => ctx_done s = true | _ => True end;
  inv_collect : collect_at s = CDone -> ctx_done s = true
}.

Lemma in_hand_range n : in_hand (replicate n WRange) = [].
Proof. by induction n. Qed.

Lemma inv_start c : inv (start c rateLimit).
Proof.
  split; unfold start; cbn [workers jobs closed report_at pushed received sent ctx_done collect_at]; try done.
  - by rewrite length_replicate.
  - cbn. lia.
  - by rewrite in_hand_range.
  - intros [Hx _]%elem_of_replicate. done.
Qed.

(** A worker's change of place. *)
Lemma in_hand_replace ws i p q :
  ws !! i = Some p -> exists a b, in_hand ws = a ++ in_hand [p] ++ b /\ in_hand (<[i := q]> ws) = a ++ in_hand [q] ++ b.
Proof.
  intros Hp. exists (in_hand (take i ws)), (in_hand (drop (S i) ws)).
  rewrite insert_take_drop by (by eapply lookup_lt_Some). rewrite <- (take_drop_middle ws i p Hp) at 1.
  unfold in_hand. by rewrite !omap_app, <- !omap_app.
Qed.

Lemma done_replaced (ws : list worker_pc) (i : nat) q : WDone ∈ <[i := q]> ws -> q = WDone \/ WDone ∈ ws.
Proof.
  intros (j & Hj)%list_elem_of_lookup. apply list_lookup_insert_Some in Hj as [(_ & -> & _)|[_ Hj]]; [by left|].
  right. by eapply list_elem_of_lookup_2.
Qed.

(** Every action keeps the invariant. *)
Lemma inv_report s s' pc c :
  inv s -> report_at s <> RDone ->
  match pc with RSelect | RSending _ => True | RFlushing _ => ctx_done s = true | _ => False end ->
  s' = with_report pc (with_collect c (collect_at s) s) -> inv s'.
Proof.
  intros [Hw Hr Hc Hf Hs He Hfl Hctx Hco] Hd Hpc ->. split; cbn; try done.
  - split; [intros ?%Hc; done|]. by destruct pc.
  - by destruct pc.
  - by destruct pc.
Qed.

Lemma inv_push s b pc :
  inv s -> report_at s <> RDone -> length (jobs s) < rateLimit ->
  match pc with RSelect => True | RClosing => ctx_done s = true | _ => False end -> inv (push b pc s).
Proof.
  intros [Hw Hr Hc Hf Hs He Hfl Hctx Hco] Hd Hroom Hpc. split; cbn; try done.
  - rewrite length_app. cbn. lia.
  - split; [intros ?%Hc; done|]. by destruct pc.
  - by rewrite Hf, app_assoc.
  - intros [?%Hc _]%He. done.
  - destruct pc; try done. exists b. apply last_snoc.
  - by destruct pc.
Qed.

Lemma fire_inv_worker l s s' :
  match l with Receive _ | Sent _ | Exit _ => True | _ => False end ->
  inv s -> fire l s = Some s' -> inv s'.
Proof.
  intros Hlab [Hw Hr Hc Hf Hs He Hfl Hctx Hco] Hl. destruct l as [| | | | | | | | | | |i|i|i]; try done; cbn [fire] in Hl.
  - destruct (workers s !! i) as [[| |]|] eqn:Ei; try done. destruct (jobs s) as [|b rest] eqn:Ej; simplify_eq.
    destruct (in_hand_replace (workers s) i WRange (WSending b) Ei) as (x & y & Hx & Hy).
    split; cbn -[in_hand]; try done.
    + by rewrite length_insert.
    + cbn in Hr. lia.
    + by rewrite Hf, <- app_assoc.
    + rewrite Hy, Hs, Hx. cbn. solve_Permutation.
    + intros [?|[_ ?]%He]%done_replaced; done.
  - destruct (workers s !! i) as [[|b|]|] eqn:Ei; simplify_eq.
    destruct (in_hand_replace (workers s) i (WSending b) WRange Ei) as (x & y & Hx & Hy).
    split; cbn -[in_hand]; try done.
    + by rewrite length_insert.
    + rewrite Hy, Hs, Hx. cbn. solve_Permutation.
    + intros [?|?]%done_replaced; [done|by apply He].
  - destruct (workers s !! i) as [[| |]|] eqn:Ei; try done. destruct (jobs s) as [|b rest] eqn:Ej; [|done].
    destruct (closed s) eqn:Ecl; simplify_eq.
    destruct (in_hand_replace (workers s) i WRange WDone Ei) as (x & y & Hx & Hy).
    split; cbn -[in_hand]; rewrite ?Ej, ?Ecl; try done.
    + by rewrite length_insert.
    + by rewrite Hy, Hs, Hx.
Qed.

Lemma fire_inv l s s' : inv s -> fire l s = Some s' -> inv s'.
Proof.
  intros Hi Hl. pose proof Hi as [Hw Hr Hc Hf Hs He Hfl Hctx Hco].
  destruct l as [|ms rnd| |vm cpu| | | | | | | |i|i|i]; try (match type of Hl with fire ?l _ = _ => exact (fire_inv_worker l s s' I Hi Hl) end).
  all: cbn [fire] in Hl.
  - simplify_eq. split; cbn; try done. by destruct (report_at s).
  - destruct (collect_at s); simplify_eq; split; cbn; done.
  - destruct (collect_at s), (ctx_done s) eqn:E; simplify_eq; split; cbn; rewrite ?E; done.
  - destruct (extra_at s); simplify_eq; split; cbn; done.
  - destruct (extra_at s), (ctx_done s) eqn:E; simplify_eq; split; cbn; rewrite ?E; done.
  - destruct (report_at s) eqn:E; simplify_eq. by eapply (inv_report s _ (RSending (snapshot_batch s)) (collector s)); rewrite ?E.
  - destruct (report_at s) eqn:E, (ctx_done s) eqn:Ec; simplify_eq.
    by eapply (inv_report s _ (RFlushing (snapshot_batch s)) (collector s)); rewrite ?E.
  - destruct (report_at s) eqn:E; try done. unfold has_room in Hl. case_bool_decide; simplify_eq.
    apply inv_push; rewrite ?E; done.
  - destruct (report_at s) eqn:E, (ctx_done s) eqn:Ec; simplify_eq.
    by eapply (inv_report s _ (RFlushing b) (collector s)); rewrite ?E.
  - destruct (report_at s) eqn:E; try done. unfold has_room in Hl. case_bool_decide; simplify_eq.
    apply inv_push; rewrite ?E; done.
  - destruct (report_at s) eqn:E; simplify_eq. split; cbn; try done. intros [Hcl _]%He. apply Hc in Hcl. done.
Qed.

Lemma reachable_inv s s' : inv s -> rtc step s s' -> inv s'.
Proof. intros Hi Hs. induction Hs as [|s s1 s' [l Hl] _ IH]; [done|]. by eapply IH, fire_inv. Qed.

(** ** Shutdown *)

(** A tick of a timer and the cancellation itself come from outside; all other
    actions are there to be taken. *)
Definition eager (l : label) (s : t) : bool :=
  match l with
  | Cancel | ExtraTick _ _ | ReportTick => false
  | CollectTick _ _ => match collect_at s with CFirst => true | _ => false end
  | _ => true
  end.

Definition eager_step (s s' : t) : Prop := exists l, eager l s = true /\ fire l s = Some s'.

Definition weight (s : t) : nat :=
  (match collect_at s with CFirst => 2 | CSelect => 1 | CDone => 0 end)
  + (match extra_at s with ESelect => 1 | EDone => 0 end)
  + (match report_at s with RSending _ => 8 | RSelect => 5 | RFlushing _ => 4 | RClosing => 1 | RDone => 0 end)
  + 2 * length (jobs s)
  + sum_list_with (fun p => match p with WRange => 1 | WSending _ => 2 | WDone => 0 end) (workers s).

Lemma weight_replaced (f : worker_pc -> nat) ws i p q :
  ws !! i = Some p -> sum_list_with f (<[i := q]> ws) + f p = sum_list_with f ws + f q.
Proof.
  intros Hp. rewrite insert_take_drop by (by eapply lookup_lt_Some).
  rewrite <- (take_drop_middle ws i p Hp) at 3. rewrite !sum_list_with_app. cbn. lia.
Qed.

Lemma eager_decreases l s s' : eager l s = true -> fire l s = Some s' -> weight s' < weight s.
Proof.
  intros He Hl. destruct l as [|ms rnd| |vm cpu| | | | | | | |i|i|i]; try done; cbn [fire eager] in *; unfold weight.
  - destruct (collect_at s); simplify_eq. cbn. lia.
  - destruct (collect_at s), (ctx_done s); simplify_eq. cbn. lia.
  - destruct (extra_at s), (ctx_done s); simplify_eq. cbn. lia.
  - destruct (report_at s), (ctx_done s); simplify_eq. cbn. lia.
  - destruct (report_at s), (has_room s); simplify_eq. cbn. rewrite length_app. cbn. lia.
  - destruct (report_at s), (ctx_done s); simplify_eq. cbn. lia.
  - destruct (report_at s), (has_room s); simplify_eq. cbn. rewrite length_app. cbn. lia.
  - destruct (report_at s); simplify_eq. cbn. lia.
  - destruct (workers s !! i) as [[|b0|]|] eqn:Ei, (jobs s) as [|b rest] eqn:Ej; simplify_eq. cbn.
    pose proof (weight_replaced (fun p => match p with WRange => 1 | WSending _ => 2 | WDone => 0 end)
      (workers s) i WRange (WSending b) Ei). cbn in *. lia.
  - destruct (workers s !! i) as [[|b|]|] eqn:Ei; simplify_eq. cbn.
    pose proof (weight_replaced (fun p => match p with WRange => 1 | WSending _ => 2 | WDone => 0 end)
      (workers s) i (WSending b) WRange Ei). cbn in *. lia.
  - destruct (workers s !! i) as [[|b0|]|] eqn:Ei, (jobs s) eqn:Ej, (closed s); simplify_eq. cbn. rewrite Ej.
    pose proof (weight_replaced (fun p => match p with WRange => 1 | WSending _ => 2 | WDone => 0 end)
      (workers s) i WRange WDone Ei). cbn in *. lia.
Qed.

(** A worker that has not returned can act unless the channel is open and
    empty. *)
Lemma worker_acts s i p :
  workers s !! i = Some p -> p <> WDone -> jobs s <> [] \/ closed s = true -> exists s', eager_step s s'.
Proof.
  intros Hi Hp Hj. destruct p as [|b|]; [|by exists (finish_send i b s), (Sent i); cbn; rewrite Hi|done].
  destruct (jobs s) as [|b rest] eqn:Ej.
  - destruct Hj as [?|Hc]; [done|]. exists (with_worker i WDone s), (Exit i). cbn. by rewrite Hi, Ej, Hc.
  - exists (receive i b rest s), (Receive i). cbn. by rewrite Hi, Ej.
Qed.

Lemma shutdown_progress s :
  1 <= rateLimit -> inv s -> ctx_done s = true -> ~ returned s -> exists s', eager_step s s'.
Proof.
  intros Hrl [Hw Hr Hc Hf Hs He Hfl Hctx Hco] Hd Hn.
  destruct (report_at s) as [|b|b| |] eqn:Er.
  - exists (with_report (RFlushing (snapshot_batch s)) s), ReportStop. cbn. by rewrite Er, Hd.
  - exists (with_report (RFlushing b) s), ReportGiveUp. cbn. by rewrite Er, Hd.
  - destruct (decide (length (jobs s) < rateLimit)) as [Hroom|Hfull].
    + exists (push b RClosing s), ReportFlush. cbn. unfold has_room. by rewrite Er, bool_decide_true.
    + destruct (lookup_lt_is_Some_2 (workers s) 0) as [p Hp]; [lia|]. apply (worker_acts s 0 p Hp).
      * intros ->. destruct He as [Hcl _]; [by eapply list_elem_of_lookup_2|]. apply Hc in Hcl. done.
      * left. intros Hj. rewrite Hj in Hfull. cbn in Hfull. lia.
  - exists (close s), ReportClose. cbn. by rewrite Er.
  - destruct (collect_at s) eqn:Ecol.
    + exists (with_collect (Collector.Collect Collector.stats0 F_nan (collector s)) CSelect s),
        (CollectTick Collector.stats0 F_nan). cbn. by rewrite Ecol.
    + exists (with_collect (collector s) CDone s), CollectStop. cbn. by rewrite Ecol, Hd.
    + destruct (extra_at s) eqn:Ee; [exists (with_extra (collector s) EDone s), ExtraStop; cbn; by rewrite Ee, Hd|].
      destruct (decide (Forall (fun p => p = WDone) (workers s))) as [Hall|Hsome]; [by destruct Hn|].
      apply not_Forall_Exists, Exists_exists in Hsome as (p & Hp & Hpd); [|intros p; apply _].
      apply list_elem_of_lookup in Hp as [i Hi]. apply (worker_acts s i p Hi Hpd). right. by apply Hc.
Qed.

Lemma eager_inv s s' : inv s -> ctx_done s = true -> eager_step s s' -> inv s' /\ ctx_done s' = true.
Proof.
  intros Hi Hd (l & _ & Hl). split; [by eapply fire_inv|].
  destruct l; cbn in Hl; repeat case_match; by simplify_eq.
Qed.

Lemma shutdown_reaches s :
  1 <= rateLimit -> inv s -> ctx_done s = true -> exists s', rtc eager_step s s' /\ returned s'.
Proof.
  intros Hrl. remember (weight s) as n eqn:Hn. revert s Hn. induction n as [n IH] using lt_wf_ind. intros s -> Hi Hd.
  destruct (decide (collect_at s = CDone /\ extra_at s = EDone /\ report_at s = RDone /\
    Forall (fun p => p = WDone) (workers s))) as [Hr|Hr]; [by exists s|].
  destruct (shutdown_progress s Hrl Hi Hd Hr) as [s1 Hs1]. destruct (eager_inv s s1 Hi Hd Hs1) as [Hi1 Hd1].
  pose proof Hs1 as (l & He & Hl). pose proof (eager_decreases l s s1 He Hl) as Hlt.
  destruct (IH _ Hlt s1 eq_refl Hi1 Hd1) as (s' & Hs' & Hret). exists s'. split; [by eapply rtc_l|done].
Qed.

(** ** Where the batches come from *)

Definition held (s : t) : list batch :=
  match report_at s with RSending b | RFlushing b => [b] | _ => [] end.

Lemma fire_others l s s' :
  match l with
  | ReportTick | ReportStop | ReportSend | ReportGiveUp | ReportFlush | ReportClose => False
  | _ => True
  end ->
  fire l s = Some s' -> pushed s' = pushed s /\ report_at s' = report_at s /\ closed s' = closed s.
Proof. intros Hlab Hl. destruct l; try done; cbn [fire] in Hl; repeat case_match; by simplify_eq. Qed.

Lemma fire_batches l s s' b :
  fire l s = Some s' -> b ∈ pushed s' ++ held s' ->
  b ∈ pushed s ++ held s \/ (report_at s = RSelect /\ b = snapshot_batch s).
Proof.
  intros Hl Hb. unfold held in *.
  destruct l as [|ms rnd| |vm cpu| | | | | | | |i|i|i];
    try (match type of Hl with fire ?l _ = _ => destruct (fire_others l s s' I Hl) as (Hp & Hr & _) end;
         left; by rewrite Hp, Hr in Hb).
  all: cbn [fire] in Hl; destruct (report_at s) as [|b0|b0| |]; try done;
    try destruct (ctx_done s); try destruct (has_room s); simplify_eq; cbn in Hb; rewrite ?app_nil_r in *; auto.
  all: apply elem_of_app in Hb as [Hb|Hb%list_elem_of_singleton]; auto.
Qed.

(** The batch is a snapshot the reporter took on the way from [s0] to [s]. *)
Definition snapshot_between (s0 s : t) (b : batch) : Prop :=
  exists s1, rtc step s0 s1 /\ rtc step s1 s /\ report_at s1 = RSelect /\ b = snapshot_batch s1.

Lemma batches_are_snapshots c s b :
  rtc step (start c rateLimit) s -> b ∈ pushed s ++ held s -> snapshot_between (start c rateLimit) s b.
Proof.
  intros Hs0. revert s Hs0 b. apply (rtc_ind_r (fun s => forall b, b ∈ pushed s ++ held s -> snapshot_between _ s b));
    [intros b Hb; by inversion Hb|].
  intros s s' Hs [l Hl] IH b Hb.
  apply (fire_batches l s s' b Hl) in Hb as [Hb|[Hr ->]].
  - destruct (IH b Hb) as (s1 & H1 & H2 & H3 & H4). exists s1. split_and!; [done| |done..].
    eapply rtc_r; [exact H2|by exists l].
  - exists s. split_and!; [done| |done..]. apply rtc_once. by exists l.
Qed.

Lemma in_hand_length ws : length (in_hand ws) <= length ws.
Proof. unfold in_hand. induction ws as [|[|b|] ws IH]; cbn; lia. Qed.

(** The actions that panic on a closed channel: the sends, and [close]. *)
Definition closes (l : label) : bool := match l with ReportClose => true | _ => false end.
Definition needs_open (l : label) : bool := match l with ReportSend | ReportFlush | ReportClose => true | _ => false end.

Lemma never_on_closed l s s' : inv s -> fire l s = Some s' -> needs_open l = true -> closed s = false.
Proof.
  intros Hi Hl Hn. destruct (closed s) eqn:E; [|done]. apply (inv_closed s Hi) in E. destruct l; try done; cbn [fire] in Hl; by rewrite E in Hl.
Qed.

Definition flag (b : bool) : nat := if b then 1 else 0.

Lemma fire_closes l s s' : inv s -> fire l s = Some s' -> flag (closes l) + flag (closed s) = flag (closed s').
Proof.
  intros Hi Hl. destruct (needs_open l) eqn:Hn.
  - pose proof (never_on_closed l s s' Hi Hl Hn) as E. rewrite E. destruct l; try done; cbn [fire] in Hl;
      destruct (report_at s); try done; try (destruct (has_room s); [|done]); injection Hl as <-; cbn; by rewrite ?E.
  - assert (closed s' = closed s) as ->; [|by destruct l].
    destruct l; try done; cbn [fire] in Hl; repeat case_match; by simplify_eq.
Qed.

Lemma run_closes ls s s' : inv s -> run ls s = Some s' ->
  length (filter (fun l => closes l = true) ls) + flag (closed s) = flag (closed s').
Proof.
  revert s. induction ls as [|l ls IH]; intros s Hi; cbn [run]; [by intros [= ->]|].
  destruct (fire l s) as [s1|] eqn:Hl; [|done]. cbn [mbind option_bind]. intros Hr.
  specialize (IH s1 (fire_inv _ _ _ Hi Hl) Hr). pose proof (fire_closes l s s1 Hi Hl) as Hf. rewrite filter_cons.
  case_decide as Hd; cbn [length]; destruct (closes l); cbn [flag] in *; done || lia.
Qed.

(** ** Properties *)

(** C22. The channel of [Run].  At any moment, under any interleaving: the batches
    taken by workers are a prefix of those sent on the channel, in order; each
    taken batch is with exactly one worker or its [SendBatch] has returned; at most
    [rateLimit] batches wait and at most [rateLimit] requests are under way; every
    batch is a snapshot of the collector; a send and [close] happen only while the
    channel is open, as they panic otherwise; and however the run goes on, the channel
    is closed by exactly one [close], if it gets closed, and by none once it is. *)
Theorem jobs_safety c s :
  rtc step (start c rateLimit) s ->
  pushed s = received s ++ jobs s /\ received s ≡ₚ sent s ++ in_hand (workers s) /\
  length (jobs s) <= rateLimit /\ length (in_hand (workers s)) <= rateLimit /\
  Forall (snapshot_between (start c rateLimit) s) (pushed s) /\
  (forall l s', fire l s = Some s' -> needs_open l = true -> closed s = false) /\
  (forall ls s', run ls s = Some s' ->
     length (filter (fun l => closes l = true) ls) + (if closed s then 1 else 0) = (if closed s' then 1 else 0)).
Proof.
  intros Hs. pose proof (reachable_inv _ _ (inv_start c) Hs) as Hi. split_and!.
  - apply Hi.
  - apply Hi.
  - apply Hi.
  - etrans; [apply in_hand_length|]. by rewrite (inv_workers _ Hi).
  - apply Forall_forall. intros b Hb. apply batches_are_snapshots; [done|]. by apply elem_of_app; left.
  - intros l s'. by apply never_on_closed.
  - intros ls s'. by apply run_closes.
Qed.

(** C11. Graceful shutdown.  Once the context is cancelled, wherever the goroutines
    are: timer ticks aside, only so many actions are left and none of the goroutines
    can get stuck before all have returned, so [Run] returns; and when it has,
    every batch ever sent on the channel was handed to [SendBatch], the last of
    them a snapshot the reporter took at its [select]. *)
Theorem graceful_shutdown c s :
  1 <= rateLimit -> rtc step (start c rateLimit) s -> ctx_done s = true ->
  (forall n s', nsteps eager_step n s s' -> n <= weight s) /\
  (exists s', rtc eager_step s s' /\ returned s') /\
  (forall s', rtc eager_step s s' -> ~ returned s' -> exists s'', eager_step s' s'') /\
  (forall s', rtc step s s' -> returned s' ->
     jobs s' = [] /\ sent s' ≡ₚ pushed s' /\
     exists b, last (pushed s') = Some b /\ snapshot_between (start c rateLimit) s' b).
Proof.
  intros Hrl Hs Hd. pose proof (reachable_inv _ _ (inv_start c) Hs) as Hi. split_and!.
  - intros n s' Hn. clear -Hn. induction Hn as [|n s s1 s' (l & He & Hl) _ IH]; [lia|].
    pose proof (eager_decreases l s s1 He Hl). lia.
  - by apply shutdown_reaches.
  - intros s' Hs' Hn. assert (inv s' /\ ctx_done s' = true) as [Hi' Hd'].
    { clear Hn Hs. induction Hs' as [|s s1 s' H1 _ IH]; [done|]. by apply IH; eapply eager_inv. }
    by apply shutdown_progress.
  - intros s' Hs' (_ & _ & Hr & Hw). assert (rtc step (start c rateLimit) s') as Hss by (by etrans).
    pose proof (reachable_inv _ _ Hi Hs') as [Hw' _ _ Hf Hse He Hfl _ _]. rewrite Hr in Hfl.
    assert (jobs s' = []) as Hj.
    { destruct (workers s') as [|p ws] eqn:E; [cbn in Hw'; lia|]. apply Forall_cons in Hw as [-> _]. apply He. by left. }
    assert (in_hand (workers s') = []) as Hh.
    { clear -Hw. induction Hw as [|p ws -> _ IH]; [done|]. exact IH. }
    split; [done|]. rewrite Hf, Hse, Hj, Hh, !app_nil_r. split; [done|]. destruct Hfl as [b Hb]. exists b.
    split; [by rewrite <- Hb, Hf, Hj, app_nil_r|]. apply batches_are_snapshots; [done|].
    apply elem_of_app. left. by apply last_Some_elem_of.
Qed.

Lemma run_reaches ls s s' : run ls s = Some s' -> rtc step s s'.
Proof.
  revert s. induction ls as [|l ls IH]; intros s; cbn; [by intros [= <-]|].
  destruct (fire l s) as [s1|] eqn:Hl; [|done]. intros Hr. eapply rtc_l; [by exists l|by apply IH].
Qed.
End Run.

(** [NewWithSender]: a [rateLimit] that is not positive ends the process. *)
Definition NewWithSender (rateLimit : Z) : option t :=
  if (rateLimit <=? 0)%Z then None else Some (start Collector.NewCollector (Z.to_nat rateLimit)).

(** ** Instances of the theorems *)

#[local] Instance key_order : MapRange := {| range _ := map_to_list; range_ok _ _ := Permutation_refl _ |}.

(** A sample and a report under way when the context is cancelled. *)
Definition busy : list label :=
  [CollectTick Collector.stats0 F_nan; ReportTick; ReportSend; Receive 0; CollectTick Collector.stats0 F_nan; Cancel].
Definition wind_down : list label :=
  [ReportStop; ReportFlush; ReportClose; CollectStop; Sent 0; Receive 0; ExtraStop; Sent 0; Exit 0].

Definition s_busy : t := default (start Collector.NewCollector 1) (run 1 busy (start Collector.NewCollector 1)).
Definition s_end : t := default s_busy (run 1 wind_down s_busy).

Lemma busy_reached : rtc (step 1) (start Collector.NewCollector 1) s_busy.
Proof. apply (run_reaches 1 busy). by vm_compute. Qed.

Lemma end_reached : rtc (step 1) s_busy s_end.
Proof. apply (run_reaches 1 wind_down). by vm_compute. Qed.

Lemma end_returned : returned s_end.
Proof. split_and!; [by vm_compute..|]. apply (bool_decide_unpack _). by vm_compute. Qed.

Lemma jobs_safety_witness : length (pushed s_busy) = 1 /\ pushed s_busy = received s_busy ++ jobs s_busy /\
  length (filter (fun l => closes l = true) wind_down) + 0 = 1.
Proof.
  destruct (jobs_safety 1 Collector.NewCollector s_busy busy_reached) as (Hf & _ & _ & _ & _ & _ & Hc).
  split; [by vm_compute|]. split; [exact Hf|]. exact (Hc wind_down s_end ltac:(vm_compute; reflexivity)).
Defined.

Lemma graceful_shutdown_witness :
  (exists s', rtc (eager_step 1) s_busy s' /\ returned s') /\ length (pushed s_end) = 2 /\ sent s_end ≡ₚ pushed s_end.
Proof.
  destruct (graceful_shutdown 1 Collector.NewCollector s_busy ltac:(lia) busy_reached eq_refl) as (_ & H1 & _ & H2).
  split; [exact H1|]. split; [by vm_compute|]. apply (H2 s_end end_reached end_returned).
Defined.
End Agent.
