(* ===== verification/Grpc.v ===== *)
(** * internal/grpcserver and the gRPC sender

    The Metrics service over gRPC: the server's handler and its trusted-subnet
    interceptor, the agent's sender, and the two joined by a call that can get
    lost.  The protobuf encoding and the gRPC runtime are parameters. *)

From S2P Require Import Prelude Errors GoInt GoStrings NetIP GoFloat Model Storage Service Handler HandlerFacts Middleware Delivery.

(** [pb.Metric]: the enum is an open integer on the wire. *)
Record pb_Metric := MkPb { Id : string; Type_no : Z; pb_Delta : Z; pb_Value : float64 }.
Definition Metric_GAUGE : Z := 0.
Definition Metric_COUNTER : Z := 1.

Abbreviation UpdateMetricsRequest := (list pb_Metric).

(** A [status.Error]. *)
Inductive code := InvalidArgument | Internal | PermissionDenied | Unavailable.
Record status_error := MkStatus { Code : code; Message : string }.

(** Encoding and decoding a request: proto3 strings are UTF-8. *)
Class Protobuf := {
  pb_wire : UpdateMetricsRequest -> result status_error UpdateMetricsRequest;
  pb_wire_utf8 req : forallb (fun m => ValidString (Id m)) req = true -> pb_wire req = Ok req
}.

Definition MetadataXRealIP : string := "x-real-ip".

Module Grpc.

(** ** The server *)

Section Server.
Context {S : Type} `{Storage S} `{UnicodeTables, PgErrorText}.

(** The loop over [req.GetMetrics()]. *)
Fixpoint convert (ms : list pb_Metric) : result status_error (list Metrics) :=
  match ms with
  | [] => Ok []
  | m :: ms =>
      if (Type_no m =? Metric_GAUGE)%Z then rest ← convert ms; Ok (gauge_metric (Id m) (pb_Value m) :: rest)
      else if (Type_no m =? Metric_COUNTER)%Z then rest ← convert ms; Ok (counter_metric (Id m) (pb_Delta m) :: rest)
      else Err (MkStatus InvalidArgument
        ("unknown metric type " +:+ FormatInt (Type_no m) +:+ " for " +:+ Quote (Id m)))
  end.

Definition UpdateMetrics (svc : MetricService.t S) (req : UpdateMetricsRequest) (s : S) : S * option status_error :=
  match convert req with
  | Err st => (s, Some st)
  | Ok metrics =>
      match MetricService.UpdateBatch svc metrics s with
      | (s, Some err) => (s, Some (MkStatus Internal ("update batch: " +:+ Error err)))
      | (s, None) => (s, None)
      end
  end.

(** A handler with its request fixed; the metadata maps lower-case keys to
    values. *)
Definition unary (A : Type) : Type := gmap string (list string) -> A -> A * option status_error.

Definition TrustedSubnetInterceptor (cidr : string) : res (option (unary S -> unary S)) :=
  if bool_decide (cidr = "") then Ok None
  else
    match ParseCIDR cidr with
    | Err err => Err (Errorf ("trusted_subnet: invalid CIDR " +:+ Quote cidr +:+ ": ") err)
    | Ok network =>
        Ok (Some (fun handler md s =>
          let raw := match md !! MetadataXRealIP with Some (v :: _) => v | _ => "" end in
          let denied := (s, Some (MkStatus PermissionDenied ("ip " +:+ Quote raw +:+ " is not in trusted subnet"))) in
          match ParseIP raw with
          | None => denied
          | Some ip => if negb (Net_Contains network ip) then denied else handler md s
          end))
    end.

Definition intercept (i : option (unary S -> unary S)) (handler : unary S) : unary S :=
  match i with Some i => i handler | None => handler end.
End Server.

(** ** The sender *)

Record GRPCSender := MkGRPCSender { localIP : string }.

(** The loop of [SendBatch]. *)
Definition to_pb (m : Metrics) : option pb_Metric :=
  if bool_decide (MType m = Gauge) then
    v ← Value m; Some (MkPb (ID m) Metric_GAUGE 0 v)
  else if bool_decide (MType m = Counter) then
    d ← Delta m; Some (MkPb (ID m) Metric_COUNTER d (float64_of_Z 0))
  else None.

(** [client.UpdateMetrics] with its outgoing metadata, as an action on [N]. *)
Definition rpc (N : Type) : Type :=
  gmap string (list string) -> UpdateMetricsRequest -> N -> N * option status_error.

Definition SendBatch {N} (client : rpc N) (s : GRPCSender) (metrics : list Metrics) (n : N) : N * option error :=
  let req := omap to_pb metrics in
  let md := if negb (bool_decide (localIP s = "")) then {[MetadataXRealIP := [localIP s]]} else ∅ in
  match client md req n with
  | (n, Some st) => (n, Some (Errorf "grpc update metrics: " (ErrorText (Message st))))
  | (n, None) => (n, None)
  end.

(** ** The two joined *)

Section Joined.
Context {S : Type} `{StorageLaws S} `{UnicodeTables, PgErrorText, Protobuf}.

(** The server behind a connection: the storage, and what happens to the next
    calls. *)
Record link := MkLink { server : S; script : list net_event }.

Definition call (i : option (unary S -> unary S)) (svc : MetricService.t S) : rpc link := fun md req n =>
  match pb_wire req with
  | Err st => (n, Some st)
  | Ok req =>
      let handle := intercept i (fun _ => UpdateMetrics svc req) md in
      match script n with
      | [] => let '(s, r) := handle (server n) in (MkLink s [], r)
      | Exchanged :: rest => let '(s, r) := handle (server n) in (MkLink s rest, r)
      | LostRequest e :: rest => (MkLink (server n) rest, Some (MkStatus Unavailable (Error e)))
      | LostReply e :: rest => (MkLink (handle (server n)).1 rest, Some (MkStatus Unavailable (Error e)))
      end
  end.

(** *** Properties *)

(** An entry the sender sends, and one it leaves out. *)
Lemma to_pb_some x p req rest :
  to_pb x = Some p -> convert req = Ok rest -> exists x', convert (p :: req) = Ok (x' :: rest) /\
    (forall m, MemStorage.apply_metric x' m = MemStorage.apply_metric x m) /\
    (valid_metric x = true -> valid_metric x' = true).
Proof.
  intros Hp Hc. revert Hp. unfold to_pb, MemStorage.apply_metric, valid_metric. repeat case_bool_decide.
  - destruct (Value x) as [v|]; [|done]. intros [= <-]. exists (gauge_metric (ID x) v).
    split; [cbn [convert Type_no]; by rewrite Hc|]. split; [done|]. by intros [_ ?]%andb_true_iff.
  - destruct (Delta x) as [d|]; [|done]. intros [= <-]. exists (counter_metric (ID x) d).
    split; [cbn [convert Type_no]; by rewrite Hc|]. split; [done|].
    intros [? _]%andb_true_iff. cbn. by rewrite andb_true_r.
  - done.
Qed.

Lemma to_pb_none x m : to_pb x = None -> MemStorage.apply_metric x m = m.
Proof.
  unfold to_pb, MemStorage.apply_metric.
  repeat case_bool_decide; [by destruct (Value x)|by destruct (Delta x)|done].
Qed.

(** What arrives of a batch: its well-formed entries. *)
Lemma convert_to_pb ms :
  exists ms', convert (omap to_pb ms) = Ok ms' /\ (forall m, MemStorage.apply_all ms' m = MemStorage.apply_all ms m) /\
    (Forall (fun x => valid_metric x = true) ms -> Forall (fun x => valid_metric x = true) ms').
Proof.
  induction ms as [|x ms (ms' & Hc & Ha & Hv)]; [by exists []|].
  change (omap to_pb (x :: ms)) with (match to_pb x with Some p => p :: omap to_pb ms | None => omap to_pb ms end).
  destruct (to_pb x) as [p|] eqn:Hp.
  - destruct (to_pb_some x p _ _ Hp Hc) as (x' & Hx' & Hax & Hvx). exists (x' :: ms'). split; [exact Hx'|]. split.
    + intros m. rewrite !MemStorage.apply_all_cons. by rewrite Hax, Ha.
    + intros Hx. apply Forall_cons in Hx as [Hx Hms]. constructor; auto.
  - exists ms'. split; [exact Hc|]. split; [|intros Hx; apply Forall_cons in Hx as [_ ?]; auto].
    intros m. by rewrite MemStorage.apply_all_cons, Ha, to_pb_none.
Qed.

Lemma to_pb_id x p : to_pb x = Some p -> Id p = ID x.
Proof.
  unfold to_pb. repeat case_bool_decide; [destruct (Value x)|destruct (Delta x)|done]; [|done| |done]; by intros [= <-].
Qed.

Lemma ids_utf8 ms :
  Forall (fun m => ValidString (ID m) = true) ms -> forallb (fun m => ValidString (Id m)) (omap to_pb ms) = true.
Proof.
  induction 1 as [|x ms Hx _ IH]; [done|].
  change (omap to_pb (x :: ms)) with (match to_pb x with Some p => p :: omap to_pb ms | None => omap to_pb ms end).
  destruct (to_pb x) as [p|] eqn:Hp; [|done]. cbn [forallb]. by rewrite (to_pb_id x p Hp), Hx.
Qed.

(** A service call leaves the storage as before or applies the whole batch. *)
Lemma UpdateMetrics_outcome svc ms ms' s m :
  MetricService.quiet svc -> holds s m -> convert (omap to_pb ms) = Ok ms' ->
  (forall m, MemStorage.apply_all ms' m = MemStorage.apply_all ms m) ->
  Forall (fun x => valid_metric x = true) ms' ->
  let '(s', r) := UpdateMetrics svc (omap to_pb ms) s in
  holds s' (match r with None => MemStorage.apply_all ms m | Some _ => m end).
Proof.
  intros Hq Hm Hc Ha Hv. unfold UpdateMetrics. rewrite Hc.
  pose proof (MetricService.UpdateBatch_outcome svc ms' s m Hm Hv) as Ho.
  destruct (MetricService.UpdateBatch svc ms' s) as [s' r]. case_bool_decide as Hn.
  - destruct Ho as [-> ->]. rewrite <- Ha, Hn. exact Hm.
  - destruct Ho as (s1 & Hs1 & ->). destruct r; [exact Hs1|]. rewrite <- Ha. by apply Hq.
Qed.

Definition trusted (cidr ip : string) : bool :=
  bool_decide (cidr = "") ||
  match ParseCIDR cidr, ParseIP ip with
  | Ok network, Some ip => Net_Contains network ip
  | _, _ => false
  end.

(** C24. The gRPC path does what the HTTP path does.  The batch that reaches the
    service updates the storage exactly as the sender's batch would, malformed
    entries being skipped on either path; the call succeeds only when it was
    applied as a whole; when it fails, and the sender's address is not in the trusted
    subnet or no reply is lost, it had no effect (after a lost reply the batch may have
    been applied); and a request with an unknown
    metric type is refused as a whole, even if other entries are fine. *)
Theorem grpc_delivers svc cidr i sender ms n m :
  TrustedSubnetInterceptor cidr = Ok i -> MetricService.quiet svc -> holds (server n) m ->
  Forall (fun x => valid_metric x = true) ms -> Forall (fun x => ValidString (ID x) = true) ms ->
  (let '(n', e) := SendBatch (call i svc) sender ms n in
   (e = None -> trusted cidr (localIP sender) = true /\ holds (server n') (MemStorage.apply_all ms m)) /\
   (is_Some e -> (trusted cidr (localIP sender) = false \/ forall e', LostReply e' ∉ script n) -> holds (server n') m)) /\
  (forall req x, x ∈ req -> Type_no x <> Metric_GAUGE -> Type_no x <> Metric_COUNTER -> exists msg,
     UpdateMetrics svc req (server n) = (server n, Some (MkStatus InvalidArgument msg))).
Proof.
  intros Hi Hq Hm Hv Hu. split.
  2:{ intros req x Hx Hg Hc. unfold UpdateMetrics.
      assert (exists msg, convert req = Err (MkStatus InvalidArgument msg)) as [msg ->]; [|by exists msg].
      induction Hx as [x req|x y req Hx IH]; cbn [convert].
      - rewrite (proj2 (Z.eqb_neq _ _) Hg), (proj2 (Z.eqb_neq _ _) Hc). eauto.
      - destruct (IH Hg Hc) as [msg Hmsg]. destruct (_ =? Metric_GAUGE)%Z; [rewrite Hmsg; cbn; eauto|].
        destruct (_ =? Metric_COUNTER)%Z; [rewrite Hmsg; cbn; eauto|]. eauto. }
  destruct (convert_to_pb ms) as (ms' & Hc & Ha & Hv'). specialize (Hv' Hv).
  unfold SendBatch, call. rewrite pb_wire_utf8 by (by apply ids_utf8).
  set (md := if negb (bool_decide (localIP sender = "")) then _ else _).
  assert (exists r, let out := intercept i (fun _ => UpdateMetrics svc (omap to_pb ms)) md (server n) in
    out.2 = r /\ holds out.1 (match r with None => MemStorage.apply_all ms m | Some _ => m end) /\
    (r = None -> trusted cidr (localIP sender) = true) /\
    (trusted cidr (localIP sender) = false -> holds out.1 m)) as (r & Hr2 & Hr & Ht & Hnt).
  { pose proof (UpdateMetrics_outcome svc ms ms' (server n) m Hq Hm Hc Ha Hv') as Ho.
    assert ((match md !! MetadataXRealIP with Some (v :: _) => v | _ => "" end) = localIP sender) as Hraw.
    { subst md. case_bool_decide as He; cbn [negb]; [by rewrite lookup_empty|by rewrite lookup_singleton_eq]. }
    revert Hi. unfold TrustedSubnetInterceptor, trusted. case_bool_decide.
    - intros [= <-]. cbn [intercept orb]. destruct (UpdateMetrics _ _ _) as [s' r]. by exists r.
    - destruct (ParseCIDR cidr) as [network|]; [|done]. intros [= <-]. cbn [intercept orb]. rewrite Hraw.
      destruct (ParseIP (localIP sender)) as [ip|]; [|by eexists].
      destruct (Net_Contains network ip); cbn [negb]; [|by eexists].
      destruct (UpdateMetrics _ _ _) as [s' r]. by exists r. }
  destruct (intercept _ _ _ _) as [s' r0]. cbn [fst snd] in *. subst r0.
  destruct (script n) as [|[|e|e] rest]; cbn [server].
  - destruct r; cbn [server]; (split; [|intros [? ?]; done]); [done|auto].
  - destruct r; cbn [server]; (split; [|intros [? ?]; done]); [done|auto].
  - split; [done|]. by intros _ _.
  - split; [done|]. intros _ [Hf|Hl]; [auto|]. exfalso. apply (Hl e). by left.
Qed.
End Joined.

(** ** Instances of the theorems *)

Module GrpcExamples.
Import HandlerExamples DeliveryExamples.

#[local] Instance identity_wire : Protobuf := {| pb_wire req := Ok req; pb_wire_utf8 _ _ := eq_refl |}.

Definition in_subnet : option (unary MemStorage.t -> unary MemStorage.t) :=
  match TrustedSubnetInterceptor "10.0.0.0/8" with Ok i => i | Err _ => None end.

Definition link0 : link := MkLink MemStorage.sample [].

Definition batch0 : list Metrics :=
  [counter_metric "PollCount" 2; MkMetrics "x" "histogram" None None ""; gauge_metric "Load" F_nan].

Lemma grpc_delivers_witness :
  let '(n', e) := SendBatch (call in_subnet (MetricService.Mk None)) (MkGRPCSender "10.1.2.3") batch0 link0 in
  e = None /\ holds (server n') (MemStorage.apply_all batch0 MemStorage.sample) /\
  MemStorage.counters (server n') !! "PollCount" = Some 7%Z.
Proof.
  pose proof (grpc_delivers (MetricService.Mk None) "10.0.0.0/8" in_subnet (MkGRPCSender "10.1.2.3") batch0 link0 MemStorage.sample
    eq_refl h0_quiet w0_holds ltac:(repeat constructor) ltac:(repeat constructor; by vm_compute)) as [Ht _].
  destruct (SendBatch _ _ _ _) as [n' e] eqn:E. destruct Ht as [Ht _].
  assert (e = None) as -> by (change e with ((n', e).2); rewrite <- E; by vm_compute).
  split; [done|]. split; [by apply Ht|]. change n' with ((n', @None error).1). rewrite <- E. by vm_compute.
Defined.
End GrpcExamples.
End Grpc.
