(* ===== verification/NetFacts.v ===== *)
(** * Subnets

    [IPNet.Contains] on a network [ParseCIDR] made compares the first bits of two
    numbers; the HTTP middleware and the gRPC interceptor both admit by it. *)

From S2P Require Import Prelude Errors GoInt GoStrings GoFloat Model GoJson Storage Service FileStore Http AuditTrail Dashboard Handler Middleware Grpc NetIP.

#[local] Open Scope Z_scope.

(** ** Prefixes *)

(** The number of the bytes, the most significant first. *)
Fixpoint be (l : list Z) : Z := match l with [] => 0 | x :: l => x * 2 ^ (8 * Z.of_nat (length l)) + be l end.

Definition byte (x : Z) : Prop := 0 <= x < 256.

Lemma be_bound l : Forall byte l -> 0 <= be l < 2 ^ (8 * Z.of_nat (length l)).
Proof.
  induction 1 as [|x l Hx _ IH]; cbn [be length]; [lia|]. unfold byte in Hx.
  replace (8 * Z.of_nat (S (length l))) with (8 + 8 * Z.of_nat (length l)) by lia. rewrite Z.pow_add_r by lia. nia.
Qed.

Definition all_bytes : list Z := Z.of_nat <$> seq 0 256.
Lemma all_bytes_elem x : byte x -> x ∈ all_bytes.
Proof.
  intros Hx. unfold byte in Hx. apply list_elem_of_fmap. exists (Z.to_nat x). split; [lia|]. apply elem_of_seq. lia.
Qed.

Lemma land_mask_byte n x : 0 <= n <= 8 -> byte x -> Z.land x (mask_byte n) = x / 2 ^ (8 - n) * 2 ^ (8 - n).
Proof.
  intros Hn Hx. assert (forallb (fun n => forallb (fun x => Z.land x (mask_byte n) =? x / 2 ^ (8 - n) * 2 ^ (8 - n)) all_bytes)
    (Z.of_nat <$> seq 0 9) = true) as Hall by (vm_compute; reflexivity).
  rewrite forallb_forall in Hall. specialize (Hall n). rewrite forallb_forall in Hall. apply Z.eqb_eq, Hall.
  - apply list_elem_of_In, list_elem_of_fmap. exists (Z.to_nat n). split; [lia|]. apply elem_of_seq. lia.
  - by apply list_elem_of_In, all_bytes_elem.
Qed.

Lemma mask_byte_full n : 8 <= n -> mask_byte n = 255.
Proof. intros Hn. unfold mask_byte. by destruct (Z.leb_spec 8 n); [|lia]. Qed.
Lemma mask_byte_none n : n <= 0 -> mask_byte n = 0.
Proof. intros Hn. unfold mask_byte. destruct (Z.leb_spec 8 n); [lia|]. by destruct (Z.leb_spec n 0); [|lia]. Qed.

Lemma land_full x n : 8 <= n -> byte x -> Z.land x (mask_byte n) = x.
Proof. intros Hn Hx. rewrite mask_byte_full by done. change 255 with (Z.ones 8). rewrite Z.land_ones by lia. apply Z.mod_small, Hx. Qed.

Lemma same_masked_none n L xs ys : n <= 0 -> same_masked xs (CIDRMask n L) ys = true.
Proof.
  intros Hn. revert n Hn xs ys. induction L as [|L IH]; intros n Hn [|x xs] [|y ys]; cbn; try done.
  rewrite mask_byte_none, !Z.land_0_r by done. cbn. apply IH. lia.
Qed.

(** Two parts of a number are equal when the whole is. *)
Lemma parts_equal x y u v k : 0 <= k -> 0 <= u < 2 ^ k -> 0 <= v < 2 ^ k ->
  ((x =? y) && (u =? v)) = (x * 2 ^ k + u =? y * 2 ^ k + v).
Proof.
  intros Hk Hu Hv. apply eq_bool_prop_intro. rewrite !Is_true_true, andb_true_iff, !Z.eqb_eq.
  split; [intros [-> ->]; done|]. intros Heq. assert (x = y) as ->; [|split; lia].
  apply (f_equal (fun n => n / 2 ^ k)) in Heq. by rewrite !Z.div_add_l, !(Z.div_small _ (2 ^ k)), !Z.add_0_r in Heq by lia.
Qed.

Lemma div_parts x v m j : 0 <= j <= m -> 0 <= v < 2 ^ m -> (x * 2 ^ m + v) / 2 ^ j = x * 2 ^ (m - j) + v / 2 ^ j.
Proof.
  intros Hj Hv. replace (x * 2 ^ m) with (x * 2 ^ (m - j) * 2 ^ j).
  - rewrite Z.add_comm, Z.div_add by (pose proof (Z.pow_pos_nonneg 2 j); lia). lia.
  - rewrite <- Z.mul_assoc, <- Z.pow_add_r by lia. do 2 f_equal. lia.
Qed.

Lemma div_small_part v m j : 0 <= j <= m -> 0 <= v < 2 ^ m -> 0 <= v / 2 ^ j < 2 ^ (m - j).
Proof.
  intros Hj Hv. split; [apply Z.div_pos; [lia|apply Z.pow_pos_nonneg; lia]|].
  apply Z.div_lt_upper_bound; [apply Z.pow_pos_nonneg; lia|]. rewrite <- Z.pow_add_r by lia.
  replace (j + (m - j)) with m by lia. lia.
Qed.

(** The masked bytes agree exactly when the numbers agree in their first [n] bits. *)
Lemma same_masked_prefix n xs ys : Forall byte xs -> Forall byte ys -> length xs = length ys ->
  0 <= n <= 8 * Z.of_nat (length xs) ->
  same_masked xs (CIDRMask n (length xs)) ys =
  (be xs / 2 ^ (8 * Z.of_nat (length xs) - n) =? be ys / 2 ^ (8 * Z.of_nat (length xs) - n)).
Proof.
  intros Hxs. revert n ys. induction Hxs as [|x xs Hx Hxs IH]; intros n ys Hys Hl Hn; [by destruct ys|].
  destruct ys as [|y ys]; [done|]. injection Hl as Hl. apply Forall_cons in Hys as [Hy Hys].
  pose proof (be_bound xs Hxs) as Hbx. pose proof (be_bound ys Hys) as Hby. rewrite <- Hl in Hby.
  cbn [length] in Hn. cbn [same_masked CIDRMask be length]. rewrite <- Hl. set (m := 8 * Z.of_nat (length xs)) in *.
  replace (8 * Z.of_nat (S (length xs))) with (m + 8) in * by lia.
  destruct (Z.le_ge_cases 8 n) as [H8|H8].
  - rewrite !land_full, IH by (done || lia). fold m. replace (m - (n - 8)) with (m + 8 - n) by lia.
    rewrite !(div_parts _ _ m) by lia. apply parts_equal; [lia| |]; apply div_small_part; lia.
  - rewrite same_masked_none, andb_true_r, !land_mask_byte by (done || lia).
    assert (forall z v, 0 <= v < 2 ^ m -> (z * 2 ^ m + v) / 2 ^ (m + 8 - n) = z / 2 ^ (8 - n)) as Hdiv.
    { intros z v Hv. replace (m + 8 - n) with (m + (8 - n)) by lia. rewrite Z.pow_add_r, <- Z.div_div by lia.
      by rewrite Z.div_add_l, (Z.div_small v), Z.add_0_r by lia. }
    rewrite !Hdiv by done. assert (0 < 2 ^ (8 - n)) by (apply Z.pow_pos_nonneg; lia).
    apply eq_bool_prop_intro. rewrite !Is_true_true, !Z.eqb_eq. nia.
Qed.

(** ** What the parser returns *)

Definition addr_ok (a : Addr) : Prop :=
  match a with Is4 b => length b = 4%nat /\ Forall byte b | Is6 b => length b = 16%nat /\ Forall byte b end.

Lemma Forall_snoc {A} (P : A -> Prop) l x : Forall P l -> P x -> Forall P (l ++ [x]).
Proof. intros Hl Hx. apply Forall_app. split; [done|by constructor]. Qed.

Lemma parseIPv4Fields_bytes s val k fields r : byte val -> Forall byte fields -> (length fields <= 3)%nat ->
  parseIPv4Fields s val k fields = Some r -> length r = 4%nat /\ Forall byte r.
Proof.
  unfold byte at 1. revert val k fields. induction s as [|c s IH]; intros val k fields Hv Hf Hl; cbn [parseIPv4Fields].
  - destruct (Nat.ltb_spec (length fields) 3); [done|]. intros [= <-]. rewrite length_app. cbn. split; [lia|by apply Forall_snoc].
  - destruct (digit_of c) as [d|] eqn:Hd.
    + destruct (_ && _); [done|]. destruct (Z.ltb_spec 255 (val * 10 + d)); [done|]. apply digit_of_range in Hd. apply IH; [lia|done..].
    + destruct (is_char c "."%char); [|done]. destruct (_ || _); [done|]. destruct (Nat.eqb_spec (length fields) 3); [done|].
      apply IH; [lia|by apply Forall_snoc|]. rewrite length_app. cbn. lia.
Qed.

Lemma hex_of_range c d : hex_of c = Some d -> 0 <= d < 16.
Proof.
  unfold hex_of. destruct (in_range 48 57 _) eqn:H1; [apply in_range_iff in H1; intros [= <-]; lia|].
  destruct (in_range 97 102 _) eqn:H2; [apply in_range_iff in H2; intros [= <-]; lia|].
  destruct (in_range 65 70 _) eqn:H3; [apply in_range_iff in H3; intros [= <-]; lia|done].
Qed.

Lemma hex_group_range s off acc off' acc' rest : 0 <= acc <= 65535 -> hex_group s off acc = Some (off', acc', rest) -> 0 <= acc' <= 65535.
Proof.
  revert off acc. induction s as [|c s IH]; intros off acc Ha; cbn [hex_group]; [by intros [= _ <- _]|].
  destruct (hex_of c) as [d|] eqn:Hd; [|by intros [= _ <- _]]. apply hex_of_range in Hd.
  destruct (3 <? off)%nat; [done|]. destruct (Z.ltb_spec 0xFFFF (acc * 16 + d)); [done|]. apply IH. lia.
Qed.

Lemma parse_groups_bytes rounds ip e s ip' e' s' : Forall byte ip -> (length ip + 2 * rounds = 16)%nat ->
  parse_groups rounds ip e s = Some (ip', e', s') -> (length ip' <= 16)%nat /\ Forall byte ip'.
Proof.
  revert ip e s. induction rounds as [|rounds IH]; intros ip e s Hf Hl; cbn [parse_groups]; [intros [= <- _ _]; split; [lia|done]|].
  destruct (hex_group s 0 0) as [[[off acc] rest]|] eqn:Hg; [|done]. cbn [mbind option_bind].
  apply hex_group_range in Hg; [|lia]. destruct (off =? 0)%nat; [done|]. destruct (HasPrefix rest "."); [|clear s].
  - destruct (_ && _); [done|]. destruct (Nat.ltb_spec 16 (length ip + 4)); [done|].
    destruct (parseIPv4Fields s 0 0 []) as [f|] eqn:Hp; [|done]. intros [= <- _ _].
    apply parseIPv4Fields_bytes in Hp as [Hlf Hbf]; [|unfold byte; lia|constructor|cbn; lia].
    rewrite length_app. split; [lia|by apply Forall_app].
  - assert (Forall byte (ip ++ [acc / 256; acc mod 256]) /\ length (ip ++ [acc / 256; acc mod 256]) = (length ip + 2)%nat) as [Hf' Hl'].
    { split; [|by rewrite length_app]. apply Forall_app. split; [done|]. unfold byte.
      repeat constructor; [apply Z.div_pos; lia|apply Z.div_lt_upper_bound; lia|apply Z.mod_pos_bound; lia..]. }
    destruct rest as [|c rest]; [intros [= <- _ _]; split; [lia|done]|]. destruct (_ || _); [done|].
    destruct (HasPrefix rest ":"); [|apply IH; [done|lia]]. destruct e; [done|].
    case_bool_decide; [intros [= <- _ _]; split; [lia|done]|apply IH; [done|lia]].
Qed.

Lemma zeros_bytes n : Forall byte (zeros n).
Proof. apply Forall_forall. intros x Hx%list_elem_of_In%repeat_spec. subst. unfold byte. lia. Qed.

Lemma expand_bytes ip e s b : (length ip <= 16)%nat -> Forall byte ip -> expand (ip, e, s) = Some b -> length b = 16%nat /\ Forall byte b.
Proof.
  intros Hl Hf. unfold expand. destruct (negb _); [done|]. destruct (Nat.ltb_spec (length ip) 16).
  - destruct e as [e|]; [|done]. intros [= <-]. split.
    + rewrite !length_app. unfold zeros. rewrite repeat_length, length_take, length_drop. lia.
    + apply Forall_app. split; [by apply Forall_take|]. apply Forall_app. split; [apply zeros_bytes|by apply Forall_drop].
  - destruct e; cbn; [done|]. intros [= <-]. split; [lia|done].
Qed.

Lemma ParseAddr_ok s a : ParseAddr s = Some a -> addr_ok a.
Proof.
  unfold ParseAddr. destruct (scan s) as [c|]; [|done]. destruct (is_char c "."%char).
  - destruct (parseIPv4Fields s 0 0 []) as [b|] eqn:Hp; intros [= <-].
    apply parseIPv4Fields_bytes in Hp; [done|unfold byte; lia|constructor|cbn; lia].
  - destruct (is_char c ":"%char); [|done]. destruct (has_char "%"%char s); [done|].
    assert (forall e s' b, parse_groups 8 [] e s' ≫= expand = Some b -> length b = 16%nat /\ Forall byte b) as Hg.
    { intros e s' b ([[ip e'] s''] & Hp & He)%bind_Some. apply parse_groups_bytes in Hp as [Hl Hf]; [|constructor|done].
      by eapply expand_bytes. }
    destruct (parseIPv6 s) as [b|] eqn:Hp; intros [= <-]. unfold parseIPv6 in Hp. destruct (HasPrefix s "::"); [|by eapply Hg].
    case_bool_decide; [|by eapply Hg]. injection Hp as <-. split; [done|apply (zeros_bytes 16)].
Qed.

(** ** Membership *)

(** Four bytes [x] and sixteen bytes [x] against the first [n] bits of an address;
    an IPv4-mapped IPv6 address counts as the IPv4 address. *)
Definition same4 (x : list Z) (n : Z) (ip : IP) : bool :=
  match To4 ip with Some y => be x / 2 ^ (32 - n) =? be y / 2 ^ (32 - n) | None => false end.
Definition same6 (x : list Z) (n : Z) (ip : IP) : bool :=
  match To4 ip with Some _ => false | None => be x / 2 ^ (128 - n) =? be ip / 2 ^ (128 - n) end.

(** Whether an address is in the network [a/n].  The prefix of an IPv4-mapped network
    counts from its 96th bit, and when it is shorter no IPv4 address is in it. *)
Definition in_network (a : Addr) (n : Z) (ip : IP) : bool :=
  match a with
  | Is4 x => same4 x n ip
  | Is6 x => match To4 x with Some x4 => if 96 <=? n then same4 x4 (n - 96) ip else same6 x n ip | None => same6 x n ip end
  end.

Definition ip_ok (ip : IP) : Prop := length ip = 16%nat /\ Forall byte ip.

Lemma To4_bytes ip y : ip_ok ip -> To4 ip = Some y -> length y = 4%nat /\ Forall byte y.
Proof.
  intros [Hl Hf]. unfold To4. rewrite Hl. cbn [Nat.eqb andb]. case_bool_decide; [|done]. intros [= <-].
  split; [by rewrite length_drop, Hl|by apply Forall_drop].
Qed.

Lemma same_masked_land xs m ys : same_masked (zip_with Z.land xs m) m ys = same_masked xs m ys.
Proof.
  revert m ys. induction xs as [|x xs IH]; intros [|k m] ys; try done. destruct ys as [|y ys]; [done|]. cbn [zip_with same_masked].
  rewrite <- Z.land_assoc, Z.land_diag. by rewrite IH.
Qed.

Lemma CIDRMask_length n L : length (CIDRMask n L) = L.
Proof. revert n. induction L as [|L IH]; intros n; cbn; [done|]. by rewrite IH. Qed.

Lemma contains4 x m n ip : length x = 4%nat -> Forall byte x -> ip_ok ip -> 0 <= n <= 32 ->
  m = CIDRMask n 4 -> Net_Contains (MkIPNet (zip_with Z.land x m) m) ip = same4 x n ip.
Proof.
  intros Hl Hx Hip Hn ->. assert (length (zip_with Z.land x (CIDRMask n 4)) = 4%nat) as Hz by (by rewrite length_zip_with, Hl, CIDRMask_length).
  unfold Net_Contains, networkNumberAndMask. cbn [net_ip net_mask].
  assert (To4 (zip_with Z.land x (CIDRMask n 4)) = Some (zip_with Z.land x (CIDRMask n 4))) as -> by (unfold To4; by rewrite Hz).
  rewrite Hz, CIDRMask_length. cbn [Nat.eqb orb negb]. unfold same4. destruct (To4 ip) as [y|] eqn:Hy.
  - destruct (To4_bytes _ _ Hip Hy) as [Hly Hby]. rewrite Hly, ?Hz. cbn [Nat.eqb negb]. rewrite same_masked_land.
    pose proof (same_masked_prefix n x y Hx Hby ltac:(lia)) as Hp. rewrite Hl in Hp. by apply Hp.
  - destruct Hip as [-> _]. by rewrite ?Hz.
Qed.

Lemma land_partial y k : k < 8 -> byte y -> Z.land y (mask_byte k) <> 255.
Proof.
  intros Hk Hy. destruct (Z.le_gt_cases 0 k); [|rewrite mask_byte_none, Z.land_0_r; lia].
  rewrite land_mask_byte by (done || lia). intros Heq. apply (f_equal (fun z => z mod 2)) in Heq. revert Heq.
  replace (8 - k) with (Z.succ (7 - k)) at 2 by lia. rewrite Z.pow_succ_r by lia.
  replace (y / 2 ^ (8 - k) * (2 * 2 ^ (7 - k))) with (y / 2 ^ (8 - k) * 2 ^ (7 - k) * 2) by lia.
  rewrite Z.mod_mul by lia. done.
Qed.

(** A masked network is IPv4-mapped only when it was before, with a long prefix. *)
Lemma mapped_masked x n : ip_ok x ->
  take 12 (zip_with Z.land x (CIDRMask n 16)) = v4InV6Prefix -> 96 <= n /\ take 12 x = v4InV6Prefix.
Proof.
  intros [Hl Hx]. do 16 (destruct x as [|? x]; [done|]). destruct x; [|done]. clear Hl. cbn [CIDRMask zip_with take].
  unfold v4InV6Prefix. cbn [zeros repeat app]. intros Heq. repeat (apply Forall_cons in Hx as [? Hx]).
  destruct (Z.le_gt_cases 96 n) as [H96|H96]; [|exfalso; injection Heq as _ _ _ _ _ _ _ _ _ _ _ Heq; revert Heq; apply land_partial; [lia|done]].
  split; [done|]. rewrite !land_full in Heq by (done || lia). exact Heq.
Qed.

Lemma mapped_contains x n : ip_ok x -> take 12 x = v4InV6Prefix -> 96 <= n ->
  zip_with Z.land x (CIDRMask n 16) = v4InV6Prefix ++ zip_with Z.land (drop 12 x) (CIDRMask (n - 96) 4) /\
  drop 12 (CIDRMask n 16) = CIDRMask (n - 96) 4.
Proof.
  intros [Hl Hx] Ht Hn. do 16 (destruct x as [|? x]; [done|]). destruct x; [|done]. clear Hl. cbn [CIDRMask zip_with take drop] in *.
  repeat (apply Forall_cons in Hx as [? Hx]). rewrite !land_full by (done || lia).
  assert (n - 8 - 8 - 8 - 8 - 8 - 8 - 8 - 8 - 8 - 8 - 8 - 8 = n - 96) as -> by lia. split; [|done].
  unfold v4InV6Prefix in *. cbn [zeros repeat app] in *. by injection Ht as -> -> -> -> -> -> -> -> -> -> -> ->.
Qed.

Lemma contains6 x n ip : ip_ok x -> ip_ok ip -> 0 <= n <= 128 -> ~ (96 <= n /\ take 12 x = v4InV6Prefix) ->
  Net_Contains (MkIPNet (zip_with Z.land x (CIDRMask n 16)) (CIDRMask n 16)) ip = same6 x n ip.
Proof.
  intros Hx Hip Hn Hno. pose proof Hx as [Hl Hb].
  assert (length (zip_with Z.land x (CIDRMask n 16)) = 16%nat) as Hz by (by rewrite length_zip_with, Hl, CIDRMask_length).
  unfold Net_Contains, networkNumberAndMask. cbn [net_ip net_mask].
  assert (To4 (zip_with Z.land x (CIDRMask n 16)) = None) as ->.
  { unfold To4. rewrite Hz. cbn [Nat.eqb andb]. case_bool_decide as Ht; [|done]. by destruct Hno; apply mapped_masked. }
  rewrite Hz, CIDRMask_length. cbn [Nat.eqb orb negb]. unfold same6. destruct (To4 ip) as [y|] eqn:Hy.
  - destruct (To4_bytes _ _ Hip Hy) as [-> _]. by rewrite Hz.
  - destruct Hip as [Hli Hbi]. rewrite Hli, Hz. cbn [Nat.eqb negb]. rewrite same_masked_land.
    pose proof (same_masked_prefix n x ip Hb Hbi ltac:(lia)) as Hp. rewrite Hl in Hp. by apply Hp.
Qed.

Lemma contains_mapped x n ip : ip_ok x -> ip_ok ip -> 96 <= n <= 128 -> take 12 x = v4InV6Prefix ->
  Net_Contains (MkIPNet (zip_with Z.land x (CIDRMask n 16)) (CIDRMask n 16)) ip = same4 (drop 12 x) (n - 96) ip.
Proof.
  intros Hx Hip Hn Ht. pose proof Hx as [Hl Hb].
  assert (length (drop 12 x) = 4%nat) as Hd by (by rewrite length_drop, Hl).
  rewrite <- (contains4 (drop 12 x) _ (n - 96) ip Hd (Forall_drop _ _ _ Hb) Hip ltac:(lia) eq_refl).
  destruct (mapped_contains x n Hx Ht ltac:(lia)) as [Hz Hm]. unfold Net_Contains, networkNumberAndMask. cbn [net_ip net_mask].
  assert (length (zip_with Z.land (drop 12 x) (CIDRMask (n - 96) 4)) = 4%nat) as Hz4 by (by rewrite length_zip_with, Hd, CIDRMask_length).
  rewrite Hz, !CIDRMask_length, Hm.
  assert (To4 (v4InV6Prefix ++ zip_with Z.land (drop 12 x) (CIDRMask (n - 96) 4)) = Some (zip_with Z.land (drop 12 x) (CIDRMask (n - 96) 4))) as ->.
  { unfold To4. rewrite length_app, Hz4. cbn [length v4InV6Prefix zeros repeat app Nat.add Nat.eqb andb]. by rewrite bool_decide_true. }
  assert (To4 (zip_with Z.land (drop 12 x) (CIDRMask (n - 96) 4)) = Some (zip_with Z.land (drop 12 x) (CIDRMask (n - 96) 4))) as ->
    by (unfold To4; by rewrite Hz4).
  by rewrite Hz4.
Qed.

Definition no_slash (s : string) : Prop := IndexByte s "/"%char = None.

Lemma dtoi_go_value s n v : 0 <= n -> digits_value s n = Some v -> v < 0xFFFFFF -> dtoi_go s n = Some v.
Proof.
  revert n. induction s as [|c s IH]; intros n Hn; cbn [digits_value dtoi_go]; [done|]. destruct (digit_of c) as [d|] eqn:Hd; [|done].
  cbn [mbind option_bind]. apply digit_of_range in Hd. intros Hv Hb.
  assert (n * 10 + d <= v) by (eapply digits_value_mono; [|exact Hv]; lia).
  destruct (Z.leb_spec 0xFFFFFF (n * 10 + d)); [lia|]. apply IH; [lia|done..].
Qed.

Lemma dtoi_FormatUint n : 0 <= n < 0xFFFFFF -> dtoi (FormatUint n) = Some n.
Proof.
  intros Hn. unfold dtoi. destruct (FormatUint_first n) as (d & s & Hs & _); [lia|]. rewrite bool_decide_false by (by rewrite Hs).
  apply dtoi_go_value; [done|apply FormatUint_value; lia|lia].
Qed.

Lemma addr_As16 a : addr_ok a -> ip_ok (As16 a).
Proof.
  destruct a as [b|b]; [|done]. intros [Hl Hb]. split; cbn [As16]; [by rewrite length_app, Hl|]. apply Forall_app. split; [|done].
  apply Forall_app. split; [apply (zeros_bytes 10)|]. by repeat constructor.
Qed.

(** [ParseCIDR] on an address and a prefix length. *)
Lemma ParseCIDR_network base a n : ParseAddr base = Some a -> no_slash base -> 0 <= n <= BitLen a ->
  exists network, ParseCIDR (base +:+ "/" +:+ FormatUint n) = Ok network /\
    forall ip, ip_ok ip -> Net_Contains network ip = in_network a n ip.
Proof.
  intros Ha Hs Hn. pose proof (ParseAddr_ok _ _ Ha) as Hok. unfold ParseCIDR.
  change ("/" +:+ FormatUint n) with (String "/"%char (FormatUint n)). rewrite (IndexByte_app _ _ _ Hs), str_take_app by done.
  replace (str_drop (String.length base + 1) _) with (FormatUint n).
  2: { assert (base +:+ String "/"%char (FormatUint n) = (base +:+ "/") +:+ FormatUint n) as -> by (by rewrite string_app_assoc).
       symmetry. apply str_drop_app. by rewrite string_length_app. }
  assert (BitLen a <= 128) by (by destruct a). rewrite Ha, dtoi_FormatUint by lia. destruct (Z.ltb_spec (BitLen a) n); [lia|].
  eexists. split; [done|]. intros ip Hip. destruct a as [x|x]; cbn [BitLen As16 in_network addr_ok] in *; destruct Hok as [Hl Hb].
  - change (Z.to_nat (32 / 8)) with 4%nat. rewrite <- (contains4 x _ n ip Hl Hb Hip Hn eq_refl). do 2 f_equal.
    unfold Mask. rewrite CIDRMask_length, length_app, Hl. cbn [Nat.eqb andb length v4InV6Prefix zeros repeat app Nat.add].
    rewrite bool_decide_true by done. cbn [drop]. by rewrite drop_0, Hl.
  - change (Z.to_nat (128 / 8)) with 16%nat. unfold Mask. rewrite CIDRMask_length, Hl. cbn [Nat.eqb andb]. unfold To4. rewrite Hl.
    cbn [Nat.eqb andb]. case_bool_decide as Ht; [|apply contains6; [done..|by intros [_ ?]]].
    destruct (Z.leb_spec 96 n); [apply contains_mapped; [done|done|lia|done]|apply contains6; [done..|lia]].
Qed.

(** ** Addresses in dotted decimal *)

Definition dotted (a b c d : Z) : string := FormatUint a +:+ "." +:+ FormatUint b +:+ "." +:+ FormatUint c +:+ "." +:+ FormatUint d.

(** The digits of a byte. *)
Definition byte_text (v : Z) : string :=
  let d x s := String (digit_char x) s in
  if v <? 10 then d v "" else if v <? 100 then d (v / 10) (d (v mod 10) "") else d (v / 100) (d (v / 10 mod 10) (d (v mod 10) "")).

Lemma FormatUint_byte v : byte v -> FormatUint v = byte_text v.
Proof.
  intros Hv. assert (forallb (fun v => bool_decide (FormatUint v = byte_text v)) all_bytes = true) as Hall by (vm_compute; reflexivity).
  rewrite forallb_forall in Hall. by apply (bool_decide_eq_true _), Hall, list_elem_of_In, all_bytes_elem.
Qed.

Lemma parse_byte v rest fields : byte v ->
  exists k, (0 < k)%nat /\ parseIPv4Fields (FormatUint v +:+ rest) 0 0 fields = parseIPv4Fields rest v k fields.
Proof.
  intros Hv. rewrite FormatUint_byte by done. unfold byte in Hv. unfold byte_text.
  assert (forall x, 0 <= x < 10 -> digit_of (digit_char x) = Some x) as Hd by apply digit_of_char.
  pose proof (Z.div_mod v 10 ltac:(lia)). pose proof (Z.mod_pos_bound v 10 ltac:(lia)).
  destruct (Z.ltb_spec v 10); [|destruct (Z.ltb_spec v 100)].
  - exists 1%nat. split; [lia|]. rewrite string_app_cons, string_app_nil_l. cbn [parseIPv4Fields]. rewrite Hd by lia. cbn [Nat.eqb andb].
    destruct (Z.ltb_spec 255 (0 * 10 + v)); [lia|]. by replace (0 * 10 + v) with v by lia.
  - exists 2%nat. split; [lia|]. rewrite !string_app_cons, string_app_nil_l. cbn [parseIPv4Fields]. rewrite !Hd by lia. cbn [Nat.eqb andb].
    destruct (Z.ltb_spec 255 (0 * 10 + v / 10)); [lia|]. destruct (Z.eqb_spec (0 * 10 + v / 10) 0); [lia|].
    replace ((0 * 10 + v / 10) * 10 + v mod 10) with v by lia. by destruct (Z.ltb_spec 255 v); [lia|].
  - exists 3%nat. split; [lia|]. pose proof (Z.div_mod (v / 10) 10 ltac:(lia)). pose proof (Z.mod_pos_bound (v / 10) 10 ltac:(lia)).
    assert (v / 10 / 10 = v / 100) as Hq by (by rewrite Z.div_div by lia). rewrite Hq in *.
    rewrite !string_app_cons, string_app_nil_l. cbn [parseIPv4Fields]. rewrite !Hd by lia. cbn [Nat.eqb andb].
    destruct (Z.ltb_spec 255 (0 * 10 + v / 100)); [lia|]. destruct (Z.eqb_spec (0 * 10 + v / 100) 0); [lia|].
    replace ((0 * 10 + v / 100) * 10 + v / 10 mod 10) with (v / 10) by lia. destruct (Z.ltb_spec 255 (v / 10)); [lia|].
    replace (v / 10 * 10 + v mod 10) with v by lia. by destruct (Z.ltb_spec 255 v); [lia|].
Qed.

Lemma parse_dot v k fields rest : (0 < k)%nat -> rest <> "" -> (length fields < 3)%nat ->
  parseIPv4Fields ("." +:+ rest) v k fields = parseIPv4Fields rest 0 0 (fields ++ [v]).
Proof.
  intros Hk Hr Hl. rewrite string_app_cons, string_app_nil_l. cbn [parseIPv4Fields]. change (digit_of "."%char) with (@None Z).
  change (is_char "."%char "."%char) with true. cbn [negb]. destruct (Nat.eqb_spec k 0); [lia|]. rewrite bool_decide_false by done. cbn [orb].
  destruct (Nat.eqb_spec (length fields) 3); [lia|done].
Qed.

Lemma FormatUint_app_nonempty v rest : byte v -> FormatUint v +:+ rest <> "".
Proof. intros Hv. unfold byte in Hv. destruct (FormatUint_first v) as (d & s & -> & _); [lia|]. by rewrite string_app_cons. Qed.

Lemma parse_dotted a b c d : byte a -> byte b -> byte c -> byte d -> parseIPv4Fields (dotted a b c d) 0 0 [] = Some [a; b; c; d].
Proof.
  intros Ha Hb Hc Hd. unfold dotted.
  destruct (parse_byte a ("." +:+ FormatUint b +:+ "." +:+ FormatUint c +:+ "." +:+ FormatUint d) [] Ha) as (k1 & Hk1 & ->).
  rewrite parse_dot by (by apply FormatUint_app_nonempty || (cbn; lia) || done). cbn [app].
  destruct (parse_byte b ("." +:+ FormatUint c +:+ "." +:+ FormatUint d) [a] Hb) as (k2 & Hk2 & ->).
  rewrite parse_dot by (by apply FormatUint_app_nonempty || (cbn; lia) || done). cbn [app].
  destruct (parse_byte c ("." +:+ FormatUint d) [a; b] Hc) as (k3 & Hk3 & ->).
  assert (FormatUint d <> "") as Hne by (rewrite <- (string_app_nil_r (FormatUint d)); by apply FormatUint_app_nonempty).
  rewrite parse_dot by (done || (cbn; lia)). cbn [app].
  destruct (parse_byte d "" [a; b; c] Hd) as (k4 & Hk4 & Hp). rewrite string_app_nil_r in Hp. by rewrite Hp.
Qed.

Lemma IndexByte_none_app a b c : IndexByte a c = None -> IndexByte b c = None -> IndexByte (a +:+ b) c = None.
Proof.
  intros Ha Hb. induction a as [|x a IH]; [done|]. rewrite string_app_cons. cbn in *. case_bool_decide; [done|].
  destruct (IndexByte a c); [done|]. by rewrite IH.
Qed.

Lemma FormatUint_no_slash v : byte v -> no_slash (FormatUint v).
Proof.
  intros Hv. assert (forallb (fun v => bool_decide (IndexByte (FormatUint v) "/"%char = None)) all_bytes = true) as Hall by (vm_compute; reflexivity).
  rewrite forallb_forall in Hall. by apply (bool_decide_eq_true _), Hall, list_elem_of_In, all_bytes_elem.
Qed.

Lemma dotted_no_slash a b c d : byte a -> byte b -> byte c -> byte d -> no_slash (dotted a b c d).
Proof. intros. unfold dotted, no_slash. repeat (apply IndexByte_none_app; [by apply FormatUint_no_slash || done|]). by apply FormatUint_no_slash. Qed.

Lemma scan_byte v rest : byte v -> scan (FormatUint v +:+ "." +:+ rest) = Some "."%char.
Proof.
  intros Hv. assert (forallb (fun v => bool_decide (scan (FormatUint v) = None)) all_bytes = true) as Hall by (vm_compute; reflexivity).
  rewrite forallb_forall in Hall. assert (scan (FormatUint v) = None) as Hs
    by (by apply (bool_decide_eq_true _), Hall, list_elem_of_In, all_bytes_elem).
  induction (FormatUint v) as [|x s IH]; [done|]. rewrite string_app_cons. cbn [scan] in *. destruct (_ || _ || _); [done|]. by apply IH.
Qed.

Lemma ParseAddr_dotted a b c d : byte a -> byte b -> byte c -> byte d -> ParseAddr (dotted a b c d) = Some (Is4 [a; b; c; d]).
Proof. intros. unfold ParseAddr. unfold dotted at 1. rewrite scan_byte by done. cbn. by rewrite parse_dotted. Qed.

(** ** The two gates *)

Definition admits (a : Addr) (n : Z) (text : string) : bool :=
  match ParseIP text with Some ip => in_network a n ip | None => false end.

Lemma ParseIP_ok text ip : ParseIP text = Some ip -> ip_ok ip.
Proof. unfold ParseIP. intros (a & Ha & ->)%fmap_Some. by apply addr_As16, (ParseAddr_ok text). Qed.

(** C20. A trusted subnet [a/n] admits exactly the callers in it, over HTTP and over gRPC
    alike: those whose X-Real-IP, or x-real-ip, is an address that agrees with [a] in
    its first [n] bits, an IPv4-mapped IPv6 address counting as the IPv4 address; any
    other caller gets 403, or PermissionDenied, and reaches no handler.  In dotted
    decimal: the numbers of the addresses agree after division by [2^(32-n)]. *)
Theorem trusted_subnet_exact {S} `{UnicodeTables} base a n : ParseAddr base = Some a -> no_slash base -> 0 <= n <= BitLen a ->
  exists mw i, Middleware.TrustedSubnetMiddleware (base +:+ "/" +:+ FormatUint n) = Ok (Some mw) /\
    Grpc.TrustedSubnetInterceptor (S := S) (base +:+ "/" +:+ FormatUint n) = Ok (Some i) /\
    (forall (next : http_Handler (world S)) r w,
       let raw := header_Get HeaderXRealIP (Header r) in
       mw next r w = if admits a n raw then next r w
                     else (log (RejectLine raw (base +:+ "/" +:+ FormatUint n)) w, http_Error (StatusText StatusForbidden) StatusForbidden)) /\
    (forall handler md s,
       let raw := match md !! MetadataXRealIP with Some (v :: _) => v | _ => "" end in
       i handler md s = if admits a n raw then handler md s
                        else (s, Some (MkStatus PermissionDenied ("ip " +:+ Quote raw +:+ " is not in trusted subnet")))) /\
    (forall x1 x2 x3 x4 y1 y2 y3 y4, Forall byte [x1; x2; x3; x4; y1; y2; y3; y4] -> a = Is4 [x1; x2; x3; x4] ->
       admits a n (dotted y1 y2 y3 y4) = (be [x1; x2; x3; x4] / 2 ^ (32 - n) =? be [y1; y2; y3; y4] / 2 ^ (32 - n))).
Proof.
  intros Ha Hs Hn. destruct (ParseCIDR_network base a n Ha Hs Hn) as (network & Hp & Hc).
  assert (base +:+ "/" +:+ FormatUint n <> "") as Hne by (destruct base; [done|by rewrite string_app_cons]).
  unfold Middleware.TrustedSubnetMiddleware, Grpc.TrustedSubnetInterceptor. rewrite Hp, bool_decide_false by done.
  eexists _, _. split_and!; [done|done| | |].
  - intros next r w. cbn beta zeta. unfold admits. destruct (ParseIP _) as [ip|] eqn:Hip; [|done].
    rewrite Hc by (by eapply ParseIP_ok). by destruct (in_network a n ip).
  - intros handler md s. cbn beta zeta. unfold admits. destruct (ParseIP _) as [ip|] eqn:Hip; [|done].
    rewrite Hc by (by eapply ParseIP_ok). by destruct (in_network a n ip).
  - intros x1 x2 x3 x4 y1 y2 y3 y4 Hb ->. repeat (apply Forall_cons in Hb as [? Hb]).
    unfold admits, ParseIP. by rewrite ParseAddr_dotted.
Qed.

#[local] Instance ascii : UnicodeTables := {| IsPrint_table _ := true |}.

(** The private network 10.0.0.0/8, to its two ends, and a mapped address in it. *)
Lemma trusted_subnet_exact_witness :
  exists mw i, Middleware.TrustedSubnetMiddleware (S := unit) "10.0.0.0/8" = Ok (Some mw) /\
    Grpc.TrustedSubnetInterceptor (S := unit) "10.0.0.0/8" = Ok (Some i) /\
    (forall handler, i handler {[MetadataXRealIP := ["10.255.255.255"]]} tt = handler {[MetadataXRealIP := ["10.255.255.255"]]} tt) /\
    (forall handler, i handler {[MetadataXRealIP := ["::ffff:10.1.2.3"]]} tt = handler {[MetadataXRealIP := ["::ffff:10.1.2.3"]]} tt) /\
    (forall handler, (i handler {[MetadataXRealIP := ["11.0.0.0"]]} tt).2 =
       Some (MkStatus PermissionDenied ("ip " +:+ Quote "11.0.0.0" +:+ " is not in trusted subnet"))).
Proof.
  destruct (trusted_subnet_exact (S := unit) "10.0.0.0" (Is4 [10; 0; 0; 0]) 8 eq_refl eq_refl ltac:(cbn; lia)) as (mw & i & Hm & Hi & _ & Hg & _).
  exists mw, i. split; [exact Hm|]. split; [exact Hi|]. split_and!; intros handler; rewrite Hg; reflexivity.
Defined.
