(* ===== verification/Flags.v ===== *)
(** * Package flag, and the readers of package strconv it calls

    A [FlagSet] made with [flag.ExitOnError]: variables registered under names,
    with their defaults, and [Parse], which sets them from the command line or
    ends the process.  A registered variable is a field of a configuration, given
    by the function that sets it. *)

From S2P Require Import Prelude Errors GoInt GoFloat GoStrings GoJson.
Local Open Scope Z_scope.

(** ** [strconv.ParseInt(s, 0, 64)] and [strconv.ParseBool]

    Only whether they succeed, and with what, matters to a command line: the
    texts of their errors go to the standard error output. *)

(** The base a literal announces, and its digits. *)
Definition int_base (s : string) : Z * string :=
  match s with
  | String z rest =>
      if negb (bool_decide (z = "0"%char)) then (10, s)
      else
        match rest with
        | String x (String c digits) =>
            let x := lower_char x in
            if bool_decide (x = "b"%char) then (2, String c digits)
            else if bool_decide (x = "o"%char) then (8, String c digits)
            else if bool_decide (x = "x"%char) then (16, String c digits)
            else (8, rest)
        | _ => (8, rest)
        end
  | EmptyString => (10, s)
  end.

Definition letter_digit (c : Ascii.ascii) : option Z :=
  match digit_of c with
  | Some d => Some d
  | None =>
      let z := char_code (lower_char c) in
      if (97 <=? z) && (z <=? 122) then Some (z - 87) else None
  end.

(** The digits' value, and whether there were underscores. *)
Fixpoint parse_base (base : Z) (s : string) (n : Z) (under : bool) : option (Z * bool) :=
  match s with
  | EmptyString => Some (n, under)
  | String c s =>
      if bool_decide (c = "_"%char) then parse_base base s n true
      else
        match letter_digit c with
        | Some d =>
            if base <=? d then None
            else if uint64_max <? n * base + d then None
            else parse_base base s (n * base + d) under
        | None => None
        end
  end.

Definition ParseUint0 (s : string) : option Z :=
  if bool_decide (s = "") then None
  else
    let '(base, digits) := int_base s in
    '(n, under) ← parse_base base digits 0 false;
    if under && negb (underscoreOK s) then None else Some n.

Definition ParseInt0 (s : string) : option Z :=
  let '(neg, digits) := split_sign s in
  un ← ParseUint0 digits;
  if negb neg && (2 ^ 63 <=? un) then None
  else if neg && (2 ^ 63 <? un) then None
  else Some (if neg then - un else un).

Definition ParseBool (s : string) : option bool :=
  if bool_decide (s ∈ ["1"; "t"; "T"; "true"; "TRUE"; "True"]) then Some true
  else if bool_decide (s ∈ ["0"; "f"; "F"; "false"; "FALSE"; "False"]) then Some false
  else None.

(** ** Registering *)
Section Flags.
Context {C : Type}.

Inductive target :=
| TString (set : string -> C -> C)
| TInt (set : Z -> C -> C)
| TBool (set : bool -> C -> C).

Record FlagSet := MkFlagSet { formal : list (string * target); vars : C }.

Definition NewFlagSet (c : C) : FlagSet := MkFlagSet [] c.
Definition StringVar (set : string -> C -> C) (name value : string) (fs : FlagSet) : FlagSet :=
  MkFlagSet (formal fs ++ [(name, TString set)]) (set value (vars fs)).
Definition IntVar (set : Z -> C -> C) (name : string) (value : Z) (fs : FlagSet) : FlagSet :=
  MkFlagSet (formal fs ++ [(name, TInt set)]) (set value (vars fs)).
Definition BoolVar (set : bool -> C -> C) (name : string) (value : bool) (fs : FlagSet) : FlagSet :=
  MkFlagSet (formal fs ++ [(name, TBool set)]) (set value (vars fs)).

Fixpoint lookup_flag (name : string) (l : list (string * target)) : option target :=
  match l with
  | [] => None
  | (n, t) :: l => if bool_decide (n = name) then Some t else lookup_flag name l
  end.

(** ** Parsing *)

(** What an argument is: not a flag (or a single dash), the terminator, malformed, or
    a flag with the value joined to it, if any. *)
Inductive arg :=
| NotFlag
| Terminator
| BadSyntax
| FlagArg (name : string) (value : option string).

(** The name ends at the first equals sign behind its first character. *)
Fixpoint split_equals (s : string) : string * option string :=
  match s with
  | EmptyString => ("", None)
  | String c rest =>
      if bool_decide (c = "="%char) then ("", Some rest)
      else let '(n, v) := split_equals rest in (String c n, v)
  end.

Definition flag_of (name : string) : arg :=
  match name with
  | EmptyString => BadSyntax
  | String c rest =>
      if bool_decide (c = "-"%char \/ c = "="%char) then BadSyntax
      else let '(n, v) := split_equals rest in FlagArg (String c n) v
  end.

Definition classify (s : string) : arg :=
  match s with
  | String a (String b rest) =>
      if negb (bool_decide (a = "-"%char)) then NotFlag
      else if bool_decide (b = "-"%char) then
        if bool_decide (rest = "") then Terminator else flag_of rest
      else flag_of (String b rest)
  | _ => NotFlag
  end.

Inductive parsed := Parsed (c : C) | Exit (code : Z).

(** A variable's [Set] method. *)
Definition Set_value (t : target) (v : string) (c : C) : option C :=
  match t with
  | TString set => Some (set v c)
  | TInt set => (fun n => set n c) <$> ParseInt0 v
  | TBool set => (fun b => set b c) <$> ParseBool v
  end.

Definition is_bool (t : target) : bool := match t with TBool _ => true | _ => false end.

(** The loop of [Parse]; an error exits with status 2, a request for help
    with 0. *)
Fixpoint parse_args (fl : list (string * target)) (args : list string) (c : C) : parsed :=
  match args with
  | [] => Parsed c
  | s :: args =>
      match classify s with
      | NotFlag | Terminator => Parsed c
      | BadSyntax => Exit 2
      | FlagArg name value =>
          match lookup_flag name fl with
          | None => Exit (if bool_decide (name = "help" \/ name = "h") then 0 else 2)
          | Some t =>
              match value, is_bool t with
              | Some v, _ => match Set_value t v c with Some c => parse_args fl args c | None => Exit 2 end
              | None, true => match Set_value t "true" c with Some c => parse_args fl args c | None => Exit 2 end
              | None, false =>
                  match args with
                  | [] => Exit 2
                  | v :: args =>
                      match Set_value t v c with Some c => parse_args fl args c | None => Exit 2 end
                  end
              end
          end
      end
  end.

Definition Parse (args : list string) (fs : FlagSet) : parsed := parse_args (formal fs) args (vars fs).

(** ** Command lines

    A command line written flag by flag. *)
Inductive setting :=
| Joined (two : bool) (name value : string)    (** [-name=value] or [--name=value] *)
| Apart (two : bool) (name value : string)     (** [-name value] *)
| Bare (two : bool) (name : string).           (** [-name], a bool flag *)

Definition dashes (two : bool) : string := if two then "--" else "-".

Definition render (x : setting) : list string :=
  match x with
  | Joined two name value => [dashes two +:+ name +:+ "=" +:+ value]
  | Apart two name value => [dashes two +:+ name; value]
  | Bare two name => [dashes two +:+ name]
  end.

Definition setting_name (x : setting) : string :=
  match x with Joined _ n _ | Apart _ n _ | Bare _ n => n end.
Definition setting_value (x : setting) : string :=
  match x with Joined _ _ v | Apart _ _ v => v | Bare _ _ => "true" end.

(** The value a command line gives to a flag: the last one. *)
Definition given (xs : list setting) (name : string) : option string :=
  last (setting_value <$> filter (fun x => setting_name x = name) xs).

Fixpoint no_equals (s : string) : bool :=
  match s with EmptyString => true | String c s => negb (bool_decide (c = "="%char)) && no_equals s end.

Definition good_name (n : string) : bool :=
  match n with
  | EmptyString => false
  | String c _ => negb (bool_decide (c = "-"%char)) && no_equals n
  end.

(** The flag is registered and the spelling and the value fit its type. *)
Definition well_typed (fl : list (string * target)) (x : setting) : bool :=
  good_name (setting_name x) &&
  match lookup_flag (setting_name x) fl with
  | None => false
  | Some t =>
      match x, t with
      | Apart _ _ _, TBool _ | Bare _ _, TString _ | Bare _ _, TInt _ => false
      | _, TString _ => true
      | _, TInt _ => bool_decide (is_Some (ParseInt0 (setting_value x)))
      | _, TBool _ => bool_decide (is_Some (ParseBool (setting_value x)))
      end
  end.

Definition apply_setting (fl : list (string * target)) (c : C) (x : setting) : C :=
  match lookup_flag (setting_name x) fl with
  | Some t => default c (Set_value t (setting_value x) c)
  | None => c
  end.

(** Where parsing stops. *)
Definition stops (rest : list string) : bool :=
  match rest with
  | [] => true
  | s :: _ => match classify s with NotFlag | Terminator => true | _ => false end
  end.
End Flags.
Arguments target : clear implicits.
Arguments FlagSet : clear implicits.
Arguments parsed : clear implicits.
