(* ===== verification/FlagsFacts.v ===== *)
(** * What a command line does

    Which variable ends up with which value, how the readers of numbers invert the
    printers, and what a malformed command line does. *)

From S2P Require Import Prelude Errors GoInt GoFloat GoStrings GoJson GoJsonFacts Flags.
Local Open Scope Z_scope.

(** ** The spellings of a flag *)

Lemma split_equals_none n : no_equals n = true -> split_equals n = (n, None).
Proof.
  induction n as [|c n IH]; cbn; [done|]. intros [Hc Hn]%andb_true_iff.
  rewrite negb_true_iff, bool_decide_eq_false in Hc. by rewrite bool_decide_false, IH.
Qed.

Lemma split_equals_some n v : no_equals n = true -> split_equals (n +:+ "=" +:+ v) = (n, Some v).
Proof.
  induction n as [|c n IH]; cbn; [done|]. intros [Hc Hn]%andb_true_iff.
  rewrite negb_true_iff, bool_decide_eq_false in Hc. rewrite string_app_cons. cbn [split_equals].
  by rewrite bool_decide_false, IH.
Qed.

Lemma good_name_inv n : good_name n = true ->
  exists c m, n = String c m /\ c <> "-"%char /\ c <> "="%char /\ no_equals m = true.
Proof.
  destruct n as [|c m]; [done|]. cbn. rewrite !andb_true_iff, !negb_true_iff, !bool_decide_eq_false.
  intros (? & ? & ?). by exists c, m.
Qed.

Lemma classify_dashes two c m : c <> "-"%char -> classify (dashes two +:+ String c m) = flag_of (String c m).
Proof.
  intros Hc. destruct two; unfold dashes; rewrite !string_app_cons, string_app_nil_l; cbn [classify]; [done|].
  by rewrite (bool_decide_false _ Hc).
Qed.

Lemma classify_bare two n : good_name n = true -> classify (dashes two +:+ n) = FlagArg n None.
Proof.
  intros Hn. destruct (good_name_inv n Hn) as (c & m & -> & Hd & He & Hm). rewrite classify_dashes by done. cbn.
  rewrite bool_decide_false by (intros [?|?]; congruence). by rewrite split_equals_none.
Qed.

Lemma classify_joined two n v : good_name n = true ->
  classify (dashes two +:+ n +:+ "=" +:+ v) = FlagArg n (Some v).
Proof.
  intros Hn. destruct (good_name_inv n Hn) as (c & m & -> & Hd & He & Hm). rewrite string_app_cons.
  rewrite (classify_dashes two c) by done. cbn [flag_of]. rewrite bool_decide_false by (intros [?|?]; congruence).
  by rewrite split_equals_some.
Qed.

(** ** Parsing a command line *)
Section Parsing.
Context {C : Type}.
Implicit Types (fl : list (string * target C)) (xs : list setting) (c : C).

Lemma well_typed_inv fl x : well_typed fl x = true ->
  good_name (setting_name x) = true /\ exists t, lookup_flag (setting_name x) fl = Some t /\
  (forall c, Set_value t (setting_value x) c = Some (apply_setting fl c x)) /\
  match x with Joined _ _ _ => True | Apart _ _ _ => is_bool t = false | Bare _ _ => is_bool t = true end.
Proof.
  unfold well_typed, apply_setting. intros [Hn Ht]%andb_true_iff. split; [done|].
  destruct (lookup_flag _ fl) as [t|]; [|done]. exists t. split; [done|]. split; [intros c|by destruct x, t].
  destruct t; cbn; [done| |].
  - destruct x; try done; apply bool_decide_eq_true in Ht as [? ->]; done.
  - destruct x; try done; cbn in *; apply bool_decide_eq_true in Ht as [b Hb]; cbn in Hb; rewrite ?Hb; done.
Qed.

Lemma parse_setting fl x args c : well_typed fl x = true ->
  parse_args fl (render x ++ args) c = parse_args fl args (apply_setting fl c x).
Proof.
  intros (Hn & t & Hl & Hs & Hx)%well_typed_inv. specialize (Hs c).
  destruct x as [two n v|two n v|two n]; cbn [render app parse_args setting_name setting_value] in *.
  - by rewrite classify_joined, Hl, Hs.
  - by rewrite classify_bare, Hl, Hx, Hs.
  - by rewrite classify_bare, Hl, Hx, Hs.
Qed.

(** A command line of well-typed settings, and what follows it. *)
Lemma parse_settings fl xs args c : Forall (fun x => well_typed fl x = true) xs ->
  parse_args fl (concat (render <$> xs) ++ args) c = parse_args fl args (foldl (apply_setting fl) c xs).
Proof.
  intros Hxs. revert c. induction Hxs as [|x xs Hx _ IH]; intros c; [done|].
  cbn [fmap list_fmap concat foldl]. by rewrite <- app_assoc, parse_setting, IH.
Qed.

Lemma parse_stops fl rest c : stops rest = true -> parse_args fl rest c = Parsed c.
Proof. destruct rest as [|s rest]; cbn; [done|]. by destruct (classify s). Qed.

(** [proj] reads what the flag [name] sets, by way of [conv], and nothing else. *)
Definition reads {A} (proj : C -> A) (name : string) (conv : string -> option A) (nt : string * target C) : Prop :=
  forall v c c', Set_value nt.2 v c = Some c' ->
    if bool_decide (nt.1 = name) then conv v = Some (proj c') else proj c' = proj c.

Lemma lookup_flag_reads {A} (proj : C -> A) name conv fl n t :
  Forall (reads proj name conv) fl -> lookup_flag n fl = Some t -> reads proj name conv (n, t).
Proof.
  induction 1 as [|[m u] fl Hu _ IH]; cbn; [done|]. case_bool_decide; [intros; by simplify_eq|done].
Qed.

Lemma given_snoc xs x name :
  given (xs ++ [x]) name = if bool_decide (setting_name x = name) then Some (setting_value x) else given xs name.
Proof.
  unfold given. rewrite filter_app, fmap_app. cbn. case_bool_decide as H.
  - rewrite decide_True by done. cbn. by rewrite last_snoc.
  - rewrite decide_False by done. cbn. by rewrite app_nil_r.
Qed.

(** The last setting of a flag decides; the others leave its variable alone. *)
Lemma settings_read {A} (proj : C -> A) name conv fl xs c :
  Forall (reads proj name conv) fl -> Forall (fun x => well_typed fl x = true) xs ->
  proj (foldl (apply_setting fl) c xs) = default (proj c) (given xs name ≫= conv).
Proof.
  intros Hfl. induction xs as [|x xs IH] using rev_ind; [done|].
  intros [Hxs [Hx _]%Forall_cons]%Forall_app. rewrite foldl_app, given_snoc. cbn.
  destruct (well_typed_inv fl x Hx) as (_ & t & Hl & Hs & _).
  pose proof (lookup_flag_reads _ _ _ _ _ _ Hfl Hl _ _ _ (Hs (foldl (apply_setting fl) c xs))) as Hr.
  cbn in Hr. case_bool_decide; [cbn; by rewrite Hr|]. by rewrite Hr, IH.
Qed.

(** How a command line ends the process: a request for help, an unknown flag, a
    flag whose value is missing, or a value that does not fit. *)
Inductive bad fl : list string -> Z -> Prop :=
| bad_help x args : good_name (setting_name x) = true -> lookup_flag (setting_name x) fl = None ->
    setting_name x = "help" \/ setting_name x = "h" -> bad fl (render x ++ args) 0
| bad_name x args : good_name (setting_name x) = true -> lookup_flag (setting_name x) fl = None ->
    setting_name x <> "help" -> setting_name x <> "h" -> bad fl (render x ++ args) 2
| bad_missing two n t : good_name n = true -> lookup_flag n fl = Some t -> is_bool t = false ->
    bad fl [dashes two +:+ n] 2
| bad_value x args t : good_name (setting_name x) = true -> lookup_flag (setting_name x) fl = Some t ->
    match x with Joined _ _ _ => True | Apart _ _ _ => is_bool t = false | Bare _ _ => is_bool t = true end ->
    (forall c, Set_value t (setting_value x) c = None) -> bad fl (render x ++ args) 2.

Lemma parse_unknown fl x args c : good_name (setting_name x) = true -> lookup_flag (setting_name x) fl = None ->
  parse_args fl (render x ++ args) c =
    Exit (if bool_decide (setting_name x = "help" \/ setting_name x = "h") then 0 else 2).
Proof.
  intros Hn Hl. destruct x; cbn [render app parse_args setting_name setting_value] in *;
    rewrite ?classify_joined, ?classify_bare, ?Hl by done; done.
Qed.

Lemma parse_bad fl args code c : bad fl args code -> parse_args fl args c = Exit code.
Proof.
  intros [x rest Hn Hl Hh|x rest Hn Hl H1 H2|two n t Hn Hl Ht|x rest t Hn Hl Hx Hs].
  - rewrite parse_unknown by done. by rewrite bool_decide_true.
  - rewrite parse_unknown by done. rewrite bool_decide_false; [done|by intros [?|?]].
  - cbn [parse_args]. by rewrite classify_bare, Hl, Ht.
  - specialize (Hs c). destruct x; cbn [render app parse_args setting_name setting_value] in *;
      rewrite ?classify_joined, ?classify_bare, Hl, ?Hx, ?Hs by done; done.
Qed.
End Parsing.

(** ** Numbers on the command line *)

Lemma letter_digit_of c d : digit_of c = Some d -> letter_digit c = Some d.
Proof. unfold letter_digit. by intros ->. Qed.

Lemma digit_not_under c d : digit_of c = Some d -> c <> "_"%char.
Proof. by intros H ->. Qed.

Lemma parse_base_value s n v : 0 <= n -> digits_value s n = Some v -> v <= uint64_max ->
  parse_base 10 s n false = Some (v, false).
Proof.
  revert n. induction s as [|c s IH]; simpl; intros n Hn Hv Hb; [by simplify_eq|].
  destruct (digit_of c) as [d|] eqn:Hd; simpl in Hv; [|done].
  rewrite bool_decide_false by (by eapply digit_not_under). rewrite (letter_digit_of _ _ Hd).
  apply digit_of_range in Hd. assert (n * 10 + d <= v) by (eapply digits_value_mono; [|exact Hv]; lia).
  destruct (Z.leb_spec 10 d); [lia|]. destruct (Z.ltb_spec uint64_max (n * 10 + d)); [lia|].
  apply IH; [lia|done..].
Qed.

Lemma ParseUint0_FormatUint n : 0 <= n <= uint64_max -> ParseUint0 (FormatUint n) = Some n.
Proof.
  intros Hn. pose proof (FormatUint_value n ltac:(lia)) as Hv.
  unfold ParseUint0. destruct (FormatUint_int n ltac:(lia)) as [Hz|(c & s & Hs & Hc & _)].
  - rewrite Hz in Hv |- *. cbn in Hv. by simplify_eq.
  - rewrite Hs in Hv |- *. cbn [int_base]. unfold is_char in Hc. rewrite bool_decide_eq_false in Hc.
    rewrite bool_decide_false by done. rewrite bool_decide_false by done. cbn [negb].
    rewrite (parse_base_value _ _ n); [done|lia|done|lia].
Qed.

Lemma ParseInt0_FormatInt z : in_int64 z = true -> ParseInt0 (FormatInt z) = Some z.
Proof.
  intros Hz%in_int64_iff. unfold int64_min, int64_max in Hz. unfold FormatInt, ParseInt0.
  destruct (Z.ltb_spec z 0).
  - cbn [split_sign]. rewrite ParseUint0_FormatUint by (unfold uint64_max; lia). cbn [mbind option_bind].
    destruct (Z.ltb_spec (2 ^ 63) (- z)); [lia|]. cbn. f_equal. lia.
  - destruct (FormatUint_first z ltac:(lia)) as (d & s & Hs & Hd).
    rewrite Hs, digit_char_no_sign, <- Hs by done.
    rewrite ParseUint0_FormatUint by (unfold uint64_max; lia). cbn [mbind option_bind].
    destruct (Z.leb_spec (2 ^ 63) z); [lia|]. done.
Qed.
