(* ===== verification/Duration.v ===== *)
(** * Package time: durations

    A [Duration] is an [int64] of nanoseconds.  [ParseDuration] computes the whole
    units with 64-bit integers and the fraction with float64s; [Seconds] is a
    float64, which the program truncates to an [int]. *)

From S2P Require Import Prelude Errors GoInt GoFloat GoFloatFacts GoStrings GoJson.
Local Open Scope Z_scope.

Definition Nanosecond : Z := 1.
Definition Microsecond : Z := 1000.
Definition Millisecond : Z := 1000000.
Definition Second : Z := 1000000000.

(** [time.NewTicker] panics unless the interval is positive. *)
Definition NewTicker_panics (d : Z) : bool := (d <=? 0)%Z.
Definition Minute : Z := 60 * Second.
Definition Hour : Z := 60 * Minute.

(** ** Arithmetic on positive float64s *)

(** A finite float64 as a fraction. *)
Definition float_frac (x : float64) : Z * Z :=
  match x with F_fin _ m e => bin_frac m e | _ => (0, 1) end.

(** Quotient, product and sum of finite non-negative numbers, correctly rounded. *)
Definition float_div (x y : float64) : float64 :=
  let '(a, b) := float_frac x in let '(c, d) := float_frac y in round_rat false (a * d) (b * c).
Definition float_mul (x y : float64) : float64 :=
  let '(a, b) := float_frac x in let '(c, d) := float_frac y in round_rat false (a * c) (b * d).

(** The conversion to an integer, which drops the fraction. *)
Definition float_trunc (x : float64) : Z :=
  match x with
  | F_fin neg m e => let '(a, b) := bin_frac m e in if neg then - (a / b) else a / b
  | _ => 0
  end.

(** ** [ParseDuration] *)

(** The package's own quoting: everything outside printable ASCII byte by byte. *)
Fixpoint hex_bytes (s : string) : string :=
  match s with
  | EmptyString => ""
  | String c s => esc ("x" +:+ hex_digits 2 (char_code c)) +:+ hex_bytes s
  end.

Definition duration_quote_chunk (x : Z * string) : string :=
  let '(r, b) := x in
  if (0x80 <=? r) || (r <? 0x20) then hex_bytes b
  else if (r =? 34) || (r =? 92) then esc b
  else b.

Definition duration_quote (s : string) : string :=
  String dquote (concat_strings (duration_quote_chunk <$> chunks s) +:+ String dquote "").

Definition unit_of (u : string) : option Z :=
  if bool_decide (u = "ns") then Some Nanosecond
  else if bool_decide (u ∈ ["us"; "µs"; "μs"]) then Some Microsecond
  else if bool_decide (u = "ms") then Some Millisecond
  else if bool_decide (u = "s") then Some Second
  else if bool_decide (u = "m") then Some Minute
  else if bool_decide (u = "h") then Some Hour
  else None.

Fixpoint leadingInt (s : string) (x : Z) : option (Z * string) :=
  match s with
  | EmptyString => Some (x, s)
  | String c rest =>
      match digit_of c with
      | None => Some (x, s)
      | Some d =>
          if 2 ^ 63 / 10 <? x then None
          else if 2 ^ 63 <? x * 10 + d then None
          else leadingInt rest (x * 10 + d)
      end
  end.

(** The digits behind the point as a number, and the power of ten they are over;
    digits that do not fit are dropped. *)
Fixpoint leadingFraction (s : string) (x scale : Z) (overflow : bool) : Z * Z * string :=
  match s with
  | EmptyString => (x, scale, s)
  | String c rest =>
      match digit_of c with
      | None => (x, scale, s)
      | Some d =>
          if overflow then leadingFraction rest x scale true
          else if (2 ^ 63 - 1) / 10 <? x then leadingFraction rest x scale true
          else if 2 ^ 63 <? x * 10 + d then leadingFraction rest x scale true
          else leadingFraction rest (x * 10 + d) (scale * 10) false
      end
  end.

(** The unit: everything up to the next digit or point. *)
Fixpoint span_unit (s : string) : string * string :=
  match s with
  | EmptyString => ("", s)
  | String c rest =>
      if bool_decide (c = "."%char) || bool_decide (is_Some (digit_of c)) then ("", s)
      else let '(u, s) := span_unit rest in (String c u, s)
  end.

(** [f * (unit / scale)] as float64s, in nanoseconds. *)
Definition fraction_ns (f unit scale : Z) : Z :=
  float_trunc (float_mul (float64_of_Z f) (float_div (float64_of_Z unit) (float64_of_Z scale))).

(** The rest of the text behind the sign: numbers with their units, added up as a
    [uint64]; [orig] is the whole text, for the errors. Each round consumes a
    character, so the length is enough fuel ([parse_units_fuel]). *)
Section Units.
Variable orig : string.

Definition invalid : error := ErrorText ("time: invalid duration " +:+ duration_quote orig).

(** One number with its unit, in nanoseconds, and what follows it. *)
Definition parse_unit (s : string) : res (Z * string) :=
  match leadingInt s 0 with
  | None => Err invalid
  | Some (v, s1) =>
      let pre := negb (String.length s1 =? String.length s)%nat in
      let '(f, scale, s2, post) :=
        match s1 with
        | String "." t =>
            let '(f, scale, s2) := leadingFraction t 0 1 false in
            (f, scale, s2, negb (String.length s2 =? String.length t)%nat)
        | _ => (0, 1, s1, false)
        end in
      if negb pre && negb post then Err invalid
      else
        let '(u, s3) := span_unit s2 in
        if bool_decide (u = "") then
          Err (ErrorText ("time: missing unit in duration " +:+ duration_quote orig))
        else
          match unit_of u with
          | None =>
              Err (ErrorText ("time: unknown unit " +:+ duration_quote u +:+ " in duration " +:+ duration_quote orig))
          | Some unit =>
              if 2 ^ 63 / unit <? v then Err invalid
              else
                let v := v * unit + (if 0 <? f then fraction_ns f unit scale else 0) in
                if (0 <? f) && (2 ^ 63 <? v) then Err invalid else Ok (v, s3)
          end
  end.

Definition number_start (s : string) : bool :=
  match s with
  | String c _ => bool_decide (c = "."%char) || bool_decide (is_Some (digit_of c))
  | EmptyString => false
  end.

Fixpoint parse_units (fuel : nat) (s : string) (d : Z) : res Z :=
  match fuel, s with
  | _, EmptyString => Ok d
  | O, _ => Err invalid
  | S fuel, _ =>
      if negb (number_start s) then Err invalid
      else
        '(v, s) ← parse_unit s;
        let d := (d + v) mod 2 ^ 64 in
        if 2 ^ 63 <? d then Err invalid else parse_units fuel s d
  end.
End Units.

Definition ParseDuration (orig : string) : res Z :=
  let '(neg, s) := split_sign orig in
  if bool_decide (s = "0") then Ok 0
  else if bool_decide (s = "") then Err (invalid orig)
  else
    d ← parse_units orig (String.length s) s 0;
    if neg then Ok (wrap64 (- wrap64 d))
    else if 2 ^ 63 - 1 <? d then Err (invalid orig) else Ok d.

(** ** [Seconds] *)

Definition float_add (x y : float64) : float64 :=
  let '(a, b) := float_frac x in let '(c, d) := float_frac y in round_rat false (a * d + c * b) (b * d).
Definition with_sign_of (d : Z) (x : float64) : float64 :=
  match x with F_fin _ m e => F_fin (d <? 0) m e | _ => x end.

(** The quotient and the remainder have the sign of [d], so the sum is the
    one of their magnitudes. *)
Definition Seconds (d : Z) : float64 :=
  let sec := Z.abs d / Second in
  let nsec := Z.abs d mod Second in
  with_sign_of d (float_add (float64_of_Z sec) (float_div (float64_of_Z nsec) (float64_of_Z Second))).

(** [int(d.Seconds())] *)
Definition int_seconds (d : Z) : Z := float_trunc (Seconds d).

Example int_seconds_examples :
  ParseDuration "1h15m30.918s" = Ok 4530918000000 /\ ParseDuration "-1.5h" = Ok (-5400000000000) /\
  ParseDuration "1.0000000005us" = Ok 1000 /\ int_seconds 999999999 = 0 /\ int_seconds (-1999999999) = -1 /\
  int_seconds 9223372036999999999 = 9223372037.
Proof. vm_compute. done. Qed.

(** ** Precision *)

Lemma float_frac_pos x : 0 < (float_frac x).2.
Proof. destruct x; cbn; try lia. rewrite bin_frac_mul. apply bin_frac_pos. Qed.

Lemma bin_frac_succ e : (bin_frac 1 (e + 1)).1 * (bin_frac 1 e).2 = 2 * (bin_frac 1 e).1 * (bin_frac 1 (e + 1)).2.
Proof.
  unfold bin_frac. destruct (Z.leb_spec 0 e), (Z.leb_spec 0 (e + 1)); cbn [fst snd]; try lia.
  - rewrite Z.pow_add_r by lia. lia.
  - assert (e = -1) as -> by lia. done.
  - replace (- e) with (- (e + 1) + 1) by lia. rewrite Z.pow_add_r by lia. lia.
Qed.

(** A number far from the ends of the range. *)
Definition moderate (n d : Z) : Prop := 0 < n /\ 0 < d /\ n < 2 ^ 900 * d /\ d < 2 ^ 900 * n.

Lemma round_exp_normal n d a b : moderate n d ->
  scaled n d (round_exp n d) = (a, b) -> mant_lo * b <= a < mant_hi * b /\ round_exp n d < emax.
Proof.
  intros (Hn & Hd & Hnd & Hdn) Hs. destruct (round_exp_spec n d a b) as (He & Hhi & Hlo); [done..|].
  unfold scaled in Hs. unfold emin, emax, mant_lo in *. destruct (Z.leb_spec 0 (round_exp n d)); injection Hs as <- <-.
  - assert (2 ^ 52 * (d * 2 ^ round_exp n d) <= n) as Hle by lia. split; [lia|].
    destruct (Z.lt_ge_cases (round_exp n d) 971) as [|Hge]; [done|].
    apply (Z.pow_le_mono_r 2) in Hge; [|lia]. assert (2 ^ 900 <= 2 ^ 971) by (apply Z.pow_le_mono_r; lia). nia.
  - split; [|lia]. split; [|done]. destruct Hlo as [->|]; [|done].
    assert (2 ^ 52 * 2 ^ 900 <= 2 ^ 1074) by (rewrite <- Z.pow_add_r by lia; apply Z.pow_le_mono_r; lia).
    change (- -1074) with 1074. nia.
Qed.

(** A rounding in units of its last place [u / v]: the quotient [a / b] it rounds,
    and its value. *)
Lemma round_rat_parts n d : moderate n d ->
  exists a b u v, (a, b) = scaled n d (round_exp n d) /\ 0 < b /\ mant_lo * b <= a /\
    0 < u /\ 0 < v /\ a * (u * d) = n * v * b /\
    (float_frac (round_rat false n d)).1 * v = round_half_even a b * u * (float_frac (round_rat false n d)).2.
Proof.
  intros Hnd. destruct (scaled n d (round_exp n d)) as [a b] eqn:Hs.
  destruct (round_exp_normal n d a b Hnd Hs) as [[Hlo Hhi] Hmax]. destruct Hnd as (Hn & Hd & _).
  assert (Hb := scaled_pos n d _ a b ltac:(lia) Hs).
  pose proof (scaled_units n d (round_exp n d) (round_exp n d) 0 a b Hs ltac:(lia) ltac:(lia)) as E.
  unfold round_rat. destruct (Z.eqb_spec n 0); [lia|]. rewrite Hs. set (e := round_exp n d) in *.
  pose proof (bin_frac_pos e) as [Hu Hv]. pose proof (bin_frac_succ e) as H2.
  exists a, b, (bin_frac 1 e).1, (bin_frac 1 e).2. split_and!; try done; [lia|].
  destruct (Z.eqb_spec (round_half_even a b) mant_hi) as [->|Hq]; cbv iota beta.
  - destruct (Z.ltb_spec emax (e + 1)); [lia|]. cbn [float_frac]. rewrite bin_frac_mul. cbn [fst snd].
    replace mant_hi with (2 * mant_lo) by done. rewrite <- Z.mul_assoc, H2. ring.
  - destruct (Z.ltb_spec emax e); [lia|]. cbn [float_frac]. rewrite bin_frac_mul. cbn [fst snd]. lia.
Qed.

(** The rounding of a number is within [2^-53] of it, relatively. *)
Lemma round_rat_close n d : moderate n d ->
  let '(x, y) := float_frac (round_rat false n d) in 2 ^ 53 * Z.abs (x * d - n * y) <= n * y.
Proof.
  intros Hnd. destruct (round_rat_parts n d Hnd) as (a & b & u & v & _ & Hb & Hlo & Hu & Hv & E & F).
  destruct Hnd as (Hn & Hd & _).
  pose proof (float_frac_pos (round_rat false n d)) as Hy.
  destruct (float_frac (round_rat false n d)) as [x y]. cbn [fst snd] in *.
  assert (2 ^ 53 * Z.abs (round_half_even a b * b - a) <= a) as Hq.
  { unfold round_half_even, mant_lo in *. pose proof (Z.mod_pos_bound a b Hb). pose proof (Z.div_mod a b ltac:(lia)).
    repeat case_match; lia. }
  revert F Hq. generalize (round_half_even a b). intros q F Hq.
  assert (b * v * Z.abs (x * d - n * y) = u * d * y * Z.abs (q * b - a)) as G.
  { rewrite <- (Z.abs_eq (b * v)), <- (Z.abs_eq (u * d * y)), <- !Z.abs_mul by nia. f_equal.
    replace (b * v * (x * d - n * y)) with (b * d * (x * v) - y * (n * v * b)) by ring. rewrite F, <- E. ring. }
  assert (0 < b * v) by nia. assert (0 <= u * d * y) by nia.
  apply (Z.mul_le_mono_pos_l _ _ (b * v)); [done|].
  replace (b * v * (n * y)) with (u * d * y * a) by (transitivity (y * (a * (u * d))); [ring|rewrite E; ring]).
  rewrite Z.mul_assoc, (Z.mul_comm _ (2 ^ 53)), <- Z.mul_assoc, G. nia.
Qed.

(** A whole number that fits the mantissa is exact. *)
Lemma round_rat_exact m d : 0 < m < 2 ^ 53 -> 0 < d ->
  (float_frac (round_rat false (m * d) d)).1 = m * (float_frac (round_rat false (m * d) d)).2.
Proof.
  intros Hm Hd. assert (2 ^ 53 < 2 ^ 900) by (apply Z.pow_lt_mono_r; lia).
  destruct (round_rat_parts (m * d) d) as (a & b & u & v & Hs & Hb & Hlo & Hu & Hv & E & F).
  { split_and!; nia. }
  pose proof (float_frac_pos (round_rat false (m * d) d)) as Hy.
  destruct (float_frac (round_rat false (m * d) d)) as [x y]. cbn [fst snd] in *.
  assert (exists k, a = k * b) as [k ->].
  { unfold scaled in Hs. destruct (Z.leb_spec 0 (round_exp (m * d) d)); injection Hs as -> ->.
    - unfold mant_lo in Hlo. pose proof (Z.pow_pos_nonneg 2 (round_exp (m * d) d)).
      assert (2 ^ round_exp (m * d) d < 2) by nia.
      assert (2 ^ round_exp (m * d) d = 1) as -> by lia. exists m. ring.
    - exists (m * 2 ^ (- round_exp (m * d) d)). ring. }
  assert (round_half_even (k * b) b = k) as Hk.
  { apply round_half_even_unique; [done|nia|nia]. }
  rewrite Hk in F. assert (k * u = m * v) as Hku.
  { apply (Z.mul_cancel_r _ _ (b * d)); [nia|]. transitivity (k * b * (u * d)); [ring|rewrite E; ring]. }
  apply (Z.mul_cancel_r _ _ v); [lia|]. rewrite F, Hku. ring.
Qed.

Lemma float64_of_Z_exact n : 0 <= n < 2 ^ 53 ->
  (float_frac (float64_of_Z n)).1 = n * (float_frac (float64_of_Z n)).2.
Proof.
  intros Hn. unfold float64_of_Z. destruct (Z.ltb_spec n 0); [lia|]. rewrite Z.abs_eq by lia.
  destruct (Z.eq_dec n 0) as [->|]; [done|]. pose proof (round_rat_exact n 1 ltac:(lia) ltac:(lia)) as He. by rewrite Z.mul_1_r in He.
Qed.

(** Truncation drops the fraction. *)
Lemma float_trunc_sign d f k :
  k * (float_frac f).2 <= (float_frac f).1 < (k + 1) * (float_frac f).2 ->
  float_trunc (with_sign_of d f) = if d <? 0 then - k else k.
Proof.
  pose proof (float_frac_pos f) as Hy. destruct f as [| |neg m e]; cbn [float_frac with_sign_of float_trunc fst snd] in *.
  - intros ?. assert (k = 0) as -> by lia. by destruct (d <? 0).
  - intros ?. assert (k = 0) as -> by lia. by destruct (d <? 0).
  - destruct (bin_frac m e) as [a b]. cbn [fst snd] in *. intros Hk.
    by rewrite (Z.div_unique a b k (a - k * b)) by lia.
Qed.

(** ** Whole seconds *)

(** A common factor of numerator and denominator does not matter. *)
Lemma round_rat_close_scaled k n d : 0 < k -> moderate n d ->
  let '(x, y) := float_frac (round_rat false (k * n) (k * d)) in 2 ^ 53 * Z.abs (x * d - n * y) <= n * y.
Proof.
  intros Hk (Hn & Hd & Hnd & Hdn).
  assert (moderate (k * n) (k * d)) as Hm by (split_and!; nia).
  pose proof (round_rat_close _ _ Hm) as Hc. destruct (float_frac _) as [x y].
  apply (Z.mul_le_mono_pos_l _ _ k); [done|].
  replace (k * (2 ^ 53 * Z.abs (x * d - n * y))) with (2 ^ 53 * Z.abs (x * (k * d) - k * n * y)).
  - etransitivity; [exact Hc|]. lia.
  - replace (x * (k * d) - k * n * y) with (k * (x * d - n * y)) by ring.
    rewrite Z.abs_mul, (Z.abs_eq k) by lia. ring.
Qed.

(** The fraction of a second is within [2^-53] of [nsec / 10^9]. *)
Lemma fraction_close nsec : 0 < nsec < Second ->
  let '(x, y) := float_frac (float_div (float64_of_Z nsec) (float64_of_Z Second)) in
  2 ^ 53 * Z.abs (x * Second - nsec * y) <= nsec * y.
Proof.
  intros Hn. unfold float_div.
  pose proof (float64_of_Z_exact nsec ltac:(unfold Second in Hn; lia)) as Ha.
  pose proof (float_frac_pos (float64_of_Z nsec)) as Hb.
  pose proof (float64_of_Z_exact Second ltac:(unfold Second; lia)) as Hc.
  pose proof (float_frac_pos (float64_of_Z Second)) as Hd.
  destruct (float_frac (float64_of_Z nsec)) as [a b], (float_frac (float64_of_Z Second)) as [c d]. cbn [fst snd] in *.
  rewrite Ha, Hc. replace (nsec * b * d) with (b * d * nsec) by ring. replace (b * (Second * d)) with (b * d * Second) by ring.
  apply round_rat_close_scaled; [nia|]. unfold Second in *. split_and!; lia.
Qed.

(** A whole number of seconds. *)
Lemma seconds_whole sec : 0 <= sec < 2 ^ 53 ->
  let f := float_add (float64_of_Z sec) (float_div (float64_of_Z 0) (float64_of_Z Second)) in
  (float_frac f).1 = sec * (float_frac f).2.
Proof.
  intros Hs. cbv zeta. assert (float_div (float64_of_Z 0) (float64_of_Z Second) = f64_zero) as -> by done.
  unfold float_add. pose proof (float64_of_Z_exact sec Hs) as Ha. pose proof (float_frac_pos (float64_of_Z sec)) as Hb.
  destruct (float_frac (float64_of_Z sec)) as [a b]. cbn [fst snd] in *. subst a.
  assert (exists D, 0 < D /\ float_frac f64_zero = (0, D)) as (D & HD & ->).
  { exists (2 ^ 1074). split; [|done]. apply Z.pow_pos_nonneg; lia. }
  replace (sec * b * D + 0 * b) with (sec * (b * D)) by ring.
  destruct (Z.eq_dec sec 0) as [->|]; [done|]. apply round_rat_exact; [lia|nia].
Qed.

(** Closeness bounds the quotient on both sides. *)
Lemma close_bounds x y n d : 2 ^ 53 * Z.abs (x * d - n * y) <= n * y ->
  (2 ^ 53 - 1) * (n * y) <= 2 ^ 53 * (x * d) <= (2 ^ 53 + 1) * (n * y).
Proof. lia. Qed.

(** The sum of the whole seconds and the fraction stays below the next second as
    long as a nanosecond is more than its last place. *)
Lemma seconds_floor sec nsec : 0 <= sec < 2 ^ 23 -> 0 < nsec < Second ->
  let f := float_add (float64_of_Z sec) (float_div (float64_of_Z nsec) (float64_of_Z Second)) in
  sec * (float_frac f).2 <= (float_frac f).1 < (sec + 1) * (float_frac f).2.
Proof.
  intros Hs Hn. cbv zeta. unfold float_add.
  pose proof (float64_of_Z_exact sec ltac:(lia)) as Ha. pose proof (float_frac_pos (float64_of_Z sec)) as Hb.
  destruct (float_frac (float64_of_Z sec)) as [a b]. cbn [fst snd] in *. subst a.
  pose proof (float_frac_pos (float_div (float64_of_Z nsec) (float64_of_Z Second))) as Hy.
  pose proof (fraction_close nsec Hn) as Hc. destruct (float_frac (float_div _ _)) as [x y]. cbn [fst snd] in Hy.
  apply close_bounds in Hc. unfold Second in Hn, Hc.
  assert ((2 ^ 53 - 1) * y <= 2 ^ 53 * (x * 1000000000) /\ 2 ^ 53 * (x * 1000000000) <= (2 ^ 53 + 1) * (999999999 * y))
    as [Hx1 Hx2] by nia. clear Hc.
  assert (0 <= sec * y <= (2 ^ 23 - 1) * y) as Ht by nia.
  replace (sec * b * y + x * b) with (b * (sec * y + x)) by ring.
  pose proof (float_frac_pos (round_rat false (b * (sec * y + x)) (b * y))) as HY.
  assert (moderate (sec * y + x) y) as Hm.
  { assert (2 ^ 64 <= 2 ^ 900) by (apply Z.pow_le_mono_r; lia). split_and!; nia. }
  pose proof (round_rat_close_scaled b (sec * y + x) y Hb Hm) as Hr. clear Hm.
  destruct (float_frac (round_rat _ _ _)) as [X Y]. cbn [fst snd] in *. apply close_bounds in Hr as [Hr1 Hr2].
  split; [apply (Z.mul_le_mono_pos_l _ _ (2 ^ 53 * y))|apply (Z.mul_lt_mono_pos_l (2 ^ 53 * y))]; try lia.
  - assert (2 ^ 53 * (sec * y) <= (2 ^ 53 - 1) * (sec * y + x)) by lia. nia.
  - assert ((2 ^ 53 + 1) * (sec * y + x) < 2 ^ 53 * (sec * y + y)) by lia. nia.
Qed.

(** [int(d.Seconds())] is the number of whole seconds of [d], rounded towards zero:
    for every whole number of seconds, and for every duration of less than [2^23]
    seconds (97 days). *)
Lemma int_seconds_spec d : Z.abs d < 2 ^ 63 -> Z.rem d Second = 0 \/ Z.abs d < 2 ^ 23 * Second ->
  int_seconds d = Z.quot d Second.
Proof.
  intros Hd Hcase. unfold int_seconds, Seconds.
  assert (0 < Second) as HS by done. assert (2 ^ 63 < 2 ^ 53 * Second) as H63 by done.
  pose proof (Z.div_mod (Z.abs d) Second ltac:(lia)) as Hdm. pose proof (Z.mod_pos_bound (Z.abs d) Second HS) as Hm.
  assert (Z.quot d Second = if d <? 0 then - (Z.abs d / Second) else Z.abs d / Second) as ->.
  { destruct (Z.ltb_spec d 0).
    - rewrite Z.abs_neq, <- Z.quot_div_nonneg, Z.quot_opp_l by lia. lia.
    - rewrite Z.abs_eq, Z.quot_div_nonneg by lia. done. }
  apply float_trunc_sign. destruct (Z.eq_dec (Z.abs d mod Second) 0) as [E|E].
  - rewrite E. pose proof (seconds_whole (Z.abs d / Second) ltac:(nia)) as Hw. cbv zeta in Hw. rewrite Hw.
    pose proof (float_frac_pos (float_add (float64_of_Z (Z.abs d / Second)) (float_div (float64_of_Z 0) (float64_of_Z Second)))). nia.
  - apply seconds_floor; [|lia]. destruct Hcase as [Hr|Hlt]; [|nia].
    exfalso. apply E. apply Z.rem_divide in Hr; [|lia]. apply Z.mod_divide; [lia|]. by apply Z.divide_abs_r.
Qed.

(** ** Reading durations *)

Lemma leadingInt_length s x v s' : leadingInt s x = Some (v, s') -> (String.length s' <= String.length s)%nat.
Proof.
  revert x. induction s as [|c s IH]; cbn; intros x H; [by simplify_eq|].
  destruct (digit_of c) as [d|]; [|by simplify_eq]. repeat case_match; try done. apply IH in H. lia.
Qed.

Lemma leadingFraction_length s x sc o : (String.length (leadingFraction s x sc o).2 <= String.length s)%nat.
Proof.
  revert x sc o. induction s as [|c s IH]; cbn; intros x sc o; [done|].
  destruct (digit_of c) as [d|]; [|done]. repeat case_match; etransitivity; [apply IH|lia|apply IH|lia..|apply IH|lia|apply IH|lia].
Qed.

Lemma span_unit_length s : (String.length (span_unit s).1 + String.length (span_unit s).2 = String.length s)%nat.
Proof.
  induction s as [|c s IH]; cbn; [done|]. case_match; cbn; [done|]. destruct (span_unit s). cbn in *. lia.
Qed.

Lemma parse_unit_shorter orig s v s' : parse_unit orig s = Ok (v, s') -> (String.length s' < String.length s)%nat.
Proof.
  unfold parse_unit. destruct (leadingInt s 0) as [[w s1]|] eqn:Hi; [|done]. apply leadingInt_length in Hi.
  cbv zeta. destruct (match s1 with String "." t => _ | _ => _ end) as [[[f sc] s2] post] eqn:Hf.
  assert (String.length s2 <= String.length s1)%nat as H2.
  { repeat case_match; simplify_eq; try done.
    match goal with H : leadingFraction ?t ?x ?sc ?o = _ |- _ =>
      pose proof (leadingFraction_length t x sc o) as Hl; rewrite H in Hl; cbn in * end. lia. }
  destruct (_ && negb post); [done|].
  pose proof (span_unit_length s2) as Hu. destruct (span_unit s2) as [u s3]. cbn [fst snd] in Hu.
  case_bool_decide as Hne; [done|]. destruct (unit_of u) as [unit|]; [|done].
  destruct (2 ^ 63 / unit <? w); [done|]. destruct (_ && (2 ^ 63 <? _)); [done|].
  intros [= _ <-]. destruct u; [done|cbn in Hu; lia].
Qed.

(** The length of the text is enough fuel. *)
Lemma parse_units_fuel orig f1 f2 s d : (String.length s <= f1)%nat -> (String.length s <= f2)%nat ->
  parse_units orig f1 s d = parse_units orig f2 s d.
Proof.
  revert f2 s d. induction f1 as [|f1 IH]; intros [|f2] s d H1 H2; destruct s as [|c s]; cbn in H1, H2; try lia; try done.
  cbn [parse_units]. case_match; [done|]. destruct (parse_unit orig (String c s)) as [[v s']|e] eqn:Hp; [|done].
  apply parse_unit_shorter in Hp. cbn in Hp. cbn. case_match; [done|]. apply IH; lia.
Qed.

Lemma leadingInt_digits s rest x v : 0 <= x -> digits_value s x = Some v -> v <= 2 ^ 63 ->
  starts_with is_digit rest = false -> leadingInt (s +:+ rest) x = Some (v, rest).
Proof.
  revert x. induction s as [|c s IH]; cbn [digits_value]; intros x Hx Hv Hb Hr.
  - rewrite string_app_nil_l. simplify_eq. destruct rest as [|c rest]; [done|]. cbn in *.
    destruct (digit_of c) as [d|] eqn:Hd; [|done]. apply digit_of_is_digit in Hd. congruence.
  - rewrite string_app_cons. cbn [leadingInt]. destruct (digit_of c) as [d|] eqn:Hd; [|done].
    apply digit_of_range in Hd as Hd'. cbn in Hv.
    assert (x * 10 + d <= v) by (eapply digits_value_mono; [|exact Hv]; lia).
    change (2 ^ 63 / 10) with 922337203685477580. destruct (Z.ltb_spec 922337203685477580 x); [lia|].
    destruct (Z.ltb_spec (2 ^ 63) (x * 10 + d)); [lia|]. apply IH; [lia|done..].
Qed.

(** The units, and how a text that is one is cut. *)
Lemma unit_of_cases u unit : unit_of u = Some unit -> u ∈ ["ns"; "us"; "µs"; "μs"; "ms"; "s"; "m"; "h"] /\ 0 < unit.
Proof.
  unfold unit_of.
  repeat (destruct (bool_decide _) eqn:E; [apply bool_decide_eq_true in E; intros [= <-]; split; [rewrite !elem_of_cons in *; tauto|done]|clear E]).
  done.
Qed.

Lemma unit_cut u unit : unit_of u = Some unit ->
  bool_decide (u = "") = false /\ span_unit u = (u, "") /\ starts_with is_digit u = false /\
  forall {A} (f : string -> A) (a : A), (match u with String "." t => f t | _ => a end) = a.
Proof.
  intros [Hu _]%unit_of_cases. rewrite !elem_of_cons, elem_of_nil in Hu. by destruct_or! Hu; subst.
Qed.

Lemma parse_unit_number orig n u unit : 0 <= n -> unit_of u = Some unit -> n * unit < 2 ^ 63 ->
  parse_unit orig (FormatUint n +:+ u) = Ok (n * unit, "").
Proof.
  intros Hn Hu Hb. apply unit_of_cases in Hu as Hpos. destruct Hpos as [_ Hpos].
  destruct (unit_cut u unit Hu) as (Hne & Hspan & Hd & Hdot). unfold parse_unit.
  rewrite (leadingInt_digits _ _ _ n); [|done|by apply FormatUint_value|nia|done].
  rewrite (Hdot _ _ (0, 1, u, false)), Hspan, Hne, Hu. rewrite string_length_app.
  destruct (FormatUint_first n Hn) as (d & t & -> & _). cbn [String.length].
  destruct (Nat.eqb_spec (String.length u) (S (String.length t) + String.length u)) as [E|_]; [lia|]. cbn [negb andb].
  destruct (Z.ltb_spec (2 ^ 63 / unit) n) as [Hlt|_].
  { pose proof (Z.div_le_lower_bound (2 ^ 63) unit n). lia. }
  cbn [Z.ltb Z.compare andb]. by rewrite Z.add_0_r.
Qed.

(** A number of some unit reads as that many nanoseconds. *)
Lemma ParseDuration_unit n u unit : 0 <= n -> unit_of u = Some unit -> n * unit < 2 ^ 63 ->
  ParseDuration (FormatUint n +:+ u) = Ok (n * unit).
Proof.
  intros Hn Hu Hb. pose proof (parse_unit_number (FormatUint n +:+ u) n u unit Hn Hu Hb) as Hp.
  destruct (unit_cut u unit Hu) as (Hne & _). apply unit_of_cases in Hu as [_ Hpos].
  destruct (FormatUint_first n Hn) as (d & t & Ht & Hdr). rewrite Ht, string_app_cons in Hp |- *.
  unfold ParseDuration. rewrite digit_char_no_sign by done.
  rewrite bool_decide_false, bool_decide_false.
  2: done.
  2: { intros [= _ E]. destruct t; [rewrite string_app_nil_l in E; by rewrite E in Hne|by rewrite string_app_cons in E]. }
  cbn [String.length parse_units]. unfold number_start. rewrite digit_of_char by done.
  rewrite (bool_decide_true (is_Some _)), orb_true_r by eauto. cbn [negb].
  rewrite Hp. cbn [mbind result_bind]. rewrite Z.add_0_l, Z.mod_small by lia.
  destruct (Z.ltb_spec (2 ^ 63) (n * unit)); [lia|].
  destruct (String.length (t +:+ u)); cbn [parse_units mbind result_bind];
    (destruct (Z.ltb_spec (2 ^ 63 - 1) (n * unit)); [lia|done]).
Qed.
