(* ===== verification/Database.v ===== *)
(** * internal/config/db: connecting to the database

    [Connect], [Migrate] and [NewDBStorage], with the life of the connection pool:
    whether it was opened, how it is configured, whether it is closed.  The driver
    and the migration library are inputs. *)

From S2P Require Import Prelude Errors GoInt GoStrings GoFloat Model Storage Retry DBStore Duration.

Module Database.

Record Config := MkConfig { DSN : string; MaxOpenConns : Z; MaxIdleConns : Z; ConnMaxLifetime : Z }.

Definition DefaultConfig (dsn : string) : Config := MkConfig dsn 25 5 (5 * 60 * Second).

(** The [*sql.DB]; as [sql.Open] makes it, it keeps 2 idle connections. *)
Record sql_DB := MkDB { maxOpen : Z; maxIdle : Z; maxLifetime : Z; closed : bool }.
Definition new_DB : sql_DB := MkDB 0 2 0 false.

Definition SetMaxIdleConns (n : Z) (db : sql_DB) : sql_DB :=
  let n := if (0 <? maxOpen db)%Z && (maxOpen db <? n)%Z then maxOpen db else n in
  MkDB (maxOpen db) n (maxLifetime db) (closed db).
Definition SetMaxOpenConns (n : Z) (db : sql_DB) : sql_DB :=
  let n := Z.max n 0 in
  let db := MkDB n (maxIdle db) (maxLifetime db) (closed db) in
  if (0 <? n)%Z && (n <? maxIdle db)%Z then SetMaxIdleConns n db else db.
Definition SetConnMaxLifetime (d : Z) (db : sql_DB) : sql_DB := MkDB (maxOpen db) (maxIdle db) (Z.max d 0) (closed db).
Definition Close (db : sql_DB) : sql_DB := MkDB (maxOpen db) (maxIdle db) (maxLifetime db) true.

(** What [m.Up()] answers. *)
Inductive up_result := UpDone | UpNoChange | UpErr (err : error).

(** The driver, the server behind it, and the migration library. *)
Record environment := MkEnvironment {
  Open : string -> option error;
  PingContext : option error;
  iofs_New : option error;
  WithInstance : option error;
  NewWithInstance : option error;
  Up : up_result
}.

(** The pool as it is afterwards, if it was opened, and the error. *)
Definition Connect (env : environment) (cfg : Config) : option sql_DB * option error :=
  match Open env (DSN cfg) with
  | Some err => (None, Some (Errorf "open db: " err))
  | None =>
      let db := SetConnMaxLifetime (ConnMaxLifetime cfg) (SetMaxIdleConns (MaxIdleConns cfg) (SetMaxOpenConns (MaxOpenConns cfg) new_DB)) in
      match PingContext env with
      | Some err => (Some (Close db), Some (Errorf "ping db: " err))
      | None => (Some db, None)
      end
  end.

Definition Migrate (env : environment) : option error :=
  match iofs_New env with
  | Some err => Some (Errorf "migrations source: " err)
  | None =>
      match WithInstance env with
      | Some err => Some (Errorf "migrations driver: " err)
      | None =>
          match NewWithInstance env with
          | Some err => Some (Errorf "migrate init: " err)
          | None => match Up env with UpErr err => Some (Errorf "migrate up: " err) | UpDone | UpNoChange => None end
          end
      end
  end.

(** [NewDBStorage], over the table the migrations leave. *)
Definition NewDBStorage (env : environment) (dsn : string) (table : DBStorage.t) : option sql_DB * res DBStorage.t :=
  match Connect env (DefaultConfig dsn) with
  | (db, Some err) => (db, Err err)
  | (db, None) =>
      match Migrate env with
      | Some err => (Close <$> db, Err (Errorf "migrate: " err))
      | None => (db, Ok table)
      end
  end.

(** No failure leaves a pool open: it succeeds exactly when opening, the ping and every
    step of the migrations do, with a pool of 25 connections, 5 of them idle, that live
    5 minutes; otherwise what was opened is closed. *)
Lemma NewDBStorage_releases env dsn table :
  let '(db, r) := NewDBStorage env dsn table in
  match r with
  | Ok t => t = table /\ db = Some (MkDB 25 5 (300 * Second) false) /\
      Open env dsn = None /\ PingContext env = None /\ Migrate env = None
  | Err _ => forall d, db = Some d -> closed d = true
  end.
Proof.
  unfold NewDBStorage, Connect. cbn [DSN DefaultConfig]. destruct (Open env dsn); [done|].
  destruct (PingContext env); [by intros d [= <-]|]. destruct (Migrate env); [by intros d [= <-]|done].
Qed.
End Database.
