(* ===== verification/Config.v ===== *)
(** * internal/config: flags, environment and the JSON file

    Where the server's and the agent's settings come from: the environment, then
    the command line, then the JSON file, then the defaults.  The environment and
    the files are given; the process arguments do not include the program's name. *)

From S2P Require Import Prelude Errors GoInt GoFloat GoStrings GoJson Flags Duration.
Local Open Scope Z_scope.

(** What the process sees of its surroundings: [os.LookupEnv] and [os.ReadFile]. *)
Record environment := MkEnvironment { env : gmap string string; read_file : string -> res string }.

(** The parameters of cmd/server, with an assignment per field. *)
Module ServerConfig.
Record t := Mk {
  Addr : string;
  StoreInterval : Z;
  FileStoragePath : string;
  Restore : bool;
  DatabaseDSN : string;
  Key : string;
  AuditFile : string;
  AuditURL : string;
  CryptoKey : string;
  TrustedSubnet : string;
  GRPCAddr : string }.

Definition set_Addr (v : string) (c : t) : t :=
  Mk v (StoreInterval c) (FileStoragePath c) (Restore c) (DatabaseDSN c) (Key c) (AuditFile c) (AuditURL c) (CryptoKey c) (TrustedSubnet c) (GRPCAddr c).
Definition set_StoreInterval (v : Z) (c : t) : t :=
  Mk (Addr c) v (FileStoragePath c) (Restore c) (DatabaseDSN c) (Key c) (AuditFile c) (AuditURL c) (CryptoKey c) (TrustedSubnet c) (GRPCAddr c).
Definition set_FileStoragePath (v : string) (c : t) : t :=
  Mk (Addr c) (StoreInterval c) v (Restore c) (DatabaseDSN c) (Key c) (AuditFile c) (AuditURL c) (CryptoKey c) (TrustedSubnet c) (GRPCAddr c).
Definition set_Restore (v : bool) (c : t) : t :=
  Mk (Addr c) (StoreInterval c) (FileStoragePath c) v (DatabaseDSN c) (Key c) (AuditFile c) (AuditURL c) (CryptoKey c) (TrustedSubnet c) (GRPCAddr c).
Definition set_DatabaseDSN (v : string) (c : t) : t :=
  Mk (Addr c) (StoreInterval c) (FileStoragePath c) (Restore c) v (Key c) (AuditFile c) (AuditURL c) (CryptoKey c) (TrustedSubnet c) (GRPCAddr c).
Definition set_Key (v : string) (c : t) : t :=
  Mk (Addr c) (StoreInterval c) (FileStoragePath c) (Restore c) (DatabaseDSN c) v (AuditFile c) (AuditURL c) (CryptoKey c) (TrustedSubnet c) (GRPCAddr c).
Definition set_AuditFile (v : string) (c : t) : t :=
  Mk (Addr c) (StoreInterval c) (FileStoragePath c) (Restore c) (DatabaseDSN c) (Key c) v (AuditURL c) (CryptoKey c) (TrustedSubnet c) (GRPCAddr c).
Definition set_AuditURL (v : string) (c : t) : t :=
  Mk (Addr c) (StoreInterval c) (FileStoragePath c) (Restore c) (DatabaseDSN c) (Key c) (AuditFile c) v (CryptoKey c) (TrustedSubnet c) (GRPCAddr c).
Definition set_CryptoKey (v : string) (c : t) : t :=
  Mk (Addr c) (StoreInterval c) (FileStoragePath c) (Restore c) (DatabaseDSN c) (Key c) (AuditFile c) (AuditURL c) v (TrustedSubnet c) (GRPCAddr c).
Definition set_TrustedSubnet (v : string) (c : t) : t :=
  Mk (Addr c) (StoreInterval c) (FileStoragePath c) (Restore c) (DatabaseDSN c) (Key c) (AuditFile c) (AuditURL c) (CryptoKey c) v (GRPCAddr c).
Definition set_GRPCAddr (v : string) (c : t) : t :=
  Mk (Addr c) (StoreInterval c) (FileStoragePath c) (Restore c) (DatabaseDSN c) (Key c) (AuditFile c) (AuditURL c) (CryptoKey c) (TrustedSubnet c) v.
End ServerConfig.

(** The parameters of cmd/agent. *)
Module AgentConfig.
Record t := Mk {
  Addr : string;
  PollInterval : Z;
  ReportInterval : Z;
  Key : string;
  RateLimit : Z;
  CryptoKey : string;
  GRPCAddr : string }.

Definition set_Addr (v : string) (c : t) : t :=
  Mk v (PollInterval c) (ReportInterval c) (Key c) (RateLimit c) (CryptoKey c) (GRPCAddr c).
Definition set_PollInterval (v : Z) (c : t) : t :=
  Mk (Addr c) v (ReportInterval c) (Key c) (RateLimit c) (CryptoKey c) (GRPCAddr c).
Definition set_ReportInterval (v : Z) (c : t) : t :=
  Mk (Addr c) (PollInterval c) v (Key c) (RateLimit c) (CryptoKey c) (GRPCAddr c).
Definition set_Key (v : string) (c : t) : t :=
  Mk (Addr c) (PollInterval c) (ReportInterval c) v (RateLimit c) (CryptoKey c) (GRPCAddr c).
Definition set_RateLimit (v : Z) (c : t) : t :=
  Mk (Addr c) (PollInterval c) (ReportInterval c) (Key c) v (CryptoKey c) (GRPCAddr c).
Definition set_CryptoKey (v : string) (c : t) : t :=
  Mk (Addr c) (PollInterval c) (ReportInterval c) (Key c) (RateLimit c) v (GRPCAddr c).
Definition set_GRPCAddr (v : string) (c : t) : t :=
  Mk (Addr c) (PollInterval c) (ReportInterval c) (Key c) (RateLimit c) (CryptoKey c) v.
End AgentConfig.

(** The JSON file of the server: absent fields are nil. *)
Module serverFile.
Record t := Mk {
  Address : option string;
  GRPCAddress : option string;
  Restore : option bool;
  StoreInterval : option string;
  StoreFile : option string;
  DatabaseDSN : option string;
  CryptoKey : option string;
  TrustedSubnet : option string }.

Definition set_Address (v : option string) (c : t) : t :=
  Mk v (GRPCAddress c) (Restore c) (StoreInterval c) (StoreFile c) (DatabaseDSN c) (CryptoKey c) (TrustedSubnet c).
Definition set_GRPCAddress (v : option string) (c : t) : t :=
  Mk (Address c) v (Restore c) (StoreInterval c) (StoreFile c) (DatabaseDSN c) (CryptoKey c) (TrustedSubnet c).
Definition set_Restore (v : option bool) (c : t) : t :=
  Mk (Address c) (GRPCAddress c) v (StoreInterval c) (StoreFile c) (DatabaseDSN c) (CryptoKey c) (TrustedSubnet c).
Definition set_StoreInterval (v : option string) (c : t) : t :=
  Mk (Address c) (GRPCAddress c) (Restore c) v (StoreFile c) (DatabaseDSN c) (CryptoKey c) (TrustedSubnet c).
Definition set_StoreFile (v : option string) (c : t) : t :=
  Mk (Address c) (GRPCAddress c) (Restore c) (StoreInterval c) v (DatabaseDSN c) (CryptoKey c) (TrustedSubnet c).
Definition set_DatabaseDSN (v : option string) (c : t) : t :=
  Mk (Address c) (GRPCAddress c) (Restore c) (StoreInterval c) (StoreFile c) v (CryptoKey c) (TrustedSubnet c).
Definition set_CryptoKey (v : option string) (c : t) : t :=
  Mk (Address c) (GRPCAddress c) (Restore c) (StoreInterval c) (StoreFile c) (DatabaseDSN c) v (TrustedSubnet c).
Definition set_TrustedSubnet (v : option string) (c : t) : t :=
  Mk (Address c) (GRPCAddress c) (Restore c) (StoreInterval c) (StoreFile c) (DatabaseDSN c) (CryptoKey c) v.
End serverFile.

(** The JSON file of the agent. *)
Module agentFile.
Record t := Mk {
  Address : option string;
  GRPCAddress : option string;
  ReportInterval : option string;
  PollInterval : option string;
  CryptoKey : option string }.

Definition set_Address (v : option string) (c : t) : t :=
  Mk v (GRPCAddress c) (ReportInterval c) (PollInterval c) (CryptoKey c).
Definition set_GRPCAddress (v : option string) (c : t) : t :=
  Mk (Address c) v (ReportInterval c) (PollInterval c) (CryptoKey c).
Definition set_ReportInterval (v : option string) (c : t) : t :=
  Mk (Address c) (GRPCAddress c) v (PollInterval c) (CryptoKey c).
Definition set_PollInterval (v : option string) (c : t) : t :=
  Mk (Address c) (GRPCAddress c) (ReportInterval c) v (CryptoKey c).
Definition set_CryptoKey (v : option string) (c : t) : t :=
  Mk (Address c) (GRPCAddress c) (ReportInterval c) (PollInterval c) v.
End agentFile.

(** ** [extractConfigPath] *)

(** The loop over the arguments. *)
Fixpoint config_arg (args : list string) : string :=
  match args with
  | [] => ""
  | a :: rest =>
      if bool_decide (a ∈ ["-c"; "-config"; "--config"]) then
        match rest with v :: _ => v | [] => config_arg rest end
      else if HasPrefix a "-c=" then TrimPrefix a "-c="
      else if HasPrefix a "-config=" then TrimPrefix a "-config="
      else if HasPrefix a "--config=" then TrimPrefix a "--config="
      else config_arg rest
  end.

Definition extractConfigPath (w : environment) (args : list string) : string :=
  match env w !! "CONFIG" with
  | Some e => if bool_decide (e = "") then config_arg args else e
  | None => config_arg args
  end.

(** ** Reading the JSON file *)
Section Load.
Context `{JsonErrorText} `{UnicodeTables}.

(** A pointer to a string or a bool; see [GoJson.decode_ptr]. *)
Definition decode_string_ptr (v : json) (old : option string) : option string * option error :=
  match v with
  | JNull => (None, None)
  | JStr s => (Some s, None)
  | _ => (Some (default "" old), Some (type_error v "string"))
  end.

Definition decode_bool_ptr (v : json) (old : option bool) : option bool * option error :=
  match v with
  | JNull => (None, None)
  | JBool b => (Some b, None)
  | _ => (Some (default false old), Some (type_error v "bool"))
  end.

Definition string_field {A} (get : A -> option string) (set : option string -> A -> A)
    (v : json) (a : A) : A * option error :=
  let '(x, e) := decode_string_ptr v (get a) in (set x a, e).
Definition bool_field {A} (get : A -> option bool) (set : option bool -> A -> A)
    (v : json) (a : A) : A * option error :=
  let '(x, e) := decode_bool_ptr v (get a) in (set x a, e).

Fixpoint decode_fields {A} (field : string -> option (json -> A -> A * option error))
    (l : list (string * json)) (a : A) (saved : option error) : A * option error :=
  match l with
  | [] => (a, saved)
  | (k, v) :: l =>
      match field k with
      | None => decode_fields field l a saved
      | Some f => let '(a, e) := f v a in decode_fields field l a (GoJson.save saved e)
      end
  end.

(** [json.Unmarshal] into a struct of type [ty] whose fields are [field]. *)
Definition Unmarshal_struct {A} (ty : string) (field : string -> option (json -> A -> A * option error))
    (zero : A) (data : string) : res A :=
  match scan_json data with
  | Ok (v, rest) =>
      if bool_decide (skip_ws rest = "") then
        finish match v with
               | JNull => (zero, None)
               | JObj l => decode_fields field l zero None
               | _ => (zero, Some (type_error v ty))
               end
      else Err (ErrorText (SyntaxError_text data))
  | Err _ => Err (ErrorText (SyntaxError_text data))
  end.

(** The json tags of the two structs, in the folded form of [find_field]. *)
Definition serverFile_field (k : string) : option (json -> serverFile.t -> serverFile.t * option error) :=
  let k := fold_key k in
  if bool_decide (k = "ADDRESS") then Some (string_field serverFile.Address serverFile.set_Address)
  else if bool_decide (k = "GRPC_ADDRESS") then Some (string_field serverFile.GRPCAddress serverFile.set_GRPCAddress)
  else if bool_decide (k = "RESTORE") then Some (bool_field serverFile.Restore serverFile.set_Restore)
  else if bool_decide (k = "STORE_INTERVAL") then Some (string_field serverFile.StoreInterval serverFile.set_StoreInterval)
  else if bool_decide (k = "STORE_FILE") then Some (string_field serverFile.StoreFile serverFile.set_StoreFile)
  else if bool_decide (k = "DATABASE_DSN") then Some (string_field serverFile.DatabaseDSN serverFile.set_DatabaseDSN)
  else if bool_decide (k = "CRYPTO_KEY") then Some (string_field serverFile.CryptoKey serverFile.set_CryptoKey)
  else if bool_decide (k = "TRUSTED_SUBNET") then Some (string_field serverFile.TrustedSubnet serverFile.set_TrustedSubnet)
  else None.

Definition agentFile_field (k : string) : option (json -> agentFile.t -> agentFile.t * option error) :=
  let k := fold_key k in
  if bool_decide (k = "ADDRESS") then Some (string_field agentFile.Address agentFile.set_Address)
  else if bool_decide (k = "GRPC_ADDRESS") then Some (string_field agentFile.GRPCAddress agentFile.set_GRPCAddress)
  else if bool_decide (k = "REPORT_INTERVAL") then Some (string_field agentFile.ReportInterval agentFile.set_ReportInterval)
  else if bool_decide (k = "POLL_INTERVAL") then Some (string_field agentFile.PollInterval agentFile.set_PollInterval)
  else if bool_decide (k = "CRYPTO_KEY") then Some (string_field agentFile.CryptoKey agentFile.set_CryptoKey)
  else None.

Definition no_serverFile : serverFile.t := serverFile.Mk None None None None None None None None.
Definition no_agentFile : agentFile.t := agentFile.Mk None None None None None.

Definition loadServerFile (w : environment) (path : string) : res serverFile.t :=
  match read_file w path with
  | Err err => Err (Errorf ("read config " +:+ Quote path +:+ ": ") err)
  | Ok data =>
      match Unmarshal_struct "config.serverFile" serverFile_field no_serverFile data with
      | Err err => Err (Errorf ("parse config " +:+ Quote path +:+ ": ") err)
      | Ok f => Ok f
      end
  end.

Definition loadAgentFile (w : environment) (path : string) : res agentFile.t :=
  match read_file w path with
  | Err err => Err (Errorf ("read config " +:+ Quote path +:+ ": ") err)
  | Ok data =>
      match Unmarshal_struct "config.agentFile" agentFile_field no_agentFile data with
      | Err err => Err (Errorf ("parse config " +:+ Quote path +:+ ": ") err)
      | Ok f => Ok f
      end
  end.

(** An interval of the file, in seconds. *)
Definition file_interval (path name : string) (field : option string) (dflt : Z) : res Z :=
  match field with
  | None => Ok dflt
  | Some text =>
      match ParseDuration text with
      | Err err => Err (Errorf ("config " +:+ Quote path +:+ ": invalid " +:+ name +:+ " " +:+ Quote text +:+ ": ") err)
      | Ok d => Ok (int_seconds d)
      end
  end.

(** ** The environment *)

Definition env_string {C} (w : environment) (name : string) (set : string -> C -> C) (c : C) : C :=
  match env w !! name with Some e => set e c | None => c end.

(** A variable [name] that is read with [conv]. *)
Definition env_with {C A} (conv : string -> res A) (w : environment) (name : string) (set : A -> C -> C) (c : C) : res C :=
  match env w !! name with
  | Some e =>
      match conv e with
      | Ok v => Ok (set v c)
      | Err err => Err (Errorf ("invalid " +:+ name +:+ " " +:+ Quote e +:+ ": ") err)
      end
  | None => Ok c
  end.

Definition ParseBool_res (s : string) : res bool :=
  match ParseBool s with Some b => Ok b | None => Err (NumError "ParseBool" s (Sentinel sErrSyntax)) end.

(** ** [ParseServerConfig] *)

(** How parsing ends: with a configuration, with an error, or with the process's
    exit. *)
Inductive outcome (C : Type) := Config (c : C) | Fails (err : error) | Exits (code : Z).

Definition server_zero : ServerConfig.t := ServerConfig.Mk "" 0 "" false "" "" "" "" "" "" "".

(** The defaults, after the file. *)
Definition server_file (w : environment) (args : list string) : res ServerConfig.t :=
  let path := extractConfigPath w args in
  let defaults (fc : serverFile.t) (interval : Z) :=
    ServerConfig.Mk (default "localhost:8080" (serverFile.Address fc)) interval
      (default "/tmp/metrics-db.json" (serverFile.StoreFile fc)) (default true (serverFile.Restore fc))
      (default "" (serverFile.DatabaseDSN fc)) "" "" "" (default "" (serverFile.CryptoKey fc))
      (default "" (serverFile.TrustedSubnet fc)) (default "" (serverFile.GRPCAddress fc)) in
  if bool_decide (path = "") then Ok (defaults no_serverFile 300)
  else
    fc ← loadServerFile w path;
    interval ← file_interval path "store_interval" (serverFile.StoreInterval fc) 300;
    Ok (defaults fc interval).

(** [fs] with its flags; [d] holds the defaults. The last two flags set a variable
    that is thrown away. *)
Definition server_flags (d : ServerConfig.t) : FlagSet ServerConfig.t :=
  StringVar (fun _ c => c) "config" ""
  $ StringVar (fun _ c => c) "c" ""
  $ StringVar ServerConfig.set_GRPCAddr "grpc-address" (ServerConfig.GRPCAddr d)
  $ StringVar ServerConfig.set_TrustedSubnet "t" (ServerConfig.TrustedSubnet d)
  $ StringVar ServerConfig.set_CryptoKey "crypto-key" (ServerConfig.CryptoKey d)
  $ StringVar ServerConfig.set_AuditURL "audit-url" ""
  $ StringVar ServerConfig.set_AuditFile "audit-file" ""
  $ StringVar ServerConfig.set_Key "k" ""
  $ StringVar ServerConfig.set_DatabaseDSN "d" (ServerConfig.DatabaseDSN d)
  $ BoolVar ServerConfig.set_Restore "r" (ServerConfig.Restore d)
  $ StringVar ServerConfig.set_FileStoragePath "f" (ServerConfig.FileStoragePath d)
  $ IntVar ServerConfig.set_StoreInterval "i" (ServerConfig.StoreInterval d)
  $ StringVar ServerConfig.set_Addr "a" (ServerConfig.Addr d)
  $ NewFlagSet server_zero.

Definition server_env (w : environment) (c : ServerConfig.t) : res ServerConfig.t :=
  let c := env_string w "ADDRESS" ServerConfig.set_Addr c in
  c ← env_with Atoi w "STORE_INTERVAL" ServerConfig.set_StoreInterval c;
  let c := env_string w "FILE_STORAGE_PATH" ServerConfig.set_FileStoragePath c in
  c ← env_with ParseBool_res w "RESTORE" ServerConfig.set_Restore c;
  let c := env_string w "DATABASE_DSN" ServerConfig.set_DatabaseDSN c in
  let c := env_string w "KEY" ServerConfig.set_Key c in
  let c := env_string w "AUDIT_FILE" ServerConfig.set_AuditFile c in
  let c := env_string w "AUDIT_URL" ServerConfig.set_AuditURL c in
  let c := env_string w "CRYPTO_KEY" ServerConfig.set_CryptoKey c in
  let c := env_string w "TRUSTED_SUBNET" ServerConfig.set_TrustedSubnet c in
  let c := env_string w "GRPC_ADDRESS" ServerConfig.set_GRPCAddr c in
  Ok c.

(** File, flags and environment, in this order, each over what the one before
    gave. *)
Definition layered {C} (file : res C) (flags : C -> FlagSet C) (env : C -> res C) (args : list string) : outcome C :=
  match file with
  | Err err => Fails C err
  | Ok d =>
      match Parse args (flags d) with
      | Exit code => Exits C code
      | Parsed c => match env c with Err err => Fails C err | Ok c => Config C c end
      end
  end.

Definition ParseServerConfig (w : environment) (args : list string) : outcome ServerConfig.t :=
  layered (server_file w args) server_flags (server_env w) args.

(** ** [ParseAgentConfig] *)

Definition agent_zero : AgentConfig.t := AgentConfig.Mk "" 0 0 "" 0 "" "".

Definition agent_file (w : environment) (args : list string) : res AgentConfig.t :=
  let path := extractConfigPath w args in
  let defaults (fc : agentFile.t) (poll report : Z) :=
    AgentConfig.Mk (default "localhost:8080" (agentFile.Address fc)) poll report "" 1
      (default "" (agentFile.CryptoKey fc)) (default "" (agentFile.GRPCAddress fc)) in
  if bool_decide (path = "") then Ok (defaults no_agentFile 2 10)
  else
    fc ← loadAgentFile w path;
    poll ← file_interval path "poll_interval" (agentFile.PollInterval fc) 2;
    report ← file_interval path "report_interval" (agentFile.ReportInterval fc) 10;
    Ok (defaults fc poll report).

Definition agent_flags (d : AgentConfig.t) : FlagSet AgentConfig.t :=
  StringVar (fun _ c => c) "config" ""
  $ StringVar (fun _ c => c) "c" ""
  $ StringVar AgentConfig.set_GRPCAddr "grpc-address" (AgentConfig.GRPCAddr d)
  $ StringVar AgentConfig.set_CryptoKey "crypto-key" (AgentConfig.CryptoKey d)
  $ IntVar AgentConfig.set_RateLimit "l" 1
  $ StringVar AgentConfig.set_Key "k" ""
  $ IntVar AgentConfig.set_PollInterval "p" (AgentConfig.PollInterval d)
  $ IntVar AgentConfig.set_ReportInterval "r" (AgentConfig.ReportInterval d)
  $ StringVar AgentConfig.set_Addr "a" (AgentConfig.Addr d)
  $ NewFlagSet agent_zero.

Definition agent_env (w : environment) (c : AgentConfig.t) : res AgentConfig.t :=
  let c := env_string w "ADDRESS" AgentConfig.set_Addr c in
  c ← env_with Atoi w "REPORT_INTERVAL" AgentConfig.set_ReportInterval c;
  c ← env_with Atoi w "POLL_INTERVAL" AgentConfig.set_PollInterval c;
  let c := env_string w "KEY" AgentConfig.set_Key c in
  c ← env_with Atoi w "RATE_LIMIT" AgentConfig.set_RateLimit c;
  let c := env_string w "CRYPTO_KEY" AgentConfig.set_CryptoKey c in
  let c := env_string w "GRPC_ADDRESS" AgentConfig.set_GRPCAddr c in
  Ok c.

Definition ParseAgentConfig (w : environment) (args : list string) : outcome AgentConfig.t :=
  layered (agent_file w args) agent_flags (agent_env w) args.
End Load.
Arguments Config {C} _.
Arguments Fails {C} _.
Arguments Exits {C} _.
