(* ===== verification/ConfigFacts.v ===== *)
(** * Which setting wins

    The precedence of the sources for each setting of the server and the agent, on
    command lines in any spelling package flag accepts; where the path of the
    JSON file is found; how intervals in it are read. *)

From S2P Require Import Prelude Errors GoInt GoFloat GoStrings GoJson GoJsonFacts Flags FlagsFacts Duration Config.
Local Open Scope Z_scope.

(** ** The sources of a setting *)

(** The environment's value, else the last one on the command line, else the
    file's, else the default. *)
Definition resolve {A} (from_env from_flag from_file : option A) (dflt : A) : A :=
  match from_env, from_flag, from_file with
  | Some a, _, _ => a
  | None, Some a, _ => a
  | None, None, Some a => a
  | None, None, None => dflt
  end.

Lemma resolve_default {A} (e f j : option A) d : default (default (default d j) f) e = resolve e f j d.
Proof. by destruct e, f, j. Qed.

Lemma resolve_no_file {A} (e f : option A) d : default (default d f) e = resolve e f None d.
Proof. by destruct e, f. Qed.

(** A command line: flags, and whatever follows the first argument that is none. *)
Definition command_line (xs : list setting) (rest : list string) : list string := concat (render <$> xs) ++ rest.

(** The value of a variable that is read with [conv]. *)
Definition env_value {A} (conv : string -> res A) (w : environment) (name : string) : option A :=
  env w !! name ≫= fun e => result_to_option (conv e).

(** The variable is absent or can be read. *)
Definition env_ok {A} (conv : string -> res A) (w : environment) (name : string) : Prop :=
  forall e, env w !! name = Some e -> exists a, conv e = Ok a.

Section Env.
Context `{UnicodeTables} {C : Type}.

Lemma env_string_set (get : C -> string) set w name c : (forall c, set (get c) c = c) ->
  env_string w name set c = set (default (get c) (env w !! name)) c.
Proof. intros Hs. unfold env_string. destruct (env w !! name); [done|]. cbn. by rewrite Hs. Qed.

Lemma env_with_set {A} (conv : string -> res A) (get : C -> A) set w name c :
  (forall c, set (get c) c = c) -> env_ok conv w name ->
  env_with conv w name set c = Ok (set (default (get c) (env_value conv w name)) c).
Proof.
  intros Hs Hok. unfold env_with, env_value. destruct (env w !! name) as [e|] eqn:He; cbn; [|by rewrite Hs].
  destruct (Hok e He) as [a ->]. done.
Qed.

(** A variable that cannot be read is an error that names it. *)
Lemma env_with_error {A} (conv : string -> res A) set w name (c : C) e err :
  env w !! name = Some e -> conv e = Err err ->
  env_with conv w name set c = Err (Errorf ("invalid " +:+ name +:+ " " +:+ Quote e +:+ ": ") err).
Proof. unfold env_with. by intros -> ->. Qed.
End Env.

(** ** The flags *)

(** [reads] for every flag of a flag set given as a list. *)
Ltac solve_reads :=
  cbn; repeat (apply Forall_cons; split; [intros ???; cbn; intros; simplify_option_eq; done|]); apply Forall_nil; done.

(** One setting: what the flag [name] leaves in [proj], against [resolve]. *)
Ltac by_flag proj name conv :=
  rewrite (settings_read proj name conv); [|solve_reads|done]; cbn;
  unfold resolve; repeat case_match; simplify_eq/=; repeat case_match; simplify_eq/=; done.

Section Server.
Context `{JsonErrorText} `{UnicodeTables}.

(** The flags' names and types do not depend on the defaults. *)
Definition server_formal : list (string * target ServerConfig.t) := formal (server_flags server_zero).

Lemma server_flags_parse d xs rest : Forall (fun x => well_typed server_formal x = true) xs -> stops rest = true ->
  Parse (command_line xs rest) (server_flags d) =
    Parsed (foldl (apply_setting server_formal) (vars (server_flags d)) xs).
Proof.
  intros Hxs Hr. unfold Parse, command_line. change (formal (server_flags d)) with server_formal.
  by rewrite parse_settings, parse_stops.
Qed.

(** The file a program reads: none, or the one at the path. *)
Definition file_read {F} (load : string -> res F) (none : F) (path : string) (fc : F) : Prop :=
  (path = "" /\ fc = none) \/ (path <> "" /\ load path = Ok fc).

Lemma server_file_read w args fc iv :
  let path := extractConfigPath w args in
  file_read (loadServerFile w) no_serverFile path fc ->
  file_interval path "store_interval" (serverFile.StoreInterval fc) 300 = Ok iv ->
  server_file w args = Ok (ServerConfig.Mk (default "localhost:8080" (serverFile.Address fc)) iv
    (default "/tmp/metrics-db.json" (serverFile.StoreFile fc)) (default true (serverFile.Restore fc))
    (default "" (serverFile.DatabaseDSN fc)) "" "" "" (default "" (serverFile.CryptoKey fc))
    (default "" (serverFile.TrustedSubnet fc)) (default "" (serverFile.GRPCAddress fc))).
Proof.
  intros path Hf Hi. unfold server_file. fold path. destruct Hf as [[-> ->]|[Hne Hf]].
  - injection Hi as <-. done.
  - rewrite bool_decide_false, Hf by done. cbn [mbind result_bind]. by rewrite Hi.
Qed.

Lemma server_env_read w c : env_ok Atoi w "STORE_INTERVAL" -> env_ok ParseBool_res w "RESTORE" ->
  server_env w c = Ok (ServerConfig.Mk (default (ServerConfig.Addr c) (env w !! "ADDRESS"))
    (default (ServerConfig.StoreInterval c) (env_value Atoi w "STORE_INTERVAL"))
    (default (ServerConfig.FileStoragePath c) (env w !! "FILE_STORAGE_PATH"))
    (default (ServerConfig.Restore c) (env_value ParseBool_res w "RESTORE"))
    (default (ServerConfig.DatabaseDSN c) (env w !! "DATABASE_DSN")) (default (ServerConfig.Key c) (env w !! "KEY"))
    (default (ServerConfig.AuditFile c) (env w !! "AUDIT_FILE")) (default (ServerConfig.AuditURL c) (env w !! "AUDIT_URL"))
    (default (ServerConfig.CryptoKey c) (env w !! "CRYPTO_KEY"))
    (default (ServerConfig.TrustedSubnet c) (env w !! "TRUSTED_SUBNET"))
    (default (ServerConfig.GRPCAddr c) (env w !! "GRPC_ADDRESS"))).
Proof.
  intros Hi Hr. unfold server_env.
  rewrite (env_string_set ServerConfig.Addr ServerConfig.set_Addr w) by (by intros []).
  rewrite (env_with_set Atoi ServerConfig.StoreInterval ServerConfig.set_StoreInterval w) by (done || by intros []). cbn [mbind result_bind].
  rewrite (env_string_set ServerConfig.FileStoragePath ServerConfig.set_FileStoragePath w) by (by intros []).
  rewrite (env_with_set ParseBool_res ServerConfig.Restore ServerConfig.set_Restore w) by (done || by intros []). cbn [mbind result_bind].
  rewrite (env_string_set ServerConfig.DatabaseDSN ServerConfig.set_DatabaseDSN w), (env_string_set ServerConfig.Key ServerConfig.set_Key w),
    (env_string_set ServerConfig.AuditFile ServerConfig.set_AuditFile w), (env_string_set ServerConfig.AuditURL ServerConfig.set_AuditURL w),
    (env_string_set ServerConfig.CryptoKey ServerConfig.set_CryptoKey w), (env_string_set ServerConfig.TrustedSubnet ServerConfig.set_TrustedSubnet w),
    (env_string_set ServerConfig.GRPCAddr ServerConfig.set_GRPCAddr w) by (by intros []).
  done.
Qed.

(** C39. The precedence of the server's settings: on a command line of flags in any
    spelling, with a JSON file that can be read (or none) and environment
    variables that can be read, every setting comes from the environment, else
    from its last flag, else from the file, else it is the default. *)
Theorem ParseServerConfig_precedence w xs rest fc iv :
  Forall (fun x => well_typed server_formal x = true) xs -> stops rest = true ->
  let args := command_line xs rest in
  let path := extractConfigPath w args in
  file_read (loadServerFile w) no_serverFile path fc ->
  file_interval path "store_interval" (serverFile.StoreInterval fc) 300 = Ok iv ->
  env_ok Atoi w "STORE_INTERVAL" -> env_ok ParseBool_res w "RESTORE" ->
  ParseServerConfig w args = Config {|
    ServerConfig.Addr := resolve (env w !! "ADDRESS") (given xs "a") (serverFile.Address fc) "localhost:8080";
    ServerConfig.StoreInterval :=
      resolve (env_value Atoi w "STORE_INTERVAL") (given xs "i" ≫= ParseInt0) (Some iv) 300;
    ServerConfig.FileStoragePath :=
      resolve (env w !! "FILE_STORAGE_PATH") (given xs "f") (serverFile.StoreFile fc) "/tmp/metrics-db.json";
    ServerConfig.Restore :=
      resolve (env_value ParseBool_res w "RESTORE") (given xs "r" ≫= ParseBool) (serverFile.Restore fc) true;
    ServerConfig.DatabaseDSN := resolve (env w !! "DATABASE_DSN") (given xs "d") (serverFile.DatabaseDSN fc) "";
    ServerConfig.Key := resolve (env w !! "KEY") (given xs "k") None "";
    ServerConfig.AuditFile := resolve (env w !! "AUDIT_FILE") (given xs "audit-file") None "";
    ServerConfig.AuditURL := resolve (env w !! "AUDIT_URL") (given xs "audit-url") None "";
    ServerConfig.CryptoKey := resolve (env w !! "CRYPTO_KEY") (given xs "crypto-key") (serverFile.CryptoKey fc) "";
    ServerConfig.TrustedSubnet := resolve (env w !! "TRUSTED_SUBNET") (given xs "t") (serverFile.TrustedSubnet fc) "";
    ServerConfig.GRPCAddr := resolve (env w !! "GRPC_ADDRESS") (given xs "grpc-address") (serverFile.GRPCAddress fc) "" |}.
Proof.
  cbv zeta. intros Hxs Hrest Hf Hi Hsi Hr. unfold ParseServerConfig, layered.
  rewrite (server_file_read w _ fc iv Hf Hi), server_flags_parse, server_env_read by done.
  f_equal. f_equal.
  - by_flag ServerConfig.Addr "a" (@Some string).
  - by_flag ServerConfig.StoreInterval "i" ParseInt0.
  - by_flag ServerConfig.FileStoragePath "f" (@Some string).
  - by_flag ServerConfig.Restore "r" ParseBool.
  - by_flag ServerConfig.DatabaseDSN "d" (@Some string).
  - by_flag ServerConfig.Key "k" (@Some string).
  - by_flag ServerConfig.AuditFile "audit-file" (@Some string).
  - by_flag ServerConfig.AuditURL "audit-url" (@Some string).
  - by_flag ServerConfig.CryptoKey "crypto-key" (@Some string).
  - by_flag ServerConfig.TrustedSubnet "t" (@Some string).
  - by_flag ServerConfig.GRPCAddr "grpc-address" (@Some string).
Qed.
End Server.

Section Agent.
Context `{JsonErrorText} `{UnicodeTables}.

Definition agent_formal : list (string * target AgentConfig.t) := formal (agent_flags agent_zero).

Lemma agent_flags_parse d xs rest : Forall (fun x => well_typed agent_formal x = true) xs -> stops rest = true ->
  Parse (command_line xs rest) (agent_flags d) =
    Parsed (foldl (apply_setting agent_formal) (vars (agent_flags d)) xs).
Proof.
  intros Hxs Hr. unfold Parse, command_line. change (formal (agent_flags d)) with agent_formal.
  by rewrite parse_settings, parse_stops.
Qed.

Lemma agent_file_read w args fc poll report :
  let path := extractConfigPath w args in
  file_read (loadAgentFile w) no_agentFile path fc ->
  file_interval path "poll_interval" (agentFile.PollInterval fc) 2 = Ok poll ->
  file_interval path "report_interval" (agentFile.ReportInterval fc) 10 = Ok report ->
  agent_file w args = Ok (AgentConfig.Mk (default "localhost:8080" (agentFile.Address fc)) poll report "" 1
    (default "" (agentFile.CryptoKey fc)) (default "" (agentFile.GRPCAddress fc))).
Proof.
  intros path Hf Hp Hr. unfold agent_file. fold path. destruct Hf as [[-> ->]|[Hne Hf]].
  - injection Hp as <-. injection Hr as <-. done.
  - rewrite bool_decide_false, Hf by done. cbn [mbind result_bind]. rewrite Hp. cbn [mbind result_bind]. by rewrite Hr.
Qed.

Lemma agent_env_read w c :
  env_ok Atoi w "REPORT_INTERVAL" -> env_ok Atoi w "POLL_INTERVAL" -> env_ok Atoi w "RATE_LIMIT" ->
  agent_env w c = Ok (AgentConfig.Mk (default (AgentConfig.Addr c) (env w !! "ADDRESS"))
    (default (AgentConfig.PollInterval c) (env_value Atoi w "POLL_INTERVAL"))
    (default (AgentConfig.ReportInterval c) (env_value Atoi w "REPORT_INTERVAL"))
    (default (AgentConfig.Key c) (env w !! "KEY"))
    (default (AgentConfig.RateLimit c) (env_value Atoi w "RATE_LIMIT"))
    (default (AgentConfig.CryptoKey c) (env w !! "CRYPTO_KEY"))
    (default (AgentConfig.GRPCAddr c) (env w !! "GRPC_ADDRESS"))).
Proof.
  intros Hr Hp Hl. unfold agent_env.
  rewrite (env_string_set AgentConfig.Addr AgentConfig.set_Addr w) by (by intros []).
  rewrite (env_with_set Atoi AgentConfig.ReportInterval AgentConfig.set_ReportInterval w) by (done || by intros []).
  cbn [mbind result_bind].
  rewrite (env_with_set Atoi AgentConfig.PollInterval AgentConfig.set_PollInterval w) by (done || by intros []).
  cbn [mbind result_bind].
  rewrite (env_string_set AgentConfig.Key AgentConfig.set_Key w) by (by intros []).
  rewrite (env_with_set Atoi AgentConfig.RateLimit AgentConfig.set_RateLimit w) by (done || by intros []).
  cbn [mbind result_bind].
  rewrite (env_string_set AgentConfig.CryptoKey AgentConfig.set_CryptoKey w),
    (env_string_set AgentConfig.GRPCAddr AgentConfig.set_GRPCAddr w) by (by intros []).
  done.
Qed.

(** The precedence of the agent's settings, as for the server. *)
Theorem ParseAgentConfig_precedence w xs rest fc poll report :
  Forall (fun x => well_typed agent_formal x = true) xs -> stops rest = true ->
  let args := command_line xs rest in
  let path := extractConfigPath w args in
  file_read (loadAgentFile w) no_agentFile path fc ->
  file_interval path "poll_interval" (agentFile.PollInterval fc) 2 = Ok poll ->
  file_interval path "report_interval" (agentFile.ReportInterval fc) 10 = Ok report ->
  env_ok Atoi w "REPORT_INTERVAL" -> env_ok Atoi w "POLL_INTERVAL" -> env_ok Atoi w "RATE_LIMIT" ->
  ParseAgentConfig w args = Config {|
    AgentConfig.Addr := resolve (env w !! "ADDRESS") (given xs "a") (agentFile.Address fc) "localhost:8080";
    AgentConfig.PollInterval := resolve (env_value Atoi w "POLL_INTERVAL") (given xs "p" ≫= ParseInt0) (Some poll) 2;
    AgentConfig.ReportInterval :=
      resolve (env_value Atoi w "REPORT_INTERVAL") (given xs "r" ≫= ParseInt0) (Some report) 10;
    AgentConfig.Key := resolve (env w !! "KEY") (given xs "k") None "";
    AgentConfig.RateLimit := resolve (env_value Atoi w "RATE_LIMIT") (given xs "l" ≫= ParseInt0) None 1;
    AgentConfig.CryptoKey := resolve (env w !! "CRYPTO_KEY") (given xs "crypto-key") (agentFile.CryptoKey fc) "";
    AgentConfig.GRPCAddr := resolve (env w !! "GRPC_ADDRESS") (given xs "grpc-address") (agentFile.GRPCAddress fc) "" |}.
Proof.
  cbv zeta. intros Hxs Hrest Hf Hp Hr Hre Hpe Hle. unfold ParseAgentConfig, layered.
  rewrite (agent_file_read w _ fc poll report Hf Hp Hr), agent_flags_parse, agent_env_read by done.
  f_equal. f_equal.
  - by_flag AgentConfig.Addr "a" (@Some string).
  - by_flag AgentConfig.PollInterval "p" ParseInt0.
  - by_flag AgentConfig.ReportInterval "r" ParseInt0.
  - by_flag AgentConfig.Key "k" (@Some string).
  - by_flag AgentConfig.RateLimit "l" ParseInt0.
  - by_flag AgentConfig.CryptoKey "crypto-key" (@Some string).
  - by_flag AgentConfig.GRPCAddr "grpc-address" (@Some string).
Qed.
End Agent.

(** ** Failures *)
Section Failures.
Context `{JsonErrorText} `{UnicodeTables}.

(** The first thing that goes wrong decides: the file, then the command line, then
    the environment. *)
Lemma layered_file {C} err (flags : C -> FlagSet C) env args : layered (Err err) flags env args = Fails err.
Proof. done. Qed.

Lemma layered_bad {C} d (flags : C -> FlagSet C) env xs rest code :
  Forall (fun x => well_typed (formal (flags d)) x = true) xs -> bad (formal (flags d)) rest code ->
  layered (Ok d) flags env (command_line xs rest) = Exits code.
Proof. intros Hxs Hb. unfold layered, Parse, command_line. by rewrite parse_settings, (parse_bad _ _ code). Qed.

(** C40. What the server does with a bad configuration: a file that cannot be read, one
    that is not JSON or does not fit the settings, and an interval in it that is no
    duration are errors that name the file; a flag that is unknown, lacks its value or does not fit ends the process
    with status 2, and a request for help with 0; a number or truth value in the
    environment that cannot be read is an error that names the variable and its
    value. *)
Theorem ParseServerConfig_rejects w xs rest d :
  let args := command_line xs rest in
  let path := extractConfigPath w args in
  Forall (fun x => well_typed server_formal x = true) xs ->
  (forall err, path <> "" -> read_file w path = Err err ->
     ParseServerConfig w args = Fails (Errorf ("read config " +:+ Quote path +:+ ": ") err)) /\
  (forall data err, path <> "" -> read_file w path = Ok data -> scan_json data = Err err ->
     ParseServerConfig w args = Fails (Errorf ("parse config " +:+ Quote path +:+ ": ") (ErrorText (SyntaxError_text data)))) /\
  (forall data err, path <> "" -> read_file w path = Ok data ->
     Unmarshal_struct "config.serverFile" serverFile_field no_serverFile data = Err err ->
     ParseServerConfig w args = Fails (Errorf ("parse config " +:+ Quote path +:+ ": ") err)) /\
  (forall fc text err, path <> "" -> loadServerFile w path = Ok fc -> serverFile.StoreInterval fc = Some text ->
     ParseDuration text = Err err -> ParseServerConfig w args =
       Fails (Errorf ("config " +:+ Quote path +:+ ": invalid store_interval " +:+ Quote text +:+ ": ") err)) /\
  (forall code, server_file w args = Ok d -> bad server_formal rest code -> ParseServerConfig w args = Exits code) /\
  (forall e err, server_file w args = Ok d -> stops rest = true ->
     env w !! "STORE_INTERVAL" = Some e -> Atoi e = Err err ->
     ParseServerConfig w args = Fails (Errorf ("invalid STORE_INTERVAL " +:+ Quote e +:+ ": ") err)) /\
  (forall e, server_file w args = Ok d -> stops rest = true -> env_ok Atoi w "STORE_INTERVAL" ->
     env w !! "RESTORE" = Some e -> ParseBool e = None ->
     ParseServerConfig w args =
       Fails (Errorf ("invalid RESTORE " +:+ Quote e +:+ ": ") (NumError "ParseBool" e (Sentinel sErrSyntax)))).
Proof.
  cbv zeta. intros Hxs. unfold ParseServerConfig. split_and!.
  - intros err Hne Hf. unfold server_file, loadServerFile. by rewrite bool_decide_false, Hf.
  - intros data err Hne Hf Hd. unfold server_file, loadServerFile, Unmarshal_struct. by rewrite bool_decide_false, Hf, Hd.
  - intros data err Hne Hf Hd. unfold server_file, loadServerFile. by rewrite bool_decide_false, Hf, Hd.
  - intros fc text err Hne Hf Ht Hd. unfold server_file. rewrite bool_decide_false, Hf by done.
    cbn [mbind result_bind]. rewrite Ht. cbn [file_interval]. by rewrite Hd.
  - intros code -> Hb. by apply layered_bad.
  - intros e err -> Hs He Hc. unfold layered. rewrite server_flags_parse by done. unfold server_env.
    by rewrite (env_with_error Atoi _ w _ _ e err).
  - intros e -> Hs Hok He Hc. unfold layered. rewrite server_flags_parse by done. unfold server_env.
    rewrite (env_with_set Atoi ServerConfig.StoreInterval) by (done || by intros []). cbn [mbind result_bind].
    rewrite (env_with_error ParseBool_res _ w _ _ e (NumError "ParseBool" e (Sentinel sErrSyntax))); [done|done|].
    unfold ParseBool_res. by rewrite Hc.
Qed.
End Failures.

(** ** The path of the file *)

(** The spellings [extractConfigPath] knows. *)
Definition config_setting (x : setting) : bool :=
  match x with
  | Joined two n _ | Apart two n _ | Bare two n =>
      bool_decide (n = "config") || (bool_decide (n = "c") && negb two)
  end.

(** An argument that would be taken for the file's path, or announce it. *)
Definition looks_config (a : string) : bool :=
  bool_decide (a ∈ ["-c"; "-config"; "--config"]) || HasPrefix a "-c=" || HasPrefix a "-config=" || HasPrefix a "--config=".

Definition path_safe (x : setting) : bool :=
  good_name (setting_name x) &&
  match x with
  | Joined _ _ _ => true
  | Apart _ _ v => config_setting x || negb (looks_config v)
  | Bare _ _ => negb (config_setting x)
  end.

Lemma HasPrefix_nil s : HasPrefix s "" = true.
Proof. by destruct s. Qed.

Lemma prefix_equals n v m : no_equals n = true -> no_equals m = true ->
  HasPrefix (n +:+ "=" +:+ v) (m +:+ "=") = bool_decide (n = m).
Proof.
  revert m. induction n as [|c n IH]; intros [|d m]; cbn [no_equals]; rewrite ?andb_true_iff, ?negb_true_iff, ?bool_decide_eq_false;
    rewrite ?string_app_cons, ?string_app_nil_l; cbn [HasPrefix].
  - intros. by rewrite HasPrefix_nil.
  - intros _ [Hd _]. by rewrite bool_decide_false.
  - intros [Hc _] _. by rewrite (bool_decide_false ("="%char = c)) by congruence.
  - intros [_ Hn] [_ Hm]. specialize (IH m Hn Hm). rewrite string_app_cons, string_app_nil_l in IH. rewrite IH.
    destruct (decide (d = c)) as [->|Hdc].
    + rewrite (bool_decide_true (c = c)) by done. apply bool_decide_ext. naive_solver.
    + rewrite (bool_decide_false (d = c)), (bool_decide_false (String c n = _)) by congruence. done.
Qed.

Lemma prefix_name n m : no_equals n = true -> HasPrefix n (m +:+ "=") = false.
Proof.
  revert m. induction n as [|c n IH]; intros [|d m]; cbn [no_equals]; rewrite ?andb_true_iff, ?negb_true_iff, ?bool_decide_eq_false;
    rewrite ?string_app_cons, ?string_app_nil_l; cbn [HasPrefix]; try done.
  - intros [Hc _]. by rewrite (bool_decide_false ("="%char = c)) by congruence.
  - intros [_ Hn]. by rewrite IH, andb_false_r.
Qed.

Lemma dashes_prefix a b c d (s t : string) : c <> "-"%char -> d <> "-"%char ->
  HasPrefix (dashes a +:+ String c s) (dashes b +:+ String d t) = bool_decide (a = b) && HasPrefix (String c s) (String d t).
Proof.
  intros Hc Hd. destruct a, b; unfold dashes; rewrite !string_app_cons, !string_app_nil_l; cbn [HasPrefix];
    rewrite ?(bool_decide_true ("-"%char = "-"%char)) by done; cbn [andb]; try done;
    by rewrite bool_decide_false by congruence.
Qed.

Lemma dashes_eq a b c d (s t : string) : c <> "-"%char -> d <> "-"%char ->
  dashes a +:+ String c s = dashes b +:+ String d t <-> a = b /\ String c s = String d t.
Proof.
  intros Hc Hd. destruct a, b; unfold dashes; rewrite !string_app_cons, !string_app_nil_l;
    (split; [intros [=]; subst; done|intros [? [=]]; subst; done]).
Qed.

Lemma no_equals_app (a b : string) : no_equals (a +:+ b) = no_equals a && no_equals b.
Proof. induction a as [|c a IH]; [done|]. rewrite string_app_cons. cbn. by rewrite IH, andb_assoc. Qed.

Lemma known_spelling two n : good_name n = true ->
  bool_decide (dashes two +:+ n ∈ ["-c"; "-config"; "--config"]) =
    bool_decide (n = "config") || (bool_decide (n = "c") && negb two).
Proof.
  intros Hn. destruct (good_name_inv n Hn) as (c & m & -> & Hd & _).
  change ["-c"; "-config"; "--config"] with [dashes false +:+ "c"; dashes false +:+ "config"; dashes true +:+ "config"].
  apply eq_true_iff_eq. rewrite orb_true_iff, andb_true_iff, negb_true_iff, !bool_decide_eq_true.
  rewrite !elem_of_cons, elem_of_nil, !dashes_eq by done. destruct two; intuition discriminate.
Qed.

(** What [config_arg] makes of the argument of a flag. *)
Lemma config_arg_bare two n rest : good_name n = true ->
  config_arg ((dashes two +:+ n) :: rest) =
    if bool_decide (n = "config") || (bool_decide (n = "c") && negb two) then
      match rest with v :: _ => v | [] => config_arg rest end
    else config_arg rest.
Proof.
  intros Hn. cbn [config_arg]. rewrite known_spelling by done.
  destruct (good_name_inv n Hn) as (c & m & -> & Hd & He & Hm).
  assert (no_equals (String c m) = true) as Hne by (cbn; by rewrite bool_decide_false).
  change "--config=" with (dashes true +:+ "config="). change "-c=" with (dashes false +:+ "c=").
  change "-config=" with (dashes false +:+ "config="). rewrite !dashes_prefix by done.
  pose proof (prefix_name (String c m) "c" Hne) as H1. pose proof (prefix_name (String c m) "config" Hne) as H2.
  change ("c" +:+ "=") with "c=" in H1. change ("config" +:+ "=") with "config=" in H2.
  by rewrite H1, H2, !andb_false_r.
Qed.

Lemma config_arg_joined two n v rest : good_name n = true ->
  config_arg ((dashes two +:+ n +:+ "=" +:+ v) :: rest) =
    if bool_decide (n = "config") || (bool_decide (n = "c") && negb two) then v else config_arg rest.
Proof.
  intros Hn. cbn [config_arg].
  destruct (good_name_inv n Hn) as (c & m & -> & Hd & He & Hm).
  assert (no_equals (String c m) = true) as Hne by (cbn; by rewrite bool_decide_false).
  rewrite bool_decide_false.
  2: { intros Hin. assert (no_equals (dashes two +:+ String c m +:+ "=" +:+ v) = true) as Hx.
       { rewrite !elem_of_cons, elem_of_nil in Hin. by destruct_or! Hin; rewrite Hin. }
       rewrite !no_equals_app in Hx. by rewrite !andb_true_iff in Hx; destruct Hx as (_ & _ & ? & _). }
  pose proof (prefix_equals (String c m) v "c" Hne eq_refl) as H1.
  pose proof (prefix_equals (String c m) v "config" Hne eq_refl) as H2.
  change ("c" +:+ "=") with "c=" in H1. change ("config" +:+ "=") with "config=" in H2.
  rewrite string_app_cons in H1, H2 |- *.
  change "--config=" with (dashes true +:+ "config="). change "-c=" with (dashes false +:+ "c=").
  change "-config=" with (dashes false +:+ "config="). rewrite !dashes_prefix, H1, H2 by done.
  assert (forall p, TrimPrefix (p +:+ v) p = v) as Htrim.
  { intros p. unfold TrimPrefix. by rewrite HasPrefix_app, str_drop_app. }
  destruct (decide (String c m = "config")) as [E|E]; [|destruct (decide (String c m = "c")) as [E'|E']].
  - injection E as -> ->. destruct two; [exact (Htrim "--config=")|exact (Htrim "-config=")].
  - injection E' as -> ->. destruct two; [done|exact (Htrim "-c=")].
  - rewrite !(bool_decide_false (_ = "config")), !(bool_decide_false (_ = "c")) by done.
    by rewrite !andb_false_r.
Qed.

Lemma looks_config_arg v rest : looks_config v = false -> config_arg (v :: rest) = config_arg rest.
Proof.
  unfold looks_config. rewrite !orb_false_iff. intros (((H1 & H2) & H3) & H4). cbn [config_arg]. by rewrite H1, H2, H3, H4.
Qed.

Lemma config_arg_setting x rest : path_safe x = true ->
  config_arg (render x ++ rest) = if config_setting x then setting_value x else config_arg rest.
Proof.
  unfold path_safe. intros [Hn Hx]%andb_true_iff.
  destruct x as [two n v|two n v|two n]; cbn [render app config_setting setting_name setting_value] in *.
  - by apply config_arg_joined.
  - rewrite config_arg_bare by done. case_match; [done|]. cbn in Hx. by apply looks_config_arg, negb_true_iff.
  - rewrite config_arg_bare by done. by destruct (_ || _).
Qed.

(** The first setting of the path decides. *)
Lemma config_arg_settings xs rest : Forall (fun x => path_safe x = true) xs ->
  config_arg (command_line xs rest) =
    match filter (fun x => config_setting x = true) xs with x :: _ => setting_value x | [] => config_arg rest end.
Proof.
  unfold command_line. induction 1 as [|x xs Hx _ IH]; [done|]. cbn [fmap list_fmap concat]. rewrite <- app_assoc.
  rewrite config_arg_setting by done. rewrite filter_cons. destruct (config_setting x) eqn:E.
  - by rewrite decide_True.
  - rewrite decide_False by done. exact IH.
Qed.

(** Where the JSON file is found: at [CONFIG] when it is set and not empty, else
    at the first [-c] or [-config] of the command line, with one or two dashes
    for [config], the value joined or apart, provided that no other flag's value looks
    like one of these; without any there is no file.  [--c], which package flag
    takes for the same flag as [-c], is accepted and has no effect. *)
Theorem config_path_found w xs :
  Forall (fun x => path_safe x = true) xs ->
  let path := extractConfigPath w (command_line xs []) in
  match env w !! "CONFIG" with
  | Some e => if bool_decide (e = "")
              then path = default "" (setting_value <$> head (filter (fun x => config_setting x = true) xs))
              else path = e
  | None => path = default "" (setting_value <$> head (filter (fun x => config_setting x = true) xs))
  end /\
  (forall p, looks_config p = false -> well_typed server_formal (Apart true "c" p) = true /\
     config_arg (command_line (xs ++ [Apart true "c" p]) []) = config_arg (command_line xs [])).
Proof.
  intros Hxs. pose proof (config_arg_settings xs [] Hxs) as Hc. cbv zeta. split.
  - unfold extractConfigPath. destruct (env w !! "CONFIG") as [e|]; [case_bool_decide; [|done]|];
      rewrite Hc; by destruct (filter _ _).
  - intros p Hp. split; [done|]. rewrite Hc, config_arg_settings.
    + rewrite filter_app, filter_cons, filter_nil. cbn. by rewrite app_nil_r.
    + apply Forall_app_2; [done|]. constructor; [|constructor]. unfold path_safe. cbn. by rewrite Hp.
Qed.

(** ** Intervals *)

(** An interval of the file that is a whole number of some unit is read as its
    whole seconds, exactly for whole seconds of any length and for anything below 97
    days; what is below a second is dropped, so an interval below one second
    is 0. *)
Theorem file_interval_seconds `{UnicodeTables} path name n u unit dflt :
  0 <= n -> unit_of u = Some unit -> n * unit < 2 ^ 63 ->
  (n * unit) mod Second = 0 \/ n * unit < 2 ^ 23 * Second ->
  file_interval path name (Some (FormatUint n +:+ u)) dflt = Ok (n * unit / Second) /\
  (n * unit < Second -> file_interval path name (Some (FormatUint n +:+ u)) dflt = Ok 0).
Proof.
  intros Hn Hu Hb Hc. apply unit_of_cases in Hu as Hp. destruct Hp as [_ Hp].
  assert (file_interval path name (Some (FormatUint n +:+ u)) dflt = Ok (n * unit / Second)) as ->.
  { unfold file_interval. rewrite (ParseDuration_unit n u unit) by done. f_equal.
    assert (0 <= n * unit) by nia. rewrite int_seconds_spec, Z.quot_div_nonneg by (done || lia || (rewrite Z.abs_eq, ?Z.rem_mod_nonneg by done; done)).
    done. }
  split; [done|]. intros Hlt. rewrite Z.div_small by nia. done.
Qed.

(** ** Examples *)
Module ConfigExamples.
#[local] Instance some_texts : JsonErrorText := {|
  SyntaxError_text _ := "invalid character";
  UnmarshalTypeError_text _ ty := "json: cannot unmarshal into Go value of type " +:+ ty |}.
#[local] Instance ascii_only : UnicodeTables := {| IsPrint_table _ := false |}.

(** A text with tildes for double quotes. *)
Fixpoint quoted (s : string) : string :=
  match s with
  | EmptyString => ""
  | String c s => String (if bool_decide (c = "~"%char) then dquote else c) (quoted s)
  end.

Definition server_json : string := quoted
  "{~address~: ~file:1~, ~Store_Interval~: ~5m~, ~restore~: false, ~other~: [1, {}], ~store_file~: null, ~crypto_key~: ~k.pem~}".
Definition agent_json : string := quoted "{~poll_interval~: ~500ms~, ~report_interval~: ~1m30s~, ~grpc_address~: ~:3200~}".

Definition files (path : string) : res string :=
  if bool_decide (path = "server.json") then Ok server_json
  else if bool_decide (path = "agent.json") then Ok agent_json
  else Err (Sentinel sErrNotExist).
Definition surroundings : environment :=
  MkEnvironment (<["STORE_INTERVAL" := "+7"]> (<["KEY" := "secret"]> (<["RATE_LIMIT" := "3"]> ∅))) files.

Definition server_line : list setting :=
  [Apart false "a" "flag:2"; Joined true "i" "0x1E"; Apart false "c" "server.json"; Bare false "r";
   Joined false "r" "F"; Joined true "a" "flag:3"].
Definition agent_line : list setting := [Joined true "config" "agent.json"; Apart false "r" "1_000"].

Definition server_expected : serverFile.t :=
  serverFile.Mk (Some "file:1") None (Some false) (Some "5m") None None (Some "k.pem") None.
Definition agent_expected : agentFile.t := agentFile.Mk None (Some ":3200") (Some "1m30s") (Some "500ms") None.

Lemma ParseServerConfig_precedence_witness :
  ParseServerConfig surroundings (command_line server_line ["extra"; "-a"; "no"]) =
    Config (ServerConfig.Mk "flag:3" 7 "/tmp/metrics-db.json" false "" "secret" "" "" "k.pem" "" "").
Proof.
  pose proof (ParseServerConfig_precedence surroundings server_line ["extra"; "-a"; "no"] server_expected 300) as H.
  cbv zeta in H. rewrite H; [by vm_compute|repeat constructor; by vm_compute|by vm_compute| |by vm_compute| |].
  - right. split; by vm_compute.
  - intros e He. exists 7. assert (e = "+7") as -> by (vm_compute in He; congruence). by vm_compute.
  - intros e He. by vm_compute in He.
Defined.

Lemma ParseAgentConfig_precedence_witness :
  ParseAgentConfig surroundings (command_line agent_line []) =
    Config (AgentConfig.Mk "localhost:8080" 0 1000 "secret" 3 "" ":3200").
Proof.
  pose proof (ParseAgentConfig_precedence surroundings agent_line [] agent_expected 0 90) as H.
  cbv zeta in H. rewrite H; [by vm_compute|repeat constructor; by vm_compute|done| |by vm_compute|by vm_compute| | |].
  - right. split; by vm_compute.
  - intros e He. by vm_compute in He.
  - intros e He. by vm_compute in He.
  - intros e He. exists 3. assert (e = "3") as -> by (vm_compute in He; congruence). by vm_compute.
Defined.

Lemma ParseServerConfig_rejects_witness :
  ParseServerConfig surroundings (command_line server_line ["-i"; "ten"; "x"]) = Exits 2 /\
  ParseServerConfig (MkEnvironment ∅ files) (command_line [Apart false "c" "none"] []) =
    Fails (Errorf (quoted "read config ~none~: ") (Sentinel sErrNotExist)) /\
  ParseServerConfig (MkEnvironment ∅ (fun _ => Ok "{")) (command_line [Apart false "c" "cut"] []) =
    Fails (Errorf (quoted "parse config ~cut~: ") (ErrorText (SyntaxError_text "{"))).
Proof.
  split_and!.
  - destruct (ParseServerConfig_rejects surroundings server_line ["-i"; "ten"; "x"]
      (ServerConfig.Mk "file:1" 300 "/tmp/metrics-db.json" false "" "" "" "" "k.pem" "" "")) as (_ & _ & _ & _ & Hb & _);
      [by repeat constructor|]. apply Hb; [by vm_compute|].
    apply (bad_value server_formal (Apart false "i" "ten") ["x"] (TInt ServerConfig.set_StoreInterval)); by vm_compute.
  - exact (proj1 (ParseServerConfig_rejects (MkEnvironment ∅ files) [Apart false "c" "none"] [] server_zero
      ltac:(repeat constructor; by vm_compute)) (Sentinel sErrNotExist) ltac:(by vm_compute) ltac:(by vm_compute)).
  - destruct (scan_json "{") as [|err] eqn:He; [by vm_compute in He|].
    exact (proj1 (proj2 (ParseServerConfig_rejects (MkEnvironment ∅ (fun _ => Ok "{")) [Apart false "c" "cut"] [] server_zero
      ltac:(repeat constructor; by vm_compute))) "{" err ltac:(by vm_compute) eq_refl He).
Defined.

Lemma config_path_found_witness :
  extractConfigPath (MkEnvironment {["CONFIG" := ""]} files) (command_line server_line []) = "server.json" /\
  config_arg (command_line ([Bare false "r"] ++ [Apart true "c" "server.json"]) []) = config_arg (command_line [Bare false "r"] []).
Proof.
  split.
  - exact (proj1 (config_path_found (MkEnvironment {["CONFIG" := ""]} files) server_line ltac:(repeat constructor; by vm_compute))).
  - exact (proj2 (proj2 (config_path_found surroundings [Bare false "r"] ltac:(repeat constructor; by vm_compute))
      "server.json" ltac:(by vm_compute))).
Defined.

Lemma file_interval_seconds_witness :
  file_interval "agent.json" "poll_interval" (Some "500ms") 2 = Ok 0 /\
  file_interval "agent.json" "report_interval" (Some "9223372036s") 10 = Ok 9223372036.
Proof.
  split.
  - exact (proj2 (file_interval_seconds "agent.json" "poll_interval" 500 "ms" Millisecond 2 ltac:(lia) eq_refl eq_refl
      (or_intror eq_refl)) eq_refl).
  - exact (proj1 (file_interval_seconds "agent.json" "report_interval" 9223372036 "s" Second 10 ltac:(lia) eq_refl eq_refl
      (or_introl eq_refl))).
Defined.
End ConfigExamples.
