(* ===== verification/Server.v ===== *)
(** * cmd/server: the process

    [main] puts the server together from its configuration: which backend keeps the
    metrics, when they are saved, the router and the gRPC service.  Then requests
    and save ticks come in, each one step, until the process is shut down or
    dies.  The answers of the database driver, the key files, opening the audit file
    and listening are inputs. *)

From S2P Require Import Prelude Errors GoInt GoStrings NetIP GoFloat Model GoJson Storage Retry DBStore Service FileStore Http AuditTrail Dashboard Handler HandlerFacts Hash Crypto Keys Compress Middleware MiddlewareFacts Delivery Grpc Flags Duration Database Config.

#[local] Existing Instance FileBackedStorage.FileBackedStorage_Storage.
#[local] Existing Instance FileBackedStorage.FileBackedStorage_laws.

Module Server.

(** ** The variable [storage]

    An interface value holds one of the three backends and dispatches to it. *)
Inductive storage :=
| UseDB (d : DBStorage.t)
| UseFile (f : FileBackedStorage.t)
| UseMem (m : MemStorage.t).

Section Dispatch.
Context `{RetryGo, PgErrCode, RowOrder}.

(** Call [g] of the backend. *)
Definition dispatch {A} (g : forall S (I : Storage S), S -> S * A) (s : storage) : storage * A :=
  match s with
  | UseDB d => let '(d, a) := g _ DBStorage_Storage d in (UseDB d, a)
  | UseFile f => let '(f, a) := g _ FileBackedStorage.FileBackedStorage_Storage f in (UseFile f, a)
  | UseMem m => let '(m, a) := g _ MemStorage_Storage m in (UseMem m, a)
  end.

#[export] Instance storage_Storage : Storage storage := {|
  Service.UpdateGauge name v := dispatch (fun _ _ => Service.UpdateGauge name v);
  Service.UpdateCounter name d := dispatch (fun _ _ => Service.UpdateCounter name d);
  Service.UpdateBatch ms := dispatch (fun _ _ => Service.UpdateBatch ms);
  Service.GetMetric name mType := dispatch (fun _ _ => Service.GetMetric name mType);
  Service.GetValue mType name := dispatch (fun _ _ => Service.GetValue mType name);
  Service.GetAllMetrics := dispatch (fun _ _ => Service.GetAllMetrics) |}.

Definition storage_holds (s : storage) (m : MemStorage.t) : Prop :=
  match s with
  | UseDB d => holds d m
  | UseFile f => holds f m
  | UseMem m' => holds m' m
  end.

Definition storage_answers (s : storage) : Prop :=
  match s with UseDB d => answers d | UseFile f => answers f | UseMem m => answers m end.


#[export] Program Instance storage_laws : StorageLaws storage := {|
  holds := storage_holds;
  answers := storage_answers |}.
Next Obligation. intros [d|f|m0] m; cbn [storage_holds]; apply holds_valid. Qed.
Next Obligation.
  intros name v [d|f|m0] m Hm Hv; cbn [storage_holds] in Hm; pose proof (UpdateGauge_law name v _ m Hm Hv) as Hl;
    cbn [Service.UpdateGauge storage_Storage dispatch]; destruct (Service.UpdateGauge name v _) as [s' r]; exact Hl.
Qed.
Next Obligation.
  intros name v [d|f|m0] m Hm Hv; cbn [storage_holds] in Hm; pose proof (UpdateCounter_law name v _ m Hm Hv) as Hl;
    cbn [Service.UpdateCounter storage_Storage dispatch]; destruct (Service.UpdateCounter name v _) as [s' r]; exact Hl.
Qed.
Next Obligation.
  intros ms [d|f|m0] m Hm Hv; cbn [storage_holds] in Hm; pose proof (UpdateBatch_law ms _ m Hm Hv) as Hl;
    cbn [Service.UpdateBatch storage_Storage dispatch]; destruct (Service.UpdateBatch ms _) as [s' r]; exact Hl.
Qed.
Next Obligation.
  intros name mType [d|f|m0] m Hm; cbn [storage_holds] in Hm; pose proof (GetMetric_law name mType _ m Hm) as Hl;
    cbn [Service.GetMetric storage_Storage dispatch]; destruct (Service.GetMetric name mType _) as [s' r]; exact Hl.
Qed.
Next Obligation.
  intros mType name [d|f|m0] m Hm; cbn [storage_holds] in Hm; pose proof (GetValue_law mType name _ m Hm) as Hl;
    cbn [Service.GetValue storage_Storage dispatch]; destruct (Service.GetValue mType name _) as [s' r]; exact Hl.
Qed.
Next Obligation.
  intros [d|f|m0] m Hm; cbn [storage_holds] in Hm; pose proof (GetAllMetrics_law _ m Hm) as Hl;
    cbn [Service.GetAllMetrics storage_Storage dispatch]; destruct (Service.GetAllMetrics _) as [s' r]; exact Hl.
Qed.
End Dispatch.

(** ** Starting *)
Section Main.
Context `{RetryGo, PgErrCode, RowOrder} `{UnicodeTables, PgErrorText, JsonErrorText, MapRange, Chi, KeyFormats, Gzip}.

(** What [main] finds when it starts: the database server with the
    contents of the table and the answers to [Ping], the disk and what happens to file operations, the audit
    file, the key files, the gRPC listener, and the clock. *)
Record inputs := MkInputs {
  database : Database.environment;
  table : DBStorage.t;
  db_ping : DBStorage.t -> DBStorage.t * option error;
  disk : gmap string string;
  disk_io : list io_reply;
  audit_opened : option error;
  key_files : string -> res string;
  grpc_listen : option error;
  now : Z
}.

Inductive notice := Warn (msg : string) (err : error) | Info (msg : string).

(** A file-backed storage, loaded when the configuration says so. *)
Definition start_file (cfg : ServerConfig.t) (inp : inputs) : FileBackedStorage.t * list notice :=
  let f := FileBackedStorage.Mk MemStorage.NewMemStorage (ServerConfig.FileStoragePath cfg) (disk inp) (disk_io inp) [] in
  if ServerConfig.Restore cfg then
    match FileBackedStorage.Load f with
    | (f, Some err) => (f, [Warn "failed to load metrics from file" err])
    | (f, None) => (f, [Info "metrics loaded from file"])
    end
  else (f, []).

Definition open_storage (cfg : ServerConfig.t) (inp : inputs) : storage * list notice :=
  let '(db, notices) :=
    if bool_decide (ServerConfig.DatabaseDSN cfg = "") then (None, [])
    else
      match (Database.NewDBStorage (database inp) (ServerConfig.DatabaseDSN cfg) (table inp)).2 with
      | Err err => (None, [Warn "failed to connect to db, falling back to memory storage" err])
      | Ok d => (Some d, [])
      end in
  match db with
  | Some d => (UseDB d, notices)
  | None =>
      if bool_decide (ServerConfig.FileStoragePath cfg = "") then (UseMem MemStorage.NewMemStorage, notices)
      else let '(f, more) := start_file cfg inp in (UseFile f, notices ++ more)
  end.

Definition on_file (g : FileBackedStorage.t -> FileBackedStorage.t) (s : storage) : storage :=
  match s with UseFile f => UseFile (g f) | _ => s end.

(** The service, with the callback of a file-backed storage that saves at every
    update. *)
Definition make_service (cfg : ServerConfig.t) (s : storage) : MetricService.t storage :=
  match s with
  | UseFile _ =>
      if (ServerConfig.StoreInterval cfg =? 0)%Z
      then MetricService.SetOnUpdate (on_file FileBackedStorage.SaveOnUpdate) MetricService.NewMetricService
      else MetricService.NewMetricService
  | _ => MetricService.NewMetricService
  end.

(** The interval of periodic saves, if there are any. *)
Definition save_interval (cfg : ServerConfig.t) (s : storage) : option Z :=
  match s with
  | UseFile _ =>
      if (0 <? ServerConfig.StoreInterval cfg)%Z
      then Some (wrap64 (ServerConfig.StoreInterval cfg * Second)) else None
  | _ => None
  end.

(** The goroutine of the periodic saves starts by making its ticker. *)
Definition StartPeriodicSave_panics (interval : option Z) : bool :=
  match interval with Some d => NewTicker_panics d | None => false end.

Definition make_pinger (inp : inputs) (s : storage) : option (storage -> storage * option error) :=
  match s with
  | UseDB _ => Some (fun s => match s with UseDB d => let '(d, e) := db_ping inp d in (UseDB d, e) | _ => (s, None) end)
  | _ => None
  end.

Record process := MkProcess {
  world : Handler.world storage;
  svc : MetricService.t storage;
  router : http_Handler (Handler.world storage);
  grpc : option (option (Grpc.unary storage -> Grpc.unary storage));
  ticks : bool;
  notices : list notice
}.

(** How starting ends: the process serves; [log.Fatal] with an error; or the
    goroutine of the periodic saves panics. *)
Inductive started := Running (p : process) | Fatal (msg : string) (err : error) | Panics.

Definition main (cfg : ServerConfig.t) (inp : inputs) : started :=
  let '(s, notes) := open_storage cfg inp in
  let svc := make_service cfg s in
  if StartPeriodicSave_panics (save_interval cfg s) then Panics
  else
    match AuditTrail.buildAuditPublisher (ServerConfig.AuditFile cfg) (ServerConfig.AuditURL cfg) (audit_opened inp) with
    | Err err => Fatal "failed to init audit publisher" err
    | Ok publisher =>
        match (if bool_decide (ServerConfig.CryptoKey cfg = "") then Ok None
               else Some <$> Keys.LoadPrivateKey (key_files inp) (ServerConfig.CryptoKey cfg)) with
        | Err err => Fatal "load crypto private key: " err
        | Ok privKey =>
            match Middleware.TrustedSubnetMiddleware (ServerConfig.TrustedSubnet cfg) with
            | Err err => Fatal "trusted subnet: " err
            | Ok trustedSubnetMw =>
                let h := Handler.NewMetricHandler svc (make_pinger inp s) publisher in
                let router := Middleware.newRouter h (ServerConfig.Key cfg) privKey trustedSubnetMw in
                let run grpc :=
                  Running (MkProcess (Handler.MkWorld s [] [] (now inp)) svc router grpc
                    (bool_decide (is_Some (save_interval cfg s))) notes) in
                if bool_decide (ServerConfig.GRPCAddr cfg = "") then run None
                else
                  match Grpc.TrustedSubnetInterceptor (ServerConfig.TrustedSubnet cfg) with
                  | Err err => Fatal "grpc trusted subnet: " err
                  | Ok interceptor =>
                      match grpc_listen inp with
                      | Some err => Fatal "grpc listen" err
                      | None => run (Some interceptor)
                      end
                  end
            end
        end
    end.

(** ** Serving *)

Inductive event :=
| HttpRequest (r : request)
| GrpcCall (md : gmap string (list string)) (req : UpdateMetricsRequest)
| SaveTick.

(** One event, handled as a whole. *)
Definition step (p : process) (e : event) (w : Handler.world storage) : Handler.world storage :=
  match e with
  | HttpRequest r => (router p r w).1
  | GrpcCall md req =>
      match grpc p with
      | Some i => set_st (Grpc.intercept i (fun _ => Grpc.UpdateMetrics (svc p) req) md (st w)).1 w
      | None => w
      end
  | SaveTick => if ticks p then set_st (on_file FileBackedStorage.periodic_tick (st w)) w else w
  end.

Definition serve_events (p : process) (es : list event) : Handler.world storage := foldl (fun w e => step p e w) (world p) es.

(** What a graceful shutdown does when the servers have stopped. *)
Definition shutdown (s : storage) : storage * option error :=
  match s with
  | UseFile f => let '(f, e) := FileBackedStorage.Close f in (UseFile f, e)
  | _ => (s, None)
  end.

(** The files a process leaves behind. *)
Definition disk_of (s : storage) : option (gmap string string) :=
  match s with UseFile f => Some (FileBackedStorage.files f) | _ => None end.
End Main.
End Server.
