(* ===== verification/ServerFacts.v ===== *)
(** * What a run of the server keeps

    A condition on the storage that every service call keeps holds after any
    sequence of requests ([router_closed]).  Two such conditions: the storage holds
    some metrics, over each backend; and the file restores the storage. *)

From S2P Require Import Prelude Errors GoInt GoStrings NetIP GoFloat GoFloatFacts Model GoJson Storage Retry DBStore Service FileStore Http AuditTrail Dashboard Handler HandlerFacts Hash Crypto Keys Compress Middleware MiddlewareFacts Delivery Grpc Flags Duration Database Config Server.

#[local] Existing Instance FileBackedStorage.FileBackedStorage_Storage.
#[local] Existing Instance FileBackedStorage.FileBackedStorage_laws.
#[local] Existing Instance Server.storage_Storage.
#[local] Existing Instance Server.storage_laws.


(** ** Conditions kept by the service *)
Section Closed.
Context {S : Type} `{Storage S} `{UnicodeTables, PgErrorText, JsonErrorText, MapRange}.

Definition valid_ms (ms : list Metrics) : Prop := Forall (fun x => valid_metric x = true) ms.

(** [P] survives every call of the handlers. *)
Record closed (P : S -> Prop) (svc : MetricService.t S) (ping : option (S -> S * option error)) : Prop := {
  closed_text mType name value s : P s -> P (MetricService.UpdateMetric svc mType name value s).1;
  closed_model m s : valid_metric m = true -> P s -> P (MetricService.UpdateMetricFromModel svc m s).1;
  closed_batch ms s : valid_ms ms -> P s -> P (MetricService.UpdateBatch svc ms s).1;
  closed_metric mType name s : P s -> P (MetricService.GetMetric svc mType name s).1;
  closed_value mType name s : P s -> P (MetricService.GetValue svc mType name s).1;
  closed_all s : P s -> P (MetricService.GetAllMetrics svc s).1;
  closed_ping p s : ping = Some p -> P s -> P (p s).1
}.

Lemma on_storage_st {A} (f : S -> S * A) w : st (Handler.on_storage f w).1 = (f (st w)).1.
Proof. unfold Handler.on_storage. by destruct (f (st w)). Qed.

Lemma emitAudit_st (h : Handler.t S) r names w : st (Handler.emitAudit h r names w) = st w.
Proof. unfold Handler.emitAudit. by destruct (Handler.publisher h). Qed.

Lemma json_reply_st m (w : world S) : st (Handler.json_reply m w).1 = st w.
Proof. unfold Handler.json_reply. by destruct (Encode_metric m). Qed.

(** A call on the storage, and what is done with its answer. *)
Lemma after_call {A B} (P : S -> Prop) (f : S -> S * A) (k : world S -> A -> world S * B) w :
  P (f (st w)).1 -> (forall w' a, st w' = (f (st w)).1 -> P (st (k w' a).1)) ->
  P (st (let '(w', a) := Handler.on_storage f w in k w' a).1).
Proof.
  intros Hf Hk. pose proof (on_storage_st f w) as Hs. destruct (Handler.on_storage f w) as [w' a]. by apply Hk.
Qed.

Lemma handle_closed P (h : Handler.t S) e r w :
  closed P (Handler.svc h) (Handler.pinger h) -> P (st w) -> P (st (Handler.handle h e r w).1).
Proof.
  intros HP Hw. destruct e; cbn [Handler.handle].
  - unfold Handler.ListMetrics. apply after_call; [by apply HP|]. intros w' a Hs. change (P (st w')). rewrite Hs. by apply HP.
  - unfold Handler.Ping. destruct (Handler.pinger h) as [ping|] eqn:Hp; [|done].
    apply after_call; [by eapply HP|]. intros w' [e|] Hs; change (P (st w')); rewrite Hs; by eapply HP.
  - unfold Handler.UpdateMetricJSON. destruct (Decode_metric (Body r)) as [m|] eqn:Hd; [|done].
    apply Decode_metric_valid in Hd. case_bool_decide; [done|]. apply after_call; [by apply HP|].
    intros w' [e|] Hs; [change (P (st w')); rewrite Hs; by apply HP|].
    assert (P (st w')) as Hw' by (rewrite Hs; by apply HP).
    apply after_call; [by apply HP|]. intros w2 [u|e] Hs2; rewrite ?json_reply_st, ?emitAudit_st; change (P (st w2)); rewrite Hs2; by apply HP.
  - unfold Handler.GetValueJSON. destruct (Decode_metric (Body r)) as [m|]; [|done]. case_bool_decide; [done|].
    apply after_call; [by apply HP|]. intros w' [u|e] Hs; rewrite ?json_reply_st; change (P (st w')); rewrite Hs; by apply HP.
  - unfold Handler.UpdateMetricsBatch. destruct (Decode_metrics (Body r)) as [ms|] eqn:Hd; [|done].
    apply Decode_metrics_valid in Hd. case_bool_decide; [done|]. apply after_call; [by apply HP|].
    intros w' [e|] Hs; cbn [fst]; rewrite ?emitAudit_st; change (P (st w')); rewrite Hs; by apply HP.
  - unfold Handler.UpdateMetric. case_bool_decide; [done|]. apply after_call; [by apply HP|].
    intros w' [e|] Hs; cbn [fst]; rewrite ?emitAudit_st; change (P (st w')); rewrite Hs; by apply HP.
  - unfold Handler.GetValue. case_bool_decide; [done|]. apply after_call; [by apply HP|].
    intros w' [u|e] Hs; change (P (st w')); rewrite Hs; by apply HP.
Qed.

Context `{CL : ChiLaws, KeyFormats, GL : GzipLaws}.

Lemma router_closed P (h : Handler.t S) cidr key priv subnet r w :
  Middleware.TrustedSubnetMiddleware cidr = Ok subnet -> closed P (Handler.svc h) (Handler.pinger h) ->
  P (st w) -> P (st (Middleware.newRouter h key priv subnet r w).1).
Proof using CL GL.
  intros Hm HP Hw. pose proof (router_step h cidr key priv subnet r w Hm) as Hs.
  unfold Middleware.newRouter, Middleware.Logger. destruct (Middleware.Use subnet _ r w) as [w' ops]. cbn [fst].
  change (st (Handler.log ?l w')) with (st w'). destruct (arriving cidr key priv r) as [r'|].
  - pose proof (fun e params => handle_closed P h e (with_params params r') w HP Hw) as Hh. unfold serve in Hs.
    destruct (chi_route _ _ _) as [[e params]|].
    + specialize (Hh e params). destruct (Handler.handle h e _ w) as [w1 ops1]. destruct Hs as [-> _]. exact Hh.
    + destruct Hs as [-> _]. exact Hw.
  - destruct Hs as [-> _]. exact Hw.
Qed.

(** ** gRPC *)

Definition valid_req (req : UpdateMetricsRequest) : Prop :=
  Forall (fun m => in_int64 (pb_Delta m) = true /\ valid_float (pb_Value m) = true) req.

Lemma convert_valid req ms : valid_req req -> Grpc.convert req = Ok ms -> valid_ms ms.
Proof.
  intros Hr. revert ms. induction Hr as [|x req [Hd Hv] _ IH]; cbn [Grpc.convert]; intros ms.
  - intros [= <-]. constructor.
  - repeat case_match; try done; intros (rest & Hc & [= <-])%bind_Ok; (constructor; [|by apply IH]);
      unfold valid_metric; cbn; by rewrite ?Hv, ?Hd.
Qed.

Lemma grpc_closed P svc ping i md req s : closed P svc ping -> valid_req req ->
  (exists cidr, Grpc.TrustedSubnetInterceptor cidr = Ok i) ->
  P s -> P (Grpc.intercept i (fun _ => Grpc.UpdateMetrics svc req) md s).1.
Proof.
  intros HP Hr [cidr Hi] Hs.
  assert (P (Grpc.UpdateMetrics svc req s).1) as Hu.
  { unfold Grpc.UpdateMetrics. destruct (Grpc.convert req) as [ms|] eqn:Hc; [|done].
    pose proof (closed_batch _ _ _ HP ms s (convert_valid req ms Hr Hc) Hs).
    by destruct (MetricService.UpdateBatch svc ms s) as [s' [e|]]. }
  revert Hi. unfold Grpc.TrustedSubnetInterceptor. case_bool_decide; [by intros [= <-]|].
  destruct (ParseCIDR cidr) as [network|]; [|done]. intros [= <-]. cbn [Grpc.intercept].
  destruct (ParseIP _) as [ip|]; [|done]. by destruct (Net_Contains network ip).
Qed.
End Closed.

(** ** The two conditions *)
Section Process.
Context `{RetryGo, PgErrCode, RowOrder} `{UnicodeTables, PgErrorText, JsonErrorText, MapRange}.
Context `{CL : ChiLaws, KeyFormats, GL : GzipLaws}.
Implicit Types (cfg : ServerConfig.t) (inp : Server.inputs).

(** *** Well typed *)

Lemma typed_closed {S} `{StorageLaws S} svc ping :
  MetricService.quiet svc ->
  (forall p s m, ping = Some p -> holds s m -> exists m', holds (p s).1 m') ->
  closed (fun s => exists m, holds s m) svc ping.
Proof.
  intros Hq Hp.
  assert (forall m m' s r, MetricService.all_or_nothing svc m m' s r -> exists m2, holds s m2) as Ha.
  { intros m m' s r (s1 & Hs1 & ->). destruct r; [by eexists|]. eexists. by apply Hq. }
  split.
  - intros mType name value s [m Hm]. pose proof (MetricService.UpdateMetric_outcome svc s m mType name value Hm) as Ho.
    destruct (MetricService.UpdateMetric _ _ _ _ _) as [s' r]. destruct (MetricService.text_update _ _ _).
    + by eapply Ha.
    + destruct Ho as [-> _]. by exists m.
  - intros x s Hx [m Hm]. pose proof (MetricService.UpdateMetricFromModel_outcome svc s m x Hm Hx) as Ho.
    destruct (MetricService.UpdateMetricFromModel _ _ _) as [s' r]. destruct (MetricService.model_update _).
    + by eapply Ha.
    + destruct Ho as [-> _]. by exists m.
  - intros ms s Hms [m Hm]. pose proof (MetricService.UpdateBatch_outcome svc ms s m Hm Hms) as Ho.
    destruct (MetricService.UpdateBatch _ _ _) as [s' r]. case_bool_decide; [destruct Ho as [-> _]; by exists m|by eapply Ha].
  - intros mType name s [m Hm]. unfold MetricService.GetMetric. repeat (case_bool_decide; [by exists m|]).
    pose proof (GetMetric_law name mType s m Hm) as Hl. destruct (GetMetric name mType s) as [s' [x|]]; exists m; apply Hl.
  - intros mType name s [m Hm]. unfold MetricService.GetValue. repeat (case_bool_decide; [by exists m|]).
    pose proof (GetValue_law mType name s m Hm) as Hl. destruct (GetValue mType name s) as [s' [x|]]; exists m; apply Hl.
  - intros s [m Hm]. pose proof (GetAllMetrics_law s m Hm) as Hl. unfold MetricService.GetAllMetrics.
    destruct (GetAllMetrics s) as [s' x]. exists m. apply Hl.
  - intros p s Hpp [m Hm]. by eapply Hp.
Qed.

Lemma SaveOnUpdate_file f m : holds f m -> holds (FileBackedStorage.SaveOnUpdate f) m.
Proof. intros [Hm Hv]. split; [by rewrite FileBackedStorage.SaveOnUpdate_mem|done]. Qed.

Lemma make_service_quiet cfg s : MetricService.quiet (Server.make_service cfg s).
Proof.
  intros s' m Hh. unfold Server.make_service. destruct s; try (split; [exact Hh|done]).
  destruct (_ =? 0)%Z; [|split; [exact Hh|done]]. cbn [MetricService.notifyUpdate MetricService.SetOnUpdate MetricService.onUpdate].
  destruct s' as [d|f'|m']; cbn [Server.on_file]; [split; [exact Hh|done]| |split; [exact Hh|done]].
  split; [|done]. by apply SaveOnUpdate_file.
Qed.

(** An event a client or the clock can cause: the numbers of a gRPC request have the
    types of its fields. *)
Definition valid_event (e : Server.event) : Prop :=
  match e with Server.GrpcCall _ req => valid_req req | _ => True end.

(** What [main] put together, when it runs. *)
Lemma main_running cfg inp p : Server.main cfg inp = Server.Running p ->
  exists h subnet key priv,
    Server.svc p = Server.make_service cfg (Server.open_storage cfg inp).1 /\
    Handler.svc h = Server.svc p /\ Handler.pinger h = Server.make_pinger inp (Server.open_storage cfg inp).1 /\
    Middleware.TrustedSubnetMiddleware (ServerConfig.TrustedSubnet cfg) = Ok subnet /\
    Server.router p = Middleware.newRouter h key priv subnet /\
    st (Server.world p) = (Server.open_storage cfg inp).1 /\
    Server.ticks p = bool_decide (is_Some (Server.save_interval cfg (Server.open_storage cfg inp).1)) /\
    (forall i, Server.grpc p = Some i -> Grpc.TrustedSubnetInterceptor (ServerConfig.TrustedSubnet cfg) = Ok i).
Proof.
  unfold Server.main. destruct (Server.open_storage cfg inp) as [s notes]. cbn [fst].
  destruct (Server.StartPeriodicSave_panics _); [done|]. destruct (AuditTrail.buildAuditPublisher _ _ _) as [pub|]; [|done].
  destruct (if bool_decide (ServerConfig.CryptoKey cfg = "") then _ else _) as [priv|]; [|done].
  destruct (Middleware.TrustedSubnetMiddleware _) as [subnet|] eqn:Hm; [|done].
  intros Hr. exists (Handler.NewMetricHandler (Server.make_service cfg s) (Server.make_pinger inp s) pub),
    subnet, (ServerConfig.Key cfg), priv.
  case_bool_decide; [injection Hr as <-; by split_and!|].
  destruct (Grpc.TrustedSubnetInterceptor _) as [i|] eqn:Hi; [|done]. destruct (Server.grpc_listen inp); [done|].
  injection Hr as <-. split_and!; try done. intros i' [= <-]. done.
Qed.

(** Where there are periodic saves no handler saves. *)
Lemma ticks_no_callback cfg inp p : Server.main cfg inp = Server.Running p -> Server.ticks p = true ->
  MetricService.onUpdate (Server.svc p) = None.
Proof.
  intros Hm Ht. destruct (main_running cfg inp p Hm) as (_ & _ & _ & _ & -> & _ & _ & _ & _ & _ & Hti & _).
  rewrite Hti in Ht. unfold Server.make_service, Server.save_interval in *. destruct (Server.open_storage cfg inp).1; [done| |done].
  destruct (Z.eqb_spec (ServerConfig.StoreInterval cfg) 0) as [He|]; [|done]. by rewrite He in Ht.
Qed.

(** A condition the service keeps, and the save ticks keep, is kept by every event. *)
Lemma event_closed P cfg inp p e w :
  Server.main cfg inp = Server.Running p ->
  closed P (Server.svc p) (Server.make_pinger inp (Server.open_storage cfg inp).1) ->
  (Server.ticks p = true -> forall s, P s -> P (Server.on_file FileBackedStorage.periodic_tick s)) ->
  valid_event e -> P (st w) -> P (st (Server.step p e w)).
Proof using CL GL.
  intros Hm HP Ht He Hcur. destruct (main_running cfg inp p Hm) as (h & subnet & key & priv & _ & Hh & Hpi & Hs & Hr & _ & _ & Hg).
  destruct e as [r|md req|]; cbn [Server.step].
  - rewrite Hr. eapply router_closed; [exact Hs| |done]. by rewrite Hh, Hpi.
  - destruct (Server.grpc p) as [i|] eqn:Hi; [|done]. cbn. eapply grpc_closed; [done|done|by eauto|done].
  - destruct (Server.ticks p); [by apply Ht|done].
Qed.

(** It holds at every moment between requests. *)
Lemma serve_events_closed P cfg inp p es :
  Server.main cfg inp = Server.Running p ->
  closed P (Server.svc p) (Server.make_pinger inp (Server.open_storage cfg inp).1) ->
  (Server.ticks p = true -> forall s, P s -> P (Server.on_file FileBackedStorage.periodic_tick s)) ->
  P (Server.open_storage cfg inp).1 -> Forall valid_event es -> P (st (Server.serve_events p es)).
Proof using CL GL.
  intros Hm HP Ht Hstart Hes. destruct (main_running cfg inp p Hm) as (_ & _ & _ & _ & _ & _ & _ & _ & _ & Hw & _).
  unfold Server.serve_events. rewrite <- Hw in Hstart. revert Hstart. generalize (Server.world p).
  induction Hes as [|e es He _ IH]; intros w Hcur; [done|]. cbn [foldl]. apply IH. by eapply event_closed.
Qed.

Lemma Unmarshal_metrics_valid data ms : Unmarshal_metrics data = Ok ms -> valid_ms ms.
Proof.
  unfold Unmarshal_metrics. destruct (scan_json data) as [[v rest]|]; [|done]. case_bool_decide; [|done].
  destruct v; cbn; intros; simplify_eq; try constructor.
  pose proof (decode_elements_valid l None). destruct (decode_elements l None) as [y [e|]]; by simplify_eq/=.
Qed.

Lemma ReadFile_keeps f : let f' := (FileBackedStorage.ReadFile f).1 in
  FileBackedStorage.mem f' = FileBackedStorage.mem f /\ FileBackedStorage.path f' = FileBackedStorage.path f /\
  FileBackedStorage.files f' = FileBackedStorage.files f /\ (FileBackedStorage.io f = [] -> FileBackedStorage.io f' = []).
Proof.
  unfold FileBackedStorage.ReadFile, FileBackedStorage.next_io. by destruct (FileBackedStorage.io f) as [|[] ios] eqn:E; cbn.
Qed.

(** Loading keeps the path and the disk, and loads typed metrics. *)
Lemma Load_keeps f : MemStorage.valid (FileBackedStorage.mem f) ->
  let f' := (FileBackedStorage.Load f).1 in
  MemStorage.valid (FileBackedStorage.mem f') /\ FileBackedStorage.path f' = FileBackedStorage.path f /\
  FileBackedStorage.files f' = FileBackedStorage.files f /\ (FileBackedStorage.io f = [] -> FileBackedStorage.io f' = []).
Proof.
  intros Hv. pose proof (ReadFile_keeps f) as (Hm & Hp & Hf & Hi). unfold FileBackedStorage.Load.
  destruct (FileBackedStorage.ReadFile f) as [f1 [data|e]]; cbn [fst] in *; [|case_match; cbn; rewrite Hm; by split_and!].
  destruct (Unmarshal_metrics data) as [ms|e] eqn:Hu; cbn [fst]; [|rewrite Hm; by split_and!].
  rewrite FileBackedStorage.load_metrics. cbn. split; [|done]. rewrite Hm.
  apply MemStorage.valid_apply_all; [by eapply Unmarshal_metrics_valid|done].
Qed.

Lemma start_file_typed cfg inp : exists m, holds (Server.start_file cfg inp).1 m.
Proof.
  unfold Server.start_file. set (f0 := FileBackedStorage.Mk _ _ _ _ _).
  assert (MemStorage.valid (FileBackedStorage.mem f0)) as Hv by (split; apply map_Forall_empty).
  destruct (ServerConfig.Restore cfg); [|by exists MemStorage.NewMemStorage].
  destruct (Load_keeps f0 Hv) as (Hv' & _). destruct (FileBackedStorage.Load f0) as [f [e|]]; cbn [fst] in *; by eexists.
Qed.

Lemma open_without_database cfg inp : ServerConfig.DatabaseDSN cfg = "" -> exists m, holds (Server.open_storage cfg inp).1 m.
Proof.
  intros Hd. destruct (start_file_typed cfg inp) as [m Hm]. unfold Server.open_storage. rewrite bool_decide_true by done.
  case_bool_decide; [|destruct (Server.start_file cfg inp); by exists m].
  exists MemStorage.NewMemStorage. split; [done|]. split; apply map_Forall_empty.
Qed.

Lemma served_typed cfg inp p es :
  Server.main cfg inp = Server.Running p -> Forall valid_event es -> (exists m, holds (Server.open_storage cfg inp).1 m) ->
  (forall q s m, Server.make_pinger inp (Server.open_storage cfg inp).1 = Some q -> holds s m -> exists m', holds (q s).1 m') ->
  exists m, holds (st (Server.serve_events p es)) m.
Proof using CL GL.
  intros Hm Hes Ho Hp. destruct (main_running cfg inp p Hm) as (_ & _ & _ & _ & Hsvc & _).
  eapply serve_events_closed with (P := fun s => exists m, holds s m); [exact Hm| | |done|done].
  - apply typed_closed; [rewrite Hsvc; apply make_service_quiet|exact Hp].
  - intros _ [d|f|m'] [m Hs]; cbn [Server.on_file]; try by exists m. exists m. destruct Hs as [Hs Hv].
    split; [|done]. unfold FileBackedStorage.periodic_tick. destruct (FileBackedStorage.Save_mem' f) as [Hs' _].
    destruct (FileBackedStorage.Save f) as [f' [e|]]; cbn in *; congruence.
Qed.

(** *** The file restores the storage *)

(** A file-backed storage on a disk that works; when every update saves, the file
    restores it whenever it has a JSON form. *)
Definition backed (sync : bool) (path : string) (s : Server.storage) : Prop :=
  exists f, s = Server.UseFile f /\ MemStorage.valid (FileBackedStorage.mem f) /\ FileBackedStorage.io f = [] /\
    FileBackedStorage.path f = path /\
    (sync = true -> FileBackedStorage.finite_gauges (FileBackedStorage.mem f) ->
     FileBackedStorage.utf8_names (FileBackedStorage.mem f) -> FileBackedStorage.restores f (FileBackedStorage.mem f)).

Lemma Save_io f : FileBackedStorage.io f = [] -> FileBackedStorage.io (FileBackedStorage.Save f).1 = [].
Proof.
  intros Hio. unfold FileBackedStorage.Save, FileBackedStorage.Save_ordered. destruct (MarshalIndent_metrics _); [|done].
  unfold FileBackedStorage.WriteFile, FileBackedStorage.next_io. by rewrite Hio.
Qed.

Lemma SaveOnUpdate_keeps f : FileBackedStorage.io f = [] ->
  FileBackedStorage.io (FileBackedStorage.SaveOnUpdate f) = [] /\
  FileBackedStorage.path (FileBackedStorage.SaveOnUpdate f) = FileBackedStorage.path f.
Proof.
  intros Hio. pose proof (Save_io f Hio). pose proof (FileBackedStorage.Save_mem' f) as [_ ?].
  unfold FileBackedStorage.SaveOnUpdate. by destruct (FileBackedStorage.Save f) as [f' [e|]].
Qed.

(** The service's callback after an update of the memory. *)
Lemma notify_backed cfg sync s0 f m : (sync = true -> ServerConfig.StoreInterval cfg = 0%Z) ->
  (exists f0, s0 = Server.UseFile f0) -> MemStorage.valid m -> FileBackedStorage.io f = [] ->
  backed sync (FileBackedStorage.path f)
    (MetricService.notifyUpdate (Server.make_service cfg s0) (Server.UseFile (FileBackedStorage.set_mem m f))).
Proof.
  intros Hsync [f0 ->] Hv Hio. cbn [Server.make_service].
  destruct (Z.eqb_spec (ServerConfig.StoreInterval cfg) 0); cbn; [|eexists; split_and!; try done; intros; by destruct n; apply Hsync].
  set (f1 := FileBackedStorage.set_mem m f). destruct (SaveOnUpdate_keeps f1 Hio) as [Hi Hp].
  eexists. split; [done|]. rewrite FileBackedStorage.SaveOnUpdate_mem. split_and!; [done..|].
  intros _ Hf Hu. pose proof (FileBackedStorage.durable_saved f1 Hv Hio) as Hd. unfold FileBackedStorage.durable in Hd.
  cbn [fst snd] in Hd. rewrite FileBackedStorage.SaveOnUpdate_mem in Hd. by apply Hd.
Qed.

Lemma backed_closed cfg sync s0 path : (sync = true -> ServerConfig.StoreInterval cfg = 0%Z) ->
  (exists f0, s0 = Server.UseFile f0) ->
  closed (backed sync path) (Server.make_service cfg s0) None.
Proof.
  intros Hsync Hs0. set (svc := Server.make_service cfg s0).
  assert (forall f m, backed sync path (Server.UseFile f) -> MemStorage.valid m ->
    backed sync path (MetricService.notifyUpdate svc (Server.UseFile (FileBackedStorage.set_mem m f)))) as Hn.
  { intros f m (f' & [= <-] & _ & Hio & <- & _) Hm. by apply notify_backed. }
  split.
  - intros mType name value s Hs. pose proof Hs as (f & -> & Hv & _). unfold MetricService.UpdateMetric.
    repeat case_bool_decide; [| |done].
    + destruct (ParseFloat value) as [v|] eqn:Hp; [|done]. apply (Hn f); [done|].
      apply MemStorage.valid_UpdateGauge; [done|by eapply ParseFloat_valid].
    + destruct (ParseInt _ value) as [d|] eqn:Hp; [|done]. apply (Hn f); [done|].
      by apply MemStorage.valid_UpdateCounter.
  - intros x s Hx Hs. pose proof Hs as (f & -> & Hv & _). unfold MetricService.UpdateMetricFromModel.
    apply andb_true_iff in Hx as [Hd Hx]. repeat case_bool_decide; [| |done].
    + destruct (Value x) as [v|]; [|done]. apply (Hn f); [done|]. by apply MemStorage.valid_UpdateGauge.
    + destruct (Delta x) as [d|]; [|done]. apply (Hn f); [done|]. by apply MemStorage.valid_UpdateCounter.
  - intros ms s Hms Hs. pose proof Hs as (f & -> & Hv & _). unfold MetricService.UpdateBatch. case_bool_decide; [done|].
    apply (Hn f); [done|]. by apply MemStorage.valid_apply_all.
  - intros mType name s Hs. pose proof Hs as (f & -> & _). unfold MetricService.GetMetric. repeat (case_bool_decide; [done|]).
    cbn. by destruct (FileBackedStorage.GetMetric _ _ _).
  - intros mType name s Hs. pose proof Hs as (f & -> & _). unfold MetricService.GetValue. repeat (case_bool_decide; [done|]).
    cbn. by destruct (FileBackedStorage.GetValue _ _ _).
  - intros s Hs. by pose proof Hs as (f & -> & _).
  - done.
Qed.

Lemma backed_tick path s : backed false path s -> backed false path (Server.on_file FileBackedStorage.periodic_tick s).
Proof.
  intros (f & -> & Hv & Hi & Hp & _). pose proof (Save_io f Hi). pose proof (FileBackedStorage.Save_mem' f) as [Hmf Hpf]. cbn [Server.on_file].
  eexists. split; [done|]. unfold FileBackedStorage.periodic_tick.
  destruct (FileBackedStorage.Save f) as [f' [e|]]; cbn in *; rewrite Hmf, Hpf; by split_and!.
Qed.

(** Loading depends on the disk, the path and the memory only. *)
Lemma Load_same f g : FileBackedStorage.mem f = FileBackedStorage.mem g -> FileBackedStorage.io f = [] ->
  FileBackedStorage.io g = [] ->
  FileBackedStorage.files f !! FileBackedStorage.path f = FileBackedStorage.files g !! FileBackedStorage.path g ->
  (FileBackedStorage.Load f).2 = (FileBackedStorage.Load g).2 /\
  FileBackedStorage.mem (FileBackedStorage.Load f).1 = FileBackedStorage.mem (FileBackedStorage.Load g).1.
Proof.
  intros Hm Hf Hg Hd. unfold FileBackedStorage.Load, FileBackedStorage.ReadFile, FileBackedStorage.next_io.
  rewrite Hf, Hg, Hd. destruct (FileBackedStorage.files g !! FileBackedStorage.path g) as [data|].
  2: { unfold FileBackedStorage.IsNotExist. rewrite bool_decide_true by done. split; [done|exact Hm]. }
  destruct (Unmarshal_metrics data); [|split; [done|exact Hm]].
  rewrite !FileBackedStorage.load_metrics. cbn. by rewrite Hm.
Qed.

(** The file a storage was loaded from restores it. *)
Lemma start_restores cfg inp f :
  Server.start_file cfg inp = (f, [Server.Info "metrics loaded from file"]) -> Server.disk_io inp = [] ->
  MemStorage.valid (FileBackedStorage.mem f) /\ FileBackedStorage.io f = [] /\
  FileBackedStorage.path f = ServerConfig.FileStoragePath cfg /\ FileBackedStorage.restores f (FileBackedStorage.mem f).
Proof.
  unfold Server.start_file. set (f0 := FileBackedStorage.Mk _ _ _ _ _). intros Hs Hio.
  assert (MemStorage.valid (FileBackedStorage.mem f0)) as Hv by (split; apply map_Forall_empty).
  destruct (ServerConfig.Restore cfg); [|done]. destruct (Load_keeps f0 Hv) as (Hv' & Hp & Hfs & Hi).
  destruct (FileBackedStorage.Load f0) as [f1 [e|]] eqn:Hl; [done|]. injection Hs as <-. cbn [fst] in *.
  split_and!; [done|by apply Hi|done|]. intros l Hpl Hfl Hiol Hml. rewrite Hfs, Hp in Hfl. rewrite Hp in Hpl.
  destruct (Load_same l f0) as [Hr Hm]; [by rewrite Hml|done|done|by rewrite Hfl|]. rewrite Hl in Hr, Hm. done.
Qed.

(** Starting on a disk whose file restores [m]. *)
Definition restarts cfg (d : gmap string string) (m : MemStorage.t) : Prop := forall inp,
  Server.disk inp !! ServerConfig.FileStoragePath cfg = d !! ServerConfig.FileStoragePath cfg -> Server.disk_io inp = [] ->
  exists f, (Server.open_storage cfg inp).1 = Server.UseFile f /\ FileBackedStorage.mem f = m.

Lemma restores_restarts cfg f m :
  ServerConfig.DatabaseDSN cfg = "" -> ServerConfig.FileStoragePath cfg <> "" -> ServerConfig.Restore cfg = true ->
  FileBackedStorage.path f = ServerConfig.FileStoragePath cfg -> FileBackedStorage.restores f m ->
  restarts cfg (FileBackedStorage.files f) m.
Proof.
  intros Hd Hne Hr Hp Hf inp Hdisk Hio. unfold Server.open_storage, Server.start_file.
  rewrite bool_decide_true, bool_decide_false, Hr by done.
  destruct (Hf (FileBackedStorage.Mk MemStorage.NewMemStorage (ServerConfig.FileStoragePath cfg) (Server.disk inp)
    (Server.disk_io inp) [])) as [Hl2 Hl1]; [done|cbn; by rewrite Hp, Hdisk|done|done|].
  destruct (FileBackedStorage.Load _) as [f' [e|]]; [done|]. by exists f'.
Qed.

(** C5. A server on the file backend keeps its metrics over restarts.  Started with
    [-r] on a disk that works and a file that loads (or none), after any sequence
    of requests, gRPC calls and save ticks, if the gauges are finite and the names
    UTF-8 then: a graceful shutdown succeeds and the next start has exactly the
    same metrics; and when every update is saved ([-i 0]) the same holds when the
    process dies at any moment between requests.  Each event is a whole here; what
    happens when the exit overtakes a periodic save is in [LifecycleFacts]. *)
Theorem restart_keeps_metrics cfg inp p es f0 :
  ServerConfig.DatabaseDSN cfg = "" -> ServerConfig.FileStoragePath cfg <> "" -> ServerConfig.Restore cfg = true ->
  Server.disk_io inp = [] -> Server.start_file cfg inp = (f0, [Server.Info "metrics loaded from file"]) ->
  Server.main cfg inp = Server.Running p -> Forall valid_event es ->
  exists f, st (Server.serve_events p es) = Server.UseFile f /\
    (FileBackedStorage.finite_gauges (FileBackedStorage.mem f) -> FileBackedStorage.utf8_names (FileBackedStorage.mem f) ->
     (exists f', Server.shutdown (Server.UseFile f) = (Server.UseFile f', None) /\
        restarts cfg (FileBackedStorage.files f') (FileBackedStorage.mem f)) /\
     (ServerConfig.StoreInterval cfg = 0%Z -> restarts cfg (FileBackedStorage.files f) (FileBackedStorage.mem f))).
Proof using CL GL.
  intros Hd Hne Hrs Hio Hs Hm Hes. destruct (start_restores cfg inp f0 Hs Hio) as (Hv0 & Hi0 & Hp0 & Hr0).
  assert (Server.open_storage cfg inp = (Server.UseFile f0, [Server.Info "metrics loaded from file"])) as Ho.
  { unfold Server.open_storage. by rewrite bool_decide_true, bool_decide_false, Hs by done. }
  destruct (main_running cfg inp p Hm) as (_ & _ & _ & _ & Hsvc & _ & _ & _ & _ & _ & Hticks & _).
  assert (backed (ServerConfig.StoreInterval cfg =? 0)%Z (ServerConfig.FileStoragePath cfg) (st (Server.serve_events p es))) as Hb.
  { eapply serve_events_closed; [exact Hm| | | |done]; rewrite ?Ho; cbn [fst].
    - rewrite Hsvc, Ho. apply backed_closed; [apply Z.eqb_eq|by eexists].
    - rewrite Hticks, Ho. cbn [fst Server.save_interval]. destruct (Z.ltb_spec 0 (ServerConfig.StoreInterval cfg)); [|done].
      intros _ s. destruct (Z.eqb_spec (ServerConfig.StoreInterval cfg) 0); [lia|]. apply backed_tick.
    - exists f0. by split_and!. }
  destruct Hb as (f & -> & Hv & Hi & Hp & Hb). exists f. split; [done|]. intros Hfin Hutf. split.
  - pose proof (FileBackedStorage.Save_restores f (conj Hv (conj Hfin (conj Hutf Hi)))) as Hsv. cbn [Server.shutdown].
    pose proof (FileBackedStorage.Save_mem' f) as [_ Hpf]. unfold FileBackedStorage.Close.
    destruct (FileBackedStorage.Save f) as [f' r]. destruct Hsv as (-> & _ & Hres). exists f'. split; [done|].
    apply restores_restarts; try done. cbn in Hpf. congruence.
  - intros H0i. apply restores_restarts; try done. apply Hb; [by rewrite H0i|done..].
Qed.
End Process.

(** ** A run *)
Module ServerExamples.
Import HandlerExamples.
#[local] Existing Instances DeliveryExamples.exact_chi DeliveryExamples.exact_chi_laws.
#[local] Existing Instances Crypto.plain Crypto.plain_laws DeliveryExamples.retrygo0.
#[local] Existing Instances ServiceExamples.class08 ServiceExamples.key_order.

(** No key files are read. *)
#[local] Instance no_keys : KeyFormats := {|
  pem_Decode _ := None;
  ParsePKIXPublicKey _ := Err (Sentinel sErrSyntax);
  ParsePKCS1PublicKey _ := Err (Sentinel sErrSyntax);
  ParsePKCS1PrivateKey _ := Err (Sentinel sErrSyntax);
  ParsePKCS8PrivateKey _ := Err (Sentinel sErrSyntax) |}.

Definition no_database : Database.environment :=
  Database.MkEnvironment (fun _ => Some (ErrorText "no database")) None None None None Database.UpDone.

(** Every update is saved; agents come from 10.0.0.0/8. *)
Definition cfg0 : ServerConfig.t := ServerConfig.Mk ":8080" 0 "/m.json" true "" "" "/audit" "" "" "10.0.0.0/8" ":3200".

Definition saved : string :=
  match MarshalIndent_metrics [counter_metric "PollCount" 2] with Ok txt => txt | Err _ => "" end.

Definition inp0 : Server.inputs :=
  Server.MkInputs no_database (DBStorage.Mk ∅ [] []) (fun d => (d, None)) {["/m.json" := saved]} [] None
    (fun _ => Err (Sentinel sErrNotExist)) None 1700000000.

Definition audit0 : AuditTrail.Publisher := AuditTrail.NewPublisher true [AuditTrail.FileObserver "/audit"].
Definition s0 : Server.storage := (Server.open_storage cfg0 inp0).1.
Definition svc0 : MetricService.t Server.storage := Server.make_service cfg0 s0.
Definition subnet0 : option (Middleware.middleware Server.storage) :=
  match Middleware.TrustedSubnetMiddleware "10.0.0.0/8" with Ok m => m | Err _ => None end.
Definition interceptor0 : option (Grpc.unary Server.storage -> Grpc.unary Server.storage) :=
  match Grpc.TrustedSubnetInterceptor "10.0.0.0/8" with Ok i => i | Err _ => None end.

Definition p0 : Server.process :=
  Server.MkProcess (MkWorld s0 [] [] 1700000000) svc0
    (Middleware.newRouter (Handler.NewMetricHandler svc0 None (Some audit0)) "" None subnet0)
    (Some interceptor0) false [Server.Info "metrics loaded from file"].

Lemma p0_runs : Server.main cfg0 inp0 = Server.Running p0.
Proof. reflexivity. Qed.

(** An update over HTTP, one over gRPC, one from a stranger. *)
Definition update0 (ip : string) : request :=
  MkRequest "POST" "/update" (header_Set "X-Real-IP" ip ∅) "192.0.2.1:4444" (NewReader counter_body) (fun _ => "").
Definition es0 : list Server.event :=
  [Server.HttpRequest (update0 "10.0.0.7"); Server.HttpRequest (update0 "11.0.0.7");
   Server.GrpcCall {[MetadataXRealIP := ["10.0.0.7"]]} [MkPb "Load" Metric_GAUGE 0 (F_fin false (3 * 2 ^ 51) (-52))]].

Lemma es0_valid : Forall valid_event es0.
Proof. by repeat constructor. Qed.

Definition kept : MemStorage.t :=
  MemStorage.apply_all [counter_metric "PollCount" 5; gauge_metric "Load" (F_fin false (3 * 2 ^ 51) (-52))] MemStorage.NewMemStorage.

Definition final0 : Server.storage := st (Server.serve_events p0 es0).

Lemma restart_keeps_metrics_witness :
  exists f, final0 = Server.UseFile f /\ FileBackedStorage.mem f = kept /\ restarts cfg0 (FileBackedStorage.files f) kept.
Proof.
  pose proof (restart_keeps_metrics cfg0 inp0 p0 es0 (Server.start_file cfg0 inp0).1 eq_refl ltac:(done) eq_refl eq_refl
    eq_refl p0_runs es0_valid) as (f & Hf & H).
  fold final0 in Hf. exists f. split; [exact Hf|].
  assert (FileBackedStorage.mem f = kept) as Hm.
  { transitivity (match final0 with Server.UseFile f => FileBackedStorage.mem f | _ => MemStorage.NewMemStorage end);
      [by rewrite Hf|by vm_compute]. }
  split; [exact Hm|]. rewrite Hm in H. destruct H as [_ H].
  - apply map_Forall_singleton. by vm_compute.
  - split; apply map_Forall_singleton; by vm_compute.
  - exact (H eq_refl).
Defined.
End ServerExamples.
