(* ===== verification/Served.v ===== *)
(** * What a server without a database has counted

    From the requests and calls alone: which updates each asks for ([event_updates]), and
    that after any of them the storage holds, for every gauge, the last value asked for,
    and for every counter the sum of the increments. *)

From S2P Require Import Prelude Errors GoInt GoStrings NetIP GoFloat GoFloatFacts Model GoJson Storage Retry DBStore Service FileStore Http AuditTrail Dashboard Handler HandlerFacts Hash Crypto Keys Compress Middleware MiddlewareFacts Delivery Grpc Flags Duration Database Config Server ServerFacts.

#[local] Existing Instance FileBackedStorage.FileBackedStorage_Storage.
#[local] Existing Instance Server.storage_Storage.

Module Served.

(** ** What is asked for *)

(** The updates an endpoint is asked for; none when it refuses the request. *)
Definition requested `{JsonErrorText} (e : Handler.endpoint) (r : request) : list Metrics :=
  match e with
  | Handler.EUpdateMetric =>
      if bool_decide (URLParam r "name" = "") then []
      else match MetricService.text_update (URLParam r "type") (URLParam r "name") (URLParam r "value") with Ok x => [x] | Err _ => [] end
  | Handler.EUpdateMetricJSON =>
      match Decode_metric (Body r) with
      | Ok x => if bool_decide (ID x = "") then [] else match MetricService.model_update x with Ok u => [u] | Err _ => [] end
      | Err _ => []
      end
  | Handler.EUpdateMetricsBatch => match Decode_metrics (Body r) with Ok ms => ms | Err _ => [] end
  | _ => []
  end.

(** An entry of a gRPC request. *)
Definition pb_update (x : pb_Metric) : option Metrics :=
  if (Type_no x =? Metric_GAUGE)%Z then Some (gauge_metric (Id x) (pb_Value x))
  else if (Type_no x =? Metric_COUNTER)%Z then Some (counter_metric (Id x) (pb_Delta x))
  else None.

Lemma convert_mapM `{UnicodeTables} req :
  match mapM pb_update req with Some ms => Grpc.convert req = Ok ms | None => exists e, Grpc.convert req = Err e end.
Proof.
  induction req as [|x req IH]; [done|].
  change (mapM pb_update (x :: req)) with (y ← pb_update x; k ← mapM pb_update req; Some (y :: k)). cbn [Grpc.convert].
  destruct (mapM pb_update req) as [ms|]; [rewrite IH|destruct IH as [e ->]]; unfold pb_update;
    (destruct (Type_no x =? Metric_GAUGE)%Z; [|destruct (Type_no x =? Metric_COUNTER)%Z]); cbn; by try eexists.
Qed.

Section Effects.
Context {S : Type} `{Storage S} `{UnicodeTables, PgErrorText, JsonErrorText, MapRange}.

(** [memory s]: the metrics a storage that cannot fail holds.  What the calls of the
    service do to it. *)
Record tracks (memory : S -> option MemStorage.t) (svc : MetricService.t S) (ping : option (S -> S * option error)) : Prop := {
  tracks_text mType name value s m : memory s = Some m -> memory (MetricService.UpdateMetric svc mType name value s).1
    = Some (match MetricService.text_update mType name value with Ok x => MemStorage.apply_metric x m | Err _ => m end);
  tracks_model x s m : memory s = Some m -> memory (MetricService.UpdateMetricFromModel svc x s).1
    = Some (match MetricService.model_update x with Ok u => MemStorage.apply_metric u m | Err _ => m end);
  tracks_batch ms s m : memory s = Some m -> memory (MetricService.UpdateBatch svc ms s).1 = Some (MemStorage.apply_all ms m);
  tracks_metric mType name s : memory (MetricService.GetMetric svc mType name s).1 = memory s;
  tracks_value mType name s : memory (MetricService.GetValue svc mType name s).1 = memory s;
  tracks_all s : memory (MetricService.GetAllMetrics svc s).1 = memory s;
  tracks_ping p s : ping = Some p -> memory (p s).1 = memory s
}.

Lemma handle_requested memory (h : Handler.t S) e r w m : tracks memory (Handler.svc h) (Handler.pinger h) ->
  memory (st w) = Some m -> memory (st (Handler.handle h e r w).1) = Some (MemStorage.apply_all (requested e r) m).
Proof.
  intros HT Hw. destruct e; cbn [Handler.handle requested].
  - unfold Handler.ListMetrics. apply (after_call (fun s => memory s = Some m)); [by rewrite (tracks_all _ _ _ HT)|].
    intros w' a Hs. change (memory (st w') = Some m). by rewrite Hs, (tracks_all _ _ _ HT).
  - unfold Handler.Ping. destruct (Handler.pinger h) as [ping|] eqn:Hp; [|done].
    apply (after_call (fun s => memory s = Some m)); [by rewrite (tracks_ping _ _ _ HT)|].
    intros w' [e|] Hs; change (memory (st w') = Some m); by rewrite Hs, (tracks_ping _ _ _ HT).
  - unfold Handler.UpdateMetricJSON. destruct (Decode_metric (Body r)) as [x|]; [|done]. case_bool_decide; [done|].
    pose proof (tracks_model _ _ _ HT x (st w) m Hw) as Hx. set (ms := match MetricService.model_update x with Ok u => [u] | Err _ => [] end).
    assert (memory (MetricService.UpdateMetricFromModel (Handler.svc h) x (st w)).1 = Some (MemStorage.apply_all ms m)) as Hms
      by (rewrite Hx; subst ms; by destruct (MetricService.model_update x)).
    apply (after_call (fun s => memory s = Some _)); [exact Hms|]. intros w' [e|] Hs; [change (memory (st w') = Some (MemStorage.apply_all ms m)); by rewrite Hs|].
    apply (after_call (fun s => memory s = Some _)); [by rewrite (tracks_metric _ _ _ HT), Hs|].
    intros w2 [u|e] Hs2; rewrite ?json_reply_st, ?emitAudit_st; change (memory (st w2) = Some (MemStorage.apply_all ms m)); by rewrite Hs2, (tracks_metric _ _ _ HT), Hs.
  - unfold Handler.GetValueJSON. destruct (Decode_metric (Body r)) as [x|]; [|done]. case_bool_decide; [done|].
    apply (after_call (fun s => memory s = Some m)); [by rewrite (tracks_metric _ _ _ HT)|].
    intros w' [u|e] Hs; rewrite ?json_reply_st; change (memory (st w') = Some m); by rewrite Hs, (tracks_metric _ _ _ HT).
  - unfold Handler.UpdateMetricsBatch. destruct (Decode_metrics (Body r)) as [ms|]; [|done].
    case_bool_decide as Hl; [by destruct ms|]. apply (after_call (fun s => memory s = Some _)); [by apply HT|].
    intros w' [e|] Hs; cbn [fst]; rewrite ?emitAudit_st; change (memory (st w') = Some (MemStorage.apply_all ms m)); rewrite Hs; by apply HT.
  - unfold Handler.UpdateMetric. case_bool_decide; [done|].
    pose proof (tracks_text _ _ _ HT (URLParam r "type") (URLParam r "name") (URLParam r "value") (st w) m Hw) as Hx.
    set (ms := match MetricService.text_update _ _ _ with Ok x => [x] | Err _ => [] end).
    assert (memory (MetricService.UpdateMetric (Handler.svc h) (URLParam r "type") (URLParam r "name") (URLParam r "value") (st w)).1
      = Some (MemStorage.apply_all ms m)) as Hms by (rewrite Hx; subst ms; by destruct (MetricService.text_update _ _ _)).
    apply (after_call (fun s => memory s = Some _)); [exact Hms|].
    intros w' [e|] Hs; cbn [fst]; rewrite ?emitAudit_st; change (memory (st w') = Some (MemStorage.apply_all ms m)); by rewrite Hs.
  - unfold Handler.GetValue. case_bool_decide; [done|]. apply (after_call (fun s => memory s = Some m)); [by rewrite (tracks_value _ _ _ HT)|].
    intros w' [u|e] Hs; change (memory (st w') = Some m); by rewrite Hs, (tracks_value _ _ _ HT).
Qed.

Context `{CL : ChiLaws, KeyFormats, GL : GzipLaws}.

(** The updates an HTTP request asks for: those of its endpoint, if it gets through. *)
Definition http_updates (cidr key : string) (priv : option PrivateKey) (r : request) : list Metrics :=
  match arriving cidr key priv r with
  | None => []
  | Some r' =>
      match chi_route Handler.Routes (Method r') (RequestURI r') with
      | Some (e, params) => requested e (with_params params r')
      | None => []
      end
  end.

Lemma router_requested memory (h : Handler.t S) cidr key priv subnet r w m :
  Middleware.TrustedSubnetMiddleware cidr = Ok subnet -> tracks memory (Handler.svc h) (Handler.pinger h) ->
  memory (st w) = Some m ->
  memory (st (Middleware.newRouter h key priv subnet r w).1) = Some (MemStorage.apply_all (http_updates cidr key priv r) m).
Proof using CL GL.
  intros Hm HT Hw. pose proof (router_step h cidr key priv subnet r w Hm) as Hs. unfold http_updates.
  unfold Middleware.newRouter, Middleware.Logger. destruct (Middleware.Use subnet _ r w) as [w' ops]. cbn [fst].
  change (st (Handler.log ?l w')) with (st w'). destruct (arriving cidr key priv r) as [r'|].
  - pose proof (fun e params => handle_requested memory h e (with_params params r') w m HT Hw) as Hh. unfold serve in Hs.
    destruct (chi_route _ _ _) as [[e params]|].
    + specialize (Hh e params). destruct (Handler.handle h e _ w) as [w1 ops1]. destruct Hs as [-> _]. exact Hh.
    + destruct Hs as [-> _]. exact Hw.
  - destruct Hs as [-> _]. exact Hw.
Qed.

(** The updates of a call: all its entries, if the caller is trusted and every type is
    known. *)
Definition rpc_updates (cidr : string) (md : gmap string (list string)) (req : UpdateMetricsRequest) : list Metrics :=
  if Grpc.trusted cidr (match md !! MetadataXRealIP with Some (v :: _) => v | _ => "" end) then default [] (mapM pb_update req) else [].

Lemma intercept_requested memory svc ping cidr i md req s m :
  Grpc.TrustedSubnetInterceptor cidr = Ok i -> tracks memory svc ping -> memory s = Some m ->
  memory (Grpc.intercept i (fun _ => Grpc.UpdateMetrics svc req) md s).1 = Some (MemStorage.apply_all (rpc_updates cidr md req) m).
Proof.
  intros Hi HT Hs. assert (memory (Grpc.UpdateMetrics svc req s).1 = Some (MemStorage.apply_all (default [] (mapM pb_update req)) m)) as Hu.
  { unfold Grpc.UpdateMetrics. pose proof (convert_mapM req) as Hc. destruct (mapM pb_update req) as [ms|]; [|by destruct Hc as [e ->]].
    rewrite Hc. pose proof (tracks_batch _ _ _ HT ms s m Hs) as Hb. by destruct (MetricService.UpdateBatch svc ms s) as [s' [e|]]. }
  revert Hi. unfold Grpc.TrustedSubnetInterceptor, rpc_updates, Grpc.trusted. case_bool_decide; [by intros [= <-]|].
  destruct (ParseCIDR cidr) as [network|]; [|done]. intros [= <-]. cbn [Grpc.intercept orb].
  destruct (ParseIP _) as [ip|]; [|done]. by destruct (Net_Contains network ip).
Qed.
End Effects.

(** ** The process *)

(** The metrics of a server that keeps them in memory. *)
Definition memory_of (s : Server.storage) : option MemStorage.t :=
  match s with Server.UseDB _ => None | Server.UseFile f => Some (FileBackedStorage.mem f) | Server.UseMem m => Some m end.

Lemma memory_on_file g s : (forall f, FileBackedStorage.mem (g f) = FileBackedStorage.mem f) -> memory_of (Server.on_file g s) = memory_of s.
Proof. intros Hg. destruct s; cbn; by rewrite ?Hg. Qed.

Section Process.
Context `{RetryGo, PgErrCode, RowOrder} `{UnicodeTables, PgErrorText, JsonErrorText, MapRange}.
Context `{CL : ChiLaws, KeyFormats, GL : GzipLaws}.
Implicit Types (cfg : ServerConfig.t) (inp : Server.inputs).

Lemma notify_memory cfg s0 s : memory_of (MetricService.notifyUpdate (Server.make_service cfg s0) s) = memory_of s.
Proof.
  unfold Server.make_service. destruct s0; [done| |done]. destruct (_ =? 0)%Z; [|done]. cbn.
  apply memory_on_file, FileBackedStorage.SaveOnUpdate_mem.
Qed.

(** An update of the memory, and the callback. *)
Lemma update_memory cfg s0 m (r : Server.storage * option error) (wrap : error -> error) : r.2 = None -> memory_of r.1 = Some m ->
  memory_of (match r with
             | (s, Some err) => (s, Some (wrap err))
             | (s, None) => (MetricService.notifyUpdate (Server.make_service cfg s0) s, None)
             end).1 = Some m.
Proof. destruct r as [s [e|]]; [done|]. intros _ Hs. cbn in *. by rewrite notify_memory. Qed.

Lemma dispatch_memory {A} (g : forall S (I : Storage S), S -> S * A) s :
  (forall f, FileBackedStorage.mem (g _ FileBackedStorage.FileBackedStorage_Storage f).1 = FileBackedStorage.mem f) ->
  (forall m, (g _ MemStorage_Storage m).1 = m) -> memory_of (Server.dispatch g s).1 = memory_of s.
Proof.
  intros Hf Hm. destruct s as [d|f|m]; cbn; [by destruct (g _ _ d)|specialize (Hf f); by destruct (g _ _ f) as [f' a]; cbn in *; rewrite Hf|].
  specialize (Hm m). destruct (g _ _ m) as [m' a]. cbn in *. by rewrite Hm.
Qed.

Lemma server_tracks cfg inp s0 m0 : memory_of s0 = Some m0 -> tracks memory_of (Server.make_service cfg s0) (Server.make_pinger inp s0).
Proof.
  intros Hm0. split.
  - intros mType name value s m Hs. unfold MetricService.UpdateMetric, MetricService.text_update.
    case_bool_decide; [destruct (ParseFloat value)|case_bool_decide; [destruct (ParseInt _ value)|]]; try done;
      apply (update_memory cfg s0 _ _ id); destruct s; by simplify_eq/=.
  - intros x s m Hs. unfold MetricService.UpdateMetricFromModel, MetricService.model_update.
    case_bool_decide; [destruct (Value x)|case_bool_decide; [destruct (Delta x)|]]; try done;
      apply update_memory; destruct s; by simplify_eq/=.
  - intros ms s m Hs. unfold MetricService.UpdateBatch. case_bool_decide; [by destruct ms|]. apply update_memory; destruct s; by simplify_eq/=.
  - intros mType name s. unfold MetricService.GetMetric. repeat (case_bool_decide; [done|]). cbn [Service.GetMetric Server.storage_Storage].
    rewrite <- (dispatch_memory (fun _ _ => GetMetric name mType) s) by done. by destruct (Server.dispatch _ _) as [s' [x|]].
  - intros mType name s. unfold MetricService.GetValue. repeat (case_bool_decide; [done|]). cbn [Service.GetValue Server.storage_Storage].
    rewrite <- (dispatch_memory (fun _ _ => GetValue mType name) s) by done. by destruct (Server.dispatch _ _) as [s' [x|]].
  - intros s. unfold MetricService.GetAllMetrics. by apply (dispatch_memory (fun _ _ => GetAllMetrics)).
  - intros p s. by destruct s0.
Qed.

Definition private_key cfg inp : res (option PrivateKey) :=
  if bool_decide (ServerConfig.CryptoKey cfg = "") then Ok None
  else Some <$> Keys.LoadPrivateKey (Server.key_files inp) (ServerConfig.CryptoKey cfg).

(** What [main] made of the configuration. *)
Lemma main_configured cfg inp p : Server.main cfg inp = Server.Running p -> exists h subnet priv,
  private_key cfg inp = Ok priv /\ Middleware.TrustedSubnetMiddleware (ServerConfig.TrustedSubnet cfg) = Ok subnet /\
  Server.router p = Middleware.newRouter h (ServerConfig.Key cfg) priv subnet /\
  Handler.svc h = Server.svc p /\ Handler.pinger h = Server.make_pinger inp (Server.open_storage cfg inp).1 /\
  (if bool_decide (ServerConfig.GRPCAddr cfg = "") then Server.grpc p = None
   else exists i, Server.grpc p = Some i /\ Grpc.TrustedSubnetInterceptor (ServerConfig.TrustedSubnet cfg) = Ok i).
Proof.
  unfold Server.main, private_key. destruct (Server.open_storage cfg inp) as [s notes]. cbn [fst].
  destruct (Server.StartPeriodicSave_panics _); [done|]. destruct (AuditTrail.buildAuditPublisher _ _ _) as [pub|]; [|done].
  destruct (if bool_decide (ServerConfig.CryptoKey cfg = "") then _ else _) as [priv|]; [|done].
  destruct (Middleware.TrustedSubnetMiddleware _) as [subnet|]; [|done].
  intros Hr. exists (Handler.NewMetricHandler (Server.make_service cfg s) (Server.make_pinger inp s) pub), subnet, priv.
  case_bool_decide; [injection Hr as <-; by split_and!|].
  destruct (Grpc.TrustedSubnetInterceptor _) as [i|]; [|done]. destruct (Server.grpc_listen inp); [done|].
  injection Hr as <-. split_and!; try done. by exists i.
Qed.

(** The updates an event asks a server of configuration [cfg] for. *)
Definition event_updates cfg (priv : option PrivateKey) (e : Server.event) : list Metrics :=
  match e with
  | Server.HttpRequest r => http_updates (ServerConfig.TrustedSubnet cfg) (ServerConfig.Key cfg) priv r
  | Server.GrpcCall md req =>
      if bool_decide (ServerConfig.GRPCAddr cfg = "") then [] else rpc_updates (ServerConfig.TrustedSubnet cfg) md req
  | Server.SaveTick => []
  end.

Lemma step_memory cfg inp p priv s0 m0 e w m : Server.main cfg inp = Server.Running p -> private_key cfg inp = Ok priv ->
  (Server.open_storage cfg inp).1 = s0 -> memory_of s0 = Some m0 -> memory_of (st w) = Some m ->
  memory_of (st (Server.step p e w)) = Some (MemStorage.apply_all (event_updates cfg priv e) m).
Proof using CL GL.
  intros Hm Hp Ho Hm0 Hw. destruct (main_configured cfg inp p Hm) as (h & subnet & priv' & Hp' & Hs & Hr & Hsvc & Hpi & Hg).
  rewrite Hp in Hp'. injection Hp' as <-. destruct (main_running cfg inp p Hm) as (_ & _ & _ & _ & Hsv & _).
  rewrite Ho in *. pose proof (server_tracks cfg inp s0 m0 Hm0) as HT. rewrite <- Hsv in HT.
  destruct e as [r|md req|]; cbn [Server.step event_updates].
  - rewrite Hr. apply router_requested; [done| |done]. by rewrite Hsvc, Hpi.
  - case_bool_decide; [by rewrite Hg|]. destruct Hg as (i & -> & Hi). cbn [st set_st]. by eapply intercept_requested.
  - destruct (Server.ticks p); [|done]. cbn [st set_st]. rewrite memory_on_file; [done|]. intros f. unfold FileBackedStorage.periodic_tick.
    pose proof (FileBackedStorage.Save_mem' f) as [Hmf _]. by destruct (FileBackedStorage.Save f) as [f' [e|]].
Qed.

(** C14. A server that keeps its metrics in memory, with or without a file, has counted
    exactly what it was asked for.  From a start with the metrics [m0], after any
    requests, gRPC calls and save ticks: a gauge is the last value that the updates set
    it to, in the order of the events and within each in the order of its entries, and a
    counter is its value in [m0] plus the sum of their increments, in 64-bit arithmetic;
    a metric that none of them names is as in [m0].  The updates are those of every
    request that comes from the trusted subnet, decrypts, decompresses and bears the
    right signature, and whose endpoint accepts it, and of every trusted call without
    an unknown type; a batch counts as a whole, and all else changes nothing. *)
Theorem served_metrics cfg inp p es m0 :
  Server.main cfg inp = Server.Running p -> memory_of (Server.open_storage cfg inp).1 = Some m0 ->
  exists priv m, private_key cfg inp = Ok priv /\ memory_of (st (Server.serve_events p es)) = Some m /\
    let us := es ≫= event_updates cfg priv in
    forall name,
      MemStorage.gauges m !! name
        = match last (MemStorage.gauge_writes name us) with Some v => Some v | None => MemStorage.gauges m0 !! name end /\
      MemStorage.counters m !! name
        = match MemStorage.counter_deltas name us with
          | [] => MemStorage.counters m0 !! name
          | ds => Some (wrap64 (default 0 (MemStorage.counters m0 !! name) + MemStorage.sum_Z ds))%Z
          end.
Proof using CL GL.
  intros Hm Hm0. destruct (main_configured cfg inp p Hm) as (_ & _ & priv & Hp & _).
  exists priv, (MemStorage.apply_all (es ≫= event_updates cfg priv) m0). split; [done|]. split.
  - destruct (main_running cfg inp p Hm) as (_ & _ & _ & _ & _ & _ & _ & _ & _ & Hw & _).
    unfold Server.serve_events. assert (memory_of (st (Server.world p)) = Some m0) as Hs by (by rewrite Hw).
    revert Hs. generalize (Server.world p) m0. induction es as [|e es IH]; intros w m Hs; [done|]. cbn [foldl mbind list_bind].
    rewrite MemStorage.apply_all_app. apply IH. exact (step_memory cfg inp p priv _ m0 e w m Hm Hp eq_refl Hm0 Hs).
  - intros us name. split; [apply MemStorage.apply_all_gauges|apply MemStorage.apply_all_counters].
Qed.
End Process.

(** ** The run of [ServerExamples] *)
Module ServedExamples.
Import HandlerExamples ServerExamples.
#[local] Existing Instances DeliveryExamples.exact_chi DeliveryExamples.exact_chi_laws.
#[local] Existing Instances Crypto.plain Crypto.plain_laws DeliveryExamples.retrygo0.
#[local] Existing Instances ServiceExamples.class08 ServiceExamples.key_order ServerExamples.no_keys.

(** The start holds 2 polls; an agent adds 3, a stranger is refused, a call sets a gauge. *)
Lemma served_metrics_witness : exists m, memory_of final0 = Some m /\ MemStorage.counters m !! "PollCount" = Some 5%Z /\
  MemStorage.gauges m !! "Load" = Some (F_fin false (3 * 2 ^ 51) (-52)).
Proof.
  destruct (memory_of s0) as [m0|] eqn:Hm0; [|by vm_compute in Hm0].
  destruct (served_metrics cfg0 inp0 p0 es0 m0 p0_runs Hm0) as (priv & m & Hp & Hm & Hs). exists m. split; [exact Hm|].
  injection Hp as <-. destruct (Hs "PollCount") as [_ ->], (Hs "Load") as [-> _]. vm_compute in Hm0. injection Hm0 as <-.
  clear. split; vm_compute; reflexivity.
Defined.
End ServedExamples.
End Served.
