(* ===== verification/Indistinct.v ===== *)
(** * Storages that requests cannot tell apart

    Two file-backed storages with the same metrics in memory answer every request alike,
    whatever the file holds.  The relation goes through every layer: the calls of a
    handler ([Concurrent.respected]), the endpoints, the middleware, the router
    ([newRouter_respects]) and the gRPC service ([intercept_respects]). *)

From S2P Require Import Prelude Errors GoInt GoStrings NetIP GoFloat Model GoJson Storage Retry DBStore Service FileStore Http AuditTrail Dashboard Handler HandlerFacts Concurrent Hash Crypto Keys Compress Middleware Delivery Grpc Flags Duration Database Config Server ServerFacts.

#[local] Existing Instance FileBackedStorage.FileBackedStorage_Storage.
#[local] Existing Instance Server.storage_Storage.

Section Layers.
Context {S : Type} `{Storage S} `{UnicodeTables, PgErrorText, JsonErrorText, MapRange}.
Context (same : relation S).

(** Worlds with storages that look the same, and equal otherwise. *)
Record like (w w' : world S) : Prop := {
  like_st : same (st w) (st w');
  like_spawned : spawned w = spawned w';
  like_logs : logs w = logs w';
  like_clock : clock w = clock w'
}.

(** Handlers with the same answer in such worlds, and middleware that keeps this. *)
Abbreviation answers_alike := (eq ==> like ==> prod_relation like eq)%signature.

Lemma like_log l : Proper (like ==> like) (log l).
Proof. intros w w' [L1 L2 L3 L4]. split; cbn; by rewrite ?L2, ?L3, ?L4. Qed.

Lemma finish_like h r o s s' w w' : same s s' -> like w w' ->
  like (Concurrent.finish h r o (set_st s w)) (Concurrent.finish h r o (set_st s' w')).
Proof.
  intros Hs [L1 L2 L3 L4]. unfold Concurrent.finish, Handler.emitAudit.
  destruct (Concurrent.audited o), (Concurrent.complaint o) as [[? ?]|], (Handler.publisher h); split; cbn; by rewrite ?L2, ?L3, ?L4.
Qed.

#[local] Instance handle_respects h e : Concurrent.respected h same -> Proper answers_alike (Handler.handle h e).
Proof.
  intros Hx r ? <- w w' Hw. rewrite !Concurrent.handle_prog.
  destruct (Concurrent.alone_respected h same (Concurrent.handler_of h e r) _ _ Hx (like_st _ _ Hw)) as [Hs Ho].
  destruct (Concurrent.alone h _ (st w)) as [s1 o], (Concurrent.alone h _ (st w')) as [s2 o']. cbn in *. subst o'.
  split; [by apply finish_like|done].
Qed.

(** Each middleware answers by itself, or changes what the inner handler is given and what
    it answers. *)
Lemma Logger_respects : Proper (answers_alike ==> answers_alike) (@Middleware.Logger S).
Proof.
  intros f g Hf r ? <- w w' Hw. unfold Middleware.Logger. destruct (Hf r r eq_refl w w' Hw) as [Hl Ho].
  destruct (f r w), (g r w'). cbn in *. subst. split; [by apply like_log|done].
Qed.

Lemma Gzip_respects `{Gzip} : Proper (answers_alike ==> answers_alike) (@Middleware.GzipMiddleware S _).
Proof.
  intros f g Hf r ? <- w w' Hw. unfold Middleware.GzipMiddleware.
  assert (forall r, prod_relation like eq (if negb (Contains (header_Get "Accept-Encoding" (Header r)) "gzip") then f r w
      else let '(w, ops) := f r w in (w, [HSet "Content-Encoding" "gzip"; HDel "Content-Length"] ++ Middleware.gzip_ops [] ops))
    (if negb (Contains (header_Get "Accept-Encoding" (Header r)) "gzip") then g r w'
      else let '(w, ops) := g r w' in (w, [HSet "Content-Encoding" "gzip"; HDel "Content-Length"] ++ Middleware.gzip_ops [] ops))) as Ha.
  { intros r1. pose proof (Hf r1 r1 eq_refl w w' Hw) as Hn. destruct (negb _); [done|]. destruct Hn as [Hl Ho].
    destruct (f r1 w), (g r1 w'). cbn in *. by subst. }
  case_bool_decide; [|apply Ha]. destruct (gzip_NewReader (Body r)); [apply Ha|done].
Qed.

Lemma Hash_respects key m : Middleware.HashMiddleware key = Some m -> Proper (answers_alike ==> answers_alike) (m : Middleware.middleware S).
Proof.
  unfold Middleware.HashMiddleware. case_bool_decide; [done|]. intros [= <-] f g Hf r ? <- w w' Hw.
  destruct (ReadAll (Body r)) as [body|]; [|split; [by apply like_log|done]]. set (r1 := with_body _ r).
  destruct (negb _ && negb _); [done|]. destruct (Hf r1 r1 eq_refl w w' Hw) as [Hl Ho]. destruct (f r1 w), (g r1 w'). cbn in *. by subst.
Qed.

Lemma Crypto_respects `{Primitives} priv m : Middleware.CryptoMiddleware priv = Some m -> Proper (answers_alike ==> answers_alike) (m : Middleware.middleware S).
Proof.
  unfold Middleware.CryptoMiddleware. destruct priv as [priv|]; [|done]. intros [= <-] f g Hf r ? <- w w' Hw.
  case_bool_decide; [by apply Hf|]. destruct (ReadAll (Body r)); [|split; [by apply like_log|done]].
  destruct (Crypto.Decrypt priv _) as [[]|]; [by apply Hf|split; [by apply like_log|done]|done].
Qed.

Lemma Trusted_respects cidr m : Middleware.TrustedSubnetMiddleware cidr = Ok (Some m) -> Proper (answers_alike ==> answers_alike) (m : Middleware.middleware S).
Proof.
  unfold Middleware.TrustedSubnetMiddleware. case_bool_decide; [done|]. destruct (ParseCIDR cidr) as [network|]; [|done].
  intros [= <-] f g Hf r ? <- w w' Hw. destruct (ParseIP _) as [ip|]; [|split; [by apply like_log|done]].
  destruct (negb _); [split; [by apply like_log|done]|by apply Hf].
Qed.

Lemma Use_respects (o : option (Middleware.middleware S)) f :
  (forall m, o = Some m -> Proper (answers_alike ==> answers_alike) m) -> Proper answers_alike f -> Proper answers_alike (Middleware.Use o f).
Proof. intros Hm Hf. destruct o as [m|]; cbn; [by apply (Hm m)|done]. Qed.

Lemma newRouter_respects `{Chi, Primitives, Gzip} h cidr key priv subnet :
  Concurrent.respected h same -> Middleware.TrustedSubnetMiddleware cidr = Ok subnet ->
  Proper answers_alike (Middleware.newRouter h key priv subnet).
Proof.
  intros Hx Hs. apply Logger_respects. apply Use_respects; [intros m ->; by eapply Trusted_respects|].
  apply Use_respects; [intros m; apply Crypto_respects|]. apply Gzip_respects. apply Use_respects; [intros m; apply Hash_respects|].
  intros r ? <- w w' Hw. unfold serve. destruct (chi_route _ _ _) as [[e params]|]; [|done]. by apply handle_respects.
Qed.

(** ** gRPC *)

Lemma intercept_respects h cidr i req md s s' :
  Concurrent.respected h same -> Grpc.TrustedSubnetInterceptor cidr = Ok i -> same s s' ->
  prod_relation same eq (Grpc.intercept i (fun _ => Grpc.UpdateMetrics (Handler.svc h) req) md s)
    (Grpc.intercept i (fun _ => Grpc.UpdateMetrics (Handler.svc h) req) md s').
Proof.
  intros Hx Hi Hs. assert (prod_relation same eq (Grpc.UpdateMetrics (Handler.svc h) req s) (Grpc.UpdateMetrics (Handler.svc h) req s')) as Hu.
  { unfold Grpc.UpdateMetrics. destruct (Grpc.convert req) as [ms|]; [|done]. rewrite <- !Concurrent.alone_UpdateBatch.
    match goal with |- context [Concurrent.alone h ?p s] => destruct (Concurrent.alone_respected h same p s s' Hx Hs) as [Ha Hb];
      destruct (Concurrent.alone h p s) as [s1 r1], (Concurrent.alone h p s') as [s2 r2] end. cbn in Ha, Hb. subst r2. by destruct r1. }
  revert Hi. unfold Grpc.TrustedSubnetInterceptor. case_bool_decide; [by intros [= <-]|]. destruct (ParseCIDR cidr) as [network|]; [|done].
  intros [= <-]. cbn [Grpc.intercept]. destruct (ParseIP _); [|done]. by destruct (negb _).
Qed.
End Layers.

(** ** The server process *)

(** The same backend: a database and a memory in the same state, a file-backed storage with
    the same metrics in memory. *)
Definition same_memory (s s' : Server.storage) : Prop :=
  match s, s' with
  | Server.UseDB d, Server.UseDB d' => d = d'
  | Server.UseFile f, Server.UseFile f' => FileBackedStorage.mem f = FileBackedStorage.mem f'
  | Server.UseMem m, Server.UseMem m' => m = m'
  | _, _ => False
  end.

#[export] Instance same_memory_equiv : Equivalence same_memory.
Proof.
  split; [by intros []|by intros [] []; cbn|]. intros [d1|f1|m1] [d2|f2|m2] [d3|f3|m3]; cbn; try done; congruence.
Qed.

Lemma on_file_same g s : (forall f, FileBackedStorage.mem (g f) = FileBackedStorage.mem f) -> same_memory (Server.on_file g s) s.
Proof. intros Hg. destruct s; cbn; [done|apply Hg|done]. Qed.

Abbreviation alike := (like same_memory).

#[export] Instance alike_equiv : Equivalence alike.
Proof.
  split.
  - intros w. by split.
  - intros w w' [L1 L2 L3 L4]. split; by symmetry.
  - intros w1 w2 w3 [L1 L2 L3 L4] [M1 M2 M3 M4]. split; [by etrans|congruence..].
Qed.

Lemma set_st_alike s w : same_memory s (st w) -> alike (set_st s w) w.
Proof. intros Hs. by split. Qed.

Section Process.
Context `{RetryGo, PgErrCode, RowOrder} `{UnicodeTables, PgErrorText, JsonErrorText, MapRange}.
Context `{Chi, Primitives, !KeyFormats, Gzip}.
Context (cfg : ServerConfig.t) (inp : Server.inputs).

Lemma notify_same s0 s s' : same_memory s s' ->
  same_memory (MetricService.notifyUpdate (Server.make_service cfg s0) s) (MetricService.notifyUpdate (Server.make_service cfg s0) s').
Proof.
  intros Hs. assert (forall s, same_memory (MetricService.notifyUpdate (Server.make_service cfg s0) s) s) as Hn.
  { intros x. unfold Server.make_service. destruct s0; [done| |done]. destruct (_ =? 0)%Z; [|done]. cbn.
    apply on_file_same, FileBackedStorage.SaveOnUpdate_mem. }
  by rewrite !Hn.
Qed.

Lemma server_respected h s0 : Handler.svc h = Server.make_service cfg s0 -> Handler.pinger h = Server.make_pinger inp s0 ->
  Concurrent.respected h same_memory.
Proof.
  intros Hv Hp R c s s' Hs. destruct c; cbn [Concurrent.exec]; rewrite ?Hv, ?Hp.
  7: by split; [apply notify_same|].
  7: { destruct s0; cbn [Server.make_pinger]; [|done..]. destruct s, s'; try done. cbn in Hs. subst. by destruct (Server.db_ping _ _). }
  all: destruct s as [d|f|m], s' as [d'|f'|m']; try done; cbn in Hs; subst; cbn; unfold FileBackedStorage.GetMetric, FileBackedStorage.GetValue, FileBackedStorage.GetAllMetrics;
    rewrite ?Hs; try done; by repeat case_match.
Qed.

(** A server [main] put together answers an event alike in worlds that are alike. *)
Lemma server_alike p : Server.main cfg inp = Server.Running p ->
  (forall r w w', alike w w' -> prod_relation alike eq (Server.router p r w) (Server.router p r w')) /\
  (forall i req md s s', Server.grpc p = Some i -> same_memory s s' ->
     prod_relation same_memory eq (Grpc.intercept i (fun _ => Grpc.UpdateMetrics (Server.svc p) req) md s)
       (Grpc.intercept i (fun _ => Grpc.UpdateMetrics (Server.svc p) req) md s')) /\
  (forall e w w', alike w w' -> alike (Server.step p e w) (Server.step p e w')).
Proof.
  intros Hm. destruct (main_running cfg inp p Hm) as (h & subnet & key & priv & Hsvc & Hh & Hp & Hs & Hr & _ & _ & Hg).
  assert (Concurrent.respected h same_memory) as Hx by (eapply server_respected; [by rewrite Hh, Hsvc|exact Hp]).
  assert (forall r w w', alike w w' -> prod_relation alike eq (Server.router p r w) (Server.router p r w')) as Hrouter.
  { intros r w w' Hw. rewrite Hr. by eapply newRouter_respects. }
  assert (forall i req md s s', Server.grpc p = Some i -> same_memory s s' ->
     prod_relation same_memory eq (Grpc.intercept i (fun _ => Grpc.UpdateMetrics (Server.svc p) req) md s)
       (Grpc.intercept i (fun _ => Grpc.UpdateMetrics (Server.svc p) req) md s')) as Hgrpc.
  { intros i req md s s' Hi Hss. rewrite <- Hh. by eapply intercept_respects; [|apply Hg|]. }
  split_and!; [exact Hrouter|exact Hgrpc|]. intros [r|md req|] w w' Hw; cbn [Server.step].
  - by apply Hrouter.
  - destruct (Server.grpc p) as [i|] eqn:Hi; [|done]. destruct Hw as [L1 L2 L3 L4].
    destruct (Hgrpc i req md _ _ eq_refl L1) as [Hs' _]. by split.
  - destruct (Server.ticks p); [|done]. destruct Hw as [L1 L2 L3 L4]. split; [|done..]. cbn.
    assert (forall s, same_memory (Server.on_file FileBackedStorage.periodic_tick s) s) as Ht; [|by rewrite !Ht].
    intros s. apply on_file_same. intros f. unfold FileBackedStorage.periodic_tick. pose proof (FileBackedStorage.Save_mem' f) as [Hmf _].
    by destruct (FileBackedStorage.Save f) as [f1 [e|]].
Qed.
End Process.
