(* ===== verification/Lifecycle.v ===== *)
(** * cmd/server: the process from start to exit

    The goroutines of [main] once the storage is open: the HTTP listener, the gRPC
    server, the goroutine that shuts both down within five seconds, the periodic saves,
    the requests and calls in flight, the audit notifications, and [main] itself, which
    waits for the group, saves, closes the audit file and returns.  [fire] performs one
    step of one of them.  A request is handled in one step between its arrival and its
    reply ([Concurrent] says why that is enough).  A periodic save is the steps of
    [PeriodicSave], which nothing waits for: the process may exit between any two of
    them.  It excludes the final save by the mutex of the file; the saves of handlers
    are made only where there are no periodic ones ([saver_alone]).  [ListenAndServe] and [Serve] are
    entered before their servers are stopped. *)

From S2P Require Import Prelude Errors GoInt GoStrings NetIP GoFloat Model GoJson Storage Retry DBStore Service FileStore Overlap PeriodicSave Http AuditTrail Dashboard Handler Hash Crypto Keys Compress Middleware Grpc Flags Duration Database Config Server.

#[local] Existing Instance FileBackedStorage.FileBackedStorage_Storage.
#[local] Existing Instance FileBackedStorage.FileBackedStorage_laws.
#[local] Existing Instance Server.storage_Storage.
#[local] Existing Instance Server.storage_laws.

Module Lifecycle.

(** What has become of a call: accepted; handled, with its answer; answered. *)
Inductive phase (B : Type) := Accepted | Handled (b : B) | Sent (b : B).
Arguments Accepted {B}.
Arguments Handled {B} _.
Arguments Sent {B} _.

Definition in_flight {B} (p : phase B) : bool := match p with Sent _ => false | _ => true end.

(** A listener and the calls it accepted. *)
Record side (A B : Type) := MkSide { open : bool; calls : list (A * phase B) }.
Arguments MkSide {A B} _ _.
Arguments open {A B} _.
Arguments calls {A B} _.

Definition drained {A B} (x : side A B) : bool := forallb (fun c => negb (in_flight c.2)) (calls x).
(** Every handler that was started has returned. *)
Definition returned {A B} (x : side A B) : bool := forallb (fun c => match c.2 with Accepted => false | _ => true end) (calls x).
Definition close_side {A B} (x : side A B) : side A B := MkSide false (calls x).
Definition accept {A B} (a : A) (x : side A B) : side A B := MkSide (open x) (calls x ++ [(a, Accepted)]).
Definition advance {A B} (i : nat) (a : A) (p : phase B) (x : side A B) : side A B := MkSide (open x) (<[i := (a, p)]> (calls x)).

(** A goroutine of the group. *)
Inductive routine := NotStarted | Serving | Returned.

(** The goroutine that shuts down: before [<-ctx.Done()]; in [srv.Shutdown]; in the
    deferred [select], with the result of [Shutdown]; after [grpcSrv.Stop()]; returned. *)
Inductive stop_pc := StopNotStarted | AwaitCtx | InShutdown | InDefer (err : option error) | Forced (err : option error) | StopReturned.

(** The goroutine of [GracefulStop]: not there; started; waiting for the calls; done. *)
Inductive graceful_pc := NoGraceful | Spawned | Draining | Stopped.

Inductive main_pc := Starting | Waiting | Saving | ClosingAudit | ClosingDB | Exited (fatal : option error).

Record threads := MkThreads {
  ctx_done : bool;
  group_err : option error;
  listen_at : routine;
  serve_at : routine;
  stop_at : stop_pc;
  graceful_at : graceful_pc;
  deadline : bool;              (* of shutdownCtx *)
  forced : bool;                (* grpcSrv.Stop() was called *)
  saver : PeriodicSave.pc;      (* the goroutine of the periodic saves *)
  main_at : main_pc
}.

Definition set_ctx (th : threads) : threads :=
  MkThreads true (group_err th) (listen_at th) (serve_at th) (stop_at th) (graceful_at th) (deadline th) (forced th) (saver th) (main_at th).
(** A goroutine of the group returns [err]: the first error is kept and cancels the
    context. *)
Definition group_return (err : option error) (th : threads) : threads :=
  match err with
  | None => th
  | Some e => MkThreads true (match group_err th with None => Some e | Some e0 => Some e0 end)
                (listen_at th) (serve_at th) (stop_at th) (graceful_at th) (deadline th) (forced th) (saver th) (main_at th)
  end.
Definition set_listen (p : routine) (th : threads) : threads :=
  MkThreads (ctx_done th) (group_err th) p (serve_at th) (stop_at th) (graceful_at th) (deadline th) (forced th) (saver th) (main_at th).
Definition set_serve (p : routine) (th : threads) : threads :=
  MkThreads (ctx_done th) (group_err th) (listen_at th) p (stop_at th) (graceful_at th) (deadline th) (forced th) (saver th) (main_at th).
Definition set_stop (p : stop_pc) (th : threads) : threads :=
  MkThreads (ctx_done th) (group_err th) (listen_at th) (serve_at th) p (graceful_at th) (deadline th) (forced th) (saver th) (main_at th).
Definition set_graceful (p : graceful_pc) (th : threads) : threads :=
  MkThreads (ctx_done th) (group_err th) (listen_at th) (serve_at th) (stop_at th) p (deadline th) (forced th) (saver th) (main_at th).
Definition set_deadline (th : threads) : threads :=
  MkThreads (ctx_done th) (group_err th) (listen_at th) (serve_at th) (stop_at th) (graceful_at th) true (forced th) (saver th) (main_at th).
Definition set_forced (th : threads) : threads :=
  MkThreads (ctx_done th) (group_err th) (listen_at th) (serve_at th) (stop_at th) (graceful_at th) (deadline th) true (saver th) (main_at th).
Definition set_saver (q : PeriodicSave.pc) (th : threads) : threads :=
  MkThreads (ctx_done th) (group_err th) (listen_at th) (serve_at th) (stop_at th) (graceful_at th) (deadline th) (forced th) q (main_at th).
Definition set_main (p : main_pc) (th : threads) : threads :=
  MkThreads (ctx_done th) (group_err th) (listen_at th) (serve_at th) (stop_at th) (graceful_at th) (deadline th) (forced th) (saver th) p.

Abbreviation rpc_call := (gmap string (list string) * UpdateMetricsRequest)%type.

(** A notification: the event, whether errors are logged, the observers still to be
    told.  [received] records what every observer was told, and what it answered. *)
Record t := Mk {
  world : Handler.world Server.storage;
  http : side request (list wop);
  rpc : side rpc_call (option status_error);
  audit : AuditTrail.world;
  todo : list (Event * bool * list AuditTrail.Observer);
  received : list (AuditTrail.Observer * Event * option error);
  th : threads
}.

Definition with_th (f : threads -> threads) (s : t) : t :=
  Mk (world s) (http s) (rpc s) (audit s) (todo s) (received s) (f (th s)).
Definition with_http (x : side request (list wop)) (s : t) : t := Mk (world s) x (rpc s) (audit s) (todo s) (received s) (th s).
Definition with_rpc (x : side rpc_call (option status_error)) (s : t) : t := Mk (world s) (http s) x (audit s) (todo s) (received s) (th s).
Definition with_audit (a : AuditTrail.world) (s : t) : t := Mk (world s) (http s) (rpc s) a (todo s) (received s) (th s).

(** The world after a handler, with the goroutines it started. *)
Definition with_world (w : Handler.world Server.storage) (s : t) : t :=
  let new := drop (length (spawned (world s))) (spawned w) in
  Mk w (http s) (rpc s) (audit s)
    (todo s ++ map (fun pe => (pe.2, AuditTrail.logger pe.1, AuditTrail.observers pe.1)) new) (received s) (th s).

Inductive label :=
| Signal
| ListenFails (err : error)
| ListenReturns
| GrpcListen
| ServeFails (err : error)
| ServeReturns
| ShutdownBegins
| Deadline
| ShutdownReturns (late : bool)
| GracefulBegins
| GracefulEnds
| GracefulAbandons
| ForceStop
| StopReturns
| GroupWait
| FinalSave
| CloseAudit
| Exit
| Saver (b : PeriodicSave.label)
| SaverStops
| HttpAccept (r : request)
| HttpHandle (i : nat)
| HttpSend (i : nat)
| RpcAccept (md : gmap string (list string)) (req : UpdateMetricsRequest)
| RpcHandle (i : nat)
| RpcSend (i : nat)
| Receive (i : nat).

(** [context.DeadlineExceeded] *)
Definition DeadlineExceeded : error := ErrorText "context deadline exceeded".

Definition when (b : bool) (s : t) : option t := if b then Some s else None.

Section Run.
Context `{RetryGo, PgErrCode, RowOrder} `{UnicodeTables, PgErrorText, JsonErrorText, MapRange, URLs}.

(** What [main] put together; what listening on the gRPC address answers; the audit
    publisher. *)
Context (p : Server.process) (grpc_listen : option error) (publisher : option AuditTrail.Publisher).

Definition alive (s : t) : bool := match main_at (th s) with Exited _ => false | _ => true end.

(** The goroutine of [srv.ListenAndServe]. *)
Definition fire_listen (b : label) (s : t) : option t :=
  let x := th s in
  match b with
  | ListenFails err =>
      match listen_at x with
      | Serving => when (open (http s)) (with_th (fun x => group_return (Some err) (set_listen Returned x)) (with_http (close_side (http s)) s))
      | _ => None
      end
  | ListenReturns =>
      match listen_at x with Serving => when (negb (open (http s))) (with_th (set_listen Returned) s) | _ => None end
  | _ => None
  end.

(** The gRPC listener and the goroutine of [grpcSrv.Serve]. *)
Definition fire_grpc (b : label) (s : t) : option t :=
  let x := th s in
  match b with
  | GrpcListen =>
      match main_at x, Server.grpc p, grpc_listen with
      | Starting, None, _ => Some (with_th (fun x => set_main Waiting (set_stop AwaitCtx x)) s)
      | Starting, Some _, Some err => Some (with_th (set_main (Exited (Some err))) s)
      | Starting, Some _, None =>
          Some (with_th (fun x => set_main Waiting (set_stop AwaitCtx (set_serve Serving x))) (with_rpc (MkSide true (calls (rpc s))) s))
      | _, _, _ => None
      end
  | ServeFails err =>
      match serve_at x with
      | Serving => when (open (rpc s)) (with_th (fun x => group_return (Some err) (set_serve Returned x)) (with_rpc (close_side (rpc s)) s))
      | _ => None
      end
  | ServeReturns =>
      match serve_at x with Serving => when (negb (open (rpc s))) (with_th (set_serve Returned) s) | _ => None end
  | _ => None
  end.

(** The goroutine that shuts both servers down, and the one of [GracefulStop].  That
    one waits for the calls to be answered; after [grpcSrv.Stop()], which cuts the
    connections, it may go on waiting for the handlers that still run, or not
    ([GracefulAbandons]): its documentation leaves it open. *)
Definition fire_stop (b : label) (s : t) : option t :=
  let x := th s in
  match b with
  | ShutdownBegins =>
      match stop_at x with
      | AwaitCtx => when (ctx_done x) (with_th (fun x => set_graceful (match Server.grpc p with Some _ => Spawned | None => NoGraceful end) (set_stop InShutdown x))
                           (with_http (close_side (http s)) s))
      | _ => None
      end
  | Deadline =>
      match stop_at x with
      | InShutdown | InDefer _ => when (negb (deadline x)) (with_th set_deadline s)
      | _ => None
      end
  | ShutdownReturns late =>
      match stop_at x with
      | InShutdown =>
          let err := if late then Some DeadlineExceeded else None in
          when (if late then deadline x else drained (http s))
            (match graceful_at x with
             | NoGraceful => with_th (fun x => group_return err (set_stop StopReturned x)) s
             | _ => with_th (set_stop (InDefer err)) s
             end)
      | _ => None
      end
  | GracefulBegins =>
      match graceful_at x with Spawned => Some (with_th (set_graceful Draining) (with_rpc (close_side (rpc s)) s)) | _ => None end
  | GracefulEnds =>
      match graceful_at x with Draining => when (drained (rpc s) || (forced x && returned (rpc s))) (with_th (set_graceful Stopped) s) | _ => None end
  | GracefulAbandons =>
      match graceful_at x with Draining => when (forced x) (with_th (set_graceful Stopped) s) | _ => None end
  | ForceStop =>
      match stop_at x with
      | InDefer err => when (deadline x) (with_th (fun x => set_forced (set_stop (Forced err) x)) (with_rpc (close_side (rpc s)) s))
      | _ => None
      end
  | StopReturns =>
      match stop_at x, graceful_at x with
      | (InDefer err | Forced err), Stopped => Some (with_th (fun x => group_return err (set_stop StopReturned x)) s)
      | _, _ => None
      end
  | _ => None
  end.

(** [main] after [g.Wait()]: the final save, when the mutex of the file is free, and the
    deferred closing of the audit observers and of the database. *)
Definition fire_exit (b : label) (s : t) : option t :=
  let x := th s in
  match b with
  | GroupWait =>
      match main_at x, listen_at x, serve_at x, stop_at x with
      | Waiting, Returned, (NotStarted | Returned), StopReturned => Some (with_th (fun x => set_main Saving (set_ctx x)) s)
      | _, _, _, _ => None
      end
  | FinalSave =>
      match main_at x with
      | Saving => when (negb (PeriodicSave.holds_mu (saver x)))
                    (with_th (set_main ClosingAudit) (with_world (set_st (Server.shutdown (st (world s))).1 (world s)) s))
      | _ => None
      end
  | CloseAudit =>
      match main_at x with
      | ClosingAudit =>
          Some (with_th (set_main ClosingDB)
            (match publisher with
             | None => s
             | Some pub => let '(a, err) := AuditTrail.Close pub (audit s) in
                           with_audit (match err with Some e => AuditTrail.log e a | None => a end) s
             end))
      | _ => None
      end
  | Exit => match main_at x with ClosingDB => Some (with_th (set_main (Exited None)) s) | _ => None end
  | _ => None
  end.

(** The steps of [main] and its goroutines. *)
Definition fire_main (b : label) (s : t) : option t :=
  match b with
  | Signal => Some (with_th set_ctx s)
  | ListenFails _ | ListenReturns => fire_listen b s
  | GrpcListen | ServeFails _ | ServeReturns => fire_grpc b s
  | ShutdownBegins | Deadline | ShutdownReturns _ | GracefulBegins | GracefulEnds | GracefulAbandons | ForceStop | StopReturns => fire_stop b s
  | GroupWait | FinalSave | CloseAudit | Exit => fire_exit b s
  | _ => None
  end.

(** The storage as the goroutine of the periodic saves has it: it is started over a file. *)
Definition file_of (s : Server.storage) : FileBackedStorage.t :=
  match s with Server.UseFile f => f | _ => FileBackedStorage.NewFileBackedStorage "" ∅ end.

(** The goroutine of the periodic saves. *)
Definition fire_saver (b : label) (s : t) : option t :=
  match b with
  | Saver b =>
      match PeriodicSave.step b (saver (th s)) (file_of (st (world s))) with
      | Some (q, f) =>
          Some (with_th (set_saver q) (with_world (set_st (Server.on_file (fun _ => f) (st (world s))) (world s)) s))
      | None => None
      end
  | SaverStops =>
      match saver (th s) with
      | PeriodicSave.Selecting => when (ctx_done (th s)) (with_th (set_saver PeriodicSave.Off) s)
      | _ => None
      end
  | _ => None
  end.

(** The requests and calls: one is accepted, its handler runs, its answer is sent. *)
Definition fire_call (b : label) (s : t) : option t :=
  match b with
  | HttpAccept r => when (open (http s)) (with_http (accept r (http s)) s)
  | HttpHandle i =>
      match calls (http s) !! i with
      | Some (r, Accepted) => let '(w, ops) := Server.router p r (world s) in
                              Some (with_http (advance i r (Handled ops) (http s)) (with_world w s))
      | _ => None
      end
  | HttpSend i =>
      match calls (http s) !! i with
      | Some (r, Handled ops) => Some (with_http (advance i r (Sent ops) (http s)) s)
      | _ => None
      end
  | RpcAccept md req => when (open (rpc s)) (with_rpc (accept (md, req) (rpc s)) s)
  | RpcHandle i =>
      match calls (rpc s) !! i, Server.grpc p with
      | Some ((md, req), Accepted), Some interceptor =>
          let '(st', code) := Grpc.intercept interceptor (fun _ => Grpc.UpdateMetrics (Server.svc p) req) md (st (world s)) in
          Some (with_rpc (advance i (md, req) (Handled code) (rpc s)) (with_world (set_st st' (world s)) s))
      | _, _ => None
      end
  | RpcSend i =>
      match calls (rpc s) !! i with
      | Some (c, Handled code) => when (negb (forced (th s))) (with_rpc (advance i c (Sent code) (rpc s)) s)
      | _ => None
      end
  | _ => None
  end.

(** The goroutines of [Notify]. *)
Definition fire_notify (b : label) (s : t) : option t :=
  match b with
  | Receive i =>
      match todo s !! i with
      | Some (e, lg, o :: os) =>
          let '(a, err) := AuditTrail.Receive o e (audit s) in
          Some (Mk (world s) (http s) (rpc s) (match err, lg with Some x, true => AuditTrail.log x a | _, _ => a end)
            (<[i := (e, lg, os)]> (todo s)) (received s ++ [(o, e, err)]) (th s))
      | _ => None
      end
  | _ => None
  end.

(** The steps that are not [main]'s. *)
Definition fire_work (b : label) (s : t) : option t :=
  match b with
  | Saver _ | SaverStops => fire_saver b s
  | Receive _ => fire_notify b s
  | _ => fire_call b s
  end.

Definition fire (b : label) (s : t) : option t :=
  if alive s then match fire_main b s with Some s' => Some s' | None => fire_work b s end else None.

(** A process that has just started to serve HTTP. *)
Definition init (audit0 : AuditTrail.world) : t :=
  Mk (Server.world p) (MkSide true []) (MkSide false []) audit0 [] []
    (MkThreads false None Serving NotStarted StopNotStarted NoGraceful false false
      (if Server.ticks p then PeriodicSave.Selecting else PeriodicSave.Off) Starting).
End Run.
End Lifecycle.
