(* ===== verification/LifecycleFacts.v ===== *)
(** * What a run of the server process guarantees

    It ends when it is told to, whatever its handlers do; when it ends cleanly nothing
    accepted is lost from the file; and what happens to the audit notifications. *)

From S2P Require Import Prelude Errors GoInt GoStrings NetIP GoFloat GoFloatFacts Model GoJson Storage Retry DBStore Service FileStore Overlap PeriodicSave Http AuditTrail Dashboard Handler HandlerFacts Hash Crypto Keys Compress Middleware MiddlewareFacts Delivery Grpc Flags Duration Database Config Server ServerFacts Indistinct Lifecycle.
Import Lifecycle.

#[local] Existing Instance FileBackedStorage.FileBackedStorage_Storage.
#[local] Existing Instance FileBackedStorage.FileBackedStorage_laws.
#[local] Existing Instance Server.storage_Storage.
#[local] Existing Instance Server.storage_laws.

(** The cases of a step, one per branch of the code. *)
Ltac step_cases Hf := unfold fire_main, fire_listen, fire_grpc, fire_stop, fire_exit, fire_work, fire_saver, fire_call, fire_notify, when in Hf; repeat (case_match; try discriminate Hf); try injection Hf as <-;
  repeat match goal with E : _ && _ = true |- _ => apply andb_true_iff in E as [? ?] end;
  try match goal with |- context [group_return ?err] => is_var err; destruct err end.
Ltac project := cbn [with_th with_http with_rpc with_audit with_world close_side accept advance world http rpc audit todo received th open calls
  ctx_done group_err listen_at serve_at stop_at graceful_at deadline forced saver main_at set_ctx set_listen set_serve set_stop
  set_graceful set_deadline set_forced set_saver set_main group_return] in *.

(** What the tests of a step say, put into the goal and the hypotheses. *)
Ltac tests s := repeat match goal with
  | E : negb ?b = true |- _ => apply negb_true_iff in E
  | E : ?f (th s) = _ |- _ => rewrite !E in *; clear E
  end.

Section Process.
Context `{RetryGo, PgErrCode, RowOrder} `{UnicodeTables, PgErrorText, JsonErrorText, MapRange, URLs}.
Context (p : Server.process) (grpc_listen : option error) (publisher : option AuditTrail.Publisher).

#[local] Abbreviation fire' := (fire p grpc_listen publisher).

Definition valid_label (b : label) : Prop := match b with RpcAccept _ req => valid_req req | _ => True end.
Definition step (s s' : t) : Prop := exists b, valid_label b /\ fire' b s = Some s'.

(** ** Ending *)

(** The steps [main] and its goroutines take by themselves, and the clock's. *)
Definition eager (b : label) : bool :=
  match b with
  | Signal | ListenFails _ | ServeFails _ | Saver _ | HttpAccept _ | HttpHandle _ | HttpSend _
  | RpcAccept _ _ | RpcHandle _ | RpcSend _ | Receive _ | GracefulAbandons => false
  | _ => true
  end.

Definition listen_rank (x : routine) : nat := match x with Serving => 1 | _ => 0 end.
Definition serve_rank (x : routine) : nat := match x with NotStarted => 2 | Serving => 1 | Returned => 0 end.
Definition stop_rank (x : stop_pc) : nat :=
  match x with StopNotStarted => 9 | AwaitCtx => 8 | InShutdown => 5 | InDefer _ => 4 | Forced _ => 3 | StopReturned => 0 end.
Definition graceful_rank (x : graceful_pc) : nat := match x with NoGraceful => 0 | Spawned => 2 | Draining => 1 | Stopped => 0 end.
Definition main_rank (x : main_pc) : nat :=
  match x with Starting => 6 | Waiting => 5 | Saving => 4 | ClosingAudit => 3 | ClosingDB => 2 | Exited _ => 0 end.
Definition flag_rank (x : bool) : nat := if x then 1 else 0.
Definition saver_rank (q : PeriodicSave.pc) : nat := match q with PeriodicSave.Off => 0 | _ => 1 end.

Lemma saver_on q : q <> PeriodicSave.Off -> saver_rank q = 1.
Proof. by destruct q. Qed.

Definition weight (x : threads) : nat :=
  listen_rank (listen_at x) + serve_rank (serve_at x) + stop_rank (stop_at x) + graceful_rank (graceful_at x)
  + flag_rank (negb (deadline x)) + saver_rank (saver x) + main_rank (main_at x).

Lemma fire_cases b s s' : fire' b s = Some s' -> alive s = true /\ (fire_main p grpc_listen publisher b s = Some s' \/ fire_work p b s = Some s').
Proof. unfold fire. destruct (alive s); [|done]. destruct (fire_main _ _ _ b s); [|by auto]. intros [= ->]. auto. Qed.

(** Where the goroutines can be, together. *)
Record wf (s : t) : Prop := {
  wf_start : main_at (th s) = Starting -> stop_at (th s) = StopNotStarted /\ serve_at (th s) = NotStarted /\ forced (th s) = false;
  wf_started : stop_at (th s) = StopNotStarted -> main_at (th s) = Starting \/ alive s = false;
  wf_listen : listen_at (th s) <> NotStarted;
  wf_open : match stop_at (th s) with StopNotStarted | AwaitCtx => True | _ => open (http s) = false end;
  wf_graceful : match stop_at (th s) with
                | StopNotStarted | AwaitCtx => graceful_at (th s) = NoGraceful
                | InShutdown => graceful_at (th s) = NoGraceful <-> Server.grpc p = None
                | InDefer _ | Forced _ => graceful_at (th s) <> NoGraceful
                | StopReturned => graceful_at (th s) = Stopped \/ graceful_at (th s) = NoGraceful /\ Server.grpc p = None
                end;
  wf_rpc : match graceful_at (th s) with Draining | Stopped => open (rpc s) = false | _ => True end;
  wf_no_rpc : Server.grpc p = None -> serve_at (th s) = NotStarted /\ open (rpc s) = false /\ calls (rpc s) = [];
  wf_forced : match stop_at (th s) with Forced _ => forced (th s) = true | _ => True end;
  wf_stopped : forced (th s) = true -> open (rpc s) = false;
  wf_late : forced (th s) = true -> deadline (th s) = true
}.

Lemma fire_wf b s s' : wf s -> fire' b s = Some s' -> wf s'.
Proof.
  intros Hw (Ha & Hf)%fire_cases.
  destruct Hf as [Hf|Hf]; destruct b; try discriminate Hf; step_cases Hf; destruct Hw as [W1 W2 W3 W4 W5 W6 W7 W8 W9 W10];
    split; unfold alive in *; project; try assumption; tests s; try done.
  all: try (intros; intuition congruence).
  all: try (destruct (graceful_at (th s)); done).
  all: try (destruct (stop_at (th s)); intuition congruence).
  all: try (destruct (W1 eq_refl) as (E & _ & F); rewrite E in W5; rewrite ?W5, ?F; done).
  intros Hn. destruct (W7 Hn) as (_ & _ & Hc). rewrite Hc in *. done.
Qed.
Lemma fire_weight b s s' : wf s -> fire' b s = Some s' ->
  weight (th s') <= weight (th s) /\ (eager b = true -> weight (th s') < weight (th s)).
Proof.
  intros Hw (_ & Hf)%fire_cases.
  destruct Hf as [Hf|Hf]; destruct b; try discriminate Hf; step_cases Hf; try (destruct (wf_start _ Hw) as (E1 & E2 & _); [done|]);
    try match goal with E : PeriodicSave.step _ _ _ = Some _ |- _ => apply PeriodicSave.step_rank in E as (Hon1%saver_on & Hon2%saver_on & _) end;
    unfold weight; project; tests s; cbn [listen_rank serve_rank stop_rank graceful_rank main_rank flag_rank saver_rank negb eager]; lia.
Qed.

Lemma init_wf a : wf (init p a).
Proof. split; cbn; try done. by left. Qed.

Lemma reachable_wf a s : rtc step (init p a) s -> wf s /\ weight (th s) <= 20.
Proof.
  intros Hs. assert (wf (init p a) /\ weight (th (init p a)) <= 20) as Hi.
  { split; [apply init_wf|]. unfold weight. cbn. destruct (Server.ticks p); cbn; lia. }
  revert Hi. induction Hs as [|x y z (b & _ & Hb) _ IH]; [done|]. intros [Hx Hle]. apply IH.
  destruct (fire_weight b x y Hx Hb). split; [by eapply fire_wf|lia].
Qed.

Lemma fire_ctx b s s' : fire' b s = Some s' -> ctx_done (th s) = true -> ctx_done (th s') = true.
Proof.
  intros (_ & Hf)%fire_cases Hc.
  destruct Hf as [Hf|Hf]; destruct b; try discriminate Hf; step_cases Hf; project; done.
Qed.

(** The hard stop came, and a handler of a gRPC call has not returned. *)
Definition held_up (s : t) : Prop := forced (th s) = true /\ exists i s', fire' (RpcHandle i) s = Some s'.

Lemma not_returned s : wf s -> alive s = true -> returned (rpc s) = false -> exists i s', fire' (RpcHandle i) s = Some s'.
Proof.
  intros Hw Ha Hr. assert (exists i c, calls (rpc s) !! i = Some (c, Accepted)) as (i & [md req] & Hi).
  { revert Hr. unfold returned. induction (calls (rpc s)) as [|[c q] l IH]; [done|]. cbn. destruct q; [by exists 0, c| |];
      (intros Hr; destruct (IH Hr) as (i & c' & Hi); by exists (Datatypes.S i), c'). }
  destruct (Server.grpc p) as [f|] eqn:Hg.
  - exists i. unfold fire. rewrite Ha. cbn. rewrite Hi, Hg. destruct (Grpc.intercept _ _ _ _) as [st' code]. by eexists.
  - destruct (wf_no_rpc _ Hw Hg) as (_ & _ & Hn). by rewrite Hn in Hi.
Qed.

(** The steps of a periodic save that was begun, and the ticks. *)
Definition saves (b : label) : bool := match b with Saver PeriodicSave.SaveTick => false | Saver _ => true | _ => false end.
Definition ticks (b : label) : bool := match b with Saver PeriodicSave.SaveTick => true | _ => false end.

(** The final save waits for the mutex, which a periodic save has. *)
Definition save_in_progress (s : t) : Prop := main_at (th s) = Saving /\ PeriodicSave.holds_mu (saver (th s)) = true /\
  exists b s', saves b = true /\ fire' b s = Some s'.

Lemma save_goes_on s : alive s = true -> main_at (th s) = Saving -> PeriodicSave.holds_mu (saver (th s)) = true -> save_in_progress s.
Proof.
  intros Ha Hm Hq. split_and!; [done..|]. assert (exists b, PeriodicSave.next (saver (th s)) = Some b) as [b Hb].
  { destruct (saver (th s)); try done; by eexists. }
  destruct (PeriodicSave.next_step _ b (file_of (st (world s))) Hb) as (q & f & Hs). exists (Saver b). eexists. split.
  - destruct (saver (th s)); try done; by injection Hb as <-.
  - unfold fire. rewrite Ha. cbn. by rewrite Hs.
Qed.

(** Once the context is done there is a step to take. *)
Lemma progress s : wf s -> alive s = true -> ctx_done (th s) = true ->
  (exists b s', eager b = true /\ fire' b s = Some s') \/ save_in_progress s \/ held_up s.
Proof.
  intros Hw Ha Hc.
  assert (forall b, eager b = true -> is_Some (fire_main p grpc_listen publisher b s) -> (exists b s', eager b = true /\ fire' b s = Some s') \/ held_up s) as Hgo.
  { intros b Hb [s' Hf]. left. exists b, s'. split; [done|]. unfold fire. by rewrite Ha, Hf. }
  assert (forall X, (exists b s', eager b = true /\ fire' b s = Some s') \/ held_up s -> (exists b s', eager b = true /\ fire' b s = Some s') \/ X \/ held_up s) as Hor by tauto.
  destruct (main_at (th s)) as [| | | | |fatal] eqn:Hm; [apply Hor|apply Hor| |apply Hor..|].
  - apply (Hgo GrpcListen); [done|]. cbn. rewrite Hm. destruct (Server.grpc p), grpc_listen; by eexists.
  - destruct (stop_at (th s)) as [| | |err|err|] eqn:Hst.
    + destruct (wf_started _ Hw Hst); congruence.
    + apply (Hgo ShutdownBegins); [done|]. cbn. rewrite Hst, Hc. by eexists.
    + destruct (deadline (th s)) eqn:Hd; [apply (Hgo (ShutdownReturns true))|apply (Hgo Deadline)]; try done; cbn; rewrite Hst, Hd; by eexists.
    + destruct (deadline (th s)) eqn:Hd; [apply (Hgo ForceStop)|apply (Hgo Deadline)]; try done; cbn; rewrite Hst, Hd; by eexists.
    + pose proof (wf_graceful _ Hw) as Hg. pose proof (wf_forced _ Hw) as Hf. rewrite Hst in Hg, Hf.
      destruct (graceful_at (th s)) eqn:Hgr; [done| | |]; [apply (Hgo GracefulBegins)| |apply (Hgo StopReturns)];
        try done; try (cbn; rewrite ?Hst, Hgr; by eexists).
      destruct (returned (rpc s)) eqn:Hre; [|right; split; [done|by apply not_returned]].
      apply (Hgo GracefulEnds); [done|]. cbn. rewrite Hgr, Hf, Hre, orb_true_r. by eexists.
    + pose proof (wf_open _ Hw) as Ho. pose proof (wf_graceful _ Hw) as Hg. pose proof (wf_rpc _ Hw) as Hr. rewrite Hst in Ho, Hg.
      destruct (listen_at (th s)) eqn:Hl; [by destruct (wf_listen _ Hw)| |].
      { apply (Hgo ListenReturns); [done|]. cbn. rewrite Hl, Ho. by eexists. }
      destruct (serve_at (th s)) eqn:Hse; [apply (Hgo GroupWait)|apply (Hgo ServeReturns)|apply (Hgo GroupWait)]; try done; cbn;
        rewrite ?Hm, ?Hl, ?Hse, ?Hst; try by eexists.
      destruct Hg as [Hg|[_ Hn]]; [rewrite Hg in Hr; rewrite Hr; by eexists|].
      destruct (wf_no_rpc _ Hw Hn); congruence.
  - destruct (PeriodicSave.holds_mu (saver (th s))) eqn:Hq; [right; left|apply Hor, (Hgo FinalSave); [done|]; cbn; rewrite Hm, Hq; by eexists].
    by apply save_goes_on.
  - apply (Hgo CloseAudit); [done|]. cbn. rewrite Hm. by eexists.
  - apply (Hgo Exit); [done|]. cbn. rewrite Hm. by eexists.
  - unfold alive in Ha. by rewrite Hm in Ha.
Qed.

Fixpoint run (bs : list label) (s : t) : option t :=
  match bs with [] => Some s | b :: bs => s ← fire' b s; run bs s end.

Lemma run_weight bs s s' : wf s -> run bs s = Some s' ->
  length (filter (fun b => eager b = true) bs) + weight (th s') <= weight (th s) /\ (ctx_done (th s) = true -> ctx_done (th s') = true).
Proof.
  revert s. induction bs as [|b bs IH]; intros s Hw; cbn [run]; [by intros [= ->]|].
  destruct (fire' b s) as [s1|] eqn:Hb; [|done]. cbn [mbind option_bind]. intros Hr.
  specialize (IH s1 (fire_wf _ _ _ Hw Hb) Hr). destruct (fire_weight b s s1 Hw Hb) as [Hle Hlt]. rewrite filter_cons.
  split; [case_decide as He; cbn [length]; [specialize (Hlt He)|]; lia|]. intros Hc. by eapply IH, fire_ctx.
Qed.

(** A periodic save is at most five steps. *)
Lemma fire_saves b s s' : fire' b s = Some s' ->
  PeriodicSave.rank (saver (th s')) + flag_rank (saves b) <= PeriodicSave.rank (saver (th s)) + 5 * flag_rank (ticks b).
Proof.
  intros (_ & Hf)%fire_cases.
  destruct Hf as [Hf|Hf]; destruct b as [| | | | | | | | | | | | | | | | | |b| | | | | | | |]; try discriminate Hf; step_cases Hf;
    try match goal with E : PeriodicSave.step _ _ _ = Some _ |- _ => apply PeriodicSave.step_rank in E as (_ & _ & Hrank) end;
    project; tests s; cbn [flag_rank saves ticks PeriodicSave.rank]; try lia.
  destruct Hrank as [(-> & -> & ->)|[Hn Hlt]]; [cbn; lia|]. destruct b; cbn [flag_rank saves ticks]; try lia.
Qed.

Lemma run_saves bs s s' : run bs s = Some s' ->
  length (filter (fun b => saves b = true) bs) + PeriodicSave.rank (saver (th s'))
  <= PeriodicSave.rank (saver (th s)) + 5 * length (filter (fun b => ticks b = true) bs).
Proof.
  revert s. induction bs as [|b bs IH]; intros s; cbn [run]; [intros [= ->]; cbn; lia|].
  destruct (fire' b s) as [s1|] eqn:Hb; [|done]. cbn [mbind option_bind]. intros Hr. specialize (IH s1 Hr).
  pose proof (fire_saves b s s1 Hb) as Hle. rewrite !filter_cons.
  repeat case_decide; cbn [length]; destruct (saves b), (ticks b); cbn [flag_rank] in *; done || lia.
Qed.

Lemma rank_le q : PeriodicSave.rank q <= 5.
Proof. destruct q; cbn; lia. Qed.

(** C12. The process ends.  From any moment of any run at which the context is done, by a
    signal or an error of a listener: as long as the process has not exited one of
    the steps that [main], its goroutines and the clock take by themselves is there to
    be taken, whatever the HTTP handlers, the clients and the audit observers do or
    fail to do, unless the final save waits for a periodic one, which then has a step to
    take, or the five seconds are over and a handler of a gRPC call has still not
    returned; and no run has more than twenty of these steps, nor more than five steps
    of periodic saves for every tick and the save that was going on. *)
Theorem process_exits a s :
  rtc step (init p a) s -> ctx_done (th s) = true ->
  ((exists fatal, main_at (th s) = Exited fatal) \/ (exists b s', eager b = true /\ fire' b s = Some s') \/
   save_in_progress s \/ deadline (th s) = true /\ held_up s) /\
  (forall bs s', run bs s = Some s' -> length (filter (fun b => eager b = true) bs) <= 20 /\
     length (filter (fun b => saves b = true) bs) <= 5 * (1 + length (filter (fun b => ticks b = true) bs)) /\ ctx_done (th s') = true).
Proof.
  intros Hs Hc. destruct (reachable_wf a s Hs) as [Hw Hle]. split.
  - destruct (alive s) eqn:Ha; [right|left].
    { destruct (progress s Hw Ha Hc) as [|[|Hh]]; [by left|by right; left|right; right]. split; [by apply (wf_late _ Hw), Hh|done]. }
    unfold alive in Ha. destruct (main_at (th s)); try done. by eexists.
  - intros bs s' Hr. destruct (run_weight bs s s' Hw Hr) as [Hb Hc']. pose proof (run_saves bs s s' Hr).
    pose proof (rank_le (saver (th s))). split_and!; [lia|lia|auto].
Qed.

(** ** Ending cleanly *)

Lemma drained_lookup {A B} (x : side A B) i a q : drained x = true -> calls x !! i = Some (a, q) -> in_flight q = false.
Proof.
  unfold drained. rewrite forallb_forall. intros Hd Hi. apply list_elem_of_lookup_2, list_elem_of_In, Hd in Hi. by apply negb_true_iff in Hi.
Qed.

(** The calls answered by the time the servers have stopped. *)
Record tidy (s : t) : Prop := {
  tidy_http : match stop_at (th s) with
              | InDefer None | Forced None => drained (http s) = true
              | StopReturned => group_err (th s) = None -> drained (http s) = true
              | _ => True
              end;
  tidy_rpc : graceful_at (th s) = Stopped -> forced (th s) = false -> drained (rpc s) = true;
  tidy_main : match main_at (th s) with Saving | ClosingAudit | ClosingDB | Exited None => stop_at (th s) = StopReturned | _ => True end
}.

Lemma drained_in_flight {A B} (x : side A B) i a q : calls x !! i = Some (a, q) -> in_flight q = true -> drained x = false.
Proof. intros Hi Hq. destruct (drained x) eqn:Hd; [|done]. by rewrite (drained_lookup x i a q Hd Hi) in Hq. Qed.

Lemma fire_tidy b s s' : wf s -> tidy s -> fire' b s = Some s' -> tidy s'.
Proof.
  intros Hw Ht (Ha & Hf)%fire_cases.
  assert (forall i r q, calls (http s) !! i = Some (r, q) -> in_flight q = true -> drained (http s) = false) as Hh by (intros *; apply drained_in_flight).
  assert (forall i r q, calls (rpc s) !! i = Some (r, q) -> in_flight q = true -> drained (rpc s) = false) as Hg by (intros *; apply drained_in_flight).
  destruct Hf as [Hf|Hf]; destruct b; try discriminate Hf; step_cases Hf; destruct Ht as [T1 T2 T3]; destruct Hw as [W1 W2 W3 W4 W5 W6 W7 W8 W9 W10];
    try match goal with E : calls (http s) !! _ = Some _ |- _ => pose proof (Hh _ _ _ E eq_refl) end;
    try match goal with E : calls (rpc s) !! _ = Some _ |- _ => pose proof (Hg _ _ _ E eq_refl) end;
    clear Hh Hg; split; project; try assumption; tests s; try done.
  all: try (intros; intuition congruence).
  all: try (destruct (main_at (th s)) as [| | | | |[?|]]; congruence).
  all: try (destruct (stop_at (th s)) as [| | |[?|]|[?|]|], (group_err (th s)); done || (intros; intuition congruence)).
  all: try (destruct (group_err (th s)); done).
  - intros _ F. match goal with E : _ || _ = true |- _ => rewrite F, andb_false_l, orb_false_r in E; done end.
  - intros Hst. rewrite Hst in W6. congruence.
Qed.
(** *** The sequential server behind a run

    The answers of [serve_events], one list per listener. *)
Definition reply (w : Handler.world Server.storage) (e : Server.event) : list (request * list wop) * list (rpc_call * option status_error) :=
  match e, Server.grpc p with
  | Server.HttpRequest r, _ => ([(r, (Server.router p r w).2)], [])
  | Server.GrpcCall md req, Some i => ([], [((md, req), (Grpc.intercept i (fun _ => Grpc.UpdateMetrics (Server.svc p) req) md (st w)).2)])
  | _, _ => ([], [])
  end.

Fixpoint replies (es : list Server.event) (w : Handler.world Server.storage) : list (request * list wop) * list (rpc_call * option status_error) :=
  match es with
  | [] => ([], [])
  | e :: es => let '(a, b) := replies es (Server.step p e w) in ((reply w e).1 ++ a, (reply w e).2 ++ b)
  end.

Lemma replies_snoc es e w : replies (es ++ [e]) w =
  ((replies es w).1 ++ (reply (foldl (fun w e => Server.step p e w) w es) e).1, (replies es w).2 ++ (reply (foldl (fun w e => Server.step p e w) w es) e).2).
Proof.
  revert w. induction es as [|e1 es IH]; intros w; cbn [replies app foldl]; [by rewrite !app_nil_r|].
  rewrite IH. destruct (replies es _) as [a b]. cbn [fst snd]. by rewrite !app_assoc.
Qed.

(** The calls that were handled, with their answers. *)
Definition answers_of {A B} (x : side A B) : list (A * B) :=
  omap (fun c => match c.2 with Accepted => None | Handled b | Sent b => Some (c.1, b) end) (calls x).

Lemma answers_accept {A B} (a : A) (x : side A B) : answers_of (accept a x) = answers_of x.
Proof. unfold answers_of. cbn. by rewrite omap_app, app_nil_r. Qed.

Lemma omap_insert_same {A B} (f : A -> option B) (l : list A) (i : nat) x y : l !! i = Some x -> f y = f x -> omap f (<[i := y]> l) = omap f l.
Proof. revert i. induction l as [|z l IH]; intros [|i]; cbn; [done|done|by intros [= ->] ->|]. intros Hi Hf. destruct (f z); [f_equal|]; by apply (IH i). Qed.

Lemma omap_insert_new {A B} (f : A -> option B) (l : list A) (i : nat) x y b : l !! i = Some x -> f x = None -> f y = Some b ->
  omap f (<[i := y]> l) ≡ₚ omap f l ++ [b].
Proof.
  revert i. induction l as [|z l IH]; intros [|i]; cbn; [done|done| |].
  - intros [= ->] -> ->. by rewrite Permutation_cons_append.
  - intros Hi Hx Hy. destruct (f z); cbn [app]; [f_equiv|]; by apply (IH i).
Qed.

Lemma answers_handled {A B} i (a : A) (b : B) x : calls x !! i = Some (a, Accepted) ->
  answers_of (advance i a (Handled b) x) ≡ₚ answers_of x ++ [(a, b)].
Proof. intros Hi. unfold answers_of. cbn [calls advance]. by apply (omap_insert_new _ _ i (a, Accepted)). Qed.

Lemma answers_sent {A B} i (a : A) (b : B) x : calls x !! i = Some (a, Handled b) -> answers_of (advance i a (Sent b) x) = answers_of x.
Proof. intros Hi. unfold answers_of. cbn [calls advance]. by apply (omap_insert_same _ _ i (a, Handled b)). Qed.

Lemma answers_drained {A B} (x : side A B) : drained x = true -> calls x = map (fun ab => (ab.1, Sent ab.2)) (answers_of x).
Proof.
  unfold answers_of, drained. induction (calls x) as [|[a [|b|b]] l IH]; cbn; try done. intros Hd. f_equal. by apply IH.
Qed.

(** What a step does to the world: nothing; an event of [Server], when it handles a
    request or a call; the final save; or a step of a periodic save. *)
Definition handles (b : label) : bool := match b with HttpHandle _ | RpcHandle _ => true | _ => false end.
Definition is_call (e : Server.event) : Prop := valid_event e /\ e <> Server.SaveTick.

Definition same_answers (s s' : t) : Prop := answers_of (http s') = answers_of (http s) /\ answers_of (rpc s') = answers_of (rpc s).
Definition one_event (e : Server.event) (s s' : t) : Prop :=
  world s' = Server.step p e (world s) /\
  answers_of (http s') ≡ₚ answers_of (http s) ++ (reply (world s) e).1 /\
  answers_of (rpc s') ≡ₚ answers_of (rpc s) ++ (reply (world s) e).2.

Inductive world_step (b : label) (s s' : t) : Prop :=
| world_stays : b <> FinalSave -> world s' = world s -> same_answers s s' ->
    saver (th s') = saver (th s) \/ saver (th s) = PeriodicSave.Selecting /\ saver (th s') = PeriodicSave.Off -> world_step b s s'
| world_handles e : is_call e -> one_event e s s' -> handles b = true -> saver (th s') = saver (th s) -> world_step b s s'
| world_closes : b = FinalSave -> same_answers s s' -> PeriodicSave.holds_mu (saver (th s)) = false -> saver (th s') = saver (th s) ->
    world s' = set_st (Server.shutdown (st (world s))).1 (world s) -> world_step b s s'
| world_saves c f : b = Saver c -> same_answers s s' ->
    PeriodicSave.step c (saver (th s)) (file_of (st (world s))) = Some (saver (th s'), f) ->
    world s' = set_st (Server.on_file (fun _ => f) (st (world s))) (world s) -> world_step b s s'.

Lemma fire_world b s s' : valid_label b -> fire' b s = Some s' ->
  Forall (fun c => valid_req c.1.2) (calls (rpc s)) -> world_step b s s'.
Proof.
  intros Hb (_ & Hf)%fire_cases Hv.
  destruct Hf as [Hf|Hf]; destruct b as [| | | | | | | | | | | | | | | | | |c| |r|i|i|md req|i|i|i]; try discriminate Hf; step_cases Hf;
    try (apply world_stays; project; first [done|by left|by right]).
  - apply world_closes; project; try done. by apply negb_true_iff.
  - by eapply world_saves.
  - apply world_stays; project; [done|done|by split; [apply answers_accept|]|by left].
  - apply (world_handles _ _ _ (Server.HttpRequest r)); [by split| |done|done]. unfold one_event, reply. project. cbn [Server.step fst snd]. rewrite app_nil_r.
    match goal with E : Server.router p _ _ = _ |- _ => rewrite E end. split_and!; [done|by apply answers_handled|done].
  - apply world_stays; project; [done|done|by split; [eapply answers_sent|]|by left].
  - apply world_stays; project; [done|done|by split; [|apply answers_accept]|by left].
  - match goal with E : calls (rpc s) !! _ = Some (?g, ?l, _) |- _ => apply (world_handles _ _ _ (Server.GrpcCall g l));
      [split; [exact (proj1 (Forall_lookup _ _) Hv _ _ E)|done]| |done|done] end.
    unfold one_event, reply. project. cbn [Server.step fst snd].
    repeat match goal with E : Server.grpc p = _ |- _ => rewrite E | E : Grpc.intercept _ _ _ _ = _ |- _ => rewrite E end.
    cbn [fst snd]. rewrite app_nil_r. split_and!; [done..|by apply answers_handled].
  - apply world_stays; project; [done|done|by split; [|eapply answers_sent]|by left].
Qed.

(** What arrived is well formed, and the periodic saves run only where [main] started
    them. *)
Record fed (s : t) : Prop := {
  fed_rpc : Forall (fun c => valid_req c.1.2) (calls (rpc s));
  fed_saver : saver (th s) <> PeriodicSave.Off -> Server.ticks p = true
}.

Lemma fire_fed b s s' : valid_label b -> fire' b s = Some s' -> fed s -> fed s'.
Proof.
  intros Hb (_ & Hf)%fire_cases [Hv Ht].
  destruct Hf as [Hf|Hf]; destruct b; try discriminate Hf; step_cases Hf;
    try match goal with E : PeriodicSave.step _ _ _ = Some _ |- _ => apply PeriodicSave.step_rank in E as (Hon & _ & _) end;
    split; project; try done; try (intros _; by apply Ht);
    try (apply Forall_app; split; [done|constructor; [exact Hb|constructor]]);
    match goal with E : calls (rpc s) !! _ = _ |- _ => apply Forall_insert; [done|exact (proj1 (Forall_lookup _ _) Hv _ _ E)] end.
Qed.

(** Nothing went wrong: no goroutine of the group failed, the gRPC server was not
    stopped by force. *)
Definition clean (s : t) : Prop := group_err (th s) = None /\ forced (th s) = false.
Definition final_saved (m : main_pc) : bool := match m with ClosingAudit | ClosingDB | Exited None => true | _ => false end.

Lemma fire_clean b s s' : fire' b s = Some s' -> clean s' -> clean s.
Proof.
  intros (_ & Hf)%fire_cases. unfold clean.
  destruct Hf as [Hf|Hf]; destruct b; try discriminate Hf; step_cases Hf; project; try done; intros [? ?]; try done; try (split; congruence); by destruct (group_err (th s)).
Qed.

Lemma fire_final b s s' : fire' b s = Some s' -> final_saved (main_at (th s')) = true ->
  b = FinalSave \/ final_saved (main_at (th s)) = true.
Proof.
  intros (_ & Hf)%fire_cases.
  destruct Hf as [Hf|Hf]; destruct b; try discriminate Hf; step_cases Hf; project; tests s; by auto.
Qed.

(** When [main] saves for the last time every call has been answered. *)
Lemma all_answered s : wf s -> tidy s -> clean s -> main_at (th s) = Saving \/ final_saved (main_at (th s)) = true ->
  drained (http s) = true /\ drained (rpc s) = true.
Proof.
  intros Hw [T1 T2 T3] [Hg Hf] Hm. assert (stop_at (th s) = StopReturned) as Hst.
  { destruct Hm as [Hm|Hm]; [by rewrite Hm in T3|]. destruct (main_at (th s)) as [| | | | |[]]; done. }
  rewrite Hst in T1. split; [by apply T1|]. pose proof (wf_graceful _ Hw) as Hgr. rewrite Hst in Hgr.
  destruct Hgr as [Hgr|[_ Hn]]; [by apply T2|]. unfold drained. by rewrite (proj2 (proj2 (wf_no_rpc _ Hw Hn))).
Qed.
Lemma drained_handles b s s' : drained (http s) = true -> drained (rpc s) = true -> fire' b s = Some s' -> handles b = false.
Proof.
  intros Hh Hr (_ & [Hf|Hf])%fire_cases; destruct b; try done; exfalso; step_cases Hf;
    match goal with E : calls ?x !! _ = Some (_, _), D : drained ?x = true |- _ => by pose proof (drained_lookup x _ _ _ D E) end.
Qed.

Lemma serve_events_snoc es e : Server.serve_events p (es ++ [e]) = Server.step p e (Server.serve_events p es).
Proof. unfold Server.serve_events. by rewrite foldl_app. Qed.

Lemma reachable_tidy a s : rtc step (init p a) s -> wf s /\ tidy s /\ fed s.
Proof.
  intros Hs. refine (rtc_ind_r (fun s => wf s /\ tidy s /\ fed s) _ _ _ s Hs).
  { split_and!; [apply init_wf|by split..|]. split; [constructor|]. cbn. by destruct (Server.ticks p). }
  intros y z _ (b & Hb & Hf) (Hw & Ht & Hfd). split_and!; [by eapply fire_wf|by eapply fire_tidy|by eapply fire_fed].
Qed.

Section CleanExit.
Context `{CL : ChiLaws, KeyFormats, GL : GzipLaws}.
Context (cfg : ServerConfig.t) (inp : Server.inputs).

(** While the goroutine of the periodic saves runs, no handler writes the file. *)
Lemma saver_alone a s : Server.main cfg inp = Server.Running p -> rtc step (init p a) s -> saver (th s) <> PeriodicSave.Off ->
  MetricService.onUpdate (Server.svc p) = None.
Proof.
  intros Hm Hs Hq. destruct (reachable_tidy a s Hs) as (_ & _ & Hf). eapply ticks_no_callback; [exact Hm|]. by apply (fed_saver _ Hf).
Qed.

(** *** The events behind a run *)

Lemma shutdown_same s : same_memory (Server.shutdown s).1 s.
Proof.
  destruct s as [d|f|m]; [done| |done]. cbn. pose proof (FileBackedStorage.Save_mem' f) as [Hm _].
  unfold FileBackedStorage.Close. by destruct (FileBackedStorage.Save f) as [f' e].
Qed.

Lemma saver_same c s q f : PeriodicSave.step c q (file_of s) = Some f -> same_memory (Server.on_file (fun _ => f.2) s) s.
Proof. destruct s as [d|f0|m], f as [q' f]; [done| |done]. cbn. by intros (Hm & _)%PeriodicSave.step_frame. Qed.

(** The requests and calls [es] of a sequential server that a run amounts to: the same
    answers, and a world that looks the same. *)
Record traced (s : t) (es : list Server.event) : Prop := {
  traced_calls : Forall is_call es;
  traced_http : answers_of (http s) ≡ₚ (replies es (Server.world p)).1;
  traced_rpc : answers_of (rpc s) ≡ₚ (replies es (Server.world p)).2;
  traced_world : alike (world s) (Server.serve_events p es)
}.

Lemma reply_alike e w w' : Server.main cfg inp = Server.Running p -> alike w w' -> reply w e = reply w' e.
Proof.
  intros Hm Hw. destruct (server_alike cfg inp p Hm) as (Hr & Hg & _). unfold reply. destruct e as [r|md req|]; [|destruct (Server.grpc p) as [i|] eqn:Hi; [|done]|done].
  - by destruct (Hr r w w' Hw) as [_ ->].
  - by destruct (Hg i req md _ _ eq_refl (like_st _ _ _ Hw)) as [_ ->].
Qed.

Lemma traced_quiet s s' es : same_answers s s' -> alike (world s') (world s) -> traced s es -> traced s' es.
Proof. intros [E1 E2] Hw [T1 T2 T3 T4]. split; rewrite ?E1, ?E2; try done. by etrans. Qed.

Lemma fire_traced b s s' es : Server.main cfg inp = Server.Running p -> valid_label b -> fire' b s = Some s' -> fed s ->
  traced s es -> exists es', traced s' es'.
Proof.
  intros Hm Hb Hs [Hv _] Ht. destruct (fire_world b s s' Hb Hs Hv) as [_ Hw Ha _|e He (Hw & E1 & E2) _ _| -> Ha _ _ Hw|c f -> Ha Hc Hw].
  - exists es. eapply traced_quiet; [done|by rewrite Hw|done].
  - destruct Ht as [T1 T2 T3 T4]. exists (es ++ [e]). rewrite (reply_alike e _ _ Hm T4) in E1, E2.
    split; rewrite ?replies_snoc; cbn [fst snd]; [by apply Forall_app; split; [|constructor]|by rewrite E1, T2|by rewrite E2, T3|].
    rewrite serve_events_snoc, Hw. by apply (server_alike cfg inp p Hm).
  - exists es. eapply traced_quiet; [done| |done]. rewrite Hw. apply set_st_alike, shutdown_same.
  - exists es. eapply traced_quiet; [done| |done]. rewrite Hw. apply set_st_alike. exact (saver_same _ _ _ _ Hc).
Qed.

Lemma run_traced a s : Server.main cfg inp = Server.Running p -> rtc step (init p a) s -> exists es, traced s es.
Proof.
  intros Hm Hs. refine (rtc_ind_r (fun s => exists es, traced s es) _ _ _ s Hs).
  { exists []. by split. }
  intros y z Hy (b & Hb & Hf) [es Hes]. destruct (reachable_tidy a y Hy) as (_ & _ & Hfd). by eapply fire_traced.
Qed.

(** *** The file *)

(** The server runs over a file, on a disk that works. *)
Record on_disk : Prop := {
  od_dsn : ServerConfig.DatabaseDSN cfg = "";
  od_path : ServerConfig.FileStoragePath cfg <> "";
  od_restore : ServerConfig.Restore cfg = true;
  od_io : Server.disk_io inp = [];
  od_main : Server.main cfg inp = Server.Running p
}.

#[local] Abbreviation path := (ServerConfig.FileStoragePath cfg).

(** After the final save of a clean exit the file is settled. *)
Record sound (s : t) : Prop := {
  sound_wf : wf s;
  sound_tidy : tidy s;
  sound_fed : fed s;
  sound_file : backed false path (st (world s));
  sound_saved : clean s -> final_saved (main_at (th s)) = true -> PeriodicSave.settled (saver (th s)) (file_of (st (world s)))
}.

Lemma started_backed : on_disk -> backed false path (Server.open_storage cfg inp).1 /\
  closed (backed false path) (Server.svc p) (Server.make_pinger inp (Server.open_storage cfg inp).1) /\
  st (Server.world p) = (Server.open_storage cfg inp).1.
Proof.
  intros [Hd Hne Hr Hio Hm]. destruct (main_running cfg inp p Hm) as (_ & _ & _ & _ & Hsvc & _ & _ & _ & _ & Hw & _).
  assert (exists f, (Server.open_storage cfg inp).1 = Server.UseFile f /\ backed false path (Server.UseFile f)) as (f & Ho & Hb).
  { unfold Server.open_storage, Server.start_file. rewrite bool_decide_true, bool_decide_false, Hr by done.
    set (f0 := FileBackedStorage.Mk _ _ _ _ _). destruct (Load_keeps f0) as (Hv & Hp & _ & Hi); [split; apply map_Forall_empty|].
    destruct (FileBackedStorage.Load f0) as [f [e|]]; exists f; (split; [done|]); exists f; by split_and!; auto. }
  rewrite Hw, Hsvc, Ho. split_and!; [done| |done].
  apply backed_closed; [done|by eexists].
Qed.

Lemma save_backed f : backed false path (Server.UseFile f) ->
  backed false path (Server.UseFile (FileBackedStorage.Save f).1) /\ PeriodicSave.restores_if_savable (FileBackedStorage.Save f).1.
Proof.
  intros (f' & [= <-] & Hv & Hio & Hp & _). pose proof (Save_io f Hio) as Hio'. pose proof (FileBackedStorage.Save_mem' f) as [Hm Hpf].
  split.
  - eexists. split; [done|]. rewrite Hm, Hpf. by split_and!.
  - unfold PeriodicSave.restores_if_savable. rewrite Hm. intros Hf Hu.
    pose proof (FileBackedStorage.Save_restores f (conj Hv (conj Hf (conj Hu Hio)))) as Hs.
    destruct (FileBackedStorage.Save f) as [f1 e]. exact (proj2 (proj2 Hs)).
Qed.

Lemma settled_idle q f : PeriodicSave.holds_mu q = false -> PeriodicSave.settled q f <-> PeriodicSave.restores_if_savable f.
Proof. by destruct q. Qed.

Lemma fire_sound b s s' : on_disk -> valid_label b -> sound s -> fire' b s = Some s' -> sound s'.
Proof using CL GL.
  intros Hod Hb [Hw Ht Hf Hfile Hsaved] Hs. destruct (started_backed Hod) as (_ & Hcl & _).
  pose proof (fire_wf _ _ _ Hw Hs) as Hw'. pose proof (fire_tidy _ _ _ Hw Ht Hs) as Ht'. pose proof (fire_fed _ _ _ Hb Hs Hf) as Hf'.
  assert (clean s' -> final_saved (main_at (th s')) = true -> b <> FinalSave -> clean s /\ final_saved (main_at (th s)) = true) as Hback.
  { intros Hc Hm Hn. split; [by eapply fire_clean|]. by destruct (fire_final _ _ _ Hs Hm). }
  destruct (fire_world b s s' Hb Hs (fed_rpc _ Hf)) as [Hn Heq _ Hq|e [He Hne] (Heq & _) Hh Hq| -> _ Hmu Hq Heq|c f -> _ Hc Heq].
  - split; try done; rewrite Heq; [done|]. intros Hc Hm. destruct (Hback Hc Hm Hn) as [Hc1 Hm1]. specialize (Hsaved Hc1 Hm1).
    destruct Hq as [->|[Hq ->]]; [done|]. by rewrite Hq in Hsaved.
  - split; try done; rewrite Heq; [by apply (event_closed _ cfg inp); [apply Hod| |intros _ s1; apply backed_tick|..]|]. intros Hc Hm.
    destruct (Hback Hc Hm) as [Hc1 Hm1]; [by destruct b|].
    destruct (all_answered s Hw Ht Hc1 (or_intror Hm1)) as [Hd1 Hd2]. pose proof (drained_handles _ _ _ Hd1 Hd2 Hs). congruence.
  - pose proof Hfile as (f & Hst & _). rewrite Hst in Hfile. destruct (save_backed f Hfile) as [Hsv Hres].
    assert (st (world s') = Server.UseFile (FileBackedStorage.Save f).1) as Hst'.
    { rewrite Heq, Hst. cbn. unfold FileBackedStorage.Close. by destruct (FileBackedStorage.Save f). }
    split; try done; rewrite Hst'; [done|]. intros _ _. rewrite Hq. by apply settled_idle.
  - pose proof Hfile as (f0 & Hst & Hv & Hio & Hp & _). rewrite Hst in Hc, Heq. cbn [file_of Server.on_file] in Hc, Heq.
    destruct (PeriodicSave.step_frame _ _ _ _ _ Hc) as (Em & Ep & Eio).
    split; try done; rewrite Heq; cbn [st set_st file_of].
    + exists f. rewrite Em, Ep. by split_and!; auto.
    + intros Hcl' Hm. destruct (Hback Hcl' Hm) as [Hc1 Hm1]; [done|]. eapply PeriodicSave.step_settled; [exact Hv|exact Hio| |exact Hc].
      specialize (Hsaved Hc1 Hm1). by rewrite Hst in Hsaved.
Qed.

Lemma run_sound a s : on_disk -> rtc step (init p a) s -> sound s.
Proof using CL GL.
  intros Hod Hs. refine (rtc_ind_r sound _ _ _ s Hs).
  - destruct (started_backed Hod) as (Hb & _ & Hw). destruct (reachable_tidy a (init p a)) as (H1' & H2' & H3'); [done|].
    split; try done. cbn. by rewrite Hw.
  - intros y z _ (b & Hv & Hf) Hy. by eapply fire_sound.
Qed.

(** C6. What a clean exit leaves.  A server over a file (started with [-r], on a disk that
    works) that has exited with its group free of errors and the gRPC server not stopped
    by force, in whatever order its goroutines, requests, gRPC calls and the steps of its
    periodic saves ran: there is a sequence of requests and calls that the sequential
    server answers just so, request by request and call by call; every request and call
    that was accepted is in it and its answer has been sent; the memory is what the
    sequence leaves.  If the exit did not cut off a periodic save between truncating the
    file and writing it, the gauges are finite and the names UTF-8, the next start has
    exactly these metrics; if it did, the file is empty. *)
Theorem exit_keeps_metrics a s :
  on_disk -> rtc step (init p a) s -> main_at (th s) = Exited None -> group_err (th s) = None -> forced (th s) = false ->
  exists es answered called f g, Forall is_call es /\
    calls (http s) = map (fun ab => (ab.1, Sent ab.2)) answered /\ answered ≡ₚ (replies es (Server.world p)).1 /\
    calls (rpc s) = map (fun ab => (ab.1, Sent ab.2)) called /\ called ≡ₚ (replies es (Server.world p)).2 /\
    st (world s) = Server.UseFile f /\ st (Server.serve_events p es) = Server.UseFile g /\
    FileBackedStorage.mem f = FileBackedStorage.mem g /\
    (PeriodicSave.writing (saver (th s)) = false ->
     FileBackedStorage.finite_gauges (FileBackedStorage.mem f) -> FileBackedStorage.utf8_names (FileBackedStorage.mem f) ->
     restarts cfg (FileBackedStorage.files f) (FileBackedStorage.mem f)) /\
    (PeriodicSave.writing (saver (th s)) = true -> FileBackedStorage.files f !! path = Some "").
Proof using CL GL.
  intros Hod Hs Hm Hg Hfo. destruct (run_sound a s Hod Hs) as [Hw Ht _ (f & Hf & _ & _ & Hp & _) Hsv].
  assert (final_saved (main_at (th s)) = true) as Hpc by (by rewrite Hm).
  destruct (all_answered s Hw Ht (conj Hg Hfo) (or_intror Hpc)) as [Hd1 Hd2].
  destruct (run_traced a s (od_main Hod) Hs) as [es [T1 T2 T3 T4]]. specialize (Hsv (conj Hg Hfo) Hpc).
  pose proof (like_st _ _ _ T4) as Hl. rewrite Hf in Hl, Hsv. cbn [file_of] in Hsv.
  destruct (st (Server.serve_events p es)) as [|g|] eqn:Hes; try done. cbn in Hl.
  exists es, (answers_of (http s)), (answers_of (rpc s)), f, g. split_and!; try done; [by apply answers_drained..| |].
  - intros Hwr Hfin Hu. destruct Hod. apply restores_restarts; [done..|].
    destruct (saver (th s)); try done; by apply Hsv.
  - intros Hwr. destruct (saver (th s)); try done. destruct Hsv as (_ & _ & Hc). by rewrite <- Hp.
Qed.
End CleanExit.
End Process.
