(* ===== verification/Notifications.v ===== *)
(** * What becomes of the audit notifications of a server process

    A handler appends to the goroutines started ([router_emits]); a run of the process
    tells every observer of every event, in any order and as far as it got. *)

From S2P Require Import Prelude Errors GoInt GoStrings NetIP GoFloat GoFloatFacts Model GoJson Storage Retry DBStore Service FileStore Http AuditTrail Dashboard Handler HandlerFacts Hash Crypto Keys Compress Middleware MiddlewareFacts Delivery Grpc Flags Duration Database Config Server ServerFacts Lifecycle LifecycleFacts.

#[local] Existing Instance FileBackedStorage.FileBackedStorage_Storage.
#[local] Existing Instance FileBackedStorage.FileBackedStorage_laws.
#[local] Existing Instance Server.storage_Storage.
#[local] Existing Instance Server.storage_laws.
#[local] Existing Instance AuditTrail.Observer_eq_dec.

(** ** What a handler starts *)
Section Emits.
Context {S : Type} `{Storage S} `{UnicodeTables, PgErrorText, JsonErrorText, MapRange}.

(** The notifications of [es]: one goroutine per event, if there is a publisher. *)
Definition goroutines (publisher : option AuditTrail.Publisher) (es : list Event) : list (AuditTrail.Publisher * Event) :=
  match publisher with None => [] | Some pub => map (pair pub) es end.

Definition emits (publisher : option AuditTrail.Publisher) (w w' : world S) : Prop :=
  exists es, spawned w' = spawned w ++ goroutines publisher es.

Lemma goroutines_nil publisher : goroutines publisher [] = [].
Proof. by destruct publisher. Qed.

Lemma emits_same publisher w w' : spawned w' = spawned w -> emits publisher w w'.
Proof. intros Hs. exists []. by rewrite Hs, goroutines_nil, app_nil_r. Qed.

Lemma on_storage_spawned {A} (f : S -> S * A) w : spawned (Handler.on_storage f w).1 = spawned w.
Proof. unfold Handler.on_storage. by destruct (f (st w)). Qed.

Lemma json_reply_spawned m (w : world S) : spawned (Handler.json_reply m w).1 = spawned w.
Proof. unfold Handler.json_reply. by destruct (Encode_metric m). Qed.

Lemma emits_audit h r names (w w' : world S) : spawned w' = spawned w -> emits (Handler.publisher h) w (Handler.emitAudit h r names w').
Proof.
  intros Hs. unfold Handler.emitAudit. destruct (Handler.publisher h) as [pub|] eqn:Hp; [|by apply emits_same].
  eexists [_]. cbn. rewrite Hs. done.
Qed.

Lemma after_call_emits {A B} publisher (f : S -> S * A) (k : world S -> A -> world S * B) w w0 : spawned w = spawned w0 ->
  (forall w' a, spawned w' = spawned w0 -> emits publisher w0 (k w' a).1) ->
  emits publisher w0 (let '(w', a) := Handler.on_storage f w in k w' a).1.
Proof.
  intros Hw Hk. pose proof (on_storage_spawned f w) as Hs. destruct (Handler.on_storage f w) as [w' a]. apply Hk. cbn in Hs. by rewrite Hs.
Qed.

Lemma handle_emits (h : Handler.t S) e r w : emits (Handler.publisher h) w (Handler.handle h e r w).1.
Proof.
  assert (forall w' : world S, spawned w' = spawned w -> emits (Handler.publisher h) w w') as Hid by (intros; by apply emits_same).
  destruct e; cbn [Handler.handle].
  - apply after_call_emits; [done|]. intros w' a Hs. by apply Hid.
  - unfold Handler.Ping. destruct (Handler.pinger h); [|by apply Hid]. apply after_call_emits; [done|]. intros w' [e|] Hs; by apply Hid.
  - unfold Handler.UpdateMetricJSON. destruct (Decode_metric (Body r)) as [m|]; [|by apply Hid]. case_bool_decide; [by apply Hid|].
    apply after_call_emits; [done|]. intros w' [e|] Hs; [by apply Hid|].
    apply after_call_emits; [done|]. intros w2 [u|e] Hs2; [|by apply Hid].
    destruct (emits_audit h r [ID m] w w2 Hs2) as [es Hes]. exists es. by rewrite json_reply_spawned.
  - unfold Handler.GetValueJSON. destruct (Decode_metric (Body r)); [|by apply Hid]. case_bool_decide; [by apply Hid|].
    apply after_call_emits; [done|]. intros w' [u|e] Hs; [apply Hid; by rewrite json_reply_spawned|by apply Hid].
  - unfold Handler.UpdateMetricsBatch. destruct (Decode_metrics (Body r)); [|by apply Hid]. case_bool_decide; [by apply Hid|].
    apply after_call_emits; [done|]. intros w' [e|] Hs; [by apply Hid|by apply emits_audit].
  - unfold Handler.UpdateMetric. case_bool_decide; [by apply Hid|]. apply after_call_emits; [done|].
    intros w' [e|] Hs; [by apply Hid|by apply emits_audit].
  - unfold Handler.GetValue. case_bool_decide; [by apply Hid|]. apply after_call_emits; [done|].
    intros w' [u|e] Hs; by apply Hid.
Qed.

Context `{CL : ChiLaws, KeyFormats, GL : GzipLaws}.

Lemma router_emits (h : Handler.t S) cidr key priv subnet r w :
  Middleware.TrustedSubnetMiddleware cidr = Ok subnet ->
  emits (Handler.publisher h) w (Middleware.newRouter h key priv subnet r w).1.
Proof using CL GL.
  intros Hm. pose proof (router_step h cidr key priv subnet r w Hm) as Hs.
  unfold Middleware.newRouter, Middleware.Logger. destruct (Middleware.Use subnet _ r w) as [w' ops]. cbn [fst].
  assert (emits (Handler.publisher h) w w') as Hw'; [|exact Hw'].
  destruct (arriving cidr key priv r) as [r'|]; [|apply emits_same; by destruct Hs as (_ & -> & _)].
  unfold serve in Hs. destruct (chi_route _ _ _) as [[e params]|].
  - pose proof (handle_emits h e (with_params params r') w) as Hh. destruct (Handler.handle h e _ w) as [w1 ops1]. by destruct Hs as [-> _].
  - destruct Hs as [-> _]. by apply emits_same.
Qed.
End Emits.

Import Lifecycle.

Section Delivery.
Context `{RetryGo, PgErrCode, RowOrder} `{UnicodeTables, PgErrorText, JsonErrorText, MapRange, URLs}.
Context `{CL : ChiLaws, KeyFormats, GL : GzipLaws}.
Context (p : Server.process) (grpc_listen : option error) (publisher : option AuditTrail.Publisher).
Context (cfg : ServerConfig.t) (inp : Server.inputs).

Lemma main_audit : Server.main cfg inp = Server.Running p ->
  AuditTrail.buildAuditPublisher (ServerConfig.AuditFile cfg) (ServerConfig.AuditURL cfg) (Server.audit_opened inp) = Ok publisher ->
  spawned (Server.world p) = [] /\ (forall r w, emits publisher w (Server.router p r w).1).
Proof using CL GL.
  unfold Server.main. intros Hm Hb. rewrite Hb in Hm. destruct (Server.open_storage cfg inp) as [s notes].
  destruct (Server.StartPeriodicSave_panics _); [done|].
  destruct (if bool_decide (ServerConfig.CryptoKey cfg = "") then _ else _) as [priv|]; [|done].
  destruct (Middleware.TrustedSubnetMiddleware _) as [subnet|] eqn:Hs; [|done].
  pose proof (fun r w => router_emits (Handler.NewMetricHandler (Server.make_service cfg s) (Server.make_pinger inp s) publisher) _
    (ServerConfig.Key cfg) priv subnet r w Hs) as Hr.
  repeat (case_bool_decide || case_match); simplify_eq; done.
Qed.

(** ** The observers *)

(** Who is told what. *)
Definition told (os : list AuditTrail.Observer) (e : Event) : list (AuditTrail.Observer * Event) := map (fun o => (o, e)) os.
Definition observers_of (publisher : option AuditTrail.Publisher) : list AuditTrail.Observer :=
  match publisher with None => [] | Some pub => AuditTrail.observers pub end.

Definition notified (s : t) : list (AuditTrail.Observer * Event) := map fst (received s).
Definition pending (s : t) : list (AuditTrail.Observer * Event) := todo s ≫= fun x => told x.2 x.1.1.

(** The POST that an observer made, if its URL parses. *)
Definition posted (x : AuditTrail.Observer * Event * option error) : option (string * string) :=
  (fun url => (url, AuditTrail.Marshal_event x.1.2)) <$> AuditTrail.posts_to x.1.1.

(** What the observer answers for a URL that does not. *)
Definition unbuilt (x : AuditTrail.Observer * Event * option error) : Prop := forall url err,
  x.1.1 = AuditTrail.HTTPObserver url -> url_RequestURI url = Err err -> x.2 = Some (Errorf "audit: build request: " err).

Lemma Receive_unbuilt o e w : unbuilt (o, e, (AuditTrail.Receive o e w).2).
Proof. intros url err Ho Hu. cbn in Ho. subst o. cbn. unfold AuditTrail.http_Receive. by rewrite Hu. Qed.

(** The line that an observer appended to the file. *)
Definition appended (path : string) (x : AuditTrail.Observer * Event * option error) : string :=
  if bool_decide (x.1.1 = AuditTrail.FileObserver path /\ x.2 = None) then AuditTrail.line x.1.2 else "".

Lemma Receive_err path e w : AuditTrail.file_io w = [] ->
  ((AuditTrail.Receive (AuditTrail.FileObserver path) e w).2 = None <-> path ∉ AuditTrail.closed w).
Proof.
  intros Hio. cbn. unfold AuditTrail.file_Receive, AuditTrail.append_file. case_bool_decide; [done|]. rewrite Hio. done.
Qed.

(** Telling one observer. *)
Lemma Receive_step o e w : AuditTrail.file_io w = [] ->
  let '(w', err) := AuditTrail.Receive o e w in
  AuditTrail.file_io w' = [] /\ AuditTrail.closed w' = AuditTrail.closed w /\
  AuditTrail.posts w' = AuditTrail.posts w ++ option_list (posted (o, e, err)) /\
  (forall path, default "" (AuditTrail.files w' !! path) = default "" (AuditTrail.files w !! path) +:+ appended path (o, e, err)).
Proof.
  intros Hio. pose proof (AuditTrail.closed_Receive o e w) as Hc. pose proof (AuditTrail.posts_Receive o e w) as Hp.
  pose proof (fun path => AuditTrail.file_Receive_ok o path e w Hio) as Hf. pose proof (fun path => Receive_err path e w Hio) as He.
  destruct (AuditTrail.Receive o e w) as [w' err] eqn:Hr. cbn [fst] in *. split_and!; [by destruct (Hf "")|done| |].
  { rewrite Hp. unfold posted. cbn [fst snd]. by destruct (AuditTrail.posts_to o). }
  intros path. destruct (Hf path) as [_ ->]. f_equal. unfold appended. cbn [fst snd].
  destruct (decide (o = AuditTrail.FileObserver path)) as [->|Hne].
  - specialize (He path). rewrite Hr in He. cbn [snd] in He. by rewrite (bool_decide_ext _ _ (and_iff_compat_l _ (iff_sym He))).
  - by rewrite !bool_decide_false by tauto.
Qed.

(** Closing the observers closes their files and does nothing else. *)
Lemma close_all_frame os w : let '(w', err) := AuditTrail.close_all os None w in
  err = None /\
  (w' = w \/ AuditTrail.closed w' <> [] /\ AuditTrail.file_io w' = AuditTrail.file_io w /\
     AuditTrail.posts w' = AuditTrail.posts w /\ AuditTrail.files w' = AuditTrail.files w).
Proof.
  revert w. induction os as [|[path|url] os IH]; intros w; cbn [AuditTrail.close_all]; [by auto| |by apply IH].
  cbn [AuditTrail.file_Close]. cbv beta iota. set (w1 := AuditTrail.MkWorld _ _ _ _ _ _). specialize (IH w1).
  destruct (AuditTrail.close_all os None w1) as [w' err]. destruct IH as [-> [->|IH]]; (split; [done|right]); [|done].
  split_and!; try done. cbn. by destruct (AuditTrail.closed w).
Qed.

(** ** The run *)

Definition audit_open (m : main_pc) : bool := match m with ClosingDB | Exited None => false | _ => true end.

Record delivery (a : AuditTrail.world) (s : t) (es : list Event) : Prop := {
  d_spawned : spawned (world s) = goroutines publisher es;
  d_told : notified s ++ pending s ≡ₚ es ≫= told (observers_of publisher);
  d_io : AuditTrail.file_io (audit s) = [];
  d_posts : AuditTrail.posts (audit s) = AuditTrail.posts a ++ omap posted (received s);
  d_files path : default "" (AuditTrail.files (audit s) !! path)
    = default "" (AuditTrail.files a !! path) +:+ concat_strings (map (appended path) (received s));
  d_open : audit_open (main_at (th s)) = true -> AuditTrail.closed (audit s) = [];
  d_ok : AuditTrail.closed (audit s) = [] -> forall path e err, (AuditTrail.FileObserver path, e, err) ∈ received s -> err = None;
  d_unbuilt : Forall unbuilt (received s)
}.

Lemma told_nobody es : es ≫= told [] = [].
Proof. induction es as [|e es IH]; [done|exact IH]. Qed.

Lemma told_all lg os es :
  map (fun e => (e, lg, os)) es ≫= (fun x : Event * bool * list AuditTrail.Observer => told x.2 x.1.1) = es ≫= told os.
Proof. induction es as [|e es IH]; cbn; [done|]. f_equal. exact IH. Qed.

(** A step that tells no observer. *)
Lemma delivery_quiet a s s' es new : delivery a s es -> received s' = received s ->
  spawned (world s') = spawned (world s) ++ goroutines publisher new ->
  todo s' = todo s ++ map (fun pe => (pe.2, AuditTrail.logger pe.1, AuditTrail.observers pe.1)) (goroutines publisher new) ->
  (audit s' = audit s \/ AuditTrail.closed (audit s') <> [] /\ AuditTrail.file_io (audit s') = AuditTrail.file_io (audit s) /\
     AuditTrail.posts (audit s') = AuditTrail.posts (audit s) /\ AuditTrail.files (audit s') = AuditTrail.files (audit s)) ->
  (audit_open (main_at (th s')) = true -> AuditTrail.closed (audit s') = []) -> delivery a s' (es ++ new).
Proof.
  intros [D1 D2 D3 D4 D5 D6 D7 D8] Hr Hs Ht Ha Hm.
  assert (AuditTrail.file_io (audit s') = AuditTrail.file_io (audit s) /\ AuditTrail.posts (audit s') = AuditTrail.posts (audit s) /\
    AuditTrail.files (audit s') = AuditTrail.files (audit s)) as (E1 & E2 & E3) by (destruct Ha as [->|(_ & Ha)]; done).
  split; rewrite ?E1, ?E2, ?E3, ?Hr; try done.
  - rewrite Hs, D1. unfold goroutines. destruct publisher; [by rewrite map_app|done].
  - unfold notified, pending in *. rewrite Hr, Ht, !bind_app, app_assoc, D2. f_equiv. unfold goroutines, observers_of.
    destruct publisher as [pub|]; cbn [observers_of map]; [|by rewrite told_nobody].
    by rewrite map_map, <- (told_all (AuditTrail.logger pub)).
  - destruct Ha as [->|(Hc & _)]; [done|]. intros Hc'. by rewrite Hc' in Hc.
Qed.

Lemma pending_insert e lg o os (l : list (Event * bool * list AuditTrail.Observer)) (i : nat) : l !! i = Some (e, lg, o :: os) ->
  (o, e) :: (<[i := (e, lg, os)]> l ≫= fun x => told x.2 x.1.1) ≡ₚ (l ≫= fun x => told x.2 x.1.1).
Proof.
  revert i. induction l as [|y l IH]; intros [|i]; cbn; [done|done|by intros [= ->]|].
  intros Hi. rewrite <- (IH i Hi). by rewrite Permutation_middle.
Qed.

(** A step that tells one. *)
Lemma delivery_receive a s es i e lg o os : delivery a s es -> todo s !! i = Some (e, lg, o :: os) ->
  let '(w, err) := AuditTrail.Receive o e (audit s) in
  delivery a (Mk (world s) (http s) (rpc s) (match err, lg with Some x, true => AuditTrail.log x w | _, _ => w end)
    (<[i := (e, lg, os)]> (todo s)) (received s ++ [(o, e, err)]) (th s)) es.
Proof.
  intros [D1 D2 D3 D4 D5 D6 D7 D8] Hi. pose proof (Receive_step o e (audit s) D3) as Hr.
  pose proof (fun path => Receive_err path e (audit s) D3) as He. pose proof (Receive_unbuilt o e (audit s)) as Hu.
  destruct (AuditTrail.Receive o e (audit s)) as [w err] eqn:Ho. destruct Hr as (E1 & E2 & E3 & E4).
  set (w' := match err, lg with Some x, true => AuditTrail.log x w | _, _ => w end).
  assert (AuditTrail.file_io w' = AuditTrail.file_io w /\ AuditTrail.closed w' = AuditTrail.closed w /\ AuditTrail.posts w' = AuditTrail.posts w /\
    AuditTrail.files w' = AuditTrail.files w) as (F1 & F2 & F3 & F4) by (subst w'; by destruct err, lg).
  split; cbn [world audit todo received th]; rewrite ?F1, ?F2, ?F3, ?F4; try done.
  - unfold notified, pending in *. cbn [todo received]. rewrite map_app, <- app_assoc. cbn [map app fst].
    by rewrite (pending_insert _ _ _ _ _ _ Hi).
  - rewrite E3, D4, omap_app, <- app_assoc. done.
  - intros path. rewrite E4, D5, map_app, concat_strings_app, string_app_assoc. f_equal. cbn. by rewrite string_app_nil_r.
  - by rewrite E2.
  - rewrite E2. intros Hc path e' err' [Hin|Hin]%elem_of_app; [by eapply D7|]. apply list_elem_of_singleton in Hin as [= <- <- ->].
    specialize (He path). rewrite Ho in He. cbn [snd] in He. apply He. rewrite Hc. apply not_elem_of_nil.
  - apply Forall_app. split; [done|by constructor].
Qed.

Lemma delivery_same a s s' es : delivery a s es -> received s' = received s -> audit s' = audit s ->
  spawned (world s') = spawned (world s) -> todo s' = todo s ->
  (audit_open (main_at (th s')) = true -> audit_open (main_at (th s)) = true) -> exists new, delivery a s' (es ++ new).
Proof.
  intros Hd E1 E2 E3 E4 E5. pose proof (d_open _ _ _ Hd). exists []. apply (delivery_quiet a s); [done|done| | |by left|rewrite E2; auto].
  - by rewrite E3, goroutines_nil, app_nil_r.
  - by rewrite E4, goroutines_nil, app_nil_r.
Qed.

Lemma close_delivery a s es : delivery a s es -> main_at (th s) = ClosingAudit -> forall s',
  fire_main p grpc_listen publisher CloseAudit s = Some s' -> exists new, delivery a s' (es ++ new).
Proof.
  intros Hd Hm s'. cbn [fire_main fire_exit]. rewrite Hm. intros [= <-]. destruct publisher as [pub|]; [|by apply (delivery_same a s)].
  unfold AuditTrail.Close. pose proof (close_all_frame (AuditTrail.observers pub) (audit s)) as Hc.
  destruct (AuditTrail.close_all _ _ _) as [w err]. destruct Hc as [-> [->|Hc]]; [by apply (delivery_same a s)|].
  exists []. apply (delivery_quiet a s); project; rewrite ?goroutines_nil, ?app_nil_r; try done. by right.
Qed.

Lemma handle_delivery a s es i r ops w : delivery a s es -> emits publisher (world s) w ->
  exists new, delivery a (with_http (advance i r (Handled ops) (http s)) (with_world w s)) (es ++ new).
Proof.
  intros Hd [new Hn]. exists new. apply (delivery_quiet a s); project; try done; [|by left|by apply Hd].
  by rewrite Hn, drop_app_length.
Qed.

Lemma fire_delivery a b s s' es : Server.main cfg inp = Server.Running p ->
  AuditTrail.buildAuditPublisher (ServerConfig.AuditFile cfg) (ServerConfig.AuditURL cfg) (Server.audit_opened inp) = Ok publisher ->
  delivery a s es -> fire p grpc_listen publisher b s = Some s' -> exists new, delivery a s' (es ++ new).
Proof using CL GL.
  intros Hm Hb Hd (_ & Hc)%fire_cases. destruct (main_audit Hm Hb) as [_ Hr].
  destruct Hc as [Hc|Hc]; destruct b; try discriminate Hc;
    lazymatch type of Hc with
    | fire_main _ _ _ CloseAudit _ = _ => eapply close_delivery; [done| |done]; cbn in Hc; by destruct (main_at (th s))
    | fire_work _ (HttpHandle ?i) _ = _ => cbn [fire_work fire_call fire_notify] in Hc
    | fire_work _ (Receive ?i) _ = _ => cbn [fire_work fire_call fire_notify] in Hc
    | _ => step_cases Hc; apply (delivery_same a s); project; tests s; by try rewrite drop_all, app_nil_r
    end.
  - destruct (calls (http s) !! i) as [[r [|?|?]]|]; try done. specialize (Hr r (world s)).
    destruct (Server.router p r (world s)) as [w ops]. injection Hc as <-. by apply handle_delivery.
  - destruct (todo s !! i) as [[[e lg] [|o os]]|] eqn:Hi; try done. pose proof (delivery_receive a s es i e lg o os Hd Hi) as Hs.
    destruct (AuditTrail.Receive o e (audit s)) as [w err]. injection Hc as <-. exists []. by rewrite app_nil_r.
Qed.

(** C23. What becomes of the audit notifications.  At every moment of every run of a
    server whose audit writes succeed and whose audit file is open at the start, for the
    events [es] of the updates handled so far: every pair of an event and a configured
    observer has either been told or still awaits its goroutine, once each; every URL
    that parses has got one POST per event told to it, in that order, and for any other
    the observer reports that it could not build the request; every file holds what it
    held and one line per event its observer accepted; and, the writes succeeding, an
    observer refuses an event only once the file has been closed, which [main] does after
    the servers have stopped and the metrics were saved. *)
Theorem audit_delivery a s :
  Server.main cfg inp = Server.Running p ->
  AuditTrail.buildAuditPublisher (ServerConfig.AuditFile cfg) (ServerConfig.AuditURL cfg) (Server.audit_opened inp) = Ok publisher ->
  AuditTrail.file_io a = [] -> AuditTrail.closed a = [] -> rtc (step p grpc_listen publisher) (init p a) s ->
  exists es, spawned (world s) = goroutines publisher es /\
    notified s ++ pending s ≡ₚ es ≫= told (observers_of publisher) /\
    AuditTrail.posts (audit s) = AuditTrail.posts a ++ omap posted (received s) /\ Forall unbuilt (received s) /\
    (forall path, default "" (AuditTrail.files (audit s) !! path)
       = default "" (AuditTrail.files a !! path) +:+ concat_strings (map (appended path) (received s))) /\
    (audit_open (main_at (th s)) = true -> forall path e err, (AuditTrail.FileObserver path, e, err) ∈ received s -> err = None).
Proof using CL GL.
  intros Hm Hb Hio Hcl Hs. assert (exists es, delivery a s es) as [es [D1 D2 D3 D4 D5 D6 D7 D8]]; [|exists es; split_and!; try done; intros Ha; by apply D7, D6].
  refine (rtc_ind_r (fun s => exists es, delivery a s es) _ _ _ s Hs).
  - exists []. destruct (main_audit Hm Hb) as [Hsp _]. split; cbn; rewrite ?Hsp, ?app_nil_r, ?goroutines_nil; try done.
    + intros path. by rewrite string_app_nil_r.
    + intros _ path e err []%not_elem_of_nil.
  - intros y z _ (b & _ & Hf) [es Hes]. destruct (fire_delivery a b y z es Hm Hb Hes Hf) as [new Hn]. by exists (es ++ new).
Qed.
End Delivery.
