(* ===== verification/LifecycleExamples.v ===== *)
(** * Runs of the server process

    The server of [ServerExamples] from its start to its exit: the properties of
    [LifecycleFacts] and [Notifications] at these runs, and three runs that lose something. *)

From S2P Require Import Prelude Errors GoInt GoStrings NetIP GoFloat GoFloatFacts Model GoJson Storage Retry DBStore Service FileStore Overlap PeriodicSave Http AuditTrail Dashboard Handler HandlerFacts Hash Crypto Keys Compress Middleware MiddlewareFacts Delivery Grpc Flags Duration Database Config Server ServerFacts Indistinct Lifecycle LifecycleFacts Notifications.
Import Lifecycle.

#[local] Existing Instance FileBackedStorage.FileBackedStorage_Storage.
#[local] Existing Instance FileBackedStorage.FileBackedStorage_laws.
#[local] Existing Instance Server.storage_Storage.
#[local] Existing Instance Server.storage_laws.

Module LifecycleExamples.
Import HandlerExamples ServerExamples.
#[local] Existing Instances DeliveryExamples.exact_chi DeliveryExamples.exact_chi_laws.
#[local] Existing Instances Crypto.plain Crypto.plain_laws DeliveryExamples.retrygo0.
#[local] Existing Instances ServiceExamples.class08 ServiceExamples.key_order ServerExamples.no_keys.

(** No audit URL is configured. *)
#[local] Instance any_url : URLs := {| url_RequestURI u := Ok "/" |}.

Definition quiet : AuditTrail.world := AuditTrail.MkWorld ∅ [] [] [] [] [].
Definition load : UpdateMetricsRequest := [MkPb "Load" Metric_GAUGE 0 (F_fin false (3 * 2 ^ 51) (-52))].

Definition after (p : Server.process) (grpc_listen : option error) (bs : list label) : t :=
  default (init p quiet) (run p grpc_listen (Some audit0) bs (init p quiet)).

Lemma after_reached p grpc_listen bs : Forall valid_label bs ->
  bool_decide (is_Some (run p grpc_listen (Some audit0) bs (init p quiet))) = true ->
  rtc (step p grpc_listen (Some audit0)) (init p quiet) (after p grpc_listen bs).
Proof.
  intros Hb Hr%bool_decide_eq_true. unfold after. revert Hr. generalize (init p quiet) at 1 2 4. induction Hb as [|b bs Hv Hb IH]; intros s; cbn [run]; [done|].
  destruct (fire p grpc_listen (Some audit0) b s) as [s1|] eqn:Hf; [|by intros [? ?]]. cbn [mbind option_bind]. intros Hr.
  apply rtc_l with s1; [by exists b|]. specialize (IH s1 Hr). by destruct (run _ _ _ bs s1).
Qed.

(** A request and a call arrive and are answered; the audit goroutine gets its turn or
    not; a signal ends the process. *)
Definition serving : list label :=
  [GrpcListen; HttpAccept (update0 "10.0.0.7"); HttpHandle 0; HttpSend 0; RpcAccept {[MetadataXRealIP := ["10.0.0.7"]]} load; Signal].
Definition stopping : list label :=
  [ShutdownBegins; GracefulBegins; RpcHandle 0; RpcSend 0; ShutdownReturns false; GracefulEnds; StopReturns; ListenReturns; ServeReturns;
   GroupWait; FinalSave].

Ltac labels := repeat (apply List.Forall_cons || apply List.Forall_nil || exact I); repeat constructor.

(** The run whose audit goroutine is scheduled before the signal, and the one whose is
    scheduled after the audit file was closed. *)
Definition told_in_time : t := after p0 None (serving ++ [Receive 0] ++ stopping ++ [CloseAudit; Exit]).
Definition told_too_late : t := after p0 None (serving ++ stopping ++ [CloseAudit; Receive 0; Exit]).
Definition never_told : t := after p0 None (serving ++ stopping ++ [CloseAudit; Exit]).

Lemma told_in_time_reached : rtc (step p0 None (Some audit0)) (init p0 quiet) told_in_time.
Proof. apply after_reached; [labels|by vm_compute]. Qed.

Lemma told_too_late_reached : rtc (step p0 None (Some audit0)) (init p0 quiet) told_too_late.
Proof. apply after_reached; [labels|by vm_compute]. Qed.

Lemma on_disk0 : on_disk p0 cfg0 inp0.
Proof. by split. Qed.

Lemma process_exits_witness : let s := after p0 None serving in
  (exists b s', eager b = true /\ fire p0 None (Some audit0) b s = Some s') /\
  (forall bs s', run p0 None (Some audit0) bs s = Some s' -> length (filter (fun b => eager b = true) bs) <= 20).
Proof.
  intros s. destruct (process_exits p0 None (Some audit0) quiet s) as [Hp Hb].
  - apply after_reached; [labels|by vm_compute].
  - by vm_compute.
  - split; [|intros bs s' Hr; by apply (Hb bs s')]. destruct Hp as [[fatal Hf]|[Hp|[[Hm _]|[Hd _]]]];
      [by vm_compute in Hf|exact Hp|by vm_compute in Hm|by vm_compute in Hd].
Defined.

Lemma exit_keeps_metrics_witness : exists f, st (world told_in_time) = Server.UseFile f /\
  FileBackedStorage.mem f = kept /\ restarts cfg0 (FileBackedStorage.files f) kept.
Proof.
  destruct (exit_keeps_metrics p0 None (Some audit0) cfg0 inp0 quiet told_in_time on_disk0 told_in_time_reached)
    as (es & answered & called & f & g & _ & _ & _ & _ & _ & Hf & _ & _ & Hr & _); [by vm_compute..|].
  exists f. split; [exact Hf|].
  assert (FileBackedStorage.mem f = kept) as Hm.
  { transitivity (match st (world told_in_time) with Server.UseFile f => FileBackedStorage.mem f | _ => MemStorage.NewMemStorage end);
      [by rewrite Hf|by vm_compute]. }
  split; [exact Hm|]. rewrite Hm in Hr. apply Hr; [by vm_compute| |].
  - apply map_Forall_singleton. by vm_compute.
  - split; apply map_Forall_singleton; by vm_compute.
Defined.

Lemma audit_delivery_witness : exists es,
  notified told_too_late ++ pending told_too_late ≡ₚ es ≫= told [AuditTrail.FileObserver "/audit"] /\
  default "" (AuditTrail.files (audit told_too_late) !! "/audit") = concat_strings (map (appended "/audit") (received told_too_late)).
Proof.
  destruct (audit_delivery p0 None (Some audit0) cfg0 inp0 quiet told_too_late p0_runs eq_refl eq_refl eq_refl told_too_late_reached)
    as (es & _ & Ht & _ & _ & Hf & _).
  exists es. split; [exact Ht|]. rewrite Hf. by vm_compute.
Defined.

(** A call whose handler has not returned when the five seconds are over: after the hard
    stop the process waits for it, and for nothing else. *)
Definition late_call : t :=
  after p0 None [GrpcListen; RpcAccept {[MetadataXRealIP := ["10.0.0.7"]]} load; Signal; ShutdownBegins; GracefulBegins;
    ShutdownReturns false; Deadline; ForceStop; ListenReturns; ServeReturns].

Lemma handler_holds_up_exit : alive late_call = true /\ deadline (th late_call) = true /\ forced (th late_call) = true /\
  forall b, eager b = true -> fire p0 None (Some audit0) b late_call = None.
Proof. split_and!; [by vm_compute..|]. intros b Hb. destruct b as [| | | | | | | |[]| | | | | | | | | | | | | | | | | |]; try done; vm_compute; reflexivity. Qed.

(** ** What a run can lose *)

(** The update is accepted and answered 200, the process exits with no error, and its
    event is not in the audit file: nothing waits for the goroutine of [Notify], and
    one that comes late finds the file closed. *)
Lemma clean_exit_loses_audit :
  main_at (th never_told) = Exited None /\ group_err (th never_told) = None /\
  status (default [] (head (omap (fun c => match c.2 with Sent ops => Some ops | _ => None end) (calls (http never_told))))) = StatusOK /\
  length (pending never_told) = 1 /\
  main_at (th told_too_late) = Exited None /\ map snd (received told_too_late) <> [None] /\
  default "" (AuditTrail.files (audit told_too_late) !! "/audit") = "" /\
  default "" (AuditTrail.files (audit told_in_time) !! "/audit") <> "".
Proof. by vm_compute. Qed.

(** The same server saving every 300 seconds. *)
Definition cfg1 : ServerConfig.t := ServerConfig.Mk ":8080" 300 "/m.json" true "" "" "/audit" "" "" "10.0.0.0/8" ":3200".
Definition svc1 : MetricService.t Server.storage := Server.make_service cfg1 s0.
Definition p1 : Server.process :=
  Server.MkProcess (MkWorld s0 [] [] 1700000000) svc1
    (Middleware.newRouter (Handler.NewMetricHandler svc1 None (Some audit0)) "" None subnet0)
    (Some interceptor0) true [Server.Info "metrics loaded from file"].

Lemma every_300_runs : Server.main cfg1 inp0 = Server.Running p1.
Proof. reflexivity. Qed.

Definition metrics_in (s : t) : option (gmap string Z) :=
  match st (world s) with Server.UseFile f => Some (MemStorage.counters (FileBackedStorage.mem f)) | _ => None end.

(** A tick comes when [main] is about to return: it exits with no error after its final
    save, while the goroutine has truncated the file and not yet written it.  The file
    is left empty, and the next start has lost every metric. *)
Definition cut_off : t :=
  after p1 None (serving ++ stopping ++ map Saver [PeriodicSave.SaveTick; PeriodicSave.SaveLock; PeriodicSave.SaveSnap; PeriodicSave.SaveOpen]
    ++ [CloseAudit; Exit]).

Lemma clean_exit_empties_file :
  Server.main cfg1 inp0 = Server.Running p1 /\ main_at (th cut_off) = Exited None /\ group_err (th cut_off) = None /\
  metrics_in cut_off = Some {["PollCount" := 5%Z]} /\
  Server.disk_of (st (world cut_off)) = Some {["/m.json" := ""]} /\
  match Server.open_storage cfg1 (Server.MkInputs no_database (DBStorage.Mk ∅ [] []) (fun d => (d, None)) {["/m.json" := ""]} [] None
    (fun _ => Err (Sentinel sErrNotExist)) None 1700000000) with
  | (Server.UseFile f, [Server.Warn _ _]) => MemStorage.counters (FileBackedStorage.mem f) = ∅
  | _ => False
  end.
Proof. split; [exact every_300_runs|]. split_and!; vm_compute; reflexivity. Qed.

(** The step the final save waits for: here the periodic save has the mutex. *)
Lemma final_save_waits : let s := after p1 None (serving ++ removelast stopping ++ map Saver [PeriodicSave.SaveTick; PeriodicSave.SaveLock]) in
  main_at (th s) = Saving /\ fire p1 None (Some audit0) FinalSave s = None /\ save_in_progress p1 None (Some audit0) s.
Proof.
  intros s. assert (main_at (th s) = Saving) as Hm by (vm_compute; reflexivity). split; [exact Hm|]. split; [by vm_compute|].
  apply save_goes_on; [by vm_compute|exact Hm|by vm_compute].
Qed.

(** HTTP is served before the gRPC listener is opened; when that fails [log.Fatalf] ends
    the process, and no final save is made: an update answered 200 is lost although
    periodic saves and a final one were asked for. *)
Definition no_grpc : option error := Some (ErrorText "listen tcp :3200: bind: address already in use").
Definition cut_short : t := after p1 no_grpc [HttpAccept (update0 "10.0.0.7"); HttpHandle 0; HttpSend 0; GrpcListen].

Lemma fatal_exit_loses_updates :
  Server.main cfg1 inp0 = Server.Running p1 /\ main_at (th cut_short) = Exited no_grpc /\
  status (default [] (head (omap (fun c => match c.2 with Sent ops => Some ops | _ => None end) (calls (http cut_short))))) = StatusOK /\
  Server.disk_of (st (world cut_short)) = Server.disk_of (st (Server.world p1)) /\
  metrics_in cut_short = Some {["PollCount" := 5%Z]} /\
  metrics_in (init p1 quiet) = Some {["PollCount" := 2%Z]}.
Proof. split; [exact every_300_runs|]. split_and!; vm_compute; reflexivity. Qed.
End LifecycleExamples.
