(* ===== verification/AgentMain.v ===== *)
(** * cmd/agent: the process

    [main] loads the public key, chooses the transport, and starts the agent with the
    intervals of the configuration.  [Run] then starts its goroutines; the first thing
    they do is to make their tickers. *)

From S2P Require Import Prelude Errors GoInt GoStrings GoFloat Model GoJson Retry Http Hash Crypto Keys Compress Middleware Sender Collector Agent Grpc Flags Duration Config.

Module AgentMain.

Section Main.
Context `{KeyFormats, UnicodeTables}.

(** What [main] finds: the key files, the interface addresses, and how
    [grpc.NewClient] answers. *)
Record inputs := MkInputs {
  key_files : string -> res string;
  interface_addrs : res (list iface_addr);
  grpc_NewClient : string -> option error
}.

Inductive transport := OverHTTP (s : Sender.t) | OverGRPC (s : Grpc.GRPCSender).

Record process := MkProcess {
  sender : transport;
  pollInterval : Z;
  reportInterval : Z;
  agent : Agent.t
}.

(** How starting ends: the goroutines run; [log.Fatal] with an error, or the agent's
    own for the rate limit; or a goroutine panics. *)
Inductive started := Running (p : process) | Fatal (msg : string) (err : error) | FatalRateLimit | Panics.

(** [NewGRPCSender] *)
Definition NewGRPCSender (inp : inputs) (addr : string) : res Grpc.GRPCSender :=
  match grpc_NewClient inp addr with
  | Some err => Err (Errorf ("grpc dial " +:+ Quote addr +:+ ": ") err)
  | None => Ok (Grpc.MkGRPCSender (Sender.detectLocalIPv4 (interface_addrs inp)))
  end.

(** [NewWithSender] and the start of [Run]. *)
Definition start (t : transport) (poll report rateLimit : Z) : started :=
  match Agent.NewWithSender rateLimit with
  | None => FatalRateLimit
  | Some ag => if NewTicker_panics poll || NewTicker_panics report then Panics else Running (MkProcess t poll report ag)
  end.

(** The interval of a ticker: [time.Duration(n)*time.Second]. *)
Definition seconds (n : Z) : Z := wrap64 (n * Second).

Definition main (cfg : AgentConfig.t) (inp : inputs) : started :=
  match (if bool_decide (AgentConfig.CryptoKey cfg = "") then Ok None
         else Some <$> Keys.LoadPublicKey (key_files inp) (AgentConfig.CryptoKey cfg)) with
  | Err err => Fatal "load crypto public key: " err
  | Ok pubKey =>
      let poll := seconds (AgentConfig.PollInterval cfg) in
      let report := seconds (AgentConfig.ReportInterval cfg) in
      if negb (bool_decide (AgentConfig.GRPCAddr cfg = "")) then
        match NewGRPCSender inp (AgentConfig.GRPCAddr cfg) with
        | Err err => Fatal "grpc sender: " err
        | Ok s => start (OverGRPC s) poll report (AgentConfig.RateLimit cfg)
        end
      else
        start (OverHTTP (Sender.NewSender ("http://" +:+ AgentConfig.Addr cfg) (AgentConfig.Key cfg) pubKey (interface_addrs inp)))
          poll report (AgentConfig.RateLimit cfg)
  end.

(** Seconds that fit a duration, about 292 years. *)
Definition max_seconds : Z := 9223372036.

Lemma seconds_fit n : (- max_seconds <= n <= max_seconds)%Z -> seconds n = (n * Second)%Z.
Proof. unfold seconds, max_seconds, Second. intros Hn. apply wrap64_id. apply in_int64_iff. unfold int64_min, int64_max. lia. Qed.

(** The key [main] uses: none, or that of the file. *)
Definition key_loaded (inp : inputs) (path : string) (pub : option PublicKey) : Prop :=
  if bool_decide (path = "") then pub = None
  else exists k, pub = Some k /\ Keys.LoadPublicKey (key_files inp) path = Ok k.

Lemma agent_running cfg inp p : main cfg inp = Running p ->
  (0 < AgentConfig.RateLimit cfg)%Z /\
  agent p = Agent.start Collector.NewCollector (Z.to_nat (AgentConfig.RateLimit cfg)) /\
  pollInterval p = seconds (AgentConfig.PollInterval cfg) /\ reportInterval p = seconds (AgentConfig.ReportInterval cfg) /\
  (0 < pollInterval p)%Z /\ (0 < reportInterval p)%Z /\
  match sender p with
  | OverHTTP s => AgentConfig.GRPCAddr cfg = "" /\ exists pub, key_loaded inp (AgentConfig.CryptoKey cfg) pub /\
      s = Sender.NewSender ("http://" +:+ AgentConfig.Addr cfg) (AgentConfig.Key cfg) pub (interface_addrs inp)
  | OverGRPC s => AgentConfig.GRPCAddr cfg <> "" /\ s = Grpc.MkGRPCSender (Sender.detectLocalIPv4 (interface_addrs inp))
  end.
Proof.
  unfold main, start, Agent.NewWithSender, NewTicker_panics, key_loaded. intros Hm.
  destruct (Z.leb_spec (AgentConfig.RateLimit cfg) 0) as [Hr|Hr];
    [by repeat (case_match; try done)|].
  destruct (if bool_decide (AgentConfig.CryptoKey cfg = "") then _ else _) as [pub|] eqn:Hk; [|done].
  destruct (Z.leb_spec (seconds (AgentConfig.PollInterval cfg)) 0), (Z.leb_spec (seconds (AgentConfig.ReportInterval cfg)) 0);
    cbn [orb] in Hm; try (by repeat (case_match; try done)).
  case_bool_decide as Hg; cbn [negb] in Hm.
  - injection Hm as <-. cbn [agent pollInterval reportInterval sender]. split_and!; [done..|]. exists pub. split; [|done]. case_bool_decide; [by injection Hk|].
    destruct (Keys.LoadPublicKey _ _) as [k|]; [|done]. injection Hk as <-. by exists k.
  - unfold NewGRPCSender in Hm. destruct (grpc_NewClient inp _); [done|]. injection Hm as <-. by split_and!.
Qed.

Lemma start_outcome t poll report rateLimit :
  start t poll report rateLimit =
  if (rateLimit <=? 0)%Z then FatalRateLimit
  else if (poll <=? 0)%Z || (report <=? 0)%Z then Panics
  else Running (MkProcess t poll report (Agent.start Collector.NewCollector (Z.to_nat rateLimit))).
Proof. unfold start, Agent.NewWithSender, NewTicker_panics. by destruct (rateLimit <=? 0)%Z. Qed.

(** C30. How the agent starts.  A public key that does not load and a gRPC address that is
    refused are fatal, with the error; then a rate limit that is not positive is
    fatal.  Otherwise, for intervals of up to 292 years either way, the agent runs
    exactly when both are positive, with tickers of that many seconds and one worker
    per unit of the rate limit, over the transport configured; and an interval of
    zero or less makes a goroutine panic. *)
Theorem agent_start_outcome cfg inp :
  (AgentConfig.CryptoKey cfg <> "" -> forall err, Keys.LoadPublicKey (key_files inp) (AgentConfig.CryptoKey cfg) = Err err ->
     main cfg inp = Fatal "load crypto public key: " err) /\
  forall pub, key_loaded inp (AgentConfig.CryptoKey cfg) pub ->
  (AgentConfig.GRPCAddr cfg <> "" -> forall err, grpc_NewClient inp (AgentConfig.GRPCAddr cfg) = Some err ->
     main cfg inp = Fatal "grpc sender: " (Errorf ("grpc dial " +:+ Quote (AgentConfig.GRPCAddr cfg) +:+ ": ") err)) /\
  (AgentConfig.GRPCAddr cfg = "" \/ grpc_NewClient inp (AgentConfig.GRPCAddr cfg) = None ->
   (- max_seconds <= AgentConfig.PollInterval cfg <= max_seconds)%Z ->
   (- max_seconds <= AgentConfig.ReportInterval cfg <= max_seconds)%Z ->
   main cfg inp =
   if (AgentConfig.RateLimit cfg <=? 0)%Z then FatalRateLimit
   else if (AgentConfig.PollInterval cfg <=? 0)%Z || (AgentConfig.ReportInterval cfg <=? 0)%Z then Panics
   else Running (MkProcess
     (if bool_decide (AgentConfig.GRPCAddr cfg = "")
      then OverHTTP (Sender.NewSender ("http://" +:+ AgentConfig.Addr cfg) (AgentConfig.Key cfg) pub (interface_addrs inp))
      else OverGRPC (Grpc.MkGRPCSender (Sender.detectLocalIPv4 (interface_addrs inp))))
     (AgentConfig.PollInterval cfg * Second) (AgentConfig.ReportInterval cfg * Second)
     (Agent.start Collector.NewCollector (Z.to_nat (AgentConfig.RateLimit cfg))))).
Proof.
  split.
  - intros Hne err He. unfold main. by rewrite bool_decide_false, He by done.
  - intros pub Hpub. assert ((if bool_decide (AgentConfig.CryptoKey cfg = "") then Ok None
      else Some <$> Keys.LoadPublicKey (key_files inp) (AgentConfig.CryptoKey cfg)) = Ok pub) as Hk.
    { unfold key_loaded in Hpub. case_bool_decide; [by subst|]. by destruct Hpub as (k & -> & ->). }
    unfold main. rewrite Hk. split.
    + intros Hne err He. rewrite bool_decide_false by done. cbn [negb]. unfold NewGRPCSender. by rewrite He.
    + intros Hg Hp Hr. rewrite (seconds_fit _ Hp), (seconds_fit _ Hr), !start_outcome.
      assert (forall n, (n * Second <=? 0)%Z = (n <=? 0)%Z) as Hsign.
      { intros n. unfold Second. destruct (Z.leb_spec n 0), (Z.leb_spec (n * 1000000000) 0); (done || lia). }
      rewrite !Hsign. destruct (decide (AgentConfig.GRPCAddr cfg = "")) as [Hge|Hge]; [by rewrite !bool_decide_true|].
      destruct Hg as [?|Hn]; [done|]. rewrite !bool_decide_false by done. cbn [negb]. unfold NewGRPCSender. by rewrite Hn, start_outcome, !Hsign.
Qed.
End Main.
End AgentMain.
