(* ===== verification/System.v ===== *)
(** * The whole system

    A server and an agent, each started from its configuration, over HTTP: when the
    configurations match and the network works, every report arrives, once. *)

From S2P Require Import Prelude Errors GoInt GoStrings NetIP GoFloat GoFloatFacts Model GoJson Storage Retry DBStore Service FileStore Http AuditTrail Dashboard Handler HandlerFacts Hash Crypto Keys Compress Middleware MiddlewareFacts Sender Delivery Collector Agent Grpc Flags Duration Database Config Server ServerFacts AgentMain.

#[local] Existing Instance FileBackedStorage.FileBackedStorage_Storage.
#[local] Existing Instance FileBackedStorage.FileBackedStorage_laws.
#[local] Existing Instance Server.storage_Storage.
#[local] Existing Instance Server.storage_laws.

Section System.
Context `{RetryGo, PgErrCode, RowOrder} `{UnicodeTables, PgErrorText, JsonErrorText, MapRange}.
Context `{CL : ChiLaws, PL : PrimitiveLaws, KF : !KeyFormats, GL : GzipLaws, URLs}.

Context (scfg : ServerConfig.t) (sinp : Server.inputs) (p : Server.process).
Context (acfg : AgentConfig.t) (ainp : AgentMain.inputs) (a : AgentMain.process) (s : Sender.t).
Context (Hserver : Server.main scfg sinp = Server.Running p).
Context (Hagent : AgentMain.main acfg ainp = AgentMain.Running a) (Hhttp : AgentMain.sender a = AgentMain.OverHTTP s).

(** The configurations fit: a key both have is the same, an agent that encrypts has the
    public key of the server's private key, the agent's address is in the trusted
    subnet, and its server URL leads to the server. *)
Record matching : Prop := {
  same_key : ServerConfig.Key scfg = "" \/ AgentConfig.Key acfg = "" \/ AgentConfig.Key acfg = ServerConfig.Key scfg;
  key_pair : AgentConfig.CryptoKey acfg = "" \/
    ServerConfig.CryptoKey scfg <> "" /\ forall k, Keys.LoadPrivateKey (Server.key_files sinp) (ServerConfig.CryptoKey scfg) = Ok k ->
      Keys.LoadPublicKey (AgentMain.key_files ainp) (AgentConfig.CryptoKey acfg) = Ok (public_of k);
  in_subnet : Grpc.trusted (ServerConfig.TrustedSubnet scfg) (Sender.detectLocalIPv4 (AgentMain.interface_addrs ainp)) = true;
  url_leads : url_RequestURI ("http://" +:+ AgentConfig.Addr acfg +:+ "/updates/") = Ok "/updates/"
}.

Definition priv_loaded (priv : option PrivateKey) : Prop :=
  if bool_decide (ServerConfig.CryptoKey scfg = "") then priv = None
  else exists k, priv = Some k /\ Keys.LoadPrivateKey (Server.key_files sinp) (ServerConfig.CryptoKey scfg) = Ok k.

Lemma server_router : exists h subnet priv,
  Server.router p = Middleware.newRouter h (ServerConfig.Key scfg) priv subnet /\
  Handler.svc h = Server.make_service scfg (Server.open_storage scfg sinp).1 /\
  Middleware.TrustedSubnetMiddleware (ServerConfig.TrustedSubnet scfg) = Ok subnet /\ priv_loaded priv.
Proof using Hserver.
  revert Hserver. unfold Server.main. destruct (Server.open_storage scfg sinp) as [st0 notes]. cbn [fst].
  destruct (Server.StartPeriodicSave_panics _); [done|]. destruct (AuditTrail.buildAuditPublisher _ _ _) as [pub|]; [|done].
  destruct (if bool_decide (ServerConfig.CryptoKey scfg = "") then _ else _) as [priv|] eqn:Hk; [|done].
  destruct (Middleware.TrustedSubnetMiddleware _) as [subnet|] eqn:Hm; [|done]. intros Hr.
  exists (Handler.NewMetricHandler (Server.make_service scfg st0) (Server.make_pinger sinp st0) pub), subnet, priv.
  assert (priv_loaded priv) as Hpriv.
  { clear Hr. unfold priv_loaded. case_bool_decide; [by injection Hk|].
    destruct (Keys.LoadPrivateKey _ _) as [k|]; [|done]. injection Hk as <-. by exists k. }
  clear Hk.
  case_bool_decide; [injection Hr as <-; by split_and!|].
  destruct (Grpc.TrustedSubnetInterceptor _) as [i|]; [|done]. destruct (Server.grpc_listen sinp); [done|].
  injection Hr as <-. by split_and!.
Qed.

(** The sender of the running agent is set up for the router of the running server. *)
Lemma running_setup : matching -> exists h subnet priv,
  Server.router p = Delivery.http_server h (ServerConfig.Key scfg) priv subnet /\
  Handler.svc h = Server.make_service scfg (Server.open_storage scfg sinp).1 /\
  Delivery.setup h (ServerConfig.TrustedSubnet scfg) (ServerConfig.Key scfg) priv subnet s.
Proof using Hserver Hagent Hhttp.
  intros [Hkey Hpair Hsub Hurl]. destruct server_router as (h & subnet & priv & Hr & Hsvc & Hm & Hpriv).
  destruct (AgentMain.agent_running acfg ainp a Hagent) as (_ & _ & _ & _ & _ & _ & Hs). rewrite Hhttp in Hs.
  destruct Hs as (_ & pub & Hpub & ->). exists h, subnet, priv. split_and!; [done|done|]. constructor; [done| | |done|].
  - split; [done|]. cbn [Sender.pubKey Sender.NewSender]. unfold AgentMain.key_loaded, priv_loaded in *.
    destruct Hpair as [He|[Hne Hp]]; [left; by rewrite bool_decide_true in Hpub|].
    case_bool_decide; [by left|]. right. rewrite bool_decide_false in Hpriv by done.
    destruct Hpriv as (k & -> & Hk), Hpub as (k' & -> & Hk'). exists k. split; [done|]. specialize (Hp k Hk). congruence.
  - intros r Hip. unfold trusted, Grpc.trusted in *. by rewrite Hip.
  - rewrite Hsvc. apply make_service_quiet.
Qed.

(** Without a database the storage takes every batch. *)
Definition not_db (st : Server.storage) : Prop := match st with Server.UseDB _ => False | _ => True end.

Lemma notify_not_db s0 st : not_db st -> not_db (MetricService.notifyUpdate (Server.make_service scfg s0) st).
Proof.
  intros Hn. unfold MetricService.notifyUpdate, Server.make_service.
  destruct s0; [done| |done]. destruct (_ =? 0)%Z; [|done]. by destruct st.
Qed.

Lemma call_not_db {A} (g : forall S (I : Storage S), S -> S * A) st : not_db st -> not_db (Server.dispatch g st).1.
Proof. intros Hn. destruct st as [|f|m]; [done| |]; cbn [Server.dispatch]; by destruct (g _ _ _). Qed.

(** An update and the callback after it. *)
Lemma update_not_db s0 (wrap : error -> error) (r : Server.storage * option error) : not_db r.1 ->
  not_db (match r with (st, Some e) => (st, Some (wrap e)) | (st, None) => (MetricService.notifyUpdate (Server.make_service scfg s0) st, None) end).1.
Proof. destruct r as [st [e|]]; [done|]. apply notify_not_db. Qed.

Lemma UpdateBatch_not_db s0 ms st : not_db st ->
  (Service.UpdateBatch ms st).2 = None /\ not_db (MetricService.UpdateBatch (Server.make_service scfg s0) ms st).1.
Proof.
  intros Hn. split; [by destruct st|]. unfold MetricService.UpdateBatch.
  case_bool_decide; [done|]. by apply (update_not_db s0 (Errorf _)), call_not_db.
Qed.

Lemma not_db_closed s0 inp : not_db s0 -> closed not_db (Server.make_service scfg s0) (Server.make_pinger inp s0).
Proof.
  intros Hs0. split.
  - intros mType name value st Hn. unfold MetricService.UpdateMetric.
    repeat case_bool_decide; [destruct (ParseFloat _)|destruct (ParseInt _ _)|]; try done; by apply (update_not_db s0 id), call_not_db.
  - intros m st _ Hn. unfold MetricService.UpdateMetricFromModel.
    repeat case_bool_decide; [destruct (Value m)|destruct (Delta m)|]; try done; by apply (update_not_db s0 (Errorf _)), call_not_db.
  - intros ms st _ Hn. by apply UpdateBatch_not_db.
  - intros mType name st Hn. unfold MetricService.GetMetric. repeat (case_bool_decide; [done|]).
    pose proof (call_not_db (fun _ _ => GetMetric name mType) st Hn) as Hc. cbn [Service.GetMetric Server.storage_Storage].
    by destruct (Server.dispatch _ _) as [st' [x|]].
  - intros mType name st Hn. unfold MetricService.GetValue. repeat (case_bool_decide; [done|]).
    pose proof (call_not_db (fun _ _ => GetValue mType name) st Hn) as Hc. cbn [Service.GetValue Server.storage_Storage].
    by destruct (Server.dispatch _ _) as [st' [x|]].
  - intros st Hn. unfold MetricService.GetAllMetrics. pose proof (call_not_db (fun _ _ => GetAllMetrics) st Hn) as Hc.
    cbn [Service.GetAllMetrics Server.storage_Storage]. by destruct (Server.dispatch _ _) as [st' x].
  - intros q st Hq. by destruct s0.
Qed.

Lemma open_storage_not_db : ServerConfig.DatabaseDSN scfg = "" -> not_db (Server.open_storage scfg sinp).1.
Proof.
  intros Hd. unfold Server.open_storage. rewrite bool_decide_true by done. destruct (Server.start_file scfg sinp).
  by case_bool_decide.
Qed.

(** Whatever a running server has done: typed metrics, no database. *)
Lemma served_state es : ServerConfig.DatabaseDSN scfg = "" -> Forall valid_event es ->
  not_db (st (Server.serve_events p es)).
Proof using Hserver CL GL.
  intros Hd Hes. destruct (main_running scfg sinp p Hserver) as (_ & _ & _ & _ & Hsvc & _).
  eapply serve_events_closed; [exact Hserver| | |by apply open_storage_not_db|done].
  - rewrite Hsvc. by apply not_db_closed, open_storage_not_db.
  - intros _ [d|f|m]; [done| |done]. intros _. cbn [Server.on_file]. by destruct (FileBackedStorage.periodic_tick f).
Qed.

(** The server as the agent's reports find it, after the events [es]. *)
Definition network (es : list Server.event) (random : nat -> Crypto.entropy) : Delivery.net Server.storage :=
  Delivery.MkNet (Server.serve_events p es) [] random 0 [].

(** C2. The system works.  A server without a database and an agent with the HTTP
    transport, each started by its [main] from configurations that fit each other:
    whatever the server has served before, over a network that loses nothing every
    report the agent's sender is given is accepted at once, and the server's storage
    has then been updated with each of them once, in order. *)
Theorem reports_arrive es random addr bs :
  matching -> ServerConfig.DatabaseDSN scfg = "" -> Forall valid_event es ->
  (forall i, Delivery.entropy_ok (random i)) -> Delivery.can_encrypt s (network es random) ->
  Forall Delivery.sendable bs ->
  exists h key priv subnet m,
    Server.router p = Delivery.http_server h key priv subnet /\ holds (st (Server.serve_events p es)) m /\
    let '(n, errs) := Delivery.send_all h key addr priv subnet s bs (network es random) in
    Forall (fun e => e = None) errs /\
    holds (st (Delivery.server n)) (foldl (fun m ms => MemStorage.apply_all ms m) m bs).
Proof using All.
  intros Hmatch Hd Hes Hent Henc Hbs. destruct (running_setup Hmatch) as (h & subnet & priv & Hr & Hsvc & Hset).
  destruct (served_typed scfg sinp p es Hserver Hes (open_without_database scfg sinp Hd)) as [m Hm].
  { intros q st m Hq. pose proof (open_storage_not_db Hd) as Hn. by destruct (Server.open_storage scfg sinp).1. }
  exists h, (ServerConfig.Key scfg), priv, subnet, m. split_and!; [done|done|].
  pose proof (Delivery.send_all_arrive h _ _ addr priv subnet s not_db bs (network es random) m Hset Hbs
    (fun ms st Hn => ltac:(rewrite Hsvc; by apply UpdateBatch_not_db)) (served_state es Hd Hes) Henc Hent eq_refl Hm) as Ha.
  by destruct (Delivery.send_all _ _ _ _ _ _ _ _).
Qed.
End System.

(** ** A run of both *)
Module SystemExamples.
Import HandlerExamples.
#[local] Existing Instances DeliveryExamples.exact_chi DeliveryExamples.exact_chi_laws DeliveryExamples.one_host.
#[local] Existing Instances Crypto.plain Crypto.plain_laws DeliveryExamples.retrygo0.
#[local] Existing Instances ServiceExamples.class08 ServiceExamples.key_order.

(** Two files hold the two halves of the one key. *)
#[local] Instance two_files : KeyFormats := {|
  pem_Decode data := if bool_decide (data = "") then None else Some data;
  ParsePKIXPublicKey block := if bool_decide (block = "PUBLIC") then Ok (RSA tt) else Err (Sentinel sErrSyntax);
  ParsePKCS1PublicKey _ := Err (Sentinel sErrSyntax);
  ParsePKCS1PrivateKey block := if bool_decide (block = "PRIVATE") then Ok tt else Err (Sentinel sErrSyntax);
  ParsePKCS8PrivateKey _ := Err (Sentinel sErrSyntax) |}.

Definition keys_dir (path : string) : res string :=
  if bool_decide (path = "/pub.pem") then Ok "PUBLIC" else if bool_decide (path = "/priv.pem") then Ok "PRIVATE"
  else Err (Sentinel sErrNotExist).

Definition scfg1 : ServerConfig.t := ServerConfig.Mk ":8080" 0 "/m.json" true "" "secret" "" "" "/priv.pem" "10.0.0.0/8" "".
Definition sinp1 : Server.inputs :=
  Server.MkInputs ServerExamples.no_database (DBStorage.Mk ∅ [] []) (fun d => (d, None)) {["/m.json" := ServerExamples.saved]} [] None
    keys_dir None 1700000000.
Definition p1 : Server.process := match Server.main scfg1 sinp1 with Server.Running p => p | _ => ServerExamples.p0 end.

Definition acfg1 : AgentConfig.t := AgentConfig.Mk "server" 2 10 "secret" 3 "/pub.pem" "".
Definition ainp1 : AgentMain.inputs :=
  AgentMain.MkInputs keys_dir (Ok [MkAddr true true (Some "127.0.0.1"); MkAddr true false (Some "10.0.0.7")]) (fun _ => None).
Definition s1 : Sender.t := Sender.NewSender "http://server" "secret" (Some tt) (AgentMain.interface_addrs ainp1).
Definition a1 : AgentMain.process :=
  AgentMain.MkProcess (AgentMain.OverHTTP s1) (2 * Second) (10 * Second) (Agent.start Collector.NewCollector 3).

Lemma p1_runs : Server.main scfg1 sinp1 = Server.Running p1.
Proof. reflexivity. Qed.
Lemma a1_runs : AgentMain.main acfg1 ainp1 = AgentMain.Running a1.
Proof. reflexivity. Qed.

Lemma matching1 : matching scfg1 sinp1 acfg1 ainp1.
Proof.
  split; [by right; right| |by vm_compute|done]. right. split; [done|]. intros k Hk. by destruct k.
Qed.

Definition reports : list (list Metrics) := [[counter_metric "PollCount" 3]; [counter_metric "PollCount" 4; gauge_metric "Load" (F_fin false (3 * 2 ^ 51) (-52))]].

Lemma reports_sendable : Forall Delivery.sendable reports.
Proof. repeat (constructor; [split_and!; [by repeat constructor|by vm_compute..|done]|]). constructor. Qed.

Lemma reports_arrive_witness :
  exists h key priv subnet m,
    let '(n, errs) := Delivery.send_all h key "192.0.2.1:5000" priv subnet s1 reports (network p1 [] (fun _ => Crypto.rnd0)) in
    Forall (fun e => e = None) errs /\
    holds (st (Delivery.server n)) (foldl (fun m ms => MemStorage.apply_all ms m) m reports).
Proof.
  destruct (reports_arrive scfg1 sinp1 p1 acfg1 ainp1 a1 s1 p1_runs a1_runs eq_refl [] (fun _ => Crypto.rnd0) "192.0.2.1:5000"
    reports matching1 eq_refl ltac:(constructor)) as (h & key & priv & subnet & m & _ & _ & Hs).
  - intros i nonce [= <-]. done.
  - intros i text. by vm_compute.
  - exact reports_sendable.
  - by exists h, key, priv, subnet, m.
Defined.

(** The agent of the example; the same with the report interval 0; with a file that
    holds no public key. *)
Lemma agent_start_outcome_witness :
  AgentMain.main acfg1 ainp1 = AgentMain.Running a1 /\
  AgentMain.main (AgentConfig.set_ReportInterval 0 acfg1) ainp1 = AgentMain.Panics /\
  AgentMain.main (AgentConfig.set_CryptoKey "/priv.pem" acfg1) ainp1
  = AgentMain.Fatal "load crypto public key: " (ErrorText ("parse public key " +:+ Quote "/priv.pem" +:+ ": unsupported format")).
Proof.
  assert (AgentMain.key_loaded ainp1 "/pub.pem" (Some (public_of Crypto.priv0))) as Hk by (by exists (public_of Crypto.priv0)).
  assert (forall n, n = 0 \/ n = 2 \/ n = 10 -> - AgentMain.max_seconds <= n <= AgentMain.max_seconds)%Z as Hn.
  { unfold AgentMain.max_seconds. lia. }
  split_and!.
  - apply (proj2 (AgentMain.agent_start_outcome acfg1 ainp1) (Some (public_of Crypto.priv0)) Hk); [by left|apply Hn; auto..].
  - apply (proj2 (AgentMain.agent_start_outcome (AgentConfig.set_ReportInterval 0 acfg1) ainp1) (Some (public_of Crypto.priv0)) Hk); [by left|apply Hn; auto..].
  - by apply (proj1 (AgentMain.agent_start_outcome (AgentConfig.set_CryptoKey "/priv.pem" acfg1) ainp1)).
Defined.
End SystemExamples.
