(* ===== verification/SystemGrpc.v ===== *)
(** * The whole system over gRPC

    As [System], for an agent whose configuration has a gRPC address: its reports reach the
    storage through the interceptor and the gRPC service of the running server. *)

From S2P Require Import Prelude Errors GoInt GoStrings NetIP GoFloat GoFloatFacts Model GoJson Storage Retry DBStore Service FileStore Http AuditTrail Dashboard Handler HandlerFacts Hash Crypto Keys Compress Middleware MiddlewareFacts Sender Delivery Collector Agent Grpc Flags Duration Database Config Server ServerFacts AgentMain System.

#[local] Existing Instance FileBackedStorage.FileBackedStorage_Storage.
#[local] Existing Instance FileBackedStorage.FileBackedStorage_laws.
#[local] Existing Instance Server.storage_Storage.
#[local] Existing Instance Server.storage_laws.

Section Call.
Context {S : Type} `{StorageLaws S} `{UnicodeTables, PgErrorText, Protobuf}.

(** A call that is not lost, from an address of the trusted subnet. *)
Lemma SendBatch_arrives svc cidr i sender ms n :
  Grpc.TrustedSubnetInterceptor cidr = Ok i -> Grpc.trusted cidr (Grpc.localIP sender) = true -> Grpc.script n = [] ->
  Forall (fun x => ValidString (ID x) = true) ms ->
  Grpc.SendBatch (Grpc.call i svc) sender ms n =
  let '(s, r) := Grpc.UpdateMetrics svc (omap Grpc.to_pb ms) (Grpc.server n) in
  (Grpc.MkLink s [], option_map (fun st => Errorf "grpc update metrics: " (ErrorText (Message st))) r).
Proof.
  intros Hi Ht Hn Hu. unfold Grpc.SendBatch, Grpc.call. rewrite pb_wire_utf8, Hn by (by apply Grpc.ids_utf8).
  set (md := if negb (bool_decide (Grpc.localIP sender = "")) then _ else _).
  assert ((match md !! MetadataXRealIP with Some (v :: _) => v | _ => "" end) = Grpc.localIP sender) as Hraw.
  { subst md. case_bool_decide as He; cbn [negb]; [by rewrite lookup_empty|by rewrite lookup_singleton_eq]. }
  assert (forall A (f : unit -> Grpc.unary S) (k : S * option status_error -> A), k (Grpc.intercept i (f tt) md (Grpc.server n)) = k (f tt md (Grpc.server n))) as Hpass.
  { intros A f k. f_equal. revert Hi Ht. unfold Grpc.TrustedSubnetInterceptor, Grpc.trusted. case_bool_decide as Hc; [by intros [= <-]|].
    destruct (ParseCIDR cidr) as [network|]; [|done]. intros [= <-]. cbn [Grpc.intercept orb]. rewrite Hraw.
    destruct (ParseIP (Grpc.localIP sender)) as [ip|]; [|done]. by destruct (Net_Contains network ip). }
  specialize (Hpass _ (fun _ _ => Grpc.UpdateMetrics svc (omap Grpc.to_pb ms)) id). unfold id in Hpass. rewrite Hpass.
  by destruct (Grpc.UpdateMetrics _ _ _) as [s [e|]].
Qed.
End Call.

Section System.
Context `{RetryGo, PgErrCode, RowOrder} `{UnicodeTables, PgErrorText, JsonErrorText, MapRange, Protobuf}.
Context `{CL : ChiLaws, PL : PrimitiveLaws, KF : !KeyFormats, GL : GzipLaws}.

Context (scfg : ServerConfig.t) (sinp : Server.inputs) (p : Server.process) (i : option (Grpc.unary Server.storage -> Grpc.unary Server.storage)).
Context (acfg : AgentConfig.t) (ainp : AgentMain.inputs) (a : AgentMain.process) (s : Grpc.GRPCSender).
Context (Hserver : Server.main scfg sinp = Server.Running p) (Hgrpc : Server.grpc p = Some i).
Context (Hagent : AgentMain.main acfg ainp = AgentMain.Running a) (Hsender : AgentMain.sender a = AgentMain.OverGRPC s).

(** The reports sent one after the other. *)
Fixpoint send_all (bs : list (list Metrics)) (n : Grpc.link) : Grpc.link * list (option error) :=
  match bs with
  | [] => (n, [])
  | ms :: bs =>
      let '(n, e) := Grpc.SendBatch (Grpc.call i (Server.svc p)) s ms n in
      let '(n, es) := send_all bs n in (n, e :: es)
  end.

Definition grpc_sendable (ms : list Metrics) : Prop :=
  Forall (fun x => valid_metric x = true) ms /\ Forall (fun x => ValidString (ID x) = true) ms.

Lemma served_svc : Server.svc p = Server.make_service scfg (Server.open_storage scfg sinp).1.
Proof using Hserver. by destruct (main_running scfg sinp p Hserver) as (_ & _ & _ & _ & Hsvc & _). Qed.

(** One report. *)
Lemma report_arrives ms st m : Grpc.trusted (ServerConfig.TrustedSubnet scfg) (Grpc.localIP s) = true -> not_db st -> holds st m -> grpc_sendable ms ->
  let '(n, e) := Grpc.SendBatch (Grpc.call i (Server.svc p)) s ms (Grpc.MkLink st []) in
  e = None /\ Grpc.script n = [] /\ not_db (Grpc.server n) /\ holds (Grpc.server n) (MemStorage.apply_all ms m).
Proof using Hserver Hgrpc.
  intros Ht Hn Hm [Hv Hu]. destruct (main_running scfg sinp p Hserver) as (_ & _ & _ & _ & _ & _ & _ & _ & _ & _ & _ & Hi).
  rewrite (SendBatch_arrives _ _ i s ms (Grpc.MkLink st []) (Hi i Hgrpc) Ht eq_refl Hu). cbn [Grpc.server].
  destruct (Grpc.convert_to_pb ms) as (ms' & Hc & Ha & Hv'). specialize (Hv' Hv).
  pose proof (Grpc.UpdateMetrics_outcome (Server.svc p) ms ms' st m) as Ho. rewrite served_svc in *.
  specialize (Ho (make_service_quiet _ _) Hm Hc Ha Hv'). unfold Grpc.UpdateMetrics in *. rewrite Hc in *.
  pose proof (UpdateBatch_not_db scfg (Server.open_storage scfg sinp).1 ms' st Hn) as [Hok Hn'].
  unfold MetricService.UpdateBatch in *. case_bool_decide; [by split_and!|].
  destruct (Service.UpdateBatch ms' st) as [st' [e|]]; [done|]. by split_and!.
Qed.

(** C3. The system works over gRPC too.  A server without a database that serves gRPC and
    an agent with a gRPC address, each started by its [main], the agent's address being
    in the trusted subnet: whatever the server has served before, over a connection that
    loses nothing every report the agent's sender is given is accepted, and the server's
    storage has then been updated with each of them once, in order. *)
Theorem grpc_reports_arrive es bs :
  Grpc.trusted (ServerConfig.TrustedSubnet scfg) (Sender.detectLocalIPv4 (AgentMain.interface_addrs ainp)) = true ->
  ServerConfig.DatabaseDSN scfg = "" -> Forall valid_event es -> Forall grpc_sendable bs ->
  exists m, holds (st (Server.serve_events p es)) m /\
    let '(n, errs) := send_all bs (Grpc.MkLink (st (Server.serve_events p es)) []) in
    Forall (fun e => e = None) errs /\ holds (Grpc.server n) (foldl (fun m ms => MemStorage.apply_all ms m) m bs).
Proof using All.
  intros Ht Hd Hes Hbs. destruct (AgentMain.agent_running acfg ainp a Hagent) as (_ & _ & _ & _ & _ & _ & Hs). rewrite Hsender in Hs.
  destruct Hs as [_ Hs]. pose proof (open_storage_not_db scfg sinp Hd) as Hopen.
  destruct (served_typed scfg sinp p es Hserver Hes (open_without_database scfg sinp Hd)) as [m Hm].
  { intros q st m Hq. by destruct (Server.open_storage scfg sinp).1. }
  exists m. split; [done|]. pose proof (served_state scfg sinp p Hserver es Hd Hes) as Hn. revert Hm Hn.
  generalize (st (Server.serve_events p es)) as s0. revert m. induction Hbs as [|ms bs Hms _ IH]; intros m s0 Hm Hn; [done|].
  cbn [send_all foldl]. pose proof (report_arrives ms s0 m ltac:(by rewrite Hs) Hn Hm Hms) as Hr.
  destruct (Grpc.SendBatch _ _ _ _) as [[s1 sc] e]. cbn [Grpc.server Grpc.script] in Hr. destruct Hr as (-> & -> & Hn1 & Hm1).
  specialize (IH _ s1 Hm1 Hn1). destruct (send_all bs _) as [n errs]. destruct IH as [IH1 IH2]. split; [by constructor|done].
Qed.
End System.

(** ** A run of both *)
Module SystemGrpcExamples.
Import HandlerExamples ServerExamples.
#[local] Existing Instances DeliveryExamples.exact_chi DeliveryExamples.exact_chi_laws.
#[local] Existing Instances Crypto.plain Crypto.plain_laws DeliveryExamples.retrygo0.
#[local] Existing Instances ServiceExamples.class08 ServiceExamples.key_order ServerExamples.no_keys.
#[local] Existing Instance Grpc.GrpcExamples.identity_wire.

Definition acfg2 : AgentConfig.t := AgentConfig.Mk "server:8080" 2 10 "" 3 "" "server:3200".
Definition ainp2 : AgentMain.inputs :=
  AgentMain.MkInputs (fun _ => Err (Sentinel sErrNotExist)) (Ok [MkAddr true true (Some "127.0.0.1"); MkAddr true false (Some "10.0.0.7")]) (fun _ => None).
Definition s2 : Grpc.GRPCSender := Grpc.MkGRPCSender (Sender.detectLocalIPv4 (AgentMain.interface_addrs ainp2)).
Definition a2 : AgentMain.process :=
  AgentMain.MkProcess (AgentMain.OverGRPC s2) (2 * Second) (10 * Second) (Agent.start Collector.NewCollector 3).

Lemma a2_runs : AgentMain.main acfg2 ainp2 = AgentMain.Running a2.
Proof. reflexivity. Qed.

Definition reports2 : list (list Metrics) :=
  [[counter_metric "PollCount" 3]; [counter_metric "PollCount" 4; gauge_metric "Load" (F_fin false (3 * 2 ^ 51) (-52))]].

Lemma grpc_reports_arrive_witness : exists m,
  let '(n, errs) := send_all p0 interceptor0 s2 reports2 (Grpc.MkLink (st (Server.serve_events p0 es0)) []) in
  Forall (fun e => e = None) errs /\ holds (Grpc.server n) (foldl (fun m ms => MemStorage.apply_all ms m) m reports2).
Proof.
  destruct (grpc_reports_arrive cfg0 inp0 p0 interceptor0 acfg2 ainp2 a2 s2 p0_runs eq_refl a2_runs eq_refl es0 reports2) as (m & _ & Hs).
  - by vm_compute.
  - done.
  - exact es0_valid.
  - repeat constructor; by vm_compute.
  - by exists m.
Defined.
End SystemGrpcExamples.
