(* ===== verification/FilePath.v ===== *)
(** * path/filepath

    Slash-separated paths: [Clean], [Join], [Dir], [Base], and the trees of
    directory entries [WalkDir] visits. *)

From S2P Require Import Prelude Errors GoInt GoStrings.

Definition slash : Ascii.ascii := "/"%char.

(** The elements between slashes. *)
Fixpoint elements_go (acc s : string) : list string :=
  match s with
  | EmptyString => [acc]
  | String c s => if bool_decide (c = slash) then acc :: elements_go "" s else elements_go (acc +:+ String c "") s
  end.
Definition elements (s : string) : list string := elements_go "" s.

Fixpoint join_slash (l : list string) : string :=
  match l with [] => "" | [x] => x | x :: l => x +:+ "/" +:+ join_slash l end.

(** One element of the path, on the elements already kept, the last first. *)
Definition clean_element (rooted : bool) (kept : list string) (e : string) : list string :=
  if bool_decide (e = "" \/ e = ".") then kept
  else if bool_decide (e = "..") then
    match kept with
    | x :: kept' => if bool_decide (x = "..") then e :: kept else kept'
    | [] => if rooted then [] else [e]
    end
  else e :: kept.

Definition Clean (path : string) : string :=
  let rooted := HasPrefix path "/" in
  let body := join_slash (rev (foldl (clean_element rooted) [] (elements path))) in
  if rooted then "/" +:+ body else if bool_decide (body = "") then "." else body.

(** [filepath.Join(dir, name)]; empty elements are ignored. *)
Definition Join (dir name : string) : string :=
  if bool_decide (dir = "") then (if bool_decide (name = "") then "" else Clean name)
  else if bool_decide (name = "") then Clean dir
  else Clean (dir +:+ "/" +:+ name).

(** The path up to and including its last slash. *)
Definition up_to_slash (path : string) : string :=
  match rev (elements path) with
  | [] | [_] => ""
  | _ :: l => join_slash (rev l) +:+ "/"
  end.

Definition Dir (path : string) : string := Clean (up_to_slash path).

Fixpoint last_element (l : list string) : string :=
  match l with [] => "" | e :: l => if bool_decide (e = "") then last_element l else e end.

Definition Base (path : string) : string :=
  if bool_decide (path = "") then "."
  else match last_element (rev (elements path)) with EmptyString => "/" | e => e end.

Example clean_examples :
  Clean <$> [""; "."; "./internal"; "a//b/./c/../d/"; "/../x"; "../../y/.."; "a/.."] = ["."; "."; "internal"; "a/b/d"; "/x"; "../.."; "."].
Proof. reflexivity. Qed.

Example path_examples :
  Join "." "a.go" = "a.go" /\ Join "./x" "a.go" = "x/a.go" /\ Dir "a.go" = "." /\ Dir "x/y/a.go" = "x/y" /\ Dir "/a" = "/" /\
  Base "x/y/" = "y" /\ Base "." = "." /\ Base "/" = "/".
Proof. repeat split. Qed.

(** ** [filepath.WalkDir]

    A directory has its entries in the order [os.ReadDir] gives them, by name, and
    the error of reading it, if any. *)
Inductive node :=
| File
| Directory (entries : list (string * node)) (unreadable : option error).

Definition IsDir (n : node) : bool := match n with Directory _ _ => true | File => false end.

(** What the callback answers. *)
Inductive walk_answer := Continue | SkipDir | Stop (err : error).

Section WalkDir.
Context {S : Type} (fn : S -> string -> string -> bool -> option error -> S * walk_answer).

(** [fn] gets the state, the path, the entry's name, whether it is a directory and
    an error. *)
Fixpoint walkDir (path name : string) (n : node) (s : S) : S * walk_answer :=
  let '(s, a) := fn s path name (IsDir n) None in
  match a, n with
  | SkipDir, Directory _ _ => (s, Continue)
  | SkipDir, File | Stop _, _ | Continue, File => (s, a)
  | Continue, Directory entries unreadable =>
      let visit s :=
        (fix children (l : list (string * node)) (s : S) : S * walk_answer :=
           match l with
           | [] => (s, Continue)
           | (name, n) :: l =>
               match walkDir (Join path name) name n s with
               | (s, Continue) => children l s
               | (s, SkipDir) => (s, Continue)
               | (s, Stop err) => (s, Stop err)
               end
           end) entries s in
      match unreadable with
      | None => visit s
      | Some err =>
          match fn s path name true (Some err) with
          | (s, Continue) => visit s
          | (s, SkipDir) => (s, Continue)
          | (s, Stop err) => (s, Stop err)
          end
      end
  end.

(** From the root; [None] stands for a root that cannot be examined. *)
Definition WalkDir (root : string) (tree : res node) (s : S) : S * option error :=
  match (match tree with
         | Err err => fn s root (Base root) false (Some err)
         | Ok n => walkDir root (Base root) n s
         end) with
  | (s, Stop err) => (s, Some err)
  | (s, _) => (s, None)
  end.
End WalkDir.
