(* ===== verification/GoTypes.v ===== *)
(** * go/types, as far as the Reset generator uses it

    Types, the declarations of named types, [Underlying], and the method set of a
    type with promotion through embedded fields ([types.NewMethodSet]), looked up
    at the one name the generator asks for. *)

From S2P Require Import Prelude Errors GoInt GoStrings.

Inductive kind :=
| KInvalid | KBool | KInt | KInt8 | KInt16 | KInt32 | KInt64
| KUint | KUint8 | KUint16 | KUint32 | KUint64 | KUintptr
| KFloat32 | KFloat64 | KComplex64 | KComplex128 | KString | KUnsafePointer
| KUntypedBool | KUntypedString.

#[export] Instance kind_eq_dec : EqDecision kind.
Proof. solve_decision. Defined.

(** The object of a named type: the path of its package ([None] in the universe
    scope), its name, and the type arguments of an instantiated generic type. *)
Record type_name := MkName { n_pkg : option string; n_name : string; n_inst : string }.

#[export] Instance type_name_eq_dec : EqDecision type_name.
Proof. solve_decision. Defined.
#[export] Program Instance type_name_countable : Countable type_name :=
  inj_countable' (fun n => (n_pkg n, n_name n, n_inst n)) (fun x => MkName x.1.1 x.1.2 x.2) _.
Next Obligation. by intros []. Qed.

Record method := MkMethod { m_name : string; m_ptr : bool; m_params : nat; m_results : nat }.

#[export] Instance method_eq_dec : EqDecision method.
Proof. solve_decision. Defined.

Inductive gtype :=
| Basic (k : kind)
| Named (n : type_name)
| Alias (n : type_name) (actual : gtype)
| Pointer (elem : gtype)
| Slice (elem : gtype)
| Array (len : Z) (elem : gtype)
| Map (key elem : gtype)
| Chan (elem : gtype)
| Signature
| Interface (methods : list method)
| TypeParam (name : string)
| Struct (fields : list (string * gtype * bool)).

(** A struct field: name, type, and whether it is embedded. *)
Abbreviation field := (string * gtype * bool)%type.

(** [types.Unalias]. *)
Fixpoint Unalias (t : gtype) : gtype := match t with Alias _ t => Unalias t | _ => t end.

(** [types.Identical], field tags aside: aliases are transparent. *)
Fixpoint Identical (a b : gtype) {struct a} : bool :=
  match a, Unalias b with
  | Alias _ a, _ => Identical a b
  | Basic k, Basic k' => bool_decide (k = k')
  | Named n, Named n' => bool_decide (n = n')
  | Pointer a, Pointer b | Slice a, Slice b | Chan a, Chan b => Identical a b
  | Array n a, Array n' b => (n =? n')%Z && Identical a b
  | Map k a, Map k' b => Identical k k' && Identical a b
  | Signature, Signature => true
  | Interface ms, Interface ms' => bool_decide (ms = ms')
  | TypeParam x, TypeParam y => bool_decide (x = y)
  | Struct fs, Struct gs =>
      (fix fields (fs gs : list field) {struct fs} :=
         match fs, gs with
         | [], [] => true
         | (f, t, e) :: fs, (g, u, e') :: gs => bool_decide (f = g) && bool_decide (e = e') && Identical t u && fields fs gs
         | _, _ => false
         end) fs gs
  | _, _ => false
  end.

(** Declarations of named types: the methods declared on them and the type they
    stand for, never itself a named type. *)
Record decl := MkDecl { d_methods : list method; d_underlying : gtype }.

Class Universe := { decls : gmap type_name decl }.

Section Lookup.
Context `{Universe}.

Definition methods_of (n : type_name) : list method := match decls !! n with Some d => d_methods d | None => [] end.

(** [t.Underlying()]. *)
Definition Underlying (t : gtype) : gtype :=
  match Unalias t with
  | Named n => match decls !! n with Some d => d_underlying d | None => Struct [] end
  | u => u
  end.

Definition deref (t : gtype) : gtype * bool :=
  match Unalias t with Pointer e => (e, true) | _ => (t, false) end.

Definition IsInterface (t : gtype) : bool :=
  match Underlying t with Interface _ | TypeParam _ => true | _ => false end.

(** ** [types.NewMethodSet] at one name

    Breadth first through embedded fields.  An embedded type of the current depth,
    with what reaches it. *)
Record embedded := MkEmbedded { e_typ : gtype; e_indirect : bool; e_multiples : bool }.

(** What the current depth knows of the name: nothing, a collision, a method. *)
Inductive slot := Absent | Collision | Found (m : method).

(** [methodSet.addOne]. *)
Definition addOne (name : string) (indirect multiples : bool) (s : slot) (m : method) : slot :=
  if bool_decide (m_name m = name) then
    match s with
    | Absent => if negb multiples && (indirect || negb (m_ptr m)) then Found m else Collision
    | _ => Collision
    end
  else s.

(** The state of one pass over a depth. *)
Record pass := MkPass { p_seen : list type_name; p_slot : slot; p_field : bool; p_next : list embedded }.

Definition visit_fields (name : string) (e : embedded) (fs : list field) (p : pass) : pass :=
  foldl (fun p '(f, t, emb) =>
    let p := MkPass (p_seen p) (p_slot p) (p_field p || bool_decide (f = name)) (p_next p) in
    if emb : bool then
      let '(t, isPtr) := deref t in
      MkPass (p_seen p) (p_slot p) (p_field p) (p_next p ++ [MkEmbedded t (e_indirect e || isPtr) (e_multiples e)])
    else p) p fs.

Definition visit_under (name : string) (e : embedded) (p : pass) : pass :=
  match Underlying (e_typ e) with
  | Struct fs => visit_fields name e fs p
  | Interface ms => MkPass (p_seen p) (foldl (addOne name true (e_multiples e)) (p_slot p) ms) (p_field p) (p_next p)
  | _ => p
  end.

Definition visit (name : string) (p : pass) (e : embedded) : pass :=
  match Unalias (e_typ e) with
  | Named n =>
      if bool_decide (n ∈ p_seen p) then p
      else visit_under name e
        (MkPass (n :: p_seen p) (foldl (addOne name (e_indirect e) (e_multiples e)) (p_slot p) (methods_of n)) (p_field p) (p_next p))
  | _ => visit_under name e p
  end.

Definition consolidateMultiples (l : list embedded) : list embedded :=
  foldl (fun acc e =>
    if existsb (fun e' => Identical (e_typ e') (e_typ e)) acc
    then (fun e' => if Identical (e_typ e') (e_typ e) then MkEmbedded (e_typ e') (e_indirect e') true else e') <$> acc
    else acc ++ [e]) [] l.

Fixpoint method_at (fuel : nat) (name : string) (seen : list type_name) (current : list embedded) : option method :=
  match fuel, current with
  | O, _ | _, [] => None
  | S fuel, _ =>
      let p := foldl (visit name) (MkPass seen Absent false []) current in
      match p_slot p, p_field p with
      | Found m, false => Some m
      | Absent, false => method_at fuel name (p_seen p) (consolidateMultiples (p_next p))
      | _, _ => None
      end
  end.

(** Enough depths for every chain of embedded fields. *)
Fixpoint type_size (t : gtype) : nat :=
  match t with
  | Alias _ t | Pointer t | Slice t | Array _ t | Chan t => S (type_size t)
  | Map k t => S (type_size k + type_size t)
  | Struct fs => S (foldr (fun '(_, t, _) n => type_size t + n) 0 fs)
  | _ => 1
  end.

Definition decls_size : nat := map_fold (fun _ d n => type_size (d_underlying d) + n) 0 decls.
Definition depths (t : gtype) : nat := S (type_size t + decls_size).

Definition LookupMethod (name : string) (t : gtype) : option method :=
  let '(typ, isPtr) := deref t in
  if isPtr && IsInterface typ then None
  else method_at (depths typ) name [] [MkEmbedded typ isPtr false].
End Lookup.
