(* ===== verification/ResetGen.v ===== *)
(** * cmd/reset: the generator of Reset methods

    Finding the marked structs, choosing the statements that reset a field, the
    text of the file, and the walk over the directories.  [packages.Load] and
    [go/format] are inputs. *)

From S2P Require Import Prelude Errors GoInt GoStrings GoSort GoTypes FilePath.

(** Lower case of the letters beyond ASCII is a table of package [unicode]. *)
Class UnicodeLower := { ToLower_table : Z -> Z }.

Definition nl : string := String (char_of 10) "".
Definition tab : string := String (char_of 9) "".
Definition empty_literal : string := String dquote (String dquote "").

Definition Marker : string := "generate:reset".
Definition GeneratedFile : string := "reset.gen.go".
Definition generatedHeader : string := "// Code generated by cmd/reset; DO NOT EDIT.".

Module Generate.

(** ** The package, as [packages.Load] gives it *)

(** A comment group is the list of its comments, with their markers. *)
Abbreviation comment_group := (list string).

Inductive spec :=
| TypeSpec (Doc : option comment_group) (Name : string) (is_struct : bool)
| OtherSpec.

Inductive token := IMPORT | CONST | TYPE | VAR.

#[export] Instance token_eq_dec : EqDecision token.
Proof. solve_decision. Defined.

Inductive ast_decl :=
| GenDecl (Tok : token) (Doc : option comment_group) (Specs : list spec)
| FuncDecl.

Record Package := MkPackage {
  pkg_name : string;
  PkgPath : string;
  pkg_errors : list string;
  Syntax : list (list ast_decl);     (** the declarations of each file *)
  scope : gmap string gtype;         (** the types of the package-level objects *)
  types : Universe
}.

(** ** [findMarked] *)

Record markedStruct := MkMarked { name : string; fields : list (string * gtype) }.

Definition comment_line (text : string) : string :=
  let line := TrimSpace (TrimPrefix text "//") in
  let line := TrimSpace (TrimPrefix line "/*") in
  TrimSpace (TrimSuffix line "*/").

Definition hasMarker (cg : option comment_group) : bool :=
  match cg with
  | None => false
  | Some texts => existsb (fun text => bool_decide (comment_line text = Marker)) texts
  end.

Definition marked_spec (doc : option comment_group) (alone : bool) (s : spec) : list string :=
  match s with
  | TypeSpec d name is_struct =>
      let d := match d with None => if alone then doc else None | Some _ => d end in
      if hasMarker d && is_struct then [name] else []
  | OtherSpec => []
  end.

Definition marked_decl (d : ast_decl) : list string :=
  match d with
  | GenDecl TYPE doc specs => specs ≫= marked_spec doc (bool_decide (length specs = 1))
  | _ => []
  end.

(** The map [names]. *)
Definition marked_names (pkg : Package) : gmap string bool :=
  foldl (fun m n => <[n := true]> m) ∅ (Syntax pkg ≫= fun file => file ≫= marked_decl).

Definition lookup_marked (pkg : Package) (n : string) : option markedStruct :=
  match scope pkg !! n with
  | Some (Named tn) =>
      match @Underlying (types pkg) (Named tn) with
      | Struct fs => Some (MkMarked n (fst <$> fs))
      | _ => None
      end
  | _ => None
  end.

Definition less (a b : markedStruct) : bool := str_lt (name a) (name b).

(** The loop over the names, in the order the map gives them. *)
Definition findMarked_ordered (pkg : Package) (order : list (string * bool)) : list markedStruct :=
  sort less (omap (fun e => lookup_marked pkg e.1) order).

Definition findMarked `{MapRange} (pkg : Package) : list markedStruct :=
  if bool_decide (marked_names pkg = ∅) then [] else findMarked_ordered pkg (range (marked_names pkg)).

(** ** [resetField] *)

Definition basicZero (k : kind) : string :=
  match k with
  | KBool | KUntypedBool => "false"
  | KString | KUntypedString => empty_literal
  | _ => "0"
  end.

Section Fields.
Context `{Universe} (markedSet : list string) (pkgPath : string).

Definition hasResetMethod (t : gtype) : bool :=
  match LookupMethod "Reset" t with
  | Some m => bool_decide (m_params m = 0) && bool_decide (m_results m = 0)
  | None => false
  end.

Definition hasOrWillHaveReset (t : gtype) : bool :=
  let probe := match t with Pointer _ => t | _ => Pointer t end in
  hasResetMethod probe ||
  match (match t with Pointer e => e | _ => t end) with
  | Named n => bool_decide (n_pkg n = Some pkgPath) && bool_decide (n_name n ∈ markedSet)
  | _ => false
  end.

Definition resetField (recv name : string) (t : gtype) : list string :=
  let expr := recv +:+ "." +:+ name in
  if hasOrWillHaveReset t then
    match t with
    | Pointer _ => ["if " +:+ expr +:+ " != nil {"; tab +:+ expr +:+ ".Reset()"; "}"]
    | _ => [expr +:+ ".Reset()"]
    end
  else
    match t with
    | Basic k => [expr +:+ " = " +:+ basicZero k]
    | Slice _ => [expr +:+ " = " +:+ expr +:+ "[:0]"]
    | Map _ _ => ["clear(" +:+ expr +:+ ")"]
    | Pointer elem =>
        match Underlying elem with
        | Basic k => ["if " +:+ expr +:+ " != nil {"; tab +:+ "*" +:+ expr +:+ " = " +:+ basicZero k; "}"]
        | _ => []
        end
    | Named n =>
        match Underlying t with
        | Basic k => [expr +:+ " = " +:+ basicZero k]
        | Slice _ => [expr +:+ " = " +:+ expr +:+ "[:0]"]
        | Map _ _ => ["clear(" +:+ expr +:+ ")"]
        | _ => []
        end
    | _ => []
    end.
End Fields.

(** ** [buildFile] *)

Section Files.
Context `{UnicodeLower}.

Definition ToLower (r : Z) : Z := if (r <? 0x80)%Z then (if in_range 65 90 r then r + 32 else r)%Z else ToLower_table r.

Definition receiverName (typeName : string) : string :=
  match typeName with EmptyString => "r" | _ => EncodeRune (ToLower (DecodeRune typeName).1) end.

Definition method_text (pkg : Package) (markedSet : list string) (m : markedStruct) : string :=
  let recv := receiverName (name m) in
  concat_strings
    (["// Reset zeros the fields of " +:+ name m +:+ "; safe to call on a nil receiver." +:+ nl;
      "func (" +:+ recv +:+ " *" +:+ name m +:+ ") Reset() {" +:+ nl;
      tab +:+ "if " +:+ recv +:+ " == nil {" +:+ nl +:+ tab +:+ tab +:+ "return" +:+ nl +:+ tab +:+ "}" +:+ nl] ++
     (fields m ≫= fun '(f, t) =>
        (fun line => tab +:+ line +:+ nl) <$> @resetField (types pkg) markedSet (PkgPath pkg) recv f t) ++
     ["}" +:+ nl; nl]).

Definition file_text (pkg : Package) (marked : list markedStruct) : string :=
  concat_strings
    ([generatedHeader +:+ nl; nl; "package " +:+ pkg_name pkg +:+ nl +:+ nl] ++
     (method_text pkg (name <$> marked) <$> marked)).

(** [format_Source] is [format.Source]. *)
Definition buildFile (format_Source : string -> res string) (pkg : Package) (marked : list markedStruct) : res string :=
  match format_Source (file_text pkg marked) with
  | Ok formatted => Ok formatted
  | Err err => Err (Errorf "format: " err)
  end.

(** ** [goDirs] *)

Definition skipped (base : string) : bool :=
  HasPrefix base "." || bool_decide (base ∈ ["vendor"; "testdata"; "node_modules"]).

Definition go_file (base : string) : bool := HasSuffix base ".go" && negb (HasSuffix base "_test.go").

(** The callback; the state is [dirs], whose elements are those of [seen]. *)
Definition visit_entry (root : string) (dirs : list string) (path base : string) (is_dir : bool) (err : option error) :
    list string * walk_answer :=
  match err with
  | Some err => (dirs, Stop err)
  | None =>
      if is_dir then (dirs, if negb (bool_decide (path = root)) && skipped base then SkipDir else Continue)
      else if negb (go_file base) then (dirs, Continue)
      else (if bool_decide (Dir path ∈ dirs) then dirs else dirs ++ [Dir path], Continue)
  end.

Definition goDirs (root : string) (tree : res node) : res (list string) :=
  match WalkDir (visit_entry root) root tree [] with
  | (_, Some err) => Err err
  | (dirs, None) => Ok (Strings dirs)
  end.

(** ** [Run] *)

Context `{MapRange} `{UnicodeTables, PgErrorText}.

(** What a run finds: the tree under the root, the packages of a directory given
    the generated files written so far, the formatter, and the failures of
    [os.WriteFile]. *)
Record environment := MkEnvironment {
  tree : res node;
  Load : gmap string string -> string -> res (list Package);
  format_Source : string -> res string;
  WriteFile : string -> option error
}.

(** [None] when the package has no marked structs. *)
Definition generatePackage (env : environment) (files : gmap string string) (dir : string) : res (option string) :=
  match Load env files dir with
  | Err err => Err err
  | Ok [] => Ok None
  | Ok (pkg :: _) =>
      match pkg_errors pkg with
      | e :: _ => Err (ErrorText ("load " +:+ PkgPath pkg +:+ ": " +:+ e))
      | [] =>
          match findMarked pkg with
          | [] => Ok None
          | marked => Some <$> buildFile (format_Source env) pkg marked
          end
      end
  end.

(** The loop over the directories; the files written, and the error that ended it. *)
Fixpoint run_dirs (env : environment) (dirs : list string) (files : gmap string string) : gmap string string * option error :=
  match dirs with
  | [] => (files, None)
  | dir :: dirs =>
      match generatePackage env files dir with
      | Err err => (files, Some (Errorf (dir +:+ ": ") err))
      | Ok None => run_dirs env dirs files
      | Ok (Some data) =>
          let out := Join dir GeneratedFile in
          match WriteFile env out with
          | Some err => (files, Some (Errorf ("write " +:+ out +:+ ": ") err))
          | None => run_dirs env dirs (<[out := data]> files)
          end
      end
  end.

Definition Run (env : environment) (rootDir : string) (files : gmap string string) : gmap string string * option error :=
  match goDirs rootDir (tree env) with
  | Err err => (files, Some err)
  | Ok dirs => run_dirs env dirs files
  end.
End Files.
End Generate.
