(* ===== verification/ResetExec.v ===== *)
(** * What the generated Reset methods do

    The statements behind the generated text, a memory of Go values, and the
    execution of a generated method on it.  Writing through a name that Go does not
    let the program use, or a literal of the wrong type, is [Stuck]: such a file
    does not compile. *)

From S2P Require Import Prelude Errors GoInt GoStrings GoTypes ResetGen.
Import Generate.

(** ** Statements *)

(** What is done to one field. *)
Inductive stmt :=
| Assign (k : kind)          (** [x = zero] *)
| Truncate                   (** [x = x[:0]] *)
| ClearMap                   (** [clear(x)] *)
| CallReset                  (** [x.Reset()] *)
| IfCallReset                (** [if x != nil { x.Reset() }] *)
| IfAssignTarget (k : kind). (** [if x != nil { *x = zero }] *)

Definition print_stmt (expr : string) (s : stmt) : list string :=
  match s with
  | Assign k => [expr +:+ " = " +:+ basicZero k]
  | Truncate => [expr +:+ " = " +:+ expr +:+ "[:0]"]
  | ClearMap => ["clear(" +:+ expr +:+ ")"]
  | CallReset => [expr +:+ ".Reset()"]
  | IfCallReset => ["if " +:+ expr +:+ " != nil {"; tab +:+ expr +:+ ".Reset()"; "}"]
  | IfAssignTarget k => ["if " +:+ expr +:+ " != nil {"; tab +:+ "*" +:+ expr +:+ " = " +:+ basicZero k; "}"]
  end.

(** ** Memory *)

(** An address: an object and a path of fields in it. *)
Abbreviation addr := (positive * list string)%type.

(** Go values.  A number of any width is the integer of its bits; channels,
    functions, interfaces, arrays and unsafe pointers are opaque. *)
Inductive value :=
| VBool (b : bool)
| VNum (bits : Z)
| VString (s : string)
| VPointer (p : option addr)
| VSlice (array : option addr) (len cap : Z)
| VMap (m : option positive)
| VStruct (fs : list (string * value))
| VOther (id : nat).

Definition is_zero (v : value) : Prop := v = VBool false \/ v = VNum 0 \/ v = VString "".

(** Objects, and the entries of maps. *)
Record memory := MkMemory { objects : gmap positive value; mapdata : gmap positive (list (value * value)) }.

Fixpoint assoc {A} (f : string) (l : list (string * A)) : option A :=
  match l with [] => None | (g, x) :: l => if bool_decide (g = f) then Some x else assoc f l end.

Fixpoint set_assoc {A} (f : string) (x : A) (l : list (string * A)) : list (string * A) :=
  match l with [] => [] | (g, y) :: l => if bool_decide (g = f) then (g, x) :: l else (g, y) :: set_assoc f x l end.

Fixpoint get (p : list string) (v : value) : option value :=
  match p with
  | [] => Some v
  | f :: p => match v with VStruct fs => assoc f fs ≫= get p | _ => None end
  end.

(** Replace what is at a path. *)
Fixpoint put (p : list string) (g : value -> option value) (v : value) : option value :=
  match p with
  | [] => g v
  | f :: p =>
      match v with
      | VStruct fs => x ← assoc f fs; y ← put p g x; Some (VStruct (set_assoc f y fs))
      | _ => None
      end
  end.

Definition read (m : memory) (a : addr) : option value := objects m !! a.1 ≫= get a.2.
Definition update (m : memory) (a : addr) (g : value -> option value) : option memory :=
  v ← objects m !! a.1; v' ← put a.2 g v; Some (MkMemory (<[a.1 := v']> (objects m)) (mapdata m)).
Definition field_addr (a : addr) (f : string) : addr := (a.1, a.2 ++ [f]).

(** The zero literal of a basic type over a value. *)
Definition assign (k : kind) (v : value) : option value :=
  match v with
  | VBool _ => if bool_decide (k ∈ [KBool; KUntypedBool]) then Some (VBool false) else None
  | VString _ => if bool_decide (k ∈ [KString; KUntypedString]) then Some (VString "") else None
  | VNum _ => if bool_decide (k ∈ [KBool; KUntypedBool; KString; KUntypedString]) then None else Some (VNum 0)
  | _ => None
  end.

Definition truncate (v : value) : option value :=
  match v with VSlice arr _ cap => Some (VSlice arr 0 cap) | _ => None end.

(** ** Execution *)

Inductive outcome := Done (m : memory) | Stuck | NoFuel.

Definition of_option (m : option memory) : outcome := match m with Some m => Done m | None => Stuck end.

(** The Reset methods the generator did not write: on a value of the type at an
    address, and what they establish there. *)
Class OtherResets := {
  other_Reset : gtype -> addr -> memory -> outcome;
  other_clean : gtype -> addr -> memory -> Prop
}.

Section Exec.
Context `{Universe, UnicodeLower, OtherResets} (markedSet : list string) (pkgPath : string).

(** The statement [resetField] prints for a field of type [t]. *)
Definition field_stmt (t : gtype) : option stmt :=
  if hasOrWillHaveReset markedSet pkgPath t then Some (match t with Pointer _ => IfCallReset | _ => CallReset end)
  else
    match t with
    | Basic k => Some (Assign k)
    | Slice _ => Some Truncate
    | Map _ _ => Some ClearMap
    | Pointer elem => match Underlying elem with Basic k => Some (IfAssignTarget k) | _ => None end
    | Named _ =>
        match Underlying t with
        | Basic k => Some (Assign k)
        | Slice _ => Some Truncate
        | Map _ _ => Some ClearMap
        | _ => None
        end
    | _ => None
    end.

(** A type the run generates a method for. *)
Definition marked_type (n : type_name) : bool :=
  bool_decide (n_pkg n = Some pkgPath) && bool_decide (n_name n ∈ markedSet).

Definition callee (t : gtype) : option type_name :=
  match Unalias t with Named n => if marked_type n then Some n else None | _ => None end.

Definition struct_fields (n : type_name) : list (string * gtype) :=
  match Underlying (Named n) with Struct fs => fst <$> fs | _ => [] end.

Definition base (t : gtype) : gtype := match t with Pointer e => e | _ => t end.

Definition exec_stmt (call : gtype -> addr -> memory -> outcome) (x : addr) (t : gtype) (s : stmt) (m : memory) : outcome :=
  match s with
  | Assign k => of_option (update m x (assign k))
  | Truncate => of_option (update m x truncate)
  | ClearMap =>
      match read m x with
      | Some (VMap None) => Done m
      | Some (VMap (Some l)) =>
          match mapdata m !! l with Some _ => Done (MkMemory (objects m) (<[l := []]> (mapdata m))) | None => Stuck end
      | _ => Stuck
      end
  | CallReset => call (base t) x m
  | IfCallReset =>
      match read m x with
      | Some (VPointer None) => Done m
      | Some (VPointer (Some y)) => call (base t) y m
      | _ => Stuck
      end
  | IfAssignTarget k =>
      match read m x with
      | Some (VPointer None) => Done m
      | Some (VPointer (Some y)) => of_option (update m y (assign k))
      | _ => Stuck
      end
  end.

Fixpoint run_fields (call : gtype -> addr -> memory -> outcome) (a : addr) (fs : list (string * gtype)) (m : memory) : outcome :=
  match fs with
  | [] => Done m
  | (f, t) :: fs =>
      match field_stmt t with
      | None => run_fields call a fs m
      | Some s =>
          if bool_decide (f = "_") then Stuck
          else
            match exec_stmt call (field_addr a f) t s m with
            | Done m => run_fields call a fs m
            | o => o
            end
      end
  end.

(** [p.Reset()] for a marked type; the fuel bounds the depth of the calls. *)
Fixpoint Reset (fuel : nat) (n : type_name) (p : option addr) (m : memory) : outcome :=
  match fuel with
  | O => NoFuel
  | S fuel =>
      if bool_decide (receiverName (n_name n) = "_") then Stuck
      else
        match p with
        | None => Done m
        | Some a =>
            run_fields (fun t y m => match callee t with Some n' => Reset fuel n' (Some y) m | None => other_Reset t y m end)
              a (struct_fields n) m
        end
  end.
End Exec.
