(* ===== verification/ResetFacts.v ===== *)
(** * What the Reset generator guarantees

    A generated method only empties values, and leaves the object clean; it returns
    exactly when the objects it calls Reset on form no cycle. *)

From S2P Require Import Prelude Errors GoInt GoStrings GoTypes ResetGen ResetExec.
Import Generate.

(** ** Emptying *)

(** What may become of a value: itself, or its empty form. *)
Definition emptied (v v' : value) : Prop :=
  match v, v' with
  | VBool b, VBool b' => b' = b \/ b' = false
  | VNum z, VNum z' => z' = z \/ z' = 0%Z
  | VString s, VString s' => s' = s \/ s' = ""
  | VPointer p, VPointer p' => p' = p
  | VSlice arr len cap, VSlice arr' len' cap' => arr' = arr /\ cap' = cap /\ (len' = len \/ len' = 0%Z)
  | VMap l, VMap l' => l' = l
  | VStruct fs, VStruct fs' => fs'.*1 = fs.*1
  | VOther x, VOther x' => x' = x
  | _, _ => False
  end.

Lemma emptied_refl v : emptied v v.
Proof. destruct v; cbn; auto. Qed.
Lemma emptied_trans v1 v2 v3 : emptied v1 v2 -> emptied v2 v3 -> emptied v1 v3.
Proof. destruct v1, v2, v3; cbn; try done; intuition congruence. Qed.

Abbreviation emptied_opt := (option_Forall2 emptied).

(** [wiped m m']: memory [m'] is [m] with some values and maps emptied; pointers and
    everything opaque are the same. *)
Definition wiped (m m' : memory) : Prop :=
  (forall a, emptied_opt (read m a) (read m' a)) /\
  forall l, mapdata m' !! l = mapdata m !! l \/ is_Some (mapdata m !! l) /\ mapdata m' !! l = Some [].

#[export] Instance wiped_preorder : PreOrder wiped.
Proof.
  split.
  - intros m. split; [|auto]. intros a. destruct (read m a); constructor. apply emptied_refl.
  - intros m1 m2 m3 [H1 H2] [H3 H4]. split.
    + intros a. specialize (H3 a). destruct (H1 a) as [v1 v2 Hv|]; inversion H3; subst; constructor.
      by eapply emptied_trans.
    + intros l. destruct (H4 l) as [->|[Hs ->]]; [apply H2|]. right. split; [|done].
      destruct (H2 l) as [<-|[? _]]; done.
Qed.

(** ** Reading and writing *)

Lemma assoc_set_assoc {A} f (x y : A) fs : assoc f fs = Some x -> assoc f (set_assoc f y fs) = Some y.
Proof.
  induction fs as [|[g z] fs IH]; cbn; [done|]. case_bool_decide; cbn; intros.
  - by rewrite bool_decide_true.
  - rewrite bool_decide_false by done. auto.
Qed.
Lemma assoc_set_assoc_ne {A} f g (y : A) fs : f <> g -> assoc f (set_assoc g y fs) = assoc f fs.
Proof.
  intros Hne. induction fs as [|[h z] fs IH]; cbn; [done|]. case_bool_decide; cbn.
  - by rewrite bool_decide_false by congruence.
  - by rewrite IH.
Qed.
Lemma set_assoc_keys {A} f (y : A) fs : (set_assoc f y fs).*1 = fs.*1.
Proof. induction fs as [|[g z] fs IH]; cbn; [done|]. case_bool_decide; cbn; by rewrite ?IH. Qed.

Lemma put_get p g v v' : put p g v = Some v' ->
  exists x y, get p v = Some x /\ g x = Some y /\ get p v' = Some y.
Proof.
  revert v v'. induction p as [|f p IH]; intros v v'; cbn; [eauto|]. destruct v; try done.
  rewrite bind_Some. intros (x & Hx & Hp). apply bind_Some in Hp as (y & Hy & [= <-]).
  destruct (IH _ _ Hy) as (u & w & Hu & Hw & Hg). exists u, w. rewrite Hx. cbn.
  by rewrite (assoc_set_assoc _ _ _ _ Hx).
Qed.

Lemma put_total p g v x y : get p v = Some x -> g x = Some y -> is_Some (put p g v).
Proof.
  revert v. induction p as [|f p IH]; intros v; cbn; [naive_solver|]. destruct v; try done.
  rewrite bind_Some. intros (z & -> & Hz) Hg. cbn. destruct (IH _ Hz Hg) as [w ->]. by eexists.
Qed.

(** Writing an emptied scalar empties what is read anywhere. *)
Lemma put_emptied p g v v' : put p g v = Some v' ->
  (forall x y q, g x = Some y -> emptied_opt (get q x) (get q y)) ->
  forall q, emptied_opt (get q v) (get q v').
Proof.
  intros Hp Hg. revert v v' Hp. induction p as [|f p IH]; intros v v' Hp q; cbn in Hp; [eauto|].
  destruct v; try done. apply bind_Some in Hp as (x & Hx & Hp). apply bind_Some in Hp as (y & Hy & [= <-]).
  destruct q as [|f' q]; cbn.
  - constructor. cbn. apply set_assoc_keys.
  - destruct (decide (f' = f)) as [->|Hne].
    + rewrite Hx, (assoc_set_assoc _ _ _ _ Hx). cbn. by apply IH.
    + rewrite assoc_set_assoc_ne by done. destruct (assoc f' fs ≫= get q); constructor. apply emptied_refl.
Qed.

Lemma update_wiped m x g m' : update m x g = Some m' ->
  (forall u w q, g u = Some w -> emptied_opt (get q u) (get q w)) ->
  wiped m m' /\ exists u w, read m x = Some u /\ g u = Some w /\ read m' x = Some w.
Proof.
  unfold update. intros (v & Hv & Hu)%bind_Some Hg. apply bind_Some in Hu as (v' & Hp & [= <-]). split.
  - split; cbn; [|auto]. intros [l p]. unfold read. cbn. destruct (decide (l = x.1)) as [->|Hne].
    + rewrite lookup_insert_eq, Hv. cbn. by eapply put_emptied.
    + rewrite lookup_insert_ne by done. destruct (objects m !! l ≫= get p); constructor. apply emptied_refl.
  - destruct (put_get _ _ _ _ Hp) as (u & w & Hu & Hw & Hg'). exists u, w. unfold read.
    rewrite Hv. cbn. by rewrite lookup_insert_eq.
Qed.

Lemma update_total m x g u w : read m x = Some u -> g u = Some w -> is_Some (update m x g).
Proof.
  unfold read, update. intros (v & -> & Hu)%bind_Some Hg. cbn. destruct (put_total _ _ _ _ _ Hu Hg) as [v' ->]. by eexists.
Qed.

Lemma assign_emptied k u w q : assign k u = Some w -> emptied_opt (get q u) (get q w).
Proof. destruct u; cbn; intros; try case_bool_decide; simplify_eq; destruct q; constructor; cbn; auto. Qed.
Lemma assign_zero k u w : assign k u = Some w -> is_zero w.
Proof. unfold is_zero. destruct u; cbn; intros; try case_bool_decide; simplify_eq; auto. Qed.
Lemma truncate_emptied u w q : truncate u = Some w -> emptied_opt (get q u) (get q w).
Proof. destruct u; cbn; intros; simplify_eq; destruct q; constructor; cbn; auto. Qed.

(** ** Clean objects *)

Section Clean.
Context `{Universe, UnicodeLower, OtherResets} (markedSet : list string) (pkgPath : string).

#[local] Abbreviation has_reset := (hasOrWillHaveReset markedSet pkgPath).
#[local] Abbreviation callee' := (callee markedSet pkgPath).

(** A field without a Reset method is at its zero, empty slices and maps included;
    pointers lead to zero.  Aliases, and what has no empty form, are left. *)
Definition zeroed (m : memory) (x : addr) (t : gtype) : Prop :=
  match t with
  | Basic _ => exists v, read m x = Some v /\ is_zero v
  | Slice _ => exists arr cap, read m x = Some (VSlice arr 0 cap)
  | Map _ _ => exists l, read m x = Some (VMap l) /\ forall l', l = Some l' -> mapdata m !! l' = Some []
  | Pointer e =>
      match Underlying e with
      | Basic _ => read m x = Some (VPointer None) \/
          exists y v, read m x = Some (VPointer (Some y)) /\ read m y = Some v /\ is_zero v
      | _ => True
      end
  | Named _ =>
      match Underlying t with
      | Basic _ => exists v, read m x = Some v /\ is_zero v
      | Slice _ => exists arr cap, read m x = Some (VSlice arr 0 cap)
      | Map _ _ => exists l, read m x = Some (VMap l) /\ forall l', l = Some l' -> mapdata m !! l' = Some []
      | _ => True
      end
  | _ => True
  end.

(** The object a field's Reset is called on. *)
Definition target (m : memory) (x : addr) (t : gtype) (y : addr) : Prop :=
  match t with Pointer _ => read m x = Some (VPointer (Some y)) | _ => y = x end.

(** Every field is zeroed or, when it has a Reset method, nil or clean itself. *)
Inductive clean (m : memory) (n : type_name) (a : addr) : Prop :=
| Clean :
    (forall f t, (f, t) ∈ struct_fields n -> has_reset t = false -> zeroed m (field_addr a f) t) ->
    (forall f t y n', (f, t) ∈ struct_fields n -> has_reset t = true -> target m (field_addr a f) t y ->
       callee' (base t) = Some n' -> clean m n' y) ->
    (forall f t y, (f, t) ∈ struct_fields n -> has_reset t = true -> target m (field_addr a f) t y ->
       callee' (base t) = None -> other_clean (base t) y m) ->
    clean m n a.

(** The generated Reset methods a Reset calls. *)
Definition calls (m : memory) (callee caller : type_name * addr) : Prop :=
  exists f t, (f, t) ∈ struct_fields caller.1 /\ has_reset t = true /\
    target m (field_addr caller.2 f) t callee.2 /\ callee' (base t) = Some callee.1.

(** The generated text is that of the statements executed. *)
Lemma resetField_prints recv f t :
  resetField markedSet pkgPath recv f t =
  match field_stmt markedSet pkgPath t with Some s => print_stmt (recv +:+ "." +:+ f) s | None => [] end.
Proof.
  unfold resetField, field_stmt. destruct (has_reset t); [by destruct t|]. destruct t; try done; by destruct (Underlying _).
Qed.

(** *** What emptying keeps *)

Lemma is_zero_emptied v v' : is_zero v -> emptied v v' -> is_zero v'.
Proof. unfold is_zero. intros [-> | [-> | ->]]; destruct v'; cbn; try done; intros [-> | ->]; auto. Qed.

Section Wiped.
Context (m m' : memory) (Hw : wiped m m').

Lemma wiped_read a v : read m a = Some v -> exists v', read m' a = Some v' /\ emptied v v'.
Proof using Hw. destruct Hw as [Hr _]. destruct (Hr a); intros; simplify_eq. eauto. Qed.

Lemma wiped_read_back a v' : read m' a = Some v' -> exists v, read m a = Some v /\ emptied v v'.
Proof using Hw. destruct Hw as [Hr _]. destruct (Hr a); intros; simplify_eq. eauto. Qed.

Lemma wiped_pointer a p : read m a = Some (VPointer p) <-> read m' a = Some (VPointer p).
Proof using Hw.
  split; [intros (v & -> & Hv)%wiped_read|intros (v & -> & Hv)%wiped_read_back]; destruct v; cbn in Hv; by subst.
Qed.

Lemma wiped_zero a : (exists v, read m a = Some v /\ is_zero v) -> exists v, read m' a = Some v /\ is_zero v.
Proof using Hw. intros (v & (v' & -> & He)%wiped_read & Hz). eauto using is_zero_emptied. Qed.

Lemma wiped_slice a : (exists arr cap, read m a = Some (VSlice arr 0 cap)) -> exists arr cap, read m' a = Some (VSlice arr 0 cap).
Proof using Hw.
  intros (arr & cap & (v' & -> & He)%wiped_read). destruct v'; try done. destruct He as (-> & -> & [-> | ->]); eauto.
Qed.

Lemma wiped_map a : (exists l, read m a = Some (VMap l) /\ forall l', l = Some l' -> mapdata m !! l' = Some []) ->
  exists l, read m' a = Some (VMap l) /\ forall l', l = Some l' -> mapdata m' !! l' = Some [].
Proof using Hw.
  intros (l & (v' & -> & He)%wiped_read & Hl). destruct v'; try done. cbn in He. subst. eexists. split; [done|].
  intros l' Heq. destruct Hw as [_ Hm]. destruct (Hm l') as [-> | [_ ->]]; auto.
Qed.

Lemma wiped_target x t y : target m x t y <-> target m' x t y.
Proof using Hw. unfold target. destruct t; try done. apply wiped_pointer. Qed.

Lemma wiped_zeroed x t : zeroed m x t -> zeroed m' x t.
Proof using Hw.
  unfold zeroed. destruct t; try done; try destruct (Underlying _); try done;
    eauto using wiped_zero, wiped_slice, wiped_map.
  intros [Hx|(y & v & Hx & Hy)]; [left; by apply wiped_pointer|right].
  destruct (wiped_zero y ltac:(eauto)) as (v' & ? & ?). exists y, v'. split; [by apply wiped_pointer|done].
Qed.

Lemma wiped_calls c d : calls m c d <-> calls m' c d.
Proof using Hw.
  split; intros (f & t & Hin & Hr & Ht & Hc); exists f, t; (split_and!; [done|done| |done]); by eapply wiped_target.
Qed.
End Wiped.
End Clean.

(** ** A Reset that returns leaves the object clean *)

(** What the generated code relies on of the other Reset methods: they empty things
    only, and leave the object in a state of their own that emptying keeps. *)
Class OtherResetsLaws `{OtherResets} := {
  other_wipes t y m m' : other_Reset t y m = Done m' -> wiped m m' /\ other_clean t y m';
  other_stays t y m m' : other_clean t y m -> wiped m m' -> other_clean t y m'
}.

Section Correct.
Context `{Universe, UnicodeLower, OL : OtherResetsLaws} (markedSet : list string) (pkgPath : string).

#[local] Abbreviation has_reset := (hasOrWillHaveReset markedSet pkgPath).
#[local] Abbreviation callee' := (callee markedSet pkgPath).
#[local] Abbreviation clean' := (clean markedSet pkgPath).
#[local] Abbreviation calls' := (calls markedSet pkgPath).
#[local] Abbreviation Reset' := (Reset markedSet pkgPath).

Lemma clean_wiped m m' n a : wiped m m' -> clean' m n a -> clean' m' n a.
Proof using OL.
  intros Hw. induction 1 as [n a Hz _ IH Ho]. constructor.
  - intros f t Hin Hr. eapply wiped_zeroed; eauto.
  - intros f t y n' Hin Hr Ht Hc. eapply IH; [exact Hin|done| |done]. by eapply wiped_target.
  - intros f t y Hin Hr Ht Hc. eapply other_stays; [|exact Hw]. eapply Ho; eauto. by eapply wiped_target.
Qed.

(** The objects a clean object calls Reset on form no cycle. *)
Lemma clean_Acc m n a : clean' m n a -> Acc (calls' m) (n, a).
Proof. induction 1 as [n a _ _ IH _]. constructor. intros [n' y] (f & t & Hin & Hr & Ht & Hc). eauto. Qed.

(** What is established for one field. *)
Definition field_done (R : gtype -> addr -> memory -> Prop) (m : memory) (x : addr) (t : gtype) : Prop :=
  if has_reset t then forall y, target m x t y -> R (base t) y m else zeroed m x t.

Lemma field_left t m x R : field_stmt markedSet pkgPath t = None -> field_done R m x t.
Proof.
  unfold field_stmt, field_done, zeroed. destruct (has_reset t); [done|]. destruct t; try done; by destruct (Underlying _).
Qed.

Lemma exec_assign m m' x k : update m x (assign k) = Some m' ->
  wiped m m' /\ exists v, read m' x = Some v /\ is_zero v.
Proof.
  intros Hu. destruct (update_wiped _ _ _ _ Hu) as [Hw (u & w & _ & Hg & Hr)]; [intros; by eapply assign_emptied|].
  eauto using assign_zero.
Qed.

Lemma exec_truncate m m' x : update m x truncate = Some m' ->
  wiped m m' /\ exists arr cap, read m' x = Some (VSlice arr 0 cap).
Proof.
  intros Hu. destruct (update_wiped _ _ _ _ Hu) as [Hw (u & w & _ & Hg & Hr)]; [intros; by eapply truncate_emptied|].
  destruct u; simplify_eq/=; eauto.
Qed.

Lemma exec_clear call m m' x t : exec_stmt call x t ClearMap m = Done m' ->
  wiped m m' /\ exists l, read m' x = Some (VMap l) /\ forall l', l = Some l' -> mapdata m' !! l' = Some [].
Proof.
  cbn. destruct (read m x) as [[| | | | |[l|]| |]|] eqn:Hx; try done; [|intros [= <-]; split; [done|]; by exists None].
  destruct (mapdata m !! l) eqn:Hl; intros [= <-]. split.
  - split; [intros a; change (emptied_opt (read m a) (read m a)); destruct (read m a); constructor; apply emptied_refl|].
    intros l'. cbn. destruct (decide (l' = l)) as [->|]; [|rewrite lookup_insert_ne by done; auto].
    rewrite lookup_insert_eq, Hl. right. split; [by eexists|done].
  - exists (Some l). split; [exact Hx|]. intros l' [= <-]. apply lookup_insert_eq.
Qed.

Lemma exec_target m m' x y k : read m x = Some (VPointer (Some y)) -> update m y (assign k) = Some m' ->
  wiped m m' /\ exists y v, read m' x = Some (VPointer (Some y)) /\ read m' y = Some v /\ is_zero v.
Proof.
  intros Hx [Hw (v & Hv & Hz)]%exec_assign. split; [done|]. exists y, v. split; [|done]. by apply (wiped_pointer m m' Hw).
Qed.

Section Call.
Context (call : gtype -> addr -> memory -> outcome) (R : gtype -> addr -> memory -> Prop).
Context (Hcall : forall t y m m', call t y m = Done m' -> wiped m m' /\ R t y m').
Context (Hstays : forall t y m m', R t y m -> wiped m m' -> R t y m').

Lemma exec_stmt_done x t s m m' :
  field_stmt markedSet pkgPath t = Some s -> exec_stmt call x t s m = Done m' -> wiped m m' /\ field_done R m' x t.
Proof using Hcall.
  unfold field_stmt, field_done. destruct (has_reset t).
  - intros [= <-]. assert (call (base t) x m = Done m' -> (forall y, target m' x t y -> y = x) ->
      wiped m m' /\ forall y, target m' x t y -> R (base t) y m') as Hv.
    { intros Hc Hy. destruct (Hcall _ _ _ _ Hc) as [Hw HR]. split; [done|]. by intros y ->%Hy. }
    destruct t; try (intros He; apply Hv; [exact He|done]). cbn. clear Hv.
    destruct (read m x) as [[| | |[y|]| | | |]|] eqn:Hx; try done.
    + intros [Hw HR]%Hcall. split; [done|]. intros y' Hy. eapply wiped_pointer in Hy; [|done]. by simplify_eq.
    + intros [= <-]. split; [done|]. intros y Hy. simplify_eq.
  - assert (forall k, exec_stmt call x t (Assign k) m = Done m' -> wiped m m' /\ exists v, read m' x = Some v /\ is_zero v) as Ha.
    { intros k. cbn. destruct (update m x (assign k)) eqn:Hu; intros; simplify_eq/=. exact (exec_assign _ _ _ _ Hu). }
    assert (exec_stmt call x t Truncate m = Done m' -> wiped m m' /\ exists arr cap, read m' x = Some (VSlice arr 0 cap)) as Ht.
    { cbn. destruct (update m x truncate) eqn:Hu; intros; simplify_eq/=. exact (exec_truncate _ _ _ Hu). }
    pose proof (exec_clear call m m' x t) as Hm.
    unfold zeroed. destruct t as [k|n| |e|e|len e|k e|e| |ms|nm|fs]; try done; try destruct (Underlying _) eqn:Hu; try done;
      intros [= <-] He; eauto.
    cbn in He. destruct (read m x) as [[| | |[y|]| | | |]|] eqn:Hx; try done; [|injection He as <-; split; [done|by left]].
    destruct (update m y _) eqn:Hup; simplify_eq/=. destruct (exec_target _ _ _ _ _ Hx Hup). auto.
Qed.

Lemma run_fields_done a fs m m' : run_fields markedSet pkgPath call a fs m = Done m' ->
  wiped m m' /\ forall f t, (f, t) ∈ fs -> field_done R m' (field_addr a f) t.
Proof using Hcall Hstays.
  revert m. induction fs as [|[f t] fs IH]; intros m; cbn [run_fields].
  { intros [= <-]. split; [done|]. intros f t []%not_elem_of_nil. }
  assert (forall m1, wiped m m1 -> field_done R m1 (field_addr a f) t ->
    run_fields markedSet pkgPath call a fs m1 = Done m' -> wiped m m' /\ forall g u, (g, u) ∈ (f, t) :: fs -> field_done R m' (field_addr a g) u) as Hrest.
  { intros m1 Hw Hd Hrun. destruct (IH _ Hrun) as [Hw' Hall]. split; [by etrans|]. intros g u [[= -> ->]|Hin]%elem_of_cons; [|auto].
    revert Hd. unfold field_done. destruct (has_reset t); [|by apply wiped_zeroed].
    intros Hd y Hy. eapply Hstays; [apply Hd|exact Hw']. by eapply wiped_target. }
  destruct (field_stmt markedSet pkgPath t) as [s|] eqn:Hs.
  - case_bool_decide; [done|]. destruct (exec_stmt call (field_addr a f) t s m) as [m1| |] eqn:He; try done.
    destruct (exec_stmt_done _ _ _ _ _ Hs He). by apply Hrest.
  - apply Hrest; [done|by apply field_left].
Qed.
End Call.

Lemma Reset_done fuel n a m m' : Reset' fuel n (Some a) m = Done m' -> wiped m m' /\ clean' m' n a.
Proof using OL.
  revert n a m m'. induction fuel as [|fuel IH]; intros n a m m'; cbn [Reset]; [done|]. case_bool_decide; [done|]. intros Hrun.
  apply run_fields_done with (R := fun t y m => match callee' t with Some n' => clean' m n' y | None => other_clean t y m end)
    in Hrun as [Hw Hall].
  - split; [done|]. constructor; intros f t; [intros Hin Hr|intros y n' Hin Hr Ht Hc|intros y Hin Hr Ht Hc];
      specialize (Hall f t Hin); unfold field_done in Hall; rewrite Hr in Hall; [done|specialize (Hall y Ht)..];
      by rewrite Hc in Hall.
  - intros t y m1 m2. destruct (callee' t); [apply IH|apply other_wipes].
  - intros t y m1 m2. destruct (callee' t); intros; [by eapply clean_wiped|by eapply other_stays].
Qed.
End Correct.

(** ** Well-typed memory *)

Section Typed.
Context `{Universe} (Types : gmap positive gtype).

Fixpoint type_at (p : list string) (t : gtype) : option gtype :=
  match p with
  | [] => Some t
  | f :: p => match Underlying t with Struct fs => assoc f (fst <$> fs) ≫= type_at p | _ => None end
  end.
Definition addr_type (a : addr) : option gtype := Types !! a.1 ≫= type_at a.2.

Definition kind_ok (k : kind) (v : value) : Prop :=
  match k, v with
  | (KBool | KUntypedBool), VBool _ | (KString | KUntypedString), VString _ | (KUnsafePointer | KInvalid), VOther _ => True
  | (KBool | KUntypedBool | KString | KUntypedString | KUnsafePointer | KInvalid), _ => False
  | _, VNum _ => True
  | _, _ => False
  end.

(** The value at an address of type [t]; the fields of a struct have addresses of
    their own. *)
Definition value_ok (m : memory) (t : gtype) (v : value) : Prop :=
  match Underlying t, v with
  | Basic k, _ => kind_ok k v
  | Pointer e, VPointer p => forall y, p = Some y -> exists e', addr_type y = Some e' /\ Unalias e' = Unalias e
  | Slice _, VSlice _ _ _ => True
  | Map _ _, VMap l => forall l', l = Some l' -> is_Some (mapdata m !! l')
  | Struct fs, VStruct vs => vs.*1 = (fst <$> fs).*1
  | (Array _ _ | Chan _ | Signature | Interface _ | TypeParam _), VOther _ => True
  | _, _ => False
  end.

Definition typed (m : memory) : Prop :=
  forall a t, addr_type a = Some t -> exists v, read m a = Some v /\ value_ok m t v.

(** A variable of the named type. *)
Definition addr_named (a : addr) (n : type_name) : Prop := exists t, addr_type a = Some t /\ Unalias t = Named n.

Lemma kind_ok_emptied k v v' : kind_ok k v -> emptied v v' -> kind_ok k v'.
Proof. destruct k, v, v'; done. Qed.

Lemma typed_wiped m m' : wiped m m' -> typed m -> typed m'.
Proof.
  intros Hw Ht a t Ha. destruct (Ht a t Ha) as (v & Hv & Hok). destruct (wiped_read _ _ Hw _ _ Hv) as (v' & Hv' & He).
  exists v'. split; [done|]. revert Hok. unfold value_ok. destruct (Underlying t) as [k| | | | | | | | | | |fs];
    [by intros Hk; eapply kind_ok_emptied|..]; destruct v, v'; try done; cbn in He; subst; try done.
  - intros Hm l' Heq. destruct Hw as [_ Hl]. destruct (Hl l') as [-> | [_ ->]]; [by apply Hm|by eexists].
  - congruence.
Qed.

Lemma type_at_app p q t : type_at (p ++ q) t = type_at p t ≫= type_at q.
Proof.
  revert t. induction p as [|f p IH]; intros t; cbn; [done|]. destruct (Underlying t) as [| | | | | | | | | | |fs]; try done.
  destruct (assoc f (fst <$> fs)); [apply IH|done].
Qed.

Lemma addr_field a n f t : addr_named a n -> assoc f (struct_fields n) = Some t -> addr_type (field_addr a f) = Some t.
Proof.
  intros (u & Ha & Hu) Hf. unfold addr_type, field_addr in *. cbn. apply bind_Some in Ha as (t0 & -> & Ht). cbn.
  rewrite type_at_app, Ht. cbn. unfold struct_fields in Hf. unfold Underlying in *. rewrite Hu. cbn in Hf.
  destruct (match decls !! n with Some d => d_underlying d | None => Struct [] end); try done. by rewrite Hf.
Qed.
End Typed.

(** ** Methods that compile *)

Section Supported.
Context `{Universe, UnicodeLower} (markedSet : list string) (pkgPath : string).

Definition assigned (s : stmt) : option kind := match s with Assign k | IfAssignTarget k => Some k | _ => None end.

Definition field_supported (f : string) (t : gtype) : bool :=
  match field_stmt markedSet pkgPath t with
  | None => true
  | Some s => negb (bool_decide (f = "_")) && match assigned s with Some k => negb (bool_decide (k ∈ [KUnsafePointer; KInvalid])) | None => true end
  end.

(** The generated method compiles: it names its receiver and its fields, and every
    literal has the type of its field. *)
Definition supported (n : type_name) : bool :=
  negb (bool_decide (receiverName (n_name n) = "_")) &&
  bool_decide (NoDup (List.filter (fun f => negb (bool_decide (f = "_"))) (struct_fields n).*1)) &&
  forallb (fun '(f, t) => field_supported f t) (struct_fields n).

Lemma assoc_field (l : list (string * gtype)) f t : f <> "_" ->
  NoDup (List.filter (fun f => negb (bool_decide (f = "_"))) l.*1) -> (f, t) ∈ l -> assoc f l = Some t.
Proof.
  intros Hf. induction l as [|[g u] l IH]; cbn; [by intros _ ?%not_elem_of_nil|]. intros Hnd [[= <- <-]|Hin]%elem_of_cons.
  - by rewrite bool_decide_true.
  - case_bool_decide as Hg; cbn in Hnd; [rewrite bool_decide_false by congruence; auto|].
    apply NoDup_cons in Hnd as [Hni Hnd]. rewrite bool_decide_false; [auto|]. intros ->. apply Hni.
    apply list_elem_of_In, filter_In. split; [|by rewrite bool_decide_false]. apply list_elem_of_In, list_elem_of_fmap. by exists (f, t).
Qed.

Lemma supported_field n f t s : supported n = true -> (f, t) ∈ struct_fields n -> field_stmt markedSet pkgPath t = Some s ->
  f <> "_" /\ assoc f (struct_fields n) = Some t /\ forall k, assigned s = Some k -> k ∉ [KUnsafePointer; KInvalid].
Proof.
  unfold supported. rewrite !andb_true_iff, forallb_forall, bool_decide_eq_true. intros [[_ Hnd] Hall] Hin Hs.
  pose proof (Hall (f, t) (proj1 (list_elem_of_In _ _) Hin)) as Hf. cbn in Hf. unfold field_supported in Hf. rewrite Hs in Hf.
  apply andb_true_iff in Hf as [Hf Hk]. apply negb_true_iff, bool_decide_eq_false in Hf.
  split_and!; [done|by apply assoc_field|]. intros k Ha. rewrite Ha in Hk. by apply negb_true_iff, bool_decide_eq_false in Hk.
Qed.

Lemma supported_receiver n : supported n = true -> bool_decide (receiverName (n_name n) = "_") = false.
Proof. unfold supported. rewrite !andb_true_iff, negb_true_iff. tauto. Qed.
End Supported.

(** ** Termination and safety *)

Section Safe.
Context `{Universe, UnicodeLower, OL : OtherResetsLaws} (markedSet : list string) (pkgPath : string) (Types : gmap positive gtype).

#[local] Abbreviation has_reset := (hasOrWillHaveReset markedSet pkgPath).
#[local] Abbreviation field_stmt' := (field_stmt markedSet pkgPath).
#[local] Abbreviation callee' := (callee markedSet pkgPath).
#[local] Abbreviation calls' := (calls markedSet pkgPath).
#[local] Abbreviation Reset' := (Reset markedSet pkgPath).
#[local] Abbreviation marked := (marked_type markedSet pkgPath).
#[local] Abbreviation supported' := (supported markedSet pkgPath).
#[local] Abbreviation run_fields' := (run_fields markedSet pkgPath).

(** A variable of type [t]. *)
Definition receiver_ok (y : addr) (t : gtype) : Prop := exists u, addr_type Types y = Some u /\ Unalias u = Unalias t.

Lemma update_assign_ok m x t k : typed Types m -> addr_type Types x = Some t -> Underlying t = Basic k ->
  k ∉ [KUnsafePointer; KInvalid] -> exists m', wiped m m' /\ update m x (assign k) = Some m'.
Proof using H Types.
  intros Ht Hx Hu Hk. destruct (Ht _ _ Hx) as (v & Hv & Hok). unfold value_ok in Hok. rewrite Hu in Hok.
  assert (is_Some (assign k v)) as [w Hg] by (destruct k, v; cbn in Hok |- *; try done; by destruct Hk; apply list_elem_of_In; cbn; auto).
  destruct (update_total _ _ _ _ _ Hv Hg) as [m' Hm]. exists m'. split; [|done].
  apply (update_wiped _ _ _ _ Hm). intros; by eapply assign_emptied.
Qed.

Lemma update_truncate_ok m x t e : typed Types m -> addr_type Types x = Some t -> Underlying t = Slice e ->
  exists m', wiped m m' /\ update m x truncate = Some m'.
Proof.
  intros Ht Hx Hu. destruct (Ht _ _ Hx) as (v & Hv & Hok). unfold value_ok in Hok. rewrite Hu in Hok.
  destruct v as [| | | |arr len cap| | |]; try done. destruct (update_total m x truncate _ _ Hv eq_refl) as [m' Hm]. exists m'. split; [|done].
  apply (update_wiped _ _ _ _ Hm). intros; by eapply truncate_emptied.
Qed.

Lemma clear_ok m x t k e : typed Types m -> addr_type Types x = Some t -> Underlying t = Map k e ->
  exists m', wiped m m' /\ forall call, exec_stmt call x t ClearMap m = Done m'.
Proof using OL.
  intros Ht Hx Hu. destruct (Ht _ _ Hx) as (v & Hv & Hok). unfold value_ok in Hok. rewrite Hu in Hok.
  assert (forall m', (forall call, exec_stmt call x t ClearMap m = Done m') -> wiped m m') as Hw.
  { intros m' He. eapply (exec_clear (fun _ _ _ => Stuck) m m' x t). apply He. }
  destruct v as [| | | | |[l|]| |]; try done; cbn [exec_stmt] in *; rewrite Hv in *; [|by exists m].
  destruct (Hok l eq_refl) as [d Hd]. rewrite Hd in *. eexists. split; [|done]. by apply Hw.
Qed.

Lemma pointer_ok m x t e : typed Types m -> addr_type Types x = Some t -> Underlying t = Pointer e ->
  read m x = Some (VPointer None) \/ exists y, read m x = Some (VPointer (Some y)) /\ receiver_ok y e.
Proof.
  intros Ht Hx Hu. destruct (Ht _ _ Hx) as (v & Hv & Hok). unfold value_ok in Hok. rewrite Hu in Hok.
  destruct v as [| | |[y|]| | | |]; try done; [right|by left]. exists y. split; [done|]. by apply Hok.
Qed.

(** A statement empties something, or is a call on a target of the right type. *)
Lemma exec_stmt_runs m x t s : typed Types m -> addr_type Types x = Some t -> field_stmt' t = Some s ->
  (forall k, assigned s = Some k -> k ∉ [KUnsafePointer; KInvalid]) ->
  (exists m', wiped m m' /\ forall call, exec_stmt call x t s m = Done m') \/
  (exists y, has_reset t = true /\ target m x t y /\ receiver_ok y (base t) /\
     forall call, exec_stmt call x t s m = call (base t) y m).
Proof using OL.
  intros Ht Hx Hs Hk. unfold field_stmt in Hs. destruct (has_reset t) eqn:Hr.
  - injection Hs as <-. assert (receiver_ok x t) as Hok by (by exists t). destruct t; try (right; exists x; split_and!; [done|done|exact Hok|done]).
    destruct (pointer_ok m x _ _ Ht Hx eq_refl) as [Hn|(y & Hy & Hoky)]; cbn [exec_stmt].
    + left. exists m. split; [done|]. intros call. by rewrite Hn.
    + right. exists y. split_and!; [done..|]. intros call. by rewrite Hy.
  - left. assert (forall k, s = Assign k -> Underlying t = Basic k -> exists m', wiped m m' /\ forall call, exec_stmt call x t s m = Done m') as Ha.
    { intros k -> Hu. destruct (update_assign_ok _ _ _ k Ht Hx Hu (Hk k eq_refl)) as (m' & Hw & Hm). exists m'. split; [done|].
      intros call. cbn. by rewrite Hm. }
    assert (forall e, s = Truncate -> Underlying t = Slice e -> exists m', wiped m m' /\ forall call, exec_stmt call x t s m = Done m') as Htr.
    { intros e -> Hu. destruct (update_truncate_ok _ _ _ _ Ht Hx Hu) as (m' & Hw & Hm). exists m'. split; [done|].
      intros call. cbn. by rewrite Hm. }
    assert (forall k e, s = ClearMap -> Underlying t = Map k e -> exists m', wiped m m' /\ forall call, exec_stmt call x t s m = Done m') as Hc.
    { intros k e -> Hu. by eapply clear_ok. }
    destruct t as [k|n| |e|e| |k e| | | | |]; try done; try (destruct (Underlying (Named n)) eqn:Hu; try done);
      try (injection Hs as <-; first [by eapply Ha|by eapply Htr|by eapply Hc]).
    destruct (Underlying e) as [k| | | | | | | | | | |] eqn:Hu; try done. injection Hs as <-. cbn [exec_stmt].
    destruct (pointer_ok m x _ _ Ht Hx eq_refl) as [Hn|(y & Hy & (u & Hyt & Heq))].
    { exists m. split; [done|]. intros call. by rewrite Hn. }
    assert (Underlying u = Basic k) as Hu' by (unfold Underlying in *; by rewrite Heq).
    destruct (update_assign_ok _ _ _ k Ht Hyt Hu' (Hk k eq_refl)) as (m' & Hw & Hm). exists m'. split; [done|].
    intros call. by rewrite Hy, Hm.
Qed.

Lemma field_runs n a f t s m : typed Types m -> addr_named Types a n -> supported' n = true -> (f, t) ∈ struct_fields n ->
  field_stmt' t = Some s -> f <> "_" /\
  ((exists m', wiped m m' /\ forall call, exec_stmt call (field_addr a f) t s m = Done m') \/
   (exists y, has_reset t = true /\ target m (field_addr a f) t y /\ receiver_ok y (base t) /\
      forall call, exec_stmt call (field_addr a f) t s m = call (base t) y m)).
Proof using OL.
  intros Ht Ha Hsup Hin Hs. destruct (supported_field _ _ _ _ _ _ Hsup Hin Hs) as (Hf & Has & Hk). split; [done|].
  apply exec_stmt_runs; [done| |done..]. by eapply addr_field.
Qed.

(** Whatever the calls do but get stuck, the method does not get stuck. *)
Lemma run_fields_safe call n a fs m : supported' n = true -> addr_named Types a n -> (forall ft, ft ∈ fs -> ft ∈ struct_fields n) -> typed Types m ->
  (forall t y m, typed Types m -> receiver_ok y t -> call t y m <> Stuck) ->
  (forall t y m m', call t y m = Done m' -> wiped m m') ->
  run_fields' call a fs m <> Stuck.
Proof using OL.
  intros Hsup Ha Hsub Ht Hc Hw. revert m Hsub Ht. induction fs as [|[f t] fs IH]; intros m Hsub Ht; [done|].
  assert ((f, t) ∈ struct_fields n) as Hin by (apply Hsub; by left). assert (forall ft, ft ∈ fs -> ft ∈ struct_fields n) as Hrest by (intros; apply Hsub; by right).
  cbn [run_fields].
  destruct (field_stmt' t) as [s|] eqn:Hs; [|auto].
  destruct (field_runs n a f t s m Ht Ha Hsup Hin Hs) as [Hf [(m' & Hw' & He)|(y & _ & _ & Hy & He)]];
    rewrite bool_decide_false by done; rewrite He.
  - apply IH; [done|by eapply typed_wiped].
  - pose proof (Hc _ _ _ Ht Hy). destruct (call (base t) y m) as [m'| |] eqn:Hcall; [|done..].
    apply IH; [done|]. eapply typed_wiped; eauto.
Qed.

(** More depth does not change a result. *)
Lemma run_fields_mono c c' a fs m m' : (forall t y m m', c t y m = Done m' -> c' t y m = Done m') ->
  run_fields' c a fs m = Done m' -> run_fields' c' a fs m = Done m'.
Proof.
  intros Hc. revert m. induction fs as [|[f t] fs IH]; intros m; cbn [run_fields]; [done|].
  destruct (field_stmt' t) as [s|]; [|apply IH]. case_bool_decide; [done|].
  assert (forall m1, exec_stmt c (field_addr a f) t s m = Done m1 -> exec_stmt c' (field_addr a f) t s m = Done m1) as He.
  { intros m1. destruct s; cbn; try done; [apply Hc|]. repeat case_match; try done. apply Hc. }
  destruct (exec_stmt c _ t s m) as [m1| |] eqn:H1'; try done. rewrite (He m1 eq_refl). apply IH.
Qed.

Lemma Reset_mono k k' n p m m' : Reset' k n p m = Done m' -> k <= k' -> Reset' k' n p m = Done m'.
Proof.
  revert k' n p m m'. induction k as [|k IH]; intros k' n p m m'; [done|]. intros Hr Hle. destruct k' as [|k']; [lia|].
  cbn [Reset] in *. case_bool_decide; [done|]. destruct p as [a|]; [|done]. eapply run_fields_mono; [|exact Hr].
  intros t y m1 m2. cbn. destruct (callee' t); [|done]. intros Hd. eapply IH; [exact Hd|lia].
Qed.

(** The calls a method makes, with [k] levels left. *)
Definition call_at (k : nat) (t : gtype) (y : addr) (m : memory) : outcome :=
  match callee' t with Some n' => Reset' k n' (Some y) m | None => other_Reset t y m end.

Lemma call_at_mono k k' t y m m' : call_at k t y m = Done m' -> k <= k' -> call_at k' t y m = Done m'.
Proof. unfold call_at. destruct (callee' t); [|done]. apply Reset_mono. Qed.

Lemma call_at_wiped k t y m m' : call_at k t y m = Done m' -> wiped m m'.
Proof using OL.
  unfold call_at. destruct (callee' t); [|apply other_wipes]. intros [Hw _]%Reset_done. done.
Qed.

(** When every call on a target returns, at some depth, so does the method. *)
Lemma run_fields_returns n a fs m0 m : supported' n = true -> addr_named Types a n ->
  (forall ft, ft ∈ fs -> ft ∈ struct_fields n) -> typed Types m0 ->
  (forall f t y m1, (f, t) ∈ struct_fields n -> has_reset t = true -> target m0 (field_addr a f) t y -> receiver_ok y (base t) ->
     wiped m0 m1 -> exists k m2, call_at k (base t) y m1 = Done m2) ->
  wiped m0 m -> exists k m', run_fields' (call_at k) a fs m = Done m'.
Proof using OL.
  intros Hsup Ha Hsub Ht0 Hc. revert m Hsub. induction fs as [|[f t] fs IH]; intros m Hsub Hw; [by exists 0, m|].
  assert ((f, t) ∈ struct_fields n) as Hin by (apply Hsub; by left).
  assert (forall ft, ft ∈ fs -> ft ∈ struct_fields n) as Hrest by (intros; apply Hsub; by right). cbn [run_fields].
  destruct (field_stmt' t) as [s|] eqn:Hs; [|auto]. pose proof (typed_wiped _ _ _ Hw Ht0) as Ht.
  destruct (field_runs n a f t s m Ht Ha Hsup Hin Hs) as [Hf [(m' & Hw' & He)|(y & Hr & Hy & Hok & He)]]; rewrite bool_decide_false by done.
  - destruct (IH m' Hrest ltac:(by etrans)) as (k & m2 & Hk). exists k, m2. by rewrite He.
  - destruct (Hc f t y m Hin Hr ltac:(by eapply wiped_target) Hok Hw) as (k1 & m1 & Hk1).
    destruct (IH m1 Hrest) as (k2 & m2 & Hk2); [etrans; [exact Hw|by eapply call_at_wiped]|].
    exists (k1 `max` k2), m2. rewrite He, (call_at_mono _ _ _ _ _ _ Hk1) by lia.
    eapply run_fields_mono; [|exact Hk2]. intros. eapply call_at_mono; [done|lia].
Qed.

Context (other_returns : forall t y m, typed Types m -> receiver_ok y t -> exists m', other_Reset t y m = Done m').
Context (all_supported : forall n, marked n = true -> supported' n = true).

Lemma callee_marked t n : callee' t = Some n -> marked n = true /\ Unalias t = Named n.
Proof. unfold callee. destruct (Unalias t) as [|n'| | | | | | | | | |]; try done. destruct (marked n') eqn:Hm; intros; by simplify_eq. Qed.

Lemma receiver_named y t n : receiver_ok y t -> callee' t = Some n -> addr_named Types y n.
Proof. intros (u & Hu & Heq) [_ Hn]%callee_marked. exists u. split; [done|congruence]. Qed.

Lemma Reset_safe k n a m : marked n = true -> addr_named Types a n -> typed Types m -> Reset' k n (Some a) m <> Stuck.
Proof using OL other_returns all_supported.
  revert n a m. induction k as [|k IH]; intros n a m Hn Ha Ht; cbn [Reset]; [done|].
  rewrite supported_receiver with (1 := all_supported n Hn). apply run_fields_safe with n; [by apply all_supported|done|done|done| |].
  - intros t y m1 Ht1 Hy. destruct (callee' t) as [n'|] eqn:Hc.
    + apply IH; [by eapply callee_marked|by eapply receiver_named|done].
    + by destruct (other_returns t y m1 Ht1 Hy) as [m2 ->].
  - intros t y m1 m2. destruct (callee' t); [by intros []%Reset_done|apply other_wipes].
Qed.

Lemma Reset_returns m0 c : Acc (calls' m0) c -> typed Types m0 -> marked c.1 = true -> addr_named Types c.2 c.1 ->
  forall m, wiped m0 m -> exists k m', Reset' k c.1 (Some c.2) m = Done m'.
Proof using OL other_returns all_supported.
  intros HA Ht. induction HA as [[n a] _ IH]. cbn [fst snd] in *. intros Hn Ha m Hw.
  destruct (run_fields_returns n a (struct_fields n) m0 m) as (k & m' & Hk); [by apply all_supported|done|done|done| |done|].
  - intros f t y m1 Hin Hr Hy Hok Hw1. unfold call_at. destruct (callee' (base t)) as [n'|] eqn:Hc.
    + apply (IH (n', y)); [by exists f, t|by eapply callee_marked|by eapply receiver_named|done].
    + destruct (other_returns _ y m1 (typed_wiped _ _ _ Hw1 Ht) Hok) as [m2 Hm]. by exists 0, m2.
  - exists (S k), m'. cbn [Reset]. by rewrite supported_receiver with (1 := all_supported n Hn).
Qed.

(** A method that returned at some depth made no cycle of calls. *)
Lemma Reset_Acc k n a m m' : Reset' k n (Some a) m = Done m' -> Acc (calls' m) (n, a).
Proof using OL.
  intros [Hw Hc%clean_Acc]%Reset_done. clear -Hw OL Hc. induction Hc as [c _ IH]. constructor. intros d Hd. apply IH.
  by apply (wiped_calls markedSet pkgPath m m' Hw).
Qed.

(** C19. A generated Reset on a well-typed object, when the methods of the marked types
    compile.  It runs the statements whose text the generator writes.  It returns
    exactly when the objects it calls Reset on, through any chain of fields, form no
    cycle; otherwise the recursion never ends.  When it returns, every field that has
    an empty form is empty, through pointers and nested Resets too, and every change
    is the emptying of a value: pointers and everything else are as before.  On nil
    it does nothing. *)
Theorem generated_Reset m n a : typed Types m -> marked n = true -> addr_named Types a n ->
  (forall recv f t, resetField markedSet pkgPath recv f t =
     match field_stmt' t with Some s => print_stmt (recv +:+ "." +:+ f) s | None => [] end) /\
  (Acc (calls' m) (n, a) ->
     exists k m', wiped m m' /\ clean markedSet pkgPath m' n a /\ forall k', k <= k' -> Reset' k' n (Some a) m = Done m') /\
  (~ Acc (calls' m) (n, a) -> forall k, Reset' k n (Some a) m = NoFuel) /\
  Reset' 1 n None m = Done m.
Proof using OL other_returns all_supported.
  intros Ht Hn Ha. split_and!.
  - intros. apply resetField_prints.
  - intros HA. destruct (Reset_returns m (n, a) HA Ht Hn Ha m ltac:(done)) as (k & m' & Hk). exists k, m'.
    destruct (Reset_done _ _ _ _ _ _ _ Hk) as [Hw Hc]. split_and!; [done..|]. intros k' Hle. by eapply Reset_mono.
  - intros HA k. destruct (Reset' k n (Some a) m) as [m'| |] eqn:Hk; [|by destruct (Reset_safe k n a m)|done].
    destruct HA. by eapply Reset_Acc.
  - cbn [Reset]. by rewrite supported_receiver with (1 := all_supported n Hn).
Qed.
End Safe.
