(* ===== verification/ResetGenFacts.v ===== *)
(** * What the Reset generator finds

    The marked structs of a package, and the directories of a tree. *)

From Stdlib Require Import Sorted.
From S2P Require Import Prelude Errors GoInt GoStrings GoSort GoTypes FilePath ResetGen.
Import Generate.

(** ** Marked structs *)

(** A struct declared with the marker in its own comment, or in that of a
    declaration of nothing else. *)
Definition declared_marked (pkg : Package) (n : string) : Prop :=
  exists file doc specs d, file ∈ Syntax pkg /\ GenDecl TYPE doc specs ∈ file /\ TypeSpec d n true ∈ specs /\
    (hasMarker d = true \/ d = None /\ length specs = 1 /\ hasMarker doc = true).

Lemma marked_spec_elem doc specs n :
  n ∈ (specs ≫= marked_spec doc (bool_decide (length specs = 1))) <->
  exists d, TypeSpec d n true ∈ specs /\ (hasMarker d = true \/ d = None /\ length specs = 1 /\ hasMarker doc = true).
Proof.
  rewrite list_elem_of_bind. split.
  - intros (s & Hn & Hs). destruct s as [d nm []|]; cbn in Hn; try (by destruct (hasMarker _); apply not_elem_of_nil in Hn).
    rewrite andb_true_r in Hn. destruct (hasMarker _) eqn:Hm; [|by apply not_elem_of_nil in Hn].
    apply list_elem_of_singleton in Hn as ->. exists d. split; [done|]. destruct d; [by left|]. case_bool_decide; [by right|done].
  - intros (d & Hs & Hm). exists (TypeSpec d n true). split; [|done]. cbn. rewrite andb_true_r.
    assert (hasMarker (match d with Some _ => d | None => if bool_decide (length specs = 1) then doc else None end) = true) as ->; [|by left].
    destruct Hm as [Hm|(-> & Hl & Hm)]; [by destruct d|]. by rewrite bool_decide_true.
Qed.

Lemma insert_names_lookup (l : list string) (m : gmap string bool) n :
  is_Some (foldl (fun m n => <[n := true]> m) m l !! n) <-> n ∈ l \/ is_Some (m !! n).
Proof.
  revert m. induction l as [|x l IH]; intros m; cbn; [rewrite elem_of_nil; tauto|]. rewrite IH, lookup_insert_is_Some, elem_of_cons.
  split; [intros [?|[-> |[_ ?]]]; auto|intros [[-> |?]|?]; auto; destruct (decide (x = n)); auto].
Qed.

Lemma marked_names_elem pkg n : is_Some (marked_names pkg !! n) <-> declared_marked pkg n.
Proof.
  unfold marked_names. rewrite insert_names_lookup, lookup_empty. split.
  - intros [Hn|[? [=]]]. apply list_elem_of_bind in Hn as (file & Hn & Hf). apply list_elem_of_bind in Hn as (d & Hn & Hd).
    destruct d as [[] doc specs|]; try (by apply not_elem_of_nil in Hn). apply marked_spec_elem in Hn as (d & Hs & Hm).
    by exists file, doc, specs, d.
  - intros (file & doc & specs & d & Hf & Hd & Hs & Hm). left. apply list_elem_of_bind. exists file. split; [|done].
    apply list_elem_of_bind. eexists. split; [|exact Hd]. apply marked_spec_elem. by exists d.
Qed.

(** A struct of the package's scope, with its fields. *)
Definition struct_of (pkg : Package) (m : markedStruct) : Prop :=
  exists tn fs, scope pkg !! name m = Some (Named tn) /\ @Underlying (types pkg) (Named tn) = Struct fs /\ fields m = fst <$> fs.

Lemma lookup_marked_elem pkg n m : lookup_marked pkg n = Some m <-> name m = n /\ struct_of pkg m.
Proof.
  unfold lookup_marked, struct_of. split.
  - destruct (scope pkg !! n) as [[|tn| | | | | | | | | |]|] eqn:Hs; try done.
    destruct (Underlying (Named tn)) as [| | | | | | | | | | |fs] eqn:Hu; try done. intros [= <-]. split; [done|]. cbn. eauto.
  - intros [<- (tn & fs & -> & -> & <-)]. by destruct m.
Qed.

Lemma less_trans : Transitive (le less).
Proof. intros a b c. apply str_le_trans. Qed.

Lemma findMarked_ordered_elem pkg order m : range_order (marked_names pkg) order ->
  m ∈ findMarked_ordered pkg order <-> declared_marked pkg (name m) /\ struct_of pkg m.
Proof.
  intros Ho. unfold findMarked_ordered. rewrite sort_perm, list_elem_of_omap. split.
  - intros ([n b] & Hin & [Heq Hs]%lookup_marked_elem). cbn in Heq. subst n. split; [|done]. apply marked_names_elem.
    apply (range_order_elem _ _ _ _ Ho) in Hin. by eexists.
  - intros [[b Hn]%marked_names_elem Hs]. exists (name m, b). split; [by apply (range_order_elem _ _ _ _ Ho)|].
    by apply lookup_marked_elem.
Qed.

Lemma marked_NoDup pkg (order : list (string * bool)) : NoDup order.*1 ->
  NoDup (name <$> omap (fun e => lookup_marked pkg e.1) order).
Proof.
  induction order as [|[n b] l IH]; cbn; [constructor|]. intros [Hn Hl]%NoDup_cons.
  destruct (lookup_marked pkg n) as [m|] eqn:Hm; [|auto]. cbn. apply NoDup_cons. split; [|auto].
  apply lookup_marked_elem in Hm as [<- _]. intros (m' & Hn' & Hin)%list_elem_of_fmap. apply Hn.
  apply list_elem_of_omap in Hin as ([n' b'] & Hin & [Heq _]%lookup_marked_elem). cbn in Heq.
  apply list_elem_of_fmap. exists (n', b'). cbn. split; [congruence|done].
Qed.

Lemma findMarked_ordered_NoDup pkg order : range_order (marked_names pkg) order -> NoDup (name <$> findMarked_ordered pkg order).
Proof. intros Ho. unfold findMarked_ordered. rewrite sort_perm. by eapply marked_NoDup, range_order_NoDup. Qed.

(** C29. The generator emits a method for exactly the structs marked in their own
    comment, or in the comment of a declaration that declares nothing else, that the
    package's scope has as named structs: once each, with all their fields, in the
    order of their names, whatever the order in which the loop visits its map. *)
Theorem findMarked_exact `{MapRange} pkg :
  (forall m, m ∈ findMarked pkg <-> declared_marked pkg (name m) /\ struct_of pkg m) /\
  StronglySorted str_le (name <$> findMarked pkg) /\ NoDup (name <$> findMarked pkg) /\
  forall order, range_order (marked_names pkg) order -> findMarked_ordered pkg order = findMarked pkg.
Proof.
  assert (findMarked pkg = findMarked_ordered pkg (range (marked_names pkg))) as ->.
  { unfold findMarked. case_bool_decide as He; [|done]. pose proof (range_ok (marked_names pkg)) as Hr. rewrite He in Hr.
    unfold range_order in Hr. rewrite map_to_list_empty in Hr. apply Permutation_nil_r in Hr. by rewrite He, Hr. }
  pose proof (range_ok (marked_names pkg)) as Ho. split_and!.
  - intros m. by apply findMarked_ordered_elem.
  - assert (StronglySorted (le less) (findMarked_ordered pkg (range (marked_names pkg)))) as Hs.
    { apply sort_sorted; [intros a b; apply str_lt_asym|apply less_trans]. }
    induction Hs as [|m l _ IH Hm]; cbn; constructor; [done|]. by apply Forall_fmap.
  - by apply findMarked_ordered_NoDup.
  - intros order Ho'. apply sort_unique; [intros a b; apply str_lt_asym|apply less_trans| | |].
    + intros a b Ha Hb Hab Hba. apply list_elem_of_omap in Ha as (e1 & _ & Ha). apply list_elem_of_omap in Hb as (e2 & _ & Hb).
      apply lookup_marked_elem in Ha as [Ha1 Ha2]. apply lookup_marked_elem in Hb as [Hb1 Hb2].
      destruct a as [n1 f1], b as [n2 f2], Ha2 as (tn & fs & Hs & Hu & Hf), Hb2 as (tn' & fs' & Hs' & Hu' & Hf'). cbn in *.
      assert (n1 = n2) as -> by (by apply str_lt_total). simplify_eq. congruence.
    + unfold findMarked_ordered. rewrite sort_perm. unfold range_order in *. by rewrite Ho', Ho.
    + apply sort_sorted; [intros a b; apply str_lt_asym|apply less_trans].
Qed.

(** ** Directories *)

Section Dirs.
Context (root : string).

(** The walk goes into the root, and into every directory whose name is not one to
    skip. *)
Definition descends (path base : string) : Prop := path = root \/ skipped base = false.

(** The entries the walk comes to from one entry. *)
Inductive comes_to : string -> string -> node -> string -> string -> node -> Prop :=
| comes_here path base n : comes_to path base n path base n
| comes_below path base es u c n p b n' :
    descends path base -> (c, n) ∈ es -> comes_to (Join path c) c n p b n' -> comes_to path base (Directory es u) p b n'.

(** A file that makes its directory a Go directory, and a directory that cannot be
    read. *)
Definition go_dir (path base : string) (n : node) (d : string) : Prop :=
  exists p b, comes_to path base n p b File /\ go_file b = true /\ d = Dir p.
Definition unreadable (path base : string) (n : node) (err : error) : Prop :=
  exists p b es, comes_to path base n p b (Directory es (Some err)) /\ descends p b.

(** What a walk gives: all the Go directories, or the error of a directory. *)
Definition walked (go : string -> Prop) (bad : error -> Prop) (dirs : list string) (r : list string * walk_answer) : Prop :=
  match r.2 with
  | Continue => (NoDup dirs -> NoDup r.1) /\ (forall d, d ∈ r.1 <-> d ∈ dirs \/ go d) /\ forall err, ~ bad err
  | SkipDir => False
  | Stop err => bad err
  end.

Lemma tree_ind (P : node -> Prop) : P File ->
  (forall es u, Forall (fun e => P e.2) es -> P (Directory es u)) -> forall n, P n.
Proof.
  intros HF HD. fix IH 1. intros [|es u]; [exact HF|]. apply HD. induction es as [|[c n] es IHes]; constructor; [apply IH|exact IHes].
Qed.

Lemma go_dir_file path base d : go_dir path base File d <-> go_file base = true /\ d = Dir path.
Proof.
  split; [intros (p & b & Hc & Hg & ->); by inversion Hc; subst|intros [Hg ->]]. exists path, base. split; [constructor|done].
Qed.

Lemma go_dir_directory path base es u d : descends path base ->
  go_dir path base (Directory es u) d <-> exists c n, (c, n) ∈ es /\ go_dir (Join path c) c n d.
Proof.
  intros Hd. split.
  - intros (p & b & Hc & Hg & ->). inversion Hc; subst. eexists _, _. split; [done|]. by eexists _, _.
  - intros (c & n & Hin & p & b & Hc & Hg & ->). exists p, b. split; [by econstructor|done].
Qed.

Lemma unreadable_directory path base es u err : descends path base ->
  unreadable path base (Directory es u) err <-> u = Some err \/ exists c n, (c, n) ∈ es /\ unreadable (Join path c) c n err.
Proof.
  intros Hd. split.
  - intros (p & b & es' & Hc & Hdp). inversion Hc; subst; [by left|]. right. eexists _, _. split; [done|]. by eexists _, _, _.
  - intros [-> |(c & n & Hin & p & b & es' & Hc & Hdp)]; [by exists path, base, es; split; [constructor|]|].
    exists p, b, es'. split; [by econstructor|done].
Qed.

#[local] Abbreviation walk := (walkDir (visit_entry root)).
#[local] Abbreviation children path := (fix children (l : list (string * node)) (s : list string) : list string * walk_answer :=
  match l with
  | [] => (s, Continue)
  | (name, n) :: l =>
      match walk (Join path name) name n s with
      | (s, Continue) => children l s
      | (s, SkipDir) => (s, Continue)
      | (s, Stop err) => (s, Stop err)
      end
  end).

Lemma children_walked path es :
  Forall (fun e => forall dirs, walked (go_dir (Join path e.1) e.1 e.2) (unreadable (Join path e.1) e.1 e.2) dirs (walk (Join path e.1) e.1 e.2 dirs)) es ->
  forall dirs, walked (fun d => exists c n, (c, n) ∈ es /\ go_dir (Join path c) c n d)
    (fun err => exists c n, (c, n) ∈ es /\ unreadable (Join path c) c n err) dirs (children path es dirs).
Proof.
  induction 1 as [|[c n] es Hn _ IH]; intros dirs.
  { split_and!; [done| |]; setoid_rewrite elem_of_nil; naive_solver. }
  specialize (Hn dirs). cbn [fst snd] in Hn. destruct (walk (Join path c) c n dirs) as [s [| |err]]; cbn in Hn.
  - destruct Hn as (Hnd & Hgo & Hbad). specialize (IH s). unfold walked in *. destruct (children path es s) as [s' [| |err]]; cbn in *.
    + destruct IH as (Hnd' & Hgo' & Hbad'). split_and!; [auto| |].
      * intros d. rewrite Hgo', Hgo. setoid_rewrite elem_of_cons. naive_solver.
      * intros err (c' & n' & [[= -> ->]|Hin]%elem_of_cons & Hu); [by eapply Hbad|]. apply (Hbad' err). eauto.
    + done.
    + destruct IH as (c' & n' & Hin & Hu). exists c', n'. split; [by right|done].
  - done.
  - exists c, n. split; [by left|done].
Qed.

Lemma walkDir_walked n : forall path base dirs,
  walked (go_dir path base n) (unreadable path base n) dirs (walk path base n dirs).
Proof.
  induction n as [|es u IH] using tree_ind; intros path base dirs.
  - unfold walked. cbn. destruct (go_file base) eqn:Hg; cbn.
    + split_and!; [| |by intros err (p & b & es & Hc & _); inversion Hc].
      * intros Hnd. case_bool_decide; [done|]. apply NoDup_app. split_and!; [done| |apply NoDup_singleton].
        intros x Hx ->%list_elem_of_singleton. done.
      * intros d. rewrite go_dir_file, Hg. case_bool_decide as Hin; [naive_solver|]. rewrite elem_of_app, list_elem_of_singleton. naive_solver.
    + split_and!; [done| |by intros err (p & b & es & Hc & _); inversion Hc].
      intros d. rewrite go_dir_file, Hg. naive_solver.
  - assert (descends path base \/ ~ descends path base) as [Hd|Hd].
    { unfold descends. destruct (decide (path = root)), (skipped base); naive_solver. }
    + assert (negb (bool_decide (path = root)) && skipped base = false) as Hs.
      { destruct Hd as [-> | ->]; [by rewrite bool_decide_true|by rewrite andb_false_r]. }
      cbn [walkDir IsDir visit_entry]. rewrite Hs. unfold walked in *. destruct u as [err|]; cbn.
      { apply unreadable_directory; auto. }
      assert (Forall (fun e => forall dirs, walked (go_dir (Join path e.1) e.1 e.2) (unreadable (Join path e.1) e.1 e.2) dirs
        (walk (Join path e.1) e.1 e.2 dirs)) es) as Hall by (eapply Forall_impl; [exact IH|]; naive_solver).
      pose proof (children_walked path es Hall dirs) as Hc. unfold walked in Hc. destruct (children path es dirs) as [s [| |err]]; cbn in *.
      * destruct Hc as (Hnd & Hgo & Hbad). split_and!; [done| |].
        -- intros d. by rewrite Hgo, (go_dir_directory path base es None d Hd).
        -- intros err [[=]|Hu]%(unreadable_directory path base es None err Hd). by eapply Hbad.
      * done.
      * apply unreadable_directory; auto.
    + assert (negb (bool_decide (path = root)) && skipped base = true) as Hs.
      { unfold descends in Hd. rewrite bool_decide_false by tauto. destruct (skipped base); [done|tauto]. }
      cbn [walkDir IsDir visit_entry]. rewrite Hs. cbn. split_and!; [done| |].
      * intros d. split; [by left|]. intros [?|(p & b & Hc & _)]; [done|]. inversion Hc; subst; done.
      * intros err (p & b & es' & Hc & Hdp). inversion Hc; subst; done.
Qed.
End Dirs.

(** The directories the generator visits: when every directory the walk goes into
    can be read, exactly those with a Go file that is not a test, below no directory
    that is hidden or called vendor, testdata or node_modules (the root aside),
    sorted and without duplicates; otherwise it fails with the error of one of the
    directories that cannot be read, or of the root. *)
Theorem goDirs_exact root n :
  (forall dirs, goDirs root (Ok n) = Ok dirs ->
     StronglySorted str_le dirs /\ NoDup dirs /\ forall d, d ∈ dirs <-> go_dir root root (Base root) n d) /\
  ((forall err, ~ unreadable root root (Base root) n err) <-> is_ok (goDirs root (Ok n)) = true) /\
  (forall err, goDirs root (Ok n) = Err err -> unreadable root root (Base root) n err) /\
  (forall err, goDirs root (Err err) = Err err).
Proof.
  pose proof (walkDir_walked root n root (Base root) []) as Hw. unfold goDirs, WalkDir, walked in *.
  destruct (walkDir (visit_entry root) root (Base root) n []) as [s [| |err]]; cbn in *; [|done|].
  - destruct Hw as (Hnd & Hgo & Hbad). split_and!; [|by split|done..]. intros dirs [= <-]. split_and!.
    + apply Strings_sorted.
    + unfold Strings. rewrite sort_perm. apply Hnd. constructor.
    + intros d. unfold Strings. rewrite sort_perm, Hgo, elem_of_nil. tauto.
  - split_and!; [done| |by intros e [= <-]|done]. split; [|done]. intros Hno. by destruct (Hno err).
Qed.
