(* ===== verification/ResetExamples.v ===== *)
(** * The Reset generator on the sample package

    The package of the generator's test fixture: its generated file, and runs of its
    Reset methods. *)

From S2P Require Import Prelude Errors GoInt GoStrings GoSort GoTypes FilePath Dashboard ResetGen ResetExec ResetFacts ResetGenFacts.
Import Generate.

Definition named (name : string) : type_name := MkName (Some "sample") name "".

Definition resetable_fields : list field :=
  [("i", Basic KInt, false); ("str", Basic KString, false); ("flag", Basic KBool, false);
   ("strP", Pointer (Basic KString), false); ("s", Slice (Basic KInt), false); ("m", Map (Basic KString) (Basic KString), false);
   ("child", Pointer (Named (named "ResetableStruct")), false)].

(** [types.go]; [PreExisting] has a method written by hand. *)
#[export] Instance sample_types : Universe := {| decls := list_to_map [
  (named "ResetableStruct", MkDecl [] (Struct resetable_fields));
  (named "WithExternal", MkDecl [] (Struct [("helper", Pointer (Named (named "PreExisting")), false); ("value", Named (named "PreExisting"), false)]));
  (named "NotMarked", MkDecl [] (Struct [("x", Basic KInt, false)]));
  (named "PreExisting", MkDecl [MkMethod "Reset" true 0 0] (Struct [("v", Basic KInt, false)]))] |}.

Definition marker_doc : option comment_group := Some ["// generate:reset"].

Definition sample : Package := MkPackage "sample" "sample" []
  [[GenDecl TYPE marker_doc [TypeSpec None "ResetableStruct" true]; GenDecl TYPE marker_doc [TypeSpec None "WithExternal" true];
    GenDecl TYPE (Some ["// Skipped because it has no marker."]) [TypeSpec None "NotMarked" true];
    GenDecl TYPE (Some ["// PreExisting already has a Reset method written by hand."]) [TypeSpec None "PreExisting" true]; FuncDecl]]
  ((fun n => Named (named n)) <$> list_to_map ((fun n => (n, n)) <$> ["ResetableStruct"; "WithExternal"; "NotMarked"; "PreExisting"]))
  sample_types.

#[export] Instance ascii_lower : UnicodeLower := {| ToLower_table r := r |}.

Definition both : list string := ["ResetableStruct"; "WithExternal"].

(** [PreExisting.Reset] sets [v] to zero. *)
Definition by_hand_type (t : gtype) : bool := match Unalias t with Named n => bool_decide (n = named "PreExisting") | _ => false end.

#[export] Instance by_hand : OtherResets := {|
  other_Reset t y m := if by_hand_type t then of_option (update m (field_addr y "v") (assign KInt)) else Done m;
  other_clean t y m := by_hand_type t = true -> exists v, read m (field_addr y "v") = Some v /\ is_zero v |}.

#[export] Instance by_hand_laws : OtherResetsLaws.
Proof.
  split; cbn.
  - intros t y m m'. destruct (by_hand_type t); [|by intros [= <-]]. destruct (update _ _ _) eqn:Hu; intros; simplify_eq/=.
    destruct (exec_assign _ _ _ _ Hu). auto.
  - intros t y m m' Hc Hw Ht. apply (wiped_zero m m' Hw). auto.
Qed.

(** A struct with a child, a map and a pointer to a string. *)
Definition types0 : gmap positive gtype :=
  list_to_map [(1%positive, Named (named "ResetableStruct")); (2%positive, Named (named "ResetableStruct")); (3%positive, Basic KString)].

Definition object (i : Z) (str : string) (flag : bool) (strP : option addr) (len : Z) (m : option positive) (child : option addr) : value :=
  VStruct [("i", VNum i); ("str", VString str); ("flag", VBool flag); ("strP", VPointer strP); ("s", VSlice None len 8); ("m", VMap m);
           ("child", VPointer child)].

Definition chain (last : option addr) : memory := MkMemory
  (list_to_map [(1%positive, object 7 "a" true (Some (3%positive, [])) 3 (Some 1%positive) (Some (2%positive, [])));
                (2%positive, object 8 "b" false None 1 None last); (3%positive, VString "c")])
  (list_to_map [(1%positive, [(VString "k", VString "v")])]).

(** What is left of it. *)
Definition reset_chain : memory := MkMemory
  (list_to_map [(1%positive, object 0 "" false (Some (3%positive, [])) 0 (Some 1%positive) (Some (2%positive, [])));
                (2%positive, object 0 "" false None 0 None None); (3%positive, VString "")])
  (list_to_map [(1%positive, [])]).

Example chain_is_reset : Reset both "sample" 3 (named "ResetableStruct") (Some (1%positive, [])) (chain None) = Done reset_chain.
Proof. vm_compute. reflexivity. Qed.

Lemma object_typed m i str flag strP len mp child p t :
  (forall y, strP = Some y -> addr_type types0 y = Some (Basic KString)) ->
  (forall y, child = Some y -> addr_type types0 y = Some (Named (named "ResetableStruct"))) ->
  (forall l, mp = Some l -> is_Some (mapdata m !! l)) ->
  type_at p (Named (named "ResetableStruct")) = Some t ->
  exists v, get p (object i str flag strP len mp child) = Some v /\ value_ok types0 m t v.
Proof.
  intros Hs Hc Hm Ha. destruct p as [|f p]; [injection Ha as <-; by eexists|].
  change (type_at (f :: p) _) with (assoc f (fst <$> resetable_fields) ≫= type_at p) in Ha. cbn in Ha |- *.
  repeat (case_bool_decide; [destruct p; [cbn in Ha; injection Ha as <-|by vm_compute in Ha]; eexists; (split; [done|]);
    cbn; first [done|exact Hm|intros y Hy; eexists; (split; [by auto|done])]|]); done.
Qed.

Lemma chain_typed last : last = None \/ last = Some (1%positive, []) -> typed types0 (chain last).
Proof.
  intros Hlast [l p] t Ha. unfold addr_type in Ha. apply bind_Some in Ha as (u & Hu & Ha). cbn [fst snd] in *.
  unfold types0 in Hu. rewrite !list_to_map_cons in Hu. unfold read. cbn [fst snd objects chain]. rewrite !list_to_map_cons.
  repeat (apply lookup_insert_Some in Hu as [[<- <-]|[? Hu]]; [|rewrite lookup_insert_ne by done]); rewrite ?lookup_insert_eq; cbn [mbind option_bind].
  - apply (object_typed (chain last)); [by intros y [= <-]|by intros y [= <-]|intros l [= <-]; by eexists|done].
  - apply (object_typed (chain last)); [done|intros y Hy; destruct Hlast as [-> | ->]; by simplify_eq|done|done].
  - destruct p; [|done]. injection Ha as <-. by eexists.
  - done.
Qed.

Lemma first_typed : addr_named types0 (1%positive, []) (named "ResetableStruct").
Proof. by exists (Named (named "ResetableStruct")). Qed.

(** The method written by hand returns on its type. *)
Lemma by_hand_returns t y m : typed types0 m -> receiver_ok types0 y t -> exists m', other_Reset t y m = Done m'.
Proof.
  intros Ht (u & Hu & Heq). cbn. unfold by_hand_type. destruct (Unalias t) as [|n| | | | | | | | | |] eqn:Hn; try by exists m.
  case_bool_decide as Hp; [|by exists m]. subst n.
  assert (addr_type types0 (field_addr y "v") = Some (Basic KInt)) as Hf by (by eapply addr_field; [exists u|]).
  destruct (update_assign_ok types0 m _ _ KInt Ht Hf eq_refl) as (m' & _ & ->); [|by exists m'].
  by intros [|[|[]%not_elem_of_nil]%elem_of_cons]%elem_of_cons.
Qed.

Lemma both_supported n : marked_type both "sample" n = true -> supported both "sample" n = true.
Proof.
  unfold marked_type. rewrite andb_true_iff, !bool_decide_eq_true. destruct n as [pk nm inst]. cbn [n_pkg n_name].
  intros [-> Hn]. destruct (decide (inst = "")) as [->|Hi].
  - apply elem_of_cons in Hn as [-> | Hn]; [by vm_compute|]. apply elem_of_cons in Hn as [-> | []%not_elem_of_nil]. by vm_compute.
  - assert (struct_fields (MkName (Some "sample") nm inst) = []) as Hs.
    { unfold struct_fields, Underlying. cbn [Unalias]. unfold decls, sample_types. rewrite !list_to_map_cons.
      rewrite !lookup_insert_ne by (unfold named; congruence). done. }
    unfold supported. rewrite Hs. apply elem_of_cons in Hn as [-> | [-> | []%not_elem_of_nil]%elem_of_cons]; by vm_compute.
Qed.

Lemma ring_calls : ~ Acc (calls both "sample" (chain (Some (1%positive, [])))) (named "ResetableStruct", (1%positive, [])).
Proof.
  set (R := calls both "sample" _). set (n := named "ResetableStruct").
  assert (R (n, (2%positive, [])) (n, (1%positive, [])) /\ R (n, (1%positive, [])) (n, (2%positive, []))) as [H12 H21].
  { split; exists "child", (Pointer (Named n)); (split_and!; [|by vm_compute..]); vm_compute; do 6 right; left. }
  intros HA. revert H12 H21. generalize (n, (2%positive, [] : list string)). induction HA as [c _ IH]. intros d Hdc Hcd. by apply (IH d Hdc c).
Qed.

(** The chain is reset; a ring never is. *)
Lemma generated_Reset_witness :
  (exists k m', wiped (chain None) m' /\ clean both "sample" m' (named "ResetableStruct") (1%positive, []) /\
     forall k', k <= k' -> Reset both "sample" k' (named "ResetableStruct") (Some (1%positive, [])) (chain None) = Done m') /\
  (forall k, Reset both "sample" k (named "ResetableStruct") (Some (1%positive, [])) (chain (Some (1%positive, []))) = NoFuel).
Proof.
  split.
  - apply (generated_Reset both "sample" types0 by_hand_returns both_supported (chain None) (named "ResetableStruct") (1%positive, []));
      [apply chain_typed; by left|reflexivity|exact first_typed|]. eapply Reset_Acc, chain_is_reset.
  - apply (generated_Reset both "sample" types0 by_hand_returns both_supported (chain (Some (1%positive, []))) (named "ResetableStruct") (1%positive, []));
      [apply chain_typed; by right|reflexivity|exact first_typed|exact ring_calls].
Defined.

(** ** The generated file *)

#[export] Instance by_key : MapRange := {| range _ m := map_to_list m; range_ok _ m := range_order_canonical m |}.

(** [want.go.txt], which [go/format] leaves without the last empty line; a tilde
    stands for a double quote. *)
Example sample_file : file_text sample (findMarked sample) = quoted "// Code generated by cmd/reset; DO NOT EDIT.

package sample

// Reset zeros the fields of ResetableStruct; safe to call on a nil receiver.
func (r *ResetableStruct) Reset() {
	if r == nil {
		return
	}
	r.i = 0
	r.str = ~~
	r.flag = false
	if r.strP != nil {
		*r.strP = ~~
	}
	r.s = r.s[:0]
	clear(r.m)
	if r.child != nil {
		r.child.Reset()
	}
}

// Reset zeros the fields of WithExternal; safe to call on a nil receiver.
func (w *WithExternal) Reset() {
	if w == nil {
		return
	}
	if w.helper != nil {
		w.helper.Reset()
	}
	w.value.Reset()
}

".
Proof. vm_compute. reflexivity. Qed.

(** The loop may visit the names the other way round. *)
Lemma findMarked_exact_witness :
  findMarked_ordered sample [("WithExternal", true); ("ResetableStruct", true)] = findMarked sample /\
  name <$> findMarked sample = ["ResetableStruct"; "WithExternal"].
Proof.
  split; [|reflexivity]. apply (findMarked_exact sample). unfold range_order.
  assert (map_to_list (marked_names sample) = [("WithExternal", true); ("ResetableStruct", true)] \/
          map_to_list (marked_names sample) = [("ResetableStruct", true); ("WithExternal", true)]) as [-> | ->];
    [vm_compute; auto|done|apply Permutation_swap].
Defined.

(** ** Directories *)

Definition tree0 : node := Directory [
  (".git", Directory [("x.go", File)] None);
  ("cmd", Directory [("main.go", File); ("main_test.go", File); ("testdata", Directory [("y.go", File)] (Some (ErrorText "permission denied")))] None);
  ("doc", Directory [("readme.md", File); ("z_test.go", File)] None);
  ("root.go", File)] None.

Lemma goDirs_exact_witness :
  goDirs "." (Ok tree0) = Ok ["."; "cmd"] /\ NoDup ["."; "cmd"] /\ go_dir "." "." "." tree0 "cmd" /\ ~ go_dir "." "." "." tree0 "doc".
Proof.
  assert (goDirs "." (Ok tree0) = Ok ["."; "cmd"]) as Hd by reflexivity. split; [exact Hd|].
  destruct (goDirs_exact "." tree0) as [Hok _]. destruct (Hok ["."; "cmd"] Hd) as (_ & Hnd & Hin). split; [exact Hnd|]. split.
  - apply Hin. right. left.
  - intros Hno. apply Hin in Hno. revert Hno. by intros [|[|[]%not_elem_of_nil]%elem_of_cons]%elem_of_cons.
Defined.

(** ** A second run

    [Top] has a field of type [Outer], which embeds the marked [Inner]: before the
    first run [Outer] has no Reset method; the file that run writes gives it one, so
    that the next run writes another file. *)
Definition embedding (inner : list method) : Universe := {| decls := list_to_map [
  (named "Inner", MkDecl inner (Struct [("x", Basic KInt, false)]));
  (named "Outer", MkDecl [] (Struct [("Inner", Named (named "Inner"), true)]));
  (named "Top", MkDecl inner (Struct [("o", Named (named "Outer"), false)]))] |}.

Example second_run_differs :
  @resetField (embedding []) ["Inner"; "Top"] "sample" "t" "o" (Named (named "Outer")) = [] /\
  @resetField (embedding [MkMethod "Reset" true 0 0]) ["Inner"; "Top"] "sample" "t" "o" (Named (named "Outer")) = ["t.o.Reset()"].
Proof. by vm_compute. Qed.

(** Fields that have a zero but are left, and a literal of the wrong type. *)
Example fields_left :
  resetField both "sample" "r" "alias" (Alias (named "A") (Basic KInt)) = [] /\
  resetField both "sample" "r" "array" (Array 4 (Basic KInt)) = [] /\
  resetField both "sample" "r" "plain" (Named (named "NotMarked")) = [] /\
  resetField both "sample" "r" "unsafe" (Basic KUnsafePointer) = ["r.unsafe = 0"].
Proof. by vm_compute. Qed.
