(* ===== verification/Linter.v ===== *)
(** * cmd/linter: the noexit analyzer

    Syntax trees with the nodes the analyzer tells apart, the traversal of
    [ast.Inspect], and what is reported, in order.  Parsing, and the driver that
    hands the files over, are inputs. *)

From S2P Require Import Prelude GoInt GoStrings.

Module Linter.

(** A syntax node.  Calls carry their position; every node the analyzer does not look
    at, statements and function literals included, is [Node] with its children in the
    order [ast.Walk] visits them. *)
Inductive node :=
| Ident (Name : string)
| SelectorExpr (X : node) (Sel : string)
| CallExpr (Pos : nat) (Fun : node) (Args : list node)
| Node (kind : string) (children : list node).

Inductive decl :=
| FuncDecl (has_recv : bool) (Name : string) (Body : option node)
| GenDecl (children : list node).

Record file := MkFile { Filename : string; Comments : list (list string); Decls : list decl }.

Record pass := MkPass { pkg_name : string; Files : list file }.

(** A diagnostic: where and what. *)
Abbreviation report := (nat * string)%type.

Definition checkCall (inMainFunc : bool) (pos : nat) (fun_ : node) : list report :=
  match fun_ with
  | Ident name => if bool_decide (name = "panic") then [(pos, "panic call is forbidden")] else []
  | SelectorExpr (Ident pkgID) sel =>
      if bool_decide (pkgID = "log") && HasPrefix sel "Fatal" then
        if negb inMainFunc then [(pos, "log." +:+ sel +:+ " is forbidden outside main() of package main")] else []
      else if bool_decide (pkgID = "os") && bool_decide (sel = "Exit") then
        if negb inMainFunc then [(pos, "os.Exit is forbidden outside main() of package main")] else []
      else []
  | _ => []
  end.

(** [ast.Inspect] with the callback of [runNoExit], which never prunes. *)
Fixpoint Inspect (inMainFunc : bool) (n : node) : list report :=
  match n with
  | Ident _ => []
  | SelectorExpr x _ => Inspect inMainFunc x
  | CallExpr pos f args => checkCall inMainFunc pos f ++ Inspect inMainFunc f ++ (args ≫= Inspect inMainFunc)
  | Node _ children => children ≫= Inspect inMainFunc
  end.

Definition isGenerated (f : file) : bool :=
  existsb (existsb (fun text => HasPrefix text "// Code generated" && Contains text "DO NOT EDIT")) (Comments f).

Definition check_decl (isMainPkg : bool) (d : decl) : list report :=
  match d with
  | FuncDecl has_recv name (Some body) => Inspect (isMainPkg && negb has_recv && bool_decide (name = "main")) body
  | _ => []
  end.

Definition runNoExit (p : pass) : list report :=
  let isMainPkg := bool_decide (pkg_name p = "main") in
  Files p ≫= fun f =>
    if isGenerated f then []
    else if HasSuffix (Filename f) "_test.go" then []
    else Decls f ≫= check_decl isMainPkg.

(** ** What is forbidden *)

(** [occurs_in c n]: node [c] is [n] or somewhere below it. *)
Inductive occurs_in (c : node) : node -> Prop :=
| occurs_here : occurs_in c c
| occurs_selector x sel : occurs_in c x -> occurs_in c (SelectorExpr x sel)
| occurs_fun pos f args : occurs_in c f -> occurs_in c (CallExpr pos f args)
| occurs_arg pos f args a : a ∈ args -> occurs_in c a -> occurs_in c (CallExpr pos f args)
| occurs_child kind children a : a ∈ children -> occurs_in c a -> occurs_in c (Node kind children).

(** The calls that are reported, with the message: by the name they are written
    with. *)
Inductive forbidden (in_main : bool) : node -> string -> Prop :=
| forbidden_panic : forbidden in_main (Ident "panic") "panic call is forbidden"
| forbidden_fatal suffix : in_main = false ->
    forbidden in_main (SelectorExpr (Ident "log") ("Fatal" +:+ suffix)) ("log.Fatal" +:+ suffix +:+ " is forbidden outside main() of package main")
| forbidden_exit : in_main = false ->
    forbidden in_main (SelectorExpr (Ident "os") "Exit") "os.Exit is forbidden outside main() of package main".

(** A body the analyzer looks into; [in_main] for that of main in package main. *)
Definition inspected (p : pass) (body : node) (in_main : bool) : Prop :=
  exists f has_recv name, f ∈ Files p /\ FuncDecl has_recv name (Some body) ∈ Decls f /\
    (~ exists texts text, texts ∈ Comments f /\ text ∈ texts /\
         HasPrefix text "// Code generated" = true /\ Contains text "DO NOT EDIT" = true) /\
    HasSuffix (Filename f) "_test.go" = false /\
    (in_main = true <-> pkg_name p = "main" /\ has_recv = false /\ name = "main").

Lemma HasPrefix_split s prefix : HasPrefix s prefix = true <-> exists rest, s = prefix +:+ rest.
Proof.
  split; [|intros [rest ->]; apply HasPrefix_app]. revert s. induction prefix as [|c p IH]; intros s; [by exists s|].
  destruct s as [|c' s]; cbn; [done|]. rewrite andb_true_iff, bool_decide_eq_true. intros [-> [rest ->]%IH]. by exists rest.
Qed.

Lemma checkCall_exact in_main pos f r : r ∈ checkCall in_main pos f <-> r.1 = pos /\ forbidden in_main f r.2.
Proof.
  destruct r as [pos' msg]. cbn. split.
  - destruct f as [name|[pkg|x sel'|pos0 f args|kind children] sel|pos0 f args|kind children]; cbn; try (by intros ?%not_elem_of_nil).
    + case_bool_decide; [|by intros ?%not_elem_of_nil]. intros [= -> ->]%list_elem_of_singleton. subst. split; [done|constructor].
    + destruct (bool_decide (pkg = "log") && HasPrefix sel "Fatal") eqn:Hl; [|destruct (bool_decide (pkg = "os") && _) eqn:Ho];
        destruct in_main; cbn; try (by intros ?%not_elem_of_nil); intros [= -> ->]%list_elem_of_singleton; (split; [done|]).
      * apply andb_true_iff in Hl as [->%bool_decide_eq_true [rest ->]%HasPrefix_split]. by constructor.
      * apply andb_true_iff in Ho as [->%bool_decide_eq_true ->%bool_decide_eq_true]. by constructor.
  - intros [-> Hf]. inversion Hf as [|suffix Hm|Hm]; subst; cbn [checkCall negb]; [by left| |by left].
    rewrite (HasPrefix_app "Fatal" suffix). cbn [bool_decide decide_rel andb]. apply list_elem_of_singleton. by f_equal.
Qed.

Lemma syntax_ind (P : node -> Prop) :
  (forall name, P (Ident name)) -> (forall x sel, P x -> P (SelectorExpr x sel)) ->
  (forall pos f args, P f -> Forall P args -> P (CallExpr pos f args)) ->
  (forall kind children, Forall P children -> P (Node kind children)) -> forall n, P n.
Proof.
  intros HI HS HC HN. fix IH 1. intros [name|x sel|pos f args|kind children]; [apply HI|apply HS, IH|apply HC; [apply IH|]|apply HN].
  - induction args as [|a args IHa]; constructor; [apply IH|exact IHa].
  - induction children as [|a args IHa]; constructor; [apply IH|exact IHa].
Qed.

Lemma children_exact in_main (l : list node) r :
  Forall (fun n => r ∈ Inspect in_main n <-> exists f args, occurs_in (CallExpr r.1 f args) n /\ forbidden in_main f r.2) l ->
  r ∈ (l ≫= Inspect in_main) <-> exists a f args, a ∈ l /\ occurs_in (CallExpr r.1 f args) a /\ forbidden in_main f r.2.
Proof.
  intros Hall. rewrite Forall_forall in Hall. rewrite list_elem_of_bind. split.
  - intros (a & Hr & Ha). apply Hall in Hr as (f & args & ?); [|done]. by exists a, f, args.
  - intros (a & f & args & Ha & Hocc). exists a. split; [|done]. apply Hall; [done|]. by exists f, args.
Qed.

Lemma Inspect_exact in_main n r :
  r ∈ Inspect in_main n <-> exists f args, occurs_in (CallExpr r.1 f args) n /\ forbidden in_main f r.2.
Proof.
  induction n as [name|x sel IH|pos f args IHf IHargs|kind children IH] using syntax_ind; cbn [Inspect].
  - split; [by intros ?%not_elem_of_nil|]. intros (f & args & Ho & _). inversion Ho.
  - rewrite IH. split; intros (f & args & Ho & Hf); exists f, args; (split; [|done]); [by constructor|by inversion Ho].
  - rewrite !elem_of_app, checkCall_exact, IHf, (children_exact _ _ _ IHargs). split.
    + intros [[<- Hf]|[(g & args' & Ho & Hf)|(a & g & args' & Ha & Ho & Hf)]].
      * exists f, args. split; [constructor|done].
      * exists g, args'. split; [by constructor|done].
      * exists g, args'. split; [by econstructor|done].
    + intros (g & args' & Ho & Hf). inversion Ho; subst; [by left|right; left|right; right]; eauto 10.
  - rewrite (children_exact _ _ _ IH). split.
    + intros (a & f & args & Ha & Ho & Hf). exists f, args. split; [by econstructor|done].
    + intros (f & args & Ho & Hf). inversion Ho; subst. eauto 10.
Qed.

Lemma isGenerated_spec f : isGenerated f = true <->
  exists texts text, texts ∈ Comments f /\ text ∈ texts /\ HasPrefix text "// Code generated" = true /\ Contains text "DO NOT EDIT" = true.
Proof.
  unfold isGenerated. rewrite existsb_exists. split.
  - intros (texts & Ht & (text & Hx & [Hp Hc]%andb_true_iff)%existsb_exists). exists texts, text.
    rewrite !list_elem_of_In. done.
  - intros (texts & text & Ht & Hx & Hp & Hc). exists texts. split; [by apply list_elem_of_In|]. apply existsb_exists.
    exists text. split; [by apply list_elem_of_In|]. by rewrite Hp, Hc.
Qed.

(** C21. The analyzer reports exactly the calls written [panic(..)], and outside main of
    package main the calls written [log.Fatal*(..)] and [os.Exit(..)], at any depth
    of the body of a function or method, function literals and arguments included,
    of every file that is neither generated nor a test: each at its position with the
    message for it. *)
Theorem runNoExit_exact p r :
  r ∈ runNoExit p <->
  exists body in_main f args, inspected p body in_main /\ occurs_in (CallExpr r.1 f args) body /\ forbidden in_main f r.2.
Proof.
  unfold runNoExit. rewrite list_elem_of_bind. split.
  - intros (f & Hr & Hf). destruct (isGenerated f) eqn:Hg; [by apply not_elem_of_nil in Hr|].
    destruct (HasSuffix (Filename f) "_test.go") eqn:Hs; [by apply not_elem_of_nil in Hr|].
    apply list_elem_of_bind in Hr as (d & Hr & Hd). destruct d as [has_recv name [body|]|]; try (by apply not_elem_of_nil in Hr).
    apply Inspect_exact in Hr as (g & args & Ho & Hb). eexists body, _, g, args. split; [|by split].
    exists f, has_recv, name. split_and!; [done|done|by rewrite <- isGenerated_spec, Hg|done|].
    rewrite !andb_true_iff, !bool_decide_eq_true, negb_true_iff. tauto.
  - intros (body & in_main & g & args & (f & has_recv & name & Hf & Hd & Hg & Hs & Hm) & Ho & Hb).
    exists f. split; [|done]. rewrite <- isGenerated_spec in Hg. apply not_true_is_false in Hg. rewrite Hg, Hs.
    apply list_elem_of_bind. eexists. split; [|exact Hd]. cbn. apply Inspect_exact. exists g, args. split; [done|].
    assert (bool_decide (pkg_name p = "main") && negb has_recv && bool_decide (name = "main") = in_main) as ->; [|done].
    apply eq_bool_prop_intro. rewrite !Is_true_true, !andb_true_iff, !bool_decide_eq_true, negb_true_iff. tauto.
Qed.

(** *** The test packages, and what is not found *)

Definition call (pos : nat) (f : node) : node := CallExpr pos f [].
Definition dot (x sel : string) : node := SelectorExpr (Ident x) sel.

(** [testdata/src/mainok]. *)
Example mainok : runNoExit (MkPass "main" [MkFile "main.go" [] [GenDecl [];
    FuncDecl false "main" (Some (Node "block" [Node "if" [Node "block" [call 1 (dot "log" "Fatal"); call 2 (dot "os" "Exit")]]]));
    FuncDecl false "helper" (Some (Node "block" [call 3 (dot "log" "Fatal"); call 4 (dot "os" "Exit")]))]]) =
  [(3, "log.Fatal is forbidden outside main() of package main"); (4, "os.Exit is forbidden outside main() of package main")].
Proof. reflexivity. Qed.

(** A panic in the initialiser of a package variable, through parentheses, and
    [os.Exit] under another name of the package. *)
Example not_found : runNoExit (MkPass "p" [MkFile "p.go" [] [GenDecl [Node "func literal" [call 1 (Ident "panic")]];
    FuncDecl false "f" (Some (Node "block" [call 2 (Node "paren" [Ident "panic"]); call 3 (dot "sys" "Exit")]))]]) = [].
Proof. reflexivity. Qed.
End Linter.
