(* ===== verification/Pkg.v ===== *)
(** * pkg/pool and pkg/buildinfo

    A [Pool] is shared by goroutines: its steps interleave with the writes of those that
    have got an object from it.  [Put] is two of its steps, [Reset] and the return of the
    object to the [sync.Pool]. *)

From S2P Require Import Prelude.

Module Pool.

(** Take an object out of a list. *)
Definition take (l : positive) (ls : list positive) : option (list positive) :=
  if bool_decide (l ∈ ls) then Some (list_difference ls [l]) else None.

Lemma take_perm l ls rest : NoDup ls -> take l ls = Some rest -> ls ≡ₚ l :: rest.
Proof.
  unfold take. case_bool_decide as Hl; [|done]. intros Hnd [= <-]. apply NoDup_Permutation; [done| |].
  - apply NoDup_cons. split; [|by apply NoDup_list_difference]. rewrite list_elem_of_difference. set_solver.
  - intros x. rewrite elem_of_cons, list_elem_of_difference, list_elem_of_singleton.
    destruct (decide (x = l)) as [->|]; set_solver.
Qed.

Lemma middle (l : positive) xs ys zs : xs ++ (l :: ys) ++ zs ≡ₚ l :: xs ++ ys ++ zs.
Proof. cbn. by rewrite <- Permutation_middle. Qed.

Lemma back (l : positive) xs ys zs : xs ++ ys ++ l :: zs ≡ₚ l :: xs ++ ys ++ zs.
Proof. rewrite !app_assoc. by rewrite <- Permutation_middle. Qed.

Section Pool.
(** The type of the objects, its [Reset] method, and what the factory makes: a new
    object. *)
Context {A : Type} (Reset : A -> A) (factory : A).

(** Objects are pointers.  [items] are those in the [sync.Pool], a bag; [held] those that
    belong to a goroutine; [resetting] those that a [Put] has reset and not yet
    returned. *)
Record t := Mk {
  heap : gmap positive A;
  items : list positive;
  held : list positive;
  resetting : list positive
}.

Definition New : t := Mk ∅ [] [] [].

(** The steps.  A goroutine puts what it holds: objects from [Get], and objects it made
    itself.  A [sync.Pool] gives out an item of its choice, or ignores its items; it
    forgets items when it likes. *)
Inductive label :=
| GetItem (l : positive)         (* [p.p.Get()], an item of the pool *)
| GetNew (l : positive)          (* [p.p.Get()], from the factory, at a new address *)
| Own (l : positive) (a : A)     (* a goroutine makes an object itself, to put it later *)
| Write (l : positive) (a : A)   (* a goroutine changes an object it holds *)
| PutReset (l : positive)        (* [v.Reset()] *)
| PutItem (l : positive)         (* [p.p.Put(v)] *)
| Collect (l : positive).        (* the garbage collector drops an item *)

Definition fire (b : label) (s : t) : option t :=
  match b with
  | GetItem l => rest ← take l (items s); Some (Mk (heap s) rest (l :: held s) (resetting s))
  | GetNew l => match heap s !! l with
                | None => Some (Mk (<[l:=factory]> (heap s)) (items s) (l :: held s) (resetting s))
                | Some _ => None
                end
  | Own l a => match heap s !! l with
               | None => Some (Mk (<[l:=a]> (heap s)) (items s) (l :: held s) (resetting s))
               | Some _ => None
               end
  | Write l a => if bool_decide (l ∈ held s) then Some (Mk (<[l:=a]> (heap s)) (items s) (held s) (resetting s)) else None
  | PutReset l => rest ← take l (held s); a ← heap s !! l;
                  Some (Mk (<[l:=Reset a]> (heap s)) (items s) rest (l :: resetting s))
  | PutItem l => rest ← take l (resetting s); Some (Mk (heap s) (l :: items s) (held s) rest)
  | Collect l => rest ← take l (items s); Some (Mk (heap s) rest (held s) (resetting s))
  end.

Definition step (s s' : t) : Prop := exists b, fire b s = Some s'.

(** Every object is in one place only, and those in the pool, or on their way to it, are
    as [Reset] leaves them. *)
Record inv (s : t) : Prop := {
  one_place : NoDup (items s ++ held s ++ resetting s);
  allocated : Forall (fun l => is_Some (heap s !! l)) (items s ++ held s ++ resetting s);
  clean : Forall (fun l => exists a, heap s !! l = Some (Reset a)) (items s ++ resetting s)
}.

(** The conditions are about the three lists together, up to order. *)
Lemma inv_move s s' : inv s -> heap s' = heap s ->
  (exists dropped, items s ++ held s ++ resetting s ≡ₚ (items s' ++ held s' ++ resetting s') ++ dropped) ->
  (forall l, l ∈ items s' ++ resetting s' -> l ∈ items s ++ resetting s) -> inv s'.
Proof.
  intros [Hnd Ha Hc] Hh [dropped Hp] Hsub. rewrite Hp in Hnd, Ha. split.
  - by apply NoDup_app in Hnd as [? _].
  - apply Forall_app in Ha as [Ha _]. by rewrite Hh.
  - rewrite Forall_forall in Hc |- *. intros l Hl. rewrite Hh. by apply Hc, Hsub.
Qed.

(** The held objects can be changed. *)
Lemma inv_held s l a : inv s -> l ∈ held s -> inv (Mk (<[l:=a]> (heap s)) (items s) (held s) (resetting s)).
Proof.
  intros [Hnd Ha Hc] Hl. split; cbn [heap items held resetting]; [done| |].
  - eapply Forall_impl; [exact Ha|]. intros x Hx. rewrite lookup_insert_is_Some. destruct (decide (l = x)); auto.
  - rewrite Forall_forall in Hc |- *. intros x Hx. rewrite lookup_insert_ne; [by apply Hc|]. intros <-.
    rewrite !NoDup_app in Hnd. set_solver.
Qed.

(** A new object. *)
Lemma inv_new s l a : inv s -> heap s !! l = None -> inv (Mk (<[l:=a]> (heap s)) (items s) (l :: held s) (resetting s)).
Proof.
  intros [Hnd Ha Hc] Hl. assert (l ∉ items s ++ held s ++ resetting s) as Hnew.
  { intros Hin. rewrite Forall_forall in Ha. destruct (Ha l Hin). congruence. }
  split; cbn [heap items held resetting].
  - rewrite middle. by apply NoDup_cons.
  - rewrite middle. apply Forall_cons. split; [by rewrite lookup_insert_eq|].
    eapply Forall_impl; [exact Ha|]. intros x Hx. rewrite lookup_insert_is_Some. destruct (decide (l = x)); auto.
  - rewrite Forall_forall in Hc |- *. intros x Hx. rewrite lookup_insert_ne; [by apply Hc|]. set_solver.
Qed.

Lemma pool_fire_inv b s s' : inv s -> fire b s = Some s' -> inv s'.
Proof.
  intros Hi. pose proof Hi as [Hnd Ha Hc]. pose proof Hnd as (Hn1 & _ & (Hn2 & _ & Hn3)%NoDup_app)%NoDup_app.
  destruct b as [l|l|l a|l a|l|l|l]; cbn [fire]; intros Hf.
  - destruct (take l (items s)) as [rest|] eqn:Ht; [|done]. injection Hf as <-. apply take_perm in Ht; [|done].
    apply (inv_move s); [done..| |]; cbn [heap items held resetting].
    + exists []. by rewrite app_nil_r, Ht, middle.
    + intros x. rewrite Ht. set_solver.
  - destruct (heap s !! l) as [|] eqn:Hl; [done|]. injection Hf as <-. by apply inv_new.
  - destruct (heap s !! l) as [|] eqn:Hl; [done|]. injection Hf as <-. by apply inv_new.
  - case_bool_decide as Hl; [|done]. injection Hf as <-. by apply inv_held.
  - destruct (take l (held s)) as [rest|] eqn:Ht; [|done]. cbn [mbind option_bind] in Hf.
    destruct (heap s !! l) as [a|] eqn:Hl; [|done]. injection Hf as <-. apply take_perm in Ht; [|done].
    assert (l ∈ held s) as Hin by (rewrite Ht; by left). destruct (inv_held s l (Reset a) Hi Hin) as [Hnd' Ha' Hc'].
    cbn [heap items held resetting] in *. rewrite Ht, middle in Hnd', Ha'. split; cbn [heap items held resetting].
    + by rewrite back.
    + by rewrite back.
    + rewrite <- Permutation_middle. apply Forall_cons. split; [|done]. exists a. by rewrite lookup_insert_eq.
  - destruct (take l (resetting s)) as [rest|] eqn:Ht; [|done]. injection Hf as <-. apply take_perm in Ht; [|done].
    apply (inv_move s); [done..| |]; cbn [heap items held resetting].
    + exists []. by rewrite app_nil_r, Ht, back.
    + intros x. rewrite Ht. set_solver.
  - destruct (take l (items s)) as [rest|] eqn:Ht; [|done]. injection Hf as <-. apply take_perm in Ht; [|done].
    apply (inv_move s); [done..| |]; cbn [heap items held resetting].
    + exists [l]. rewrite Ht. cbn. by rewrite Permutation_cons_append.
    + intros x. rewrite Ht. set_solver.
Qed.

Lemma pool_inv s : rtc step New s -> inv s.
Proof.
  intros Hs. assert (inv New) as H0 by (by split; constructor). revert H0.
  induction Hs as [|x y z [b Hb] _ IH]; [done|]. intros Hx. apply IH. by eapply pool_fire_inv.
Qed.

(** C31. What [Get] gives out.  However the calls of the goroutines interleave, as long
    as each writes to and puts only objects it holds, whether it got or made them: an object from [Get] is held by no other
    goroutine, is in no unfinished [Put] and no longer in the pool, and is either what
    the factory makes or as [Reset] leaves it. *)
Theorem Get_exclusive_clean s s' l :
  rtc step New s -> fire (GetItem l) s = Some s' \/ fire (GetNew l) s = Some s' ->
  l ∉ held s /\ l ∉ resetting s' /\ l ∉ items s' /\
  exists a, heap s' !! l = Some a /\ (a = factory \/ exists b, a = Reset b).
Proof.
  intros Hs%pool_inv Hf. assert (inv s') as Hs' by (destruct Hf; by eapply pool_fire_inv).
  assert (held s' = l :: held s) as Hh.
  { destruct Hf as [Hf|Hf]; cbn [fire] in Hf; [destruct (take _ _)|destruct (heap s !! l)]; by simplify_eq/=. }
  pose proof (one_place _ Hs') as Hnd. rewrite Hh, middle in Hnd. apply NoDup_cons in Hnd as [Hl _].
  split_and!; [set_solver..|].
  destruct Hf as [Hf|Hf]; cbn [fire] in Hf.
  - unfold take in Hf. case_bool_decide as Hit; [|done]. injection Hf as <-. cbn [heap].
    pose proof (clean _ Hs) as Hc. rewrite Forall_forall in Hc. destruct (Hc l) as [a Ha]; [set_solver|]. eauto.
  - destruct (heap s !! l); [done|]. injection Hf as <-. cbn [heap]. exists factory. rewrite lookup_insert_eq. auto.
Qed.
End Pool.
Arguments t : clear implicits.
Arguments label : clear implicits.

(** Buffers: a goroutine fills one, puts it back, and another gets it. *)
Module PoolExamples.
Definition truncate (b : list nat) : list nat := [].
Definition run (bs : list (label (list nat))) : option (t (list nat)) :=
  foldl (fun o b => o ≫= fire truncate [] b) (Some New) bs.

Definition used : t (list nat) := Mk {[1%positive := []]} [1%positive] [] [].

Lemma used_reached : rtc (step truncate []) New used.
Proof.
  eapply rtc_l; [exists (GetNew 1); reflexivity|]. eapply rtc_l; [exists (Write 1 [1; 2]); reflexivity|].
  eapply rtc_l; [exists (PutReset 1); reflexivity|]. eapply rtc_l; [exists (PutItem 1); reflexivity|]. apply rtc_refl.
Qed.

Lemma Get_exclusive_clean_witness :
  exists a, heap used !! 1%positive = Some a /\ (a = [] \/ exists b, a = truncate b).
Proof.
  by destruct (Get_exclusive_clean truncate [] used (Mk {[1%positive := []]} [] [1%positive] []) 1%positive used_reached
    (or_introl eq_refl)) as (_ & _ & _ & Ha).
Defined.
End PoolExamples.
End Pool.

(** ** The build information *)
Module BuildInfo.
Definition Placeholder : string := "N/A".

Definition orPlaceholder (s : string) : string := if bool_decide (s = "") then Placeholder else s.

Definition newline : string := String "010"%char "".

(** What [Print] writes. *)
Definition Print (version date commit : string) : string :=
  let line (label value : string) := label +:+ orPlaceholder value +:+ newline in
  line "Build version: " version +:+ line "Build date: " date +:+ line "Build commit: " commit.

Example Print_mixed : Print "1.0.0" "" "deadbeef" =
  "Build version: 1.0.0" +:+ newline +:+ "Build date: N/A" +:+ newline +:+ "Build commit: deadbeef" +:+ newline.
Proof. reflexivity. Qed.
End BuildInfo.
